(** * Follow-up orchestration engine of the lead-recovery backend

    A shallow embedding of the parts of [backend/server.js] that decide, for
    one lead at a time, whether an e-mail is sent, queued as a draft, or
    withheld:

    - [generateAIResponse]      (server.js 4496-4653)
    - [checkEmailReplies] / [checkGmailReplies], per inbound message
                                (server.js 3421-3666 and 3802-4135)
    - [processFollowUps] with [generateFollowUpEmail]
                                (server.js 5092-5309 and 5312-5443)
    - [processSequenceSteps]    (server.js 5566-5706)

    Conventions of the embedding.
    - JavaScript strings are [string]s of 8-bit code units; [undefined] and
      [null] are [None]; counters read as [x || 0] are [nat] or [Z] with the
      absent value stored as 0; ISO time stamps are [Z] milliseconds.
    - The lowdb handle [db] is a pair of the persisted file ([disk]) and the
      object tree [db.data] ([data]).  [db.read()] replaces [db.data] by a
      fresh parse of the file, [db.write()] stores [db.data] in the file
      (see the comment at server.js 5238-5239).  In [processFollowUps] the
      file is written once per user, after the loop over the leads of the
      user (5304), and [generateFollowUpEmail] starts with [db.read()]
      (5314): what the loop left in [db.data] for earlier leads of the
      user is discarded by the generation for a later one.
    - The language model, the intent classifier, the appointment detector and
      the mail transport are oracles: their outcome is an argument.
    - Console output, [winning_emails] retention, Gmail label changes and the
      OAuth token refresh inside [sendEmail] are outside the embedding. *)

From Stdlib Require Import ZArith QArith String Ascii List Bool Lia.
From stdpp Require Import base option list gmap strings.

Open Scope string_scope.
Open Scope list_scope.

(** ** JavaScript string primitives *)

Module Js.

(** White space removed by [String.prototype.trim], restricted to the code
    units below 256: TAB, LF, VT, FF, CR, SPACE and NBSP.  A string is a
    sequence of bytes here: texts that begin or end with white space
    beyond Latin-1 (U+2028, U+FEFF and the like), which [trim] removes as
    well, are outside the model. *)
Definition is_space (c : ascii) : bool :=
  let n := N_of_ascii c in
  ((n =? 9) || (n =? 10) || (n =? 11) || (n =? 12) || (n =? 13)
   || (n =? 32) || (n =? 160))%N.

Fixpoint trim_start (s : string) : string :=
  match s with
  | "" => ""
  | String c s' => if is_space c then trim_start s' else s
  end.

Fixpoint trim_end (s : string) : string :=
  match s with
  | "" => ""
  | String c s' =>
      let t := trim_end s' in
      if is_space c && bool_decide (t = "") then "" else String c t
  end.

Definition trim (s : string) : string := trim_end (trim_start s).

(** Truthiness of a string: only the empty string is falsy. *)
Definition truthy (s : string) : bool := negb (bool_decide (s = "")).

(** [a || b] on strings. *)
Definition or_else (a b : string) : string := if truthy a then a else b.

Fixpoint starts_with (p s : string) : bool :=
  match p, s with
  | "", _ => true
  | String _ _, "" => false
  | String a p', String b s' => bool_decide (a = b) && starts_with p' s'
  end.

Fixpoint includes (p s : string) : bool :=
  starts_with p s ||
  match s with
  | "" => false
  | String _ s' => includes p s'
  end.

(** [s.replace(/p/g, r)] for a literal, non-empty pattern [p] and a
    replacement [r] taken literally: left-most, non-overlapping occurrences
    are replaced.  [skip] counts the code units of the current occurrence
    still to be dropped. *)
Fixpoint replace_all_from (p r : string) (skip : nat) (s : string) : string :=
  match s with
  | "" => ""
  | String c s' =>
      match skip with
      | S k => replace_all_from p r k s'
      | O =>
          if starts_with p s
          then r +:+ replace_all_from p r (String.length p - 1) s'
          else String c (replace_all_from p r 0 s')
      end
  end.

Definition replace_all (p r s : string) : string := replace_all_from p r 0 s.

(** [s.replace(/p/g, '')]. *)
Definition remove_all (p s : string) : string := replace_all p "" s.

Definition lower_char (c : ascii) : ascii :=
  let n := N_of_ascii c in
  if ((65 <=? n) && (n <=? 90))%N then ascii_of_N (n + 32) else c.

Fixpoint toLowerCase (s : string) : string :=
  match s with
  | "" => ""
  | String c s' => String (lower_char c) (toLowerCase s')
  end.

(** Line feed, written [\n] in the source's template literals. *)
Definition nl : string := String (ascii_of_N 10) "".

End Js.

(** ** Data model *)

(** The two style variants of the A/B experiment, ['A'] and ['B']. *)
Inductive Variant := VA | VB.

#[global] Instance Variant_eq_dec : EqDecision Variant.
Proof. solve_decision. Defined.

Module ProductProfile.
Record t := mk {
  user_id : Z;
  product_name : string;
  product_description : string;
  key_benefits : string;
  unique_selling_points : string;
  call_to_action : string
}.
End ProductProfile.

Module Lead.
Record t := mk {
  id : Z;
  user_id : Z;
  email : string;
  first_name : string;
  last_name : string;
  company : string;
  ai_intent : option string;
  ai_reasoning : string;
  status : string;
  enrolled_sequence_id : option Z;
  sequence_current_step : nat;
  sequence_last_sent : option Z;
  sequence_completed : option bool;
  sequence_paused : bool;
  follow_up_count : nat;
  email_count : nat;
  initial_email_sent : bool;
  initial_email_sent_date : option Z;
  last_email_sent_date : option Z;
  auto_send_enabled : option bool;
  follow_up_paused : bool;
  ai_paused_by_human : bool;
  clarification_count : nat;
  previous_objection_count : nat;
  last_reply : string;
  last_reply_date : option Z;
  last_subject : string;
  updated_at : option Z;
  phone : string
}.

Definition set_ai_intent v l :=
  mk (id l) (user_id l) (email l) (first_name l) (last_name l) (company l)
     v (ai_reasoning l) (status l) (enrolled_sequence_id l)
     (sequence_current_step l) (sequence_last_sent l) (sequence_completed l)
     (sequence_paused l) (follow_up_count l) (email_count l)
     (initial_email_sent l) (initial_email_sent_date l)
     (last_email_sent_date l) (auto_send_enabled l) (follow_up_paused l)
     (ai_paused_by_human l) (clarification_count l)
     (previous_objection_count l) (last_reply l) (last_reply_date l)
     (last_subject l) (updated_at l) (phone l).

Definition set_ai_reasoning v l :=
  mk (id l) (user_id l) (email l) (first_name l) (last_name l) (company l)
     (ai_intent l) v (status l) (enrolled_sequence_id l)
     (sequence_current_step l) (sequence_last_sent l) (sequence_completed l)
     (sequence_paused l) (follow_up_count l) (email_count l)
     (initial_email_sent l) (initial_email_sent_date l)
     (last_email_sent_date l) (auto_send_enabled l) (follow_up_paused l)
     (ai_paused_by_human l) (clarification_count l)
     (previous_objection_count l) (last_reply l) (last_reply_date l)
     (last_subject l) (updated_at l) (phone l).

Definition set_status v l :=
  mk (id l) (user_id l) (email l) (first_name l) (last_name l) (company l)
     (ai_intent l) (ai_reasoning l) v (enrolled_sequence_id l)
     (sequence_current_step l) (sequence_last_sent l) (sequence_completed l)
     (sequence_paused l) (follow_up_count l) (email_count l)
     (initial_email_sent l) (initial_email_sent_date l)
     (last_email_sent_date l) (auto_send_enabled l) (follow_up_paused l)
     (ai_paused_by_human l) (clarification_count l)
     (previous_objection_count l) (last_reply l) (last_reply_date l)
     (last_subject l) (updated_at l) (phone l).

Definition set_sequence_current_step v l :=
  mk (id l) (user_id l) (email l) (first_name l) (last_name l) (company l)
     (ai_intent l) (ai_reasoning l) (status l) (enrolled_sequence_id l)
     v (sequence_last_sent l) (sequence_completed l)
     (sequence_paused l) (follow_up_count l) (email_count l)
     (initial_email_sent l) (initial_email_sent_date l)
     (last_email_sent_date l) (auto_send_enabled l) (follow_up_paused l)
     (ai_paused_by_human l) (clarification_count l)
     (previous_objection_count l) (last_reply l) (last_reply_date l)
     (last_subject l) (updated_at l) (phone l).

Definition set_sequence_last_sent v l :=
  mk (id l) (user_id l) (email l) (first_name l) (last_name l) (company l)
     (ai_intent l) (ai_reasoning l) (status l) (enrolled_sequence_id l)
     (sequence_current_step l) v (sequence_completed l)
     (sequence_paused l) (follow_up_count l) (email_count l)
     (initial_email_sent l) (initial_email_sent_date l)
     (last_email_sent_date l) (auto_send_enabled l) (follow_up_paused l)
     (ai_paused_by_human l) (clarification_count l)
     (previous_objection_count l) (last_reply l) (last_reply_date l)
     (last_subject l) (updated_at l) (phone l).

Definition set_sequence_completed v l :=
  mk (id l) (user_id l) (email l) (first_name l) (last_name l) (company l)
     (ai_intent l) (ai_reasoning l) (status l) (enrolled_sequence_id l)
     (sequence_current_step l) (sequence_last_sent l) v
     (sequence_paused l) (follow_up_count l) (email_count l)
     (initial_email_sent l) (initial_email_sent_date l)
     (last_email_sent_date l) (auto_send_enabled l) (follow_up_paused l)
     (ai_paused_by_human l) (clarification_count l)
     (previous_objection_count l) (last_reply l) (last_reply_date l)
     (last_subject l) (updated_at l) (phone l).

Definition set_sequence_paused v l :=
  mk (id l) (user_id l) (email l) (first_name l) (last_name l) (company l)
     (ai_intent l) (ai_reasoning l) (status l) (enrolled_sequence_id l)
     (sequence_current_step l) (sequence_last_sent l) (sequence_completed l)
     v (follow_up_count l) (email_count l)
     (initial_email_sent l) (initial_email_sent_date l)
     (last_email_sent_date l) (auto_send_enabled l) (follow_up_paused l)
     (ai_paused_by_human l) (clarification_count l)
     (previous_objection_count l) (last_reply l) (last_reply_date l)
     (last_subject l) (updated_at l) (phone l).

Definition set_follow_up_count v l :=
  mk (id l) (user_id l) (email l) (first_name l) (last_name l) (company l)
     (ai_intent l) (ai_reasoning l) (status l) (enrolled_sequence_id l)
     (sequence_current_step l) (sequence_last_sent l) (sequence_completed l)
     (sequence_paused l) v (email_count l)
     (initial_email_sent l) (initial_email_sent_date l)
     (last_email_sent_date l) (auto_send_enabled l) (follow_up_paused l)
     (ai_paused_by_human l) (clarification_count l)
     (previous_objection_count l) (last_reply l) (last_reply_date l)
     (last_subject l) (updated_at l) (phone l).

Definition set_email_count v l :=
  mk (id l) (user_id l) (email l) (first_name l) (last_name l) (company l)
     (ai_intent l) (ai_reasoning l) (status l) (enrolled_sequence_id l)
     (sequence_current_step l) (sequence_last_sent l) (sequence_completed l)
     (sequence_paused l) (follow_up_count l) v
     (initial_email_sent l) (initial_email_sent_date l)
     (last_email_sent_date l) (auto_send_enabled l) (follow_up_paused l)
     (ai_paused_by_human l) (clarification_count l)
     (previous_objection_count l) (last_reply l) (last_reply_date l)
     (last_subject l) (updated_at l) (phone l).

Definition set_last_email_sent_date v l :=
  mk (id l) (user_id l) (email l) (first_name l) (last_name l) (company l)
     (ai_intent l) (ai_reasoning l) (status l) (enrolled_sequence_id l)
     (sequence_current_step l) (sequence_last_sent l) (sequence_completed l)
     (sequence_paused l) (follow_up_count l) (email_count l)
     (initial_email_sent l) (initial_email_sent_date l)
     v (auto_send_enabled l) (follow_up_paused l)
     (ai_paused_by_human l) (clarification_count l)
     (previous_objection_count l) (last_reply l) (last_reply_date l)
     (last_subject l) (updated_at l) (phone l).

Definition set_clarification_count v l :=
  mk (id l) (user_id l) (email l) (first_name l) (last_name l) (company l)
     (ai_intent l) (ai_reasoning l) (status l) (enrolled_sequence_id l)
     (sequence_current_step l) (sequence_last_sent l) (sequence_completed l)
     (sequence_paused l) (follow_up_count l) (email_count l)
     (initial_email_sent l) (initial_email_sent_date l)
     (last_email_sent_date l) (auto_send_enabled l) (follow_up_paused l)
     (ai_paused_by_human l) v
     (previous_objection_count l) (last_reply l) (last_reply_date l)
     (last_subject l) (updated_at l) (phone l).

(** [last_reply], [last_reply_date] and [last_subject] are always written
    together (server.js 3841-3843). *)
Definition set_last_reply body date subject l :=
  mk (id l) (user_id l) (email l) (first_name l) (last_name l) (company l)
     (ai_intent l) (ai_reasoning l) (status l) (enrolled_sequence_id l)
     (sequence_current_step l) (sequence_last_sent l) (sequence_completed l)
     (sequence_paused l) (follow_up_count l) (email_count l)
     (initial_email_sent l) (initial_email_sent_date l)
     (last_email_sent_date l) (auto_send_enabled l) (follow_up_paused l)
     (ai_paused_by_human l) (clarification_count l)
     (previous_objection_count l) body date subject (updated_at l) (phone l).

Definition set_updated_at v l :=
  mk (id l) (user_id l) (email l) (first_name l) (last_name l) (company l)
     (ai_intent l) (ai_reasoning l) (status l) (enrolled_sequence_id l)
     (sequence_current_step l) (sequence_last_sent l) (sequence_completed l)
     (sequence_paused l) (follow_up_count l) (email_count l)
     (initial_email_sent l) (initial_email_sent_date l)
     (last_email_sent_date l) (auto_send_enabled l) (follow_up_paused l)
     (ai_paused_by_human l) (clarification_count l)
     (previous_objection_count l) (last_reply l) (last_reply_date l)
     (last_subject l) v (phone l).
End Lead.

(** A per-intent follow-up rule [{delay_days, delay_unit, max_attempts,
    after_max}] (server.js 5106-5112). *)
Module Rule.
Record t := mk {
  delay_days : Z;
  delay_unit : option string;
  max_attempts : nat;
  after_max : string
}.
End Rule.

Module User.
Record t := mk {
  id : Z;
  company_name : string;
  auto_mode_enabled : bool;
  auto_mode_include_objections : bool;
  email_mode : string;
  per_intent_settings : option (gmap string Rule.t);
  ai_generations_this_month : nat
}.

Definition set_ai_generations_this_month v u :=
  mk (id u) (company_name u) (auto_mode_enabled u)
     (auto_mode_include_objections u) (email_mode u)
     (per_intent_settings u) v.
End User.

Module Settings.
Record t := mk {
  user_id : Z;
  email : string;
  provider : string
}.
End Settings.

Module Draft.
Record t := mk {
  id : nat;
  lead_id : Z;
  user_id : Z;
  draft_body : string;
  ai_intent : string;
  reply_text : option string;
  reply_subject : option string;
  ab_variant : option Variant;
  status : string;
  clarification_needed : bool;
  needs_follow_up : bool;
  created_at : Z;
  sent_at : option Z
}.

Definition set_status v d :=
  mk (id d) (lead_id d) (user_id d) (draft_body d) (ai_intent d)
     (reply_text d) (reply_subject d) (ab_variant d) v
     (clarification_needed d) (needs_follow_up d) (created_at d)
     (sent_at d).
End Draft.

(** One row of [ab_results]: the counters of one user and intent. *)
Module AbRecord.
Record t := mk {
  id : nat;
  user_id : Z;
  intent : string;
  variant_a_sends : Z;
  variant_a_replies : Z;
  variant_b_sends : Z;
  variant_b_replies : Z;
  winner : option Variant;
  created_at : Z
}.

Definition set_variant_a_sends v r :=
  mk (id r) (user_id r) (intent r) v (variant_a_replies r)
     (variant_b_sends r) (variant_b_replies r) (winner r) (created_at r).
Definition set_variant_a_replies v r :=
  mk (id r) (user_id r) (intent r) (variant_a_sends r) v
     (variant_b_sends r) (variant_b_replies r) (winner r) (created_at r).
Definition set_variant_b_sends v r :=
  mk (id r) (user_id r) (intent r) (variant_a_sends r) (variant_a_replies r)
     v (variant_b_replies r) (winner r) (created_at r).
Definition set_variant_b_replies v r :=
  mk (id r) (user_id r) (intent r) (variant_a_sends r) (variant_a_replies r)
     (variant_b_sends r) v (winner r) (created_at r).
Definition set_winner v r :=
  mk (id r) (user_id r) (intent r) (variant_a_sends r) (variant_a_replies r)
     (variant_b_sends r) (variant_b_replies r) v (created_at r).
End AbRecord.

(** One row of [email_history] (outbound mail of the cadence scheduler). *)
Module History.
Record t := mk {
  id : nat;
  lead_id : Z;
  user_id : Z;
  email_type : string;
  subject : string;
  body : string;
  ab_variant : option Variant;
  sent_at : Z;
  status : string
}.
End History.

(** One row of [email_interactions]. *)
Module Interaction.
Record t := mk {
  id : nat;
  lead_id : Z;
  user_id : option Z;
  sequence_id : option Z;
  step_number : option nat;
  direction : string;
  subject : string;
  body : string;
  ai_intent : option string;
  sent_at : Z
}.
End Interaction.

(** One row of [email_threads] (inbound mail). *)
Module Thread.
Record t := mk {
  id : nat;
  gmail_message_id : option string;
  lead_id : Z;
  user_id : Z;
  from : string;
  subject : string;
  body : string;
  received_at : Z;
  ai_intent : string;
  notified : bool
}.
End Thread.

Module Appointment.
Record t := mk {
  user_id : Z;
  lead_id : Z;
  date : string;
  time : string;
  source : string;
  status : string
}.
End Appointment.

Module Sequence.
Record t := mk {
  id : Z;
  name : string;
  is_active : bool
}.

Definition set_is_active v s := mk (id s) (name s) v.
End Sequence.

Module Step.
Record t := mk {
  sequence_id : Z;
  step_number : Z;
  delay_days : Z;
  delay_unit : option string;
  subject : string;
  email_template : string
}.
End Step.

(** The object tree [db.data]. A collection that the source creates on
    demand ([if (!db.data.x) db.data.x = []]) is the empty list while
    absent. *)
Module DB.
Record t := mk {
  users : list User.t;
  leads : list Lead.t;
  email_settings : list Settings.t;
  product_profiles : list ProductProfile.t;
  ai_drafts : list Draft.t;
  ab_results : list AbRecord.t;
  email_history : list History.t;
  email_interactions : list Interaction.t;
  email_threads : list Thread.t;
  appointments : list Appointment.t;
  sequences : list Sequence.t;
  sequence_steps : list Step.t
}.

Definition set_users v d :=
  mk v (leads d) (email_settings d) (product_profiles d) (ai_drafts d)
     (ab_results d) (email_history d) (email_interactions d)
     (email_threads d) (appointments d) (sequences d) (sequence_steps d).
Definition set_leads v d :=
  mk (users d) v (email_settings d) (product_profiles d) (ai_drafts d)
     (ab_results d) (email_history d) (email_interactions d)
     (email_threads d) (appointments d) (sequences d) (sequence_steps d).
Definition set_ai_drafts v d :=
  mk (users d) (leads d) (email_settings d) (product_profiles d) v
     (ab_results d) (email_history d) (email_interactions d)
     (email_threads d) (appointments d) (sequences d) (sequence_steps d).
Definition set_ab_results v d :=
  mk (users d) (leads d) (email_settings d) (product_profiles d)
     (ai_drafts d) v (email_history d) (email_interactions d)
     (email_threads d) (appointments d) (sequences d) (sequence_steps d).
Definition set_email_history v d :=
  mk (users d) (leads d) (email_settings d) (product_profiles d)
     (ai_drafts d) (ab_results d) v (email_interactions d)
     (email_threads d) (appointments d) (sequences d) (sequence_steps d).
Definition set_email_interactions v d :=
  mk (users d) (leads d) (email_settings d) (product_profiles d)
     (ai_drafts d) (ab_results d) (email_history d) v
     (email_threads d) (appointments d) (sequences d) (sequence_steps d).
Definition set_email_threads v d :=
  mk (users d) (leads d) (email_settings d) (product_profiles d)
     (ai_drafts d) (ab_results d) (email_history d) (email_interactions d)
     v (appointments d) (sequences d) (sequence_steps d).
Definition set_appointments v d :=
  mk (users d) (leads d) (email_settings d) (product_profiles d)
     (ai_drafts d) (ab_results d) (email_history d) (email_interactions d)
     (email_threads d) v (sequences d) (sequence_steps d).
Definition set_sequences v d :=
  mk (users d) (leads d) (email_settings d) (product_profiles d)
     (ai_drafts d) (ab_results d) (email_history d) (email_interactions d)
     (email_threads d) (appointments d) v (sequence_steps d).

Definition empty : t := mk [] [] [] [] [] [] [] [] [] [] [] [].
End DB.

(** ** The lowdb handle *)

Module Store.
Record t := mk {
  disk : DB.t;   (* content of db.json *)
  data : DB.t    (* db.data *)
}.

(** [await db.read()]: [db.data] becomes a fresh parse of the file; changes
    made to the former tree since the last [db.write()] are dropped. *)
Definition read (st : t) : t := mk (disk st) (disk st).

(** [await db.write()]. *)
Definition write (st : t) : t := mk (data st) (data st).

(** A change of [db.data] in place. *)
Definition update (f : DB.t -> DB.t) (st : t) : t := mk (disk st) (f (data st)).
End Store.

(** ** Array helpers *)

(** [xs.findIndex(p)], with [None] for [-1]. *)
Fixpoint findIndex {A} (p : A -> bool) (xs : list A) : option nat :=
  match xs with
  | [] => None
  | x :: xs' => if p x then Some 0%nat else S <$> findIndex p xs'
  end.

(** The external effect of a run: the calls of [sendEmail] that returned
    normally, in order. *)
Module Mail.
Record t := mk {
  to : string;
  subject : string;
  body : string;
  lead_id : Z
}.
End Mail.

(** Outcome of one call of the language-model endpoint: an HTTP 200 with its
    text, another HTTP status, or an exception of [fetch]. *)
Inductive AiOutcome :=
| AiOk (text : string)
| AiHttpError
| AiException.

(** ** Response generator (server.js 4453-4483 and 4496-4653) *)

Module AiResult.
Record t := mk {
  body : string;
  clarification_needed : bool
}.
End AiResult.

Section ResponseGenerator.

Import Js.

(** server.js 4453-4483. *)
Definition hasRepeatedObjection (lead : Lead.t) (d : DB.t) : bool :=
  (1 <=? Lead.previous_objection_count lead)%nat
  || (1 <=? length (List.filter
               (fun i => bool_decide (Interaction.lead_id i = Lead.id lead)
                         && bool_decide (Interaction.direction i = "received")
                         && bool_decide (Interaction.ai_intent i = Some "OBJECTION"))
               (DB.email_interactions d)))%nat
  || (1 <=? length (List.filter
               (fun x => bool_decide (Draft.lead_id x = Lead.id lead)
                         && bool_decide (Draft.ai_intent x = "OBJECTION"))
               (DB.ai_drafts d)))%nat.

(** server.js 4504-4507: the required product fields are filled in. *)
Definition hasProductInfo (productProfile : option ProductProfile.t) : bool :=
  match productProfile with
  | None => false
  | Some p =>
      truthy (trim (ProductProfile.product_name p))
      && truthy (trim (ProductProfile.product_description p))
      && (truthy (trim (ProductProfile.key_benefits p))
          || truthy (trim (ProductProfile.unique_selling_points p)))
  end.

Definition NEEDS_CLARIFICATION : string := "[NEEDS_CLARIFICATION]".

(** server.js 4512. *)
Definition clarificationBody (lead : Lead.t) : string :=
  "Hi " +:+ Lead.first_name lead +:+ "," +:+ nl +:+ nl
  +:+ "Thank you for your question." +:+ nl +:+ nl
  +:+ "I want to make sure I give you accurate information. Let me confirm the details and get back to you shortly."
  +:+ nl +:+ nl +:+ "Best regards".

(** server.js 4613: the holding reply used when the model's body is empty. *)
Definition holdingBody (lead : Lead.t) : string :=
  "Hi " +:+ Lead.first_name lead +:+ "," +:+ nl +:+ nl
  +:+ "Thank you for reaching out! That's a great question." +:+ nl +:+ nl
  +:+ "Let me look into this and get back to you with the right information shortly."
  +:+ nl +:+ nl +:+ "Best regards".

(** server.js 4638-4652: the templated replies used when the model call
    fails. *)
Definition fallbackBody (lead : Lead.t) (productProfile : option ProductProfile.t)
    (isRepeatedObjection : bool) (intent : string) : string :=
  let cta := or_else (from_option ProductProfile.call_to_action "" productProfile)
                     "book a quick call" in
  if bool_decide (intent = "NOT_NOW") then
    "Hi " +:+ Lead.first_name lead +:+ "," +:+ nl +:+ nl
    +:+ "No problem at all — I completely understand timing matters. I'll follow up with you when the time is right."
    +:+ nl +:+ nl +:+ "Feel free to reach out whenever you're ready."
    +:+ nl +:+ nl +:+ "Best regards"
  else if bool_decide (intent = "GHOSTING") then
    "Hi " +:+ Lead.first_name lead +:+ "," +:+ nl +:+ nl
    +:+ "Thanks for getting back to me! Just wanted to check in — what questions do you have that I can help with?"
    +:+ nl +:+ nl +:+ "Best regards"
  else if bool_decide (intent = "OBJECTION") then
    if isRepeatedObjection then
      "Hi " +:+ Lead.first_name lead +:+ "," +:+ nl +:+ nl
      +:+ "I understand — your concern is important. If this is a dealbreaker for you, that's okay. I'm happy to explore alternatives or help you find a better fit."
      +:+ nl +:+ nl +:+ "Let me know how I can help."
      +:+ nl +:+ nl +:+ "Best regards"
    else
      "Hi " +:+ Lead.first_name lead +:+ "," +:+ nl +:+ nl
      +:+ "I hear your concern. Here's what I think might matter: [brief value point]"
      +:+ nl +:+ nl +:+ "What's most important to you in this situation?"
      +:+ nl +:+ nl +:+ "Looking forward to your thoughts."
      +:+ nl +:+ nl +:+ "Best regards"
  else
    "Hi " +:+ Lead.first_name lead +:+ "," +:+ nl +:+ nl
    +:+ "Thank you for getting back to me! I'd love to " +:+ cta
    +:+ " to show you exactly how we can help"
    +:+ (if truthy (Lead.company lead) then " " +:+ Lead.company lead else "")
    +:+ "." +:+ nl +:+ nl +:+ "When works best for you this week?"
    +:+ nl +:+ nl +:+ "Best regards".

(** server.js 4604-4608: the model's text, trimmed, with the clarification
    tag removed, trimmed again. *)
Definition aiBodyOf (text : string) : string :=
  trim (remove_all NEEDS_CLARIFICATION (trim text)).

(** The body of [generateAIResponse] after its [db.read()]: what is returned
    for a lead, its owner's product profile, an intent and the outcome [ai]
    of the model call. *)
Definition aiResponse (ai : AiOutcome) (lead : Lead.t)
    (productProfile : option ProductProfile.t) (isRepeatedObjection : bool)
    (intent : string) : AiResult.t :=
  if negb (hasProductInfo productProfile)
     && (bool_decide (intent = "INTERESTED") || bool_decide (intent = "OBJECTION"))
  then AiResult.mk (clarificationBody lead) true
  else
    match ai with
    | AiOk text =>
        let needsClarification := includes NEEDS_CLARIFICATION (trim text) in
        let aiBody := aiBodyOf text in
        if negb (truthy aiBody) then
          AiResult.mk (holdingBody lead)
            (if bool_decide (intent = "INTERESTED") && hasProductInfo productProfile
             then false else true)
        else
          let needsClarification :=
            if bool_decide (intent = "INTERESTED") && hasProductInfo productProfile
               && needsClarification
            then false else needsClarification in
          AiResult.mk aiBody needsClarification
    | AiHttpError | AiException =>
        AiResult.mk (fallbackBody lead productProfile isRepeatedObjection intent) false
    end.

(** server.js 4500: the product profile of the lead's owner. *)
Definition productProfileOf (lead : Lead.t) (d : DB.t) : option ProductProfile.t :=
  List.find (fun p => bool_decide (ProductProfile.user_id p = Lead.user_id lead))
            (DB.product_profiles d).

(** [generateAIResponse(lead, originalReply, intent, emailSubject)].  The
    reply text and the subject only enter the prompt, whose answer is the
    oracle [ai]. *)
Definition generateAIResponse (ai : AiOutcome) (lead : Lead.t) (intent : string)
    (st : Store.t) : Store.t * AiResult.t :=
  let st := Store.read st in
  (st, aiResponse ai lead (productProfileOf lead (Store.data st))
         (bool_decide (intent = "OBJECTION") && hasRepeatedObjection lead (Store.data st))
         intent).

End ResponseGenerator.

(** ** Reply ingestion (server.js 3421-3666 and 3802-4135) *)

(** One inbound message after header and body extraction. *)
Module Inbound.
Record t := mk {
  message_id : string;   (* Gmail message id; unused on the IMAP path *)
  from : string;
  subject : string;
  body : string
}.
End Inbound.

(** Result of [analyzeReplyWithAI]. *)
Module Analysis.
Record t := mk {
  intent : string;
  reasoning : string
}.
End Analysis.

(** Result of [detectAppointmentFromEmail], when it finds an appointment. *)
Module AptDetected.
Record t := mk {
  date : string;
  time : string
}.
End AptDetected.

(** The oracles consulted while one inbound message is handled. *)
Module ReplyEnv.
Record t := mk {
  analysis : Analysis.t;
  aptDetected : option AptDetected.t;
  ai : AiOutcome;
  sendEmail_ok : bool;   (* [false]: [sendEmail] throws *)
  now : Z
}.
End ReplyEnv.

(** What the handler reports for the message (the shapes pushed to
    [newReplies], and the ways of pushing none). *)
Inductive ReplyOutcome :=
| NotALead
| AlreadyProcessed
| NoCandidate                (* duplicate pending draft, or blank body *)
| AutoPausedClarification    (* draft_generated, needs_follow_up *)
| AutoSent
| AutoSendFailed
| DraftGenerated.

(** The handler's view of the store and of its local variable [lead].
    [lead] is an object reference: while [live = Some i] it is the very
    object [db.data.leads[i]], so an assignment through either name changes
    both; after a [db.read()] the object no longer belongs to [db.data]
    ([live = None]) and assignments to it stay local. *)
Module Ctx.
Record t := mk {
  store : Store.t;
  lead : Lead.t;
  live : option nat
}.

(** [lead.x = v]. *)
Definition assign (f : Lead.t -> Lead.t) (c : t) : t :=
  mk (match live c with
      | Some i => Store.update (fun d => DB.set_leads (alter f i (DB.leads d)) d) (store c)
      | None => store c
      end)
     (f (lead c)) (live c).

(** [db.data.leads[i].x = v]. *)
Definition assign_at (i : nat) (f : Lead.t -> Lead.t) (c : t) : t :=
  mk (Store.update (fun d => DB.set_leads (alter f i (DB.leads d)) d) (store c))
     (if bool_decide (live c = Some i) then f (lead c) else lead c)
     (live c).

(** A change of [db.data] that touches no lead. *)
Definition update (f : DB.t -> DB.t) (c : t) : t :=
  mk (Store.update f (store c)) (lead c) (live c).

Definition write (c : t) : t := mk (Store.write (store c)) (lead c) (live c).

(** [db.read()] detaches [lead]. *)
Definition read (c : t) : t := mk (Store.read (store c)) (lead c) None.

Definition data (c : t) : DB.t := Store.data (store c).
End Ctx.

Module ReplyResult.
Record t := mk {
  store : Store.t;
  lead : option Lead.t;     (* the handler's [lead] object when it returns *)
  sent : list Mail.t;
  outcome : ReplyOutcome
}.
End ReplyResult.

Section ReplyIngestion.

Import Js.

(** Truthiness of a nullable string and of a nullable numeric id. *)
Definition truthy_opt (o : option string) : bool :=
  match o with Some s => truthy s | None => false end.

Definition truthy_id (o : option Z) : bool :=
  match o with Some n => negb (bool_decide (n = 0%Z)) | None => false end.

(** server.js 3832: [prevIntent === 'INTERESTED' && analysis.intent ===
    'GHOSTING'], the case in which the stored intent is kept. *)
Definition sticky (l : Lead.t) (analysis : Analysis.t) : bool :=
  bool_decide (Lead.ai_intent l = Some "INTERESTED")
  && bool_decide (Analysis.intent analysis = "GHOSTING").

(** server.js 3831-3844 (Gmail) and 3436-3449 (IMAP): intent, reasoning,
    conversation anchors and status of the lead after a reply. *)
Definition recordReply (analysis : Analysis.t) (body subject : string) (now : Z)
    (l : Lead.t) : Lead.t :=
  let prevIntent := Lead.ai_intent l in
  let shouldUpdateIntent := negb (sticky l analysis) in
  let l :=
    if shouldUpdateIntent then
      let l :=
        if truthy_opt prevIntent
           && negb (bool_decide (prevIntent = Some (Analysis.intent analysis)))
        then Lead.set_follow_up_count 0%nat l else l in
      Lead.set_ai_intent (Some (Analysis.intent analysis)) l
    else l in
  let l := Lead.set_ai_reasoning (Analysis.reasoning analysis) l in
  let l := Lead.set_last_reply body (Some now) (or_else subject "(No Subject)") l in
  Lead.set_status
    (if bool_decide (Lead.ai_intent l = Some "INTERESTED") then "interested"
     else if bool_decide (Lead.ai_intent l = Some "DEAD") then "dead"
     else "analyzed") l.

(** server.js 3848-3851 (Gmail only): a reply pauses a running sequence. *)
Definition autoPauseSequence (l : Lead.t) : Lead.t :=
  if truthy_id (Lead.enrolled_sequence_id l)
     && bool_decide (Lead.sequence_completed l = Some false)
     && negb (Lead.sequence_paused l)
  then Lead.set_sequence_paused true l else l.

(** [hs.sort((a, b) => new Date(b.sent_at) - new Date(a.sent_at))[0]]: the
    entry sent last, the earliest in the array among equals. *)
Fixpoint lastSentOf (hs : list History.t) : option History.t :=
  match hs with
  | [] => None
  | h :: hs' =>
      match lastSentOf hs' with
      | Some h' => if (History.sent_at h <? History.sent_at h')%Z then Some h' else Some h
      | None => Some h
      end
  end.

Definition isPositiveIntent (intent : string) : bool :=
  bool_decide (intent = "INTERESTED") || bool_decide (intent = "NOT_NOW")
  || bool_decide (intent = "OBJECTION").

(** server.js 3854-3885 without the [winning_emails] bookkeeping: a
    positive reply counts for the variant of the last cadence mail. *)
Definition trackVariantReply (userId : Z) (analysis : Analysis.t) (lead : Lead.t)
    (d : DB.t) : DB.t :=
  if isPositiveIntent (Analysis.intent analysis) then
    match lastSentOf (List.filter (fun h => bool_decide (History.lead_id h = Lead.id lead))
                                  (DB.email_history d)) with
    | Some lastSent =>
        match History.ab_variant lastSent with
        | Some v =>
            let key := or_else (default "" (Lead.ai_intent lead)) "GHOSTING" in
            match findIndex (fun r => bool_decide (AbRecord.user_id r = userId)
                                      && bool_decide (AbRecord.intent r = key))
                            (DB.ab_results d) with
            | Some k =>
                DB.set_ab_results
                  (alter (fun r =>
                            match v with
                            | VA => AbRecord.set_variant_a_replies (AbRecord.variant_a_replies r + 1)%Z r
                            | VB => AbRecord.set_variant_b_replies (AbRecord.variant_b_replies r + 1)%Z r
                            end) k (DB.ab_results d)) d
            | None => d
            end
        | None => d
        end
    | None => d
    end
  else d.

(** server.js 3903-3950 (Gmail only). *)
Definition detectAppointment (userId : Z) (env : ReplyEnv.t) (c : Ctx.t) : Ctx.t :=
  match ReplyEnv.aptDetected env with
  | Some a =>
      let alreadyExists :=
        existsb (fun x => bool_decide (Appointment.lead_id x = Lead.id (Ctx.lead c))
                          && bool_decide (Appointment.source x = "ai_detected")
                          && bool_decide (Appointment.date x = AptDetected.date a)
                          && bool_decide (Appointment.time x = AptDetected.time a))
                (DB.appointments (Ctx.data c)) in
      if alreadyExists then c
      else
        let c := Ctx.update (fun d =>
                   DB.set_appointments
                     (DB.appointments d ++
                      [Appointment.mk userId (Lead.id (Ctx.lead c)) (AptDetected.date a)
                         (AptDetected.time a) "ai_detected" "scheduled"]) d) c in
        let c :=
          match findIndex (fun l => bool_decide (Lead.id l = Lead.id (Ctx.lead c)))
                          (DB.leads (Ctx.data c)) with
          | Some lIdx =>
              Ctx.assign_at lIdx
                (fun l => Lead.set_updated_at (Some (ReplyEnv.now env))
                            (Lead.set_status "appointment_scheduled" l)) c
          | None => c
          end in
        Ctx.write c
  | None => c
  end.

(** server.js 4486-4493. *)
Definition resolveStaleActionRequiredDrafts (leadId : Z) (d : DB.t) : DB.t :=
  DB.set_ai_drafts
    (List.map (fun x =>
                 if bool_decide (Draft.lead_id x = leadId)
                    && bool_decide (Draft.status x = "pending")
                    && (Draft.needs_follow_up x || Draft.clarification_needed x)
                 then Draft.set_status "resolved" x else x)
              (DB.ai_drafts d)) d.

(** The draft record of the reply handlers, the [n]+1-th of [ai_drafts]. *)
Definition replyDraft (userId : Z) (m : Inbound.t) (env : ReplyEnv.t) (lead : Lead.t)
    (n : nat) (draft status : string) (clarification_needed needs_follow_up : bool)
    (sent_at : option Z) : Draft.t :=
  Draft.mk (n + 1) (Lead.id lead) userId draft (Analysis.intent (ReplyEnv.analysis env))
    (Some (Inbound.body m)) (Some (Inbound.subject m)) None status
    clarification_needed needs_follow_up (ReplyEnv.now env) sent_at.

(** [db.data.ai_drafts.push({...})] of the reply handlers. *)
Definition pushReplyDraft (userId : Z) (m : Inbound.t) (env : ReplyEnv.t)
    (lead : Lead.t) (draft status : string) (clarification_needed needs_follow_up : bool)
    (sent_at : option Z) (d : DB.t) : DB.t :=
  DB.set_ai_drafts
    (DB.ai_drafts d ++
     [replyDraft userId m env lead (length (DB.ai_drafts d)) draft status
        clarification_needed needs_follow_up sent_at]) d.

(** server.js 3993-4135 (Gmail, [gmail = true]) and 3527-3665 (IMAP): what
    is done with a non-blank candidate reply [draft].  On the Gmail path
    the subject of the message is the value of its [Subject] header, or
    [(No Subject)] when the header is absent or empty (3774); on the IMAP
    path see [processImapMessage]. *)
Definition dispatchReply (gmail : bool) (userId : Z) (m : Inbound.t) (env : ReplyEnv.t)
    (isAutoMode : bool) (draft : string) (draftClarificationNeeded : bool)
    (c : Ctx.t) : Ctx.t * list Mail.t * ReplyOutcome :=
  let lead := Ctx.lead c in
  let shouldAutoSend :=
    isAutoMode && negb (bool_decide (Lead.auto_send_enabled lead = Some false)) in
  let alreadySentHolding := (1 <=? Lead.clarification_count lead)%nat in
  if shouldAutoSend && draftClarificationNeeded && alreadySentHolding then
    let c := Ctx.assign (fun l => Lead.set_clarification_count (Lead.clarification_count l + 1) l) c in
    let c := Ctx.update (pushReplyDraft userId m env lead draft "pending" true true None) c in
    (Ctx.write c, [], AutoPausedClarification)
  else if shouldAutoSend then
    if ReplyEnv.sendEmail_ok env then
      let mail := Mail.mk (Lead.email lead) ("Re: " +:+ Inbound.subject m) draft (Lead.id lead) in
      let c := Ctx.update (fun d =>
                 DB.set_email_interactions
                   (DB.email_interactions d ++
                    [Interaction.mk (length (DB.email_interactions d) + 1) (Lead.id lead)
                       (Some userId) None None "sent" ("Re: " +:+ Inbound.subject m) draft
                       None (ReplyEnv.now env)]) d) c in
      let c := Ctx.assign (Lead.set_status "replied") c in
      let c := if gmail
               then Ctx.assign (Lead.set_last_email_sent_date (Some (ReplyEnv.now env))) c
               else c in
      let c :=
        if draftClarificationNeeded then
          let c := Ctx.assign (fun l => Lead.set_clarification_count (Lead.clarification_count l + 1) l) c in
          Ctx.update (pushReplyDraft userId m env lead draft "sent" true true
                        (Some (ReplyEnv.now env))) c
        else
          let c := Ctx.assign (Lead.set_clarification_count 0%nat) c in
          Ctx.update (resolveStaleActionRequiredDrafts (Lead.id lead)) c in
      (Ctx.write c, [mail], AutoSent)
    else
      let c := Ctx.update (pushReplyDraft userId m env lead draft "pending"
                             draftClarificationNeeded false None) c in
      (Ctx.write c, [], AutoSendFailed)
  else
    let c := if negb draftClarificationNeeded
             then Ctx.update (resolveStaleActionRequiredDrafts (Lead.id lead)) c
             else c in
    let c := Ctx.update (pushReplyDraft userId m env lead draft "pending"
                           draftClarificationNeeded false None) c in
    (Ctx.write c, [], DraftGenerated).

(** server.js 3985 (Gmail) and 3519 (IMAP): auto mode of the owner. *)
Definition autoModeOf (gmail : bool) (u : User.t) : bool :=
  if gmail then User.auto_mode_enabled u
  else User.auto_mode_enabled u || bool_decide (User.email_mode u = "AUTO").

(** server.js 3955-3960: a pending draft for this very reply. *)
Definition isPendingDraftFor (lead : Lead.t) (m : Inbound.t) (x : Draft.t) : bool :=
  bool_decide (Draft.lead_id x = Lead.id lead)
  && bool_decide (Draft.reply_subject x = Some (Inbound.subject m))
  && bool_decide (Draft.reply_text x = Some (Inbound.body m))
  && bool_decide (Draft.status x = "pending").

(** Candidate generation and dispatch, server.js 3953-4135 (Gmail) and
    3497-3665 (IMAP). *)
Definition replyToLead (gmail : bool) (userId : Z) (m : Inbound.t) (env : ReplyEnv.t)
    (c : Ctx.t) : Ctx.t * list Mail.t * ReplyOutcome :=
  let existingDraft :=
    List.find (isPendingDraftFor (Ctx.lead c) m) (DB.ai_drafts (Ctx.data c)) in
  let '(c, draft, draftClarificationNeeded) :=
    match existingDraft with
    | None =>
        let '(st, aiResult) :=
          generateAIResponse (ReplyEnv.ai env) (Ctx.lead c)
            (Analysis.intent (ReplyEnv.analysis env)) (Ctx.store c) in
        (* [generateAIResponse] ran [db.read()]: [lead] is detached *)
        let c := Ctx.mk st (Ctx.lead c) None in
        let c :=
          if gmail then
            match findIndex (fun u => bool_decide (User.id u = userId))
                            (DB.users (Ctx.data c)) with
            | Some uIdx =>
                Ctx.update (fun d =>
                  DB.set_users
                    (alter (fun u => User.set_ai_generations_this_month
                                       (User.ai_generations_this_month u + 1) u)
                           uIdx (DB.users d)) d) c
            | None => c
            end
          else c in
        (c, Some (AiResult.body aiResult), AiResult.clarification_needed aiResult)
    | Some _ => (c, None, false)
    end in
  let user := List.find (fun u => bool_decide (User.id u = userId))
                        (DB.users (Ctx.data c)) in
  let isAutoMode := from_option (autoModeOf gmail) false user in
  match draft with
  | Some body =>
      if truthy body && truthy (trim body)
      then dispatchReply gmail userId m env isAutoMode body draftClarificationNeeded c
      else (c, [], NoCandidate)
  | None => (c, [], NoCandidate)
  end.

Definition matchesLead (userId : Z) (from : string) (l : Lead.t) : bool :=
  bool_decide (Lead.user_id l = userId)
  && bool_decide (toLowerCase (Lead.email l) = toLowerCase from).

(** server.js 3824-3951 (Gmail): the lead is updated from the reply, the
    message is recorded and both are stored. [c] holds [lead] as found in
    [db.data.leads]. *)
Definition ingestGmailReply (userId : Z) (m : Inbound.t) (env : ReplyEnv.t)
    (c : Ctx.t) : Ctx.t :=
  let leadId := Lead.id (Ctx.lead c) in
  let c := Ctx.assign (recordReply (ReplyEnv.analysis env) (Inbound.body m)
                         (Inbound.subject m) (ReplyEnv.now env)) c in
  let c := Ctx.assign autoPauseSequence c in
  let c := Ctx.update (trackVariantReply userId (ReplyEnv.analysis env) (Ctx.lead c)) c in
  let c := Ctx.update (fun d =>
             DB.set_email_threads
               (DB.email_threads d ++
                [Thread.mk (length (DB.email_threads d) + 1)
                   (Some (Inbound.message_id m)) leadId userId
                   (Inbound.from m) (Inbound.subject m) (Inbound.body m)
                   (ReplyEnv.now env) (Analysis.intent (ReplyEnv.analysis env))
                   false]) d) c in
  let c := Ctx.write c in
  detectAppointment userId env c.

(** server.js 3434-3495 (IMAP). *)
Definition ingestImapReply (userId : Z) (m : Inbound.t) (env : ReplyEnv.t)
    (c : Ctx.t) : Ctx.t :=
  let leadId := Lead.id (Ctx.lead c) in
  let c := Ctx.assign (recordReply (ReplyEnv.analysis env) (Inbound.body m)
                         (Inbound.subject m) (ReplyEnv.now env)) c in
  let c := Ctx.update (fun d =>
             DB.set_email_threads
               (DB.email_threads d ++
                [Thread.mk (length (DB.email_threads d) + 1) None leadId
                   userId (Inbound.from m) (Inbound.subject m) (Inbound.body m)
                   (ReplyEnv.now env) (Analysis.intent (ReplyEnv.analysis env))
                   false]) d) c in
  let c := Ctx.update (trackVariantReply userId (ReplyEnv.analysis env) (Ctx.lead c)) c in
  Ctx.write c.

(** [db.data.email_threads.find(t => t.gmail_message_id === message.id)]. *)
Definition alreadyProcessed (m : Inbound.t) (d : DB.t) : bool :=
  existsb (fun t => bool_decide (Thread.gmail_message_id t = Some (Inbound.message_id m)))
          (DB.email_threads d).

(** The body of the loop of [checkGmailReplies] for one message, from the
    look-up of the lead on (server.js 3802-4135). *)
Definition processGmailMessage (userId : Z) (m : Inbound.t) (env : ReplyEnv.t)
    (st : Store.t) : ReplyResult.t :=
  let st := Store.read st in
  match findIndex (matchesLead userId (Inbound.from m)) (DB.leads (Store.data st)) with
  | None => ReplyResult.mk st None [] NotALead
  | Some i =>
      match DB.leads (Store.data st) !! i with
      | None => ReplyResult.mk st None [] NotALead
      | Some lead =>
          if alreadyProcessed m (Store.data st)
          then ReplyResult.mk st (Some lead) [] AlreadyProcessed
          else
            let c := ingestGmailReply userId m env (Ctx.mk st lead (Some i)) in
            let '(c, sent, outcome) := replyToLead true userId m env c in
            ReplyResult.mk (Ctx.store c) (Some (Ctx.lead c)) sent outcome
      end
  end.

(** The body of the message callback of [checkEmailReplies] (IMAP),
    server.js 3421-3666, for a message that carries a [Subject] header.
    For a message without one the code stores the subject as absent
    (3457) and sends its reply under [Re: undefined] (3561, 3571), where
    this definition has the empty string.  server.js imports neither
    [Imap] nor [simpleParser]: the callback runs only where they are
    provided. *)
Definition processImapMessage (userId : Z) (m : Inbound.t) (env : ReplyEnv.t)
    (st : Store.t) : ReplyResult.t :=
  let st := Store.read st in
  match findIndex (matchesLead userId (Inbound.from m)) (DB.leads (Store.data st)) with
  | None => ReplyResult.mk st None [] NotALead
  | Some i =>
      match DB.leads (Store.data st) !! i with
      | None => ReplyResult.mk st None [] NotALead
      | Some lead =>
          let c := ingestImapReply userId m env (Ctx.mk st lead (Some i)) in
          let '(c, sent, outcome) := replyToLead false userId m env c in
          ReplyResult.mk (Ctx.store c) (Some (Ctx.lead c)) sent outcome
      end
  end.

End ReplyIngestion.

(** ** Follow-up cadence scheduler (server.js 5092-5309, 5312-5443) *)

(** server.js 5106-5112. *)
Definition defaultRules : gmap string Rule.t :=
  list_to_map
    [ ("INTERESTED", Rule.mk 1 None 5 "review");
      ("NOT_NOW", Rule.mk 7 None 3 "GHOSTING");
      ("OBJECTION", Rule.mk 3 None 4 "review");
      ("GHOSTING", Rule.mk 5 None 3 "DEAD");
      ("DEAD", Rule.mk 30 None 1 "closed_by_system") ].

(** The oracles of one sweep: the clock, and per lead id the outcome of the
    model call and whether [sendEmail] returns. *)
Module CadenceEnv.
Record t := mk {
  now : Z;
  ai : Z -> AiOutcome;
  sendEmail_ok : Z -> bool
}.
End CadenceEnv.

(** Result of [generateFollowUpEmail]. *)
Module FollowUp.
Record t := mk {
  body : string;
  variant : Variant
}.
End FollowUp.

Section Cadence.

Import Js.

(** [r => r.user_id === userId && r.intent === intent]. *)
Definition isAbRecord (userId : Z) (intent : string) (r : AbRecord.t) : bool :=
  bool_decide (AbRecord.user_id r = userId) && bool_decide (AbRecord.intent r = intent).

(** server.js 5340-5346: the style variant of a follow-up. *)
Definition chooseVariant (lead : Lead.t) (intent : string) (userId : Z) (d : DB.t)
    : Variant :=
  let abVariant := if bool_decide (Z.rem (Lead.id lead) 2 = 0%Z) then VA else VB in
  match List.find (isAbRecord userId intent) (DB.ab_results d) with
  | Some abResult =>
      match AbRecord.winner abResult with
      | Some w => w
      | None => abVariant
      end
  | None => abVariant
  end.

(** server.js 5442. *)
Definition followUpFallbackBody (lead : Lead.t) : string :=
  "Hi " +:+ Lead.first_name lead +:+ "," +:+ nl +:+ nl
  +:+ "Just wanted to follow up on my previous message. Is this still on your radar?"
  +:+ nl +:+ nl +:+ "Best regards".

(** [generateFollowUpEmail(lead, attemptNumber, intent, userId)].  The
    attempt number only enters the prompt. *)
Definition generateFollowUpEmail (ai : AiOutcome) (lead : Lead.t) (intent : string)
    (userId : Z) (st : Store.t) : Store.t * FollowUp.t :=
  let st := Store.read st in
  let abVariant := chooseVariant lead intent userId (Store.data st) in
  match ai with
  | AiOk text => (st, FollowUp.mk (trim text) abVariant)
  | AiHttpError | AiException => (st, FollowUp.mk (followUpFallbackBody lead) VA)
  end.

(** server.js 5176-5178. *)
Definition delayMs (rules : Rule.t) : Z :=
  if bool_decide (Rule.delay_unit rules = Some "minutes")
  then (Rule.delay_days rules * 60 * 1000)%Z
  else (Rule.delay_days rules * 24 * 60 * 60 * 1000)%Z.

(** Reply rate of a variant, [replies / sends]. *)
Definition rate (replies sends : Z) : Q := (inject_Z replies / inject_Z sends)%Q.

(** server.js 5217-5223: the winner is selected once both variants have ten
    sends.  [rateA >= rateB] is decided on the exact quotients; the code
    compares their IEEE doubles, which order two quotients as the exact
    ones do unless the send counters are of the order of 10^8, where two
    distinct quotients can round to one double. *)
Definition selectWinner (r : AbRecord.t) : AbRecord.t :=
  if negb (bool_decide (is_Some (AbRecord.winner r)))
     && (10 <=? AbRecord.variant_a_sends r)%Z
     && (10 <=? AbRecord.variant_b_sends r)%Z
  then
    let rateA := rate (AbRecord.variant_a_replies r) (AbRecord.variant_a_sends r) in
    let rateB := rate (AbRecord.variant_b_replies r) (AbRecord.variant_b_sends r) in
    AbRecord.set_winner (Some (if Qle_bool rateB rateA then VA else VB)) r
  else r.

Definition countSend (abVariant : Variant) (r : AbRecord.t) : AbRecord.t :=
  match abVariant with
  | VA => AbRecord.set_variant_a_sends (AbRecord.variant_a_sends r + 1)%Z r
  | VB => AbRecord.set_variant_b_sends (AbRecord.variant_b_sends r + 1)%Z r
  end.

(** server.js 5207-5223: find or create the counters of the user and
    intent, count the send, select the winner. *)
Definition trackVariantSend (userId : Z) (intent : string) (abVariant : Variant)
    (now : Z) (d : DB.t) : DB.t :=
  let '(records, k) :=
    match findIndex (isAbRecord userId intent) (DB.ab_results d) with
    | Some k => (DB.ab_results d, k)
    | None =>
        ((DB.ab_results d ++
          [AbRecord.mk (length (DB.ab_results d) + 1) userId intent 0 0 0 0 None now])%list,
         length (DB.ab_results d))
    end in
  DB.set_ab_results (alter (fun r => selectWinner (countSend abVariant r)) k records) d.

(** server.js 5226-5229. *)
Definition intentAllowedInAuto (user : User.t) (intent : string) : bool :=
  bool_decide (intent = "INTERESTED")
  || bool_decide (intent = "NOT_NOW")
  || bool_decide (intent = "GHOSTING")
  || (bool_decide (intent = "OBJECTION") && User.auto_mode_include_objections user).

(** The intent that governs the cadence, [lead.ai_intent || 'GHOSTING']. *)
Definition governingIntent (lead : Lead.t) : string :=
  or_else (default "" (Lead.ai_intent lead)) "GHOSTING".

(** server.js 5114: [user.per_intent_settings || defaultRules]. *)
Definition rulesOf (user : User.t) : gmap string Rule.t :=
  default defaultRules (User.per_intent_settings user).

(** server.js 5174:
    [new Date(lead.last_email_sent_date || lead.initial_email_sent_date)];
    [None] is the invalid date. *)
Definition lastEmailDate (lead : Lead.t) : option Z :=
  match Lead.last_email_sent_date lead with
  | Some t => Some t
  | None => Lead.initial_email_sent_date lead
  end.

(** server.js 5185-5186: the pause flag of the lead as [db.data] has it
    now. *)
Definition pausedNow (lead : Lead.t) (d : DB.t) : bool :=
  match findIndex (fun l => bool_decide (Lead.id l = Lead.id lead)) (DB.leads d) with
  | Some liveLeadIdx => from_option Lead.follow_up_paused false (DB.leads d !! liveLeadIdx)
  | None => false
  end.

(** server.js 5120-5145: the guards that skip a lead before its rule is
    looked up. *)
Definition notContacted (lead : Lead.t) : bool :=
  negb (Lead.initial_email_sent lead)
  && negb (bool_decide (is_Some (Lead.last_email_sent_date lead))).

Definition humanTookOver (autoModeEnabled : bool) (lead : Lead.t) : bool :=
  Lead.ai_paused_by_human lead && negb autoModeEnabled.

Definition closedOrCustomer (lead : Lead.t) : bool :=
  bool_decide (Lead.status lead = "customer")
  || bool_decide (Lead.status lead = "closed_by_system").

Definition inActiveSequence (lead : Lead.t) : bool :=
  truthy_id (Lead.enrolled_sequence_id lead)
  && bool_decide (Lead.sequence_completed lead = Some false)
  && negb (Lead.sequence_paused lead).

(** server.js 5149-5161: a lead whose sequence completed waits out the
    delay of its intent, measured from [sequence_last_sent]. *)
Definition sequenceJustEnded (now : Z) (followUpRules : gmap string Rule.t)
    (lead : Lead.t) : bool :=
  if truthy_id (Lead.enrolled_sequence_id lead)
     && bool_decide (Lead.sequence_completed lead = Some true)
  then
    match Lead.sequence_last_sent lead with
    | Some t =>
        match followUpRules !! governingIntent lead with
        | Some rules => (now - t <? delayMs rules)%Z
        | None => false
        end
    | None => false
    end
  else false.

(** server.js 5263-5272: the draft queued for approval, the [n]+1-th of
    [ai_drafts]. *)
Definition followUpDraft (user : User.t) (lead : Lead.t) (intent followUpBody : string)
    (abVariant : Variant) (now : Z) (n : nat) : Draft.t :=
  Draft.mk (n + 1) (Lead.id lead) (User.id user) followUpBody intent None None
    (Some abVariant) "pending" false false now None.

Definition pushFollowUpDraft (user : User.t) (lead : Lead.t) (intent followUpBody : string)
    (abVariant : Variant) (now : Z) (d : DB.t) : DB.t :=
  DB.set_ai_drafts
    (DB.ai_drafts d ++
     [followUpDraft user lead intent followUpBody abVariant now (length (DB.ai_drafts d))]) d.

Definition followUpSubject (lead : Lead.t) : string :=
  "Following up - " +:+ or_else (Lead.company lead) "our conversation".

(** server.js 5238-5258: bookkeeping after an immediate send. *)
Definition recordFollowUpSent (user : User.t) (lead : Lead.t) (followUpCount : nat)
    (followUpBody : string) (abVariant : Variant) (now : Z) (d : DB.t) : DB.t :=
  let d :=
    match findIndex (fun l => bool_decide (Lead.id l = Lead.id lead)) (DB.leads d) with
    | Some liveLeadIdx =>
        DB.set_leads
          (alter (fun l =>
                    Lead.set_last_email_sent_date (Some now)
                      (Lead.set_email_count (Lead.email_count l + 1)
                         (Lead.set_follow_up_count (followUpCount + 1) l)))
                 liveLeadIdx (DB.leads d)) d
    | None => d
    end in
  DB.set_email_history
    (DB.email_history d ++
     [History.mk (length (DB.email_history d) + 1) (Lead.id lead) (User.id user)
        "follow_up" (followUpSubject lead) followUpBody (Some abVariant) now "sent"]) d.

(** server.js 5281-5299: the exhaustion rule. *)
Definition applyAfterMax (rules : Rule.t) (lead : Lead.t) (now : Z) (d : DB.t) : DB.t :=
  match findIndex (fun l => bool_decide (Lead.id l = Lead.id lead)) (DB.leads d) with
  | Some afterMaxIdx =>
      DB.set_leads
        (alter (fun l =>
                  let l :=
                    if bool_decide (Rule.after_max rules = "review")
                    then Lead.set_status "review" l
                    else if bool_decide (Rule.after_max rules = "closed_by_system")
                    then Lead.set_status "closed_by_system" l
                    else Lead.set_status (toLowerCase (Rule.after_max rules))
                           (Lead.set_ai_intent (Some (Rule.after_max rules)) l) in
                  Lead.set_updated_at (Some now) (Lead.set_follow_up_count 0%nat l))
               afterMaxIdx (DB.leads d)) d
  | None => d
  end.

(** server.js 5191-5279: generation and dispatch of a due follow-up. *)
Definition dispatchFollowUp (env : CadenceEnv.t) (user : User.t) (lead : Lead.t)
    (intent : string) (followUpCount : nat) (st : Store.t) : Store.t * list Mail.t :=
  let now := CadenceEnv.now env in
  let '(st, result) :=
    generateFollowUpEmail (CadenceEnv.ai env (Lead.id lead)) lead intent (User.id user) st in
  let followUpBody := FollowUp.body result in
  let abVariant := FollowUp.variant result in
  if truthy followUpBody then
    let st := Store.update (fun d =>
                match findIndex (fun u => bool_decide (User.id u = User.id user)) (DB.users d) with
                | Some uIdx =>
                    DB.set_users
                      (alter (fun u => User.set_ai_generations_this_month
                                         (User.ai_generations_this_month u + 1) u)
                             uIdx (DB.users d)) d
                | None => d
                end) st in
    let st := Store.update (trackVariantSend (User.id user) intent abVariant now) st in
    if User.auto_mode_enabled user && intentAllowedInAuto user intent then
      if CadenceEnv.sendEmail_ok env (Lead.id lead) then
        (Store.update (recordFollowUpSent user lead followUpCount followUpBody abVariant now) st,
         [Mail.mk (Lead.email lead) (followUpSubject lead) followUpBody (Lead.id lead)])
      else (st, [])
    else
      (Store.update (pushFollowUpDraft user lead intent followUpBody abVariant now) st, [])
  else (st, []).

(** The body of the loop over [userLeads], server.js 5120-5302.  [user]
    and [lead] are the objects read before the loop started. *)
Definition followUpLead (env : CadenceEnv.t) (user : User.t) (lead : Lead.t)
    (st : Store.t) : Store.t * list Mail.t :=
  let now := CadenceEnv.now env in
  let followUpRules := rulesOf user in
  let autoModeEnabled := User.auto_mode_enabled user in
  if notContacted lead then (st, [])
  else if humanTookOver autoModeEnabled lead then (st, [])
  else if closedOrCustomer lead then (st, [])
  else if Lead.follow_up_paused lead then (st, [])
  else if inActiveSequence lead then (st, [])
  else if sequenceJustEnded now followUpRules lead then (st, [])
  else
    let intent := governingIntent lead in
    match followUpRules !! intent with
    | None => (st, [])
    | Some rules =>
        let followUpCount := Lead.follow_up_count lead in
        match lastEmailDate lead with
        | None => (st, [])     (* Invalid Date: no comparison holds *)
        | Some t =>
            if (delayMs rules <=? now - t)%Z then
              if (followUpCount <? Rule.max_attempts rules)%nat then
                if pausedNow lead (Store.data st) then (st, [])
                else dispatchFollowUp env user lead intent followUpCount st
              else (Store.update (applyAfterMax rules lead now) st, [])
            else (st, [])
        end
    end.

(** The body of the loop over the users, server.js 5098-5307. *)
Definition followUpUser (env : CadenceEnv.t) (user : User.t) (st : Store.t)
    : Store.t * list Mail.t :=
  match List.find (fun s => bool_decide (Settings.user_id s = User.id user))
                  (DB.email_settings (Store.data st)) with
  | None => (st, [])
  | Some settings =>
      if negb (truthy (Settings.email settings)) then (st, [])
      else
        let userLeads :=
          List.filter (fun l => bool_decide (Lead.user_id l = User.id user))
                      (DB.leads (Store.data st)) in
        let '(st, sent) :=
          fold_left (fun acc lead =>
                       let '(st', sent') := followUpLead env user lead (fst acc) in
                       (st', snd acc ++ sent'))
                    userLeads (st, []) in
        (Store.write st, sent)
  end.

(** [processFollowUps()]. *)
Definition processFollowUps (env : CadenceEnv.t) (st : Store.t) : Store.t * list Mail.t :=
  let st := Store.read st in
  fold_left (fun acc user =>
               let '(st', sent') := followUpUser env user (fst acc) in
               (st', snd acc ++ sent'))
            (DB.users (Store.data st)) (st, []).

End Cadence.

(** ** Sequence step scheduler (server.js 5560-5706) *)

Module SequenceEnv.
Record t := mk {
  now : Z;
  sendEmail_ok : Z -> bool   (* per lead id; [false]: [sendEmail] throws *)
}.
End SequenceEnv.

Section SequenceScheduler.

Import Js.

(** [steps.sort((a, b) => a.step_number - b.step_number)], a stable sort. *)
Fixpoint insertStep (s : Step.t) (l : list Step.t) : list Step.t :=
  match l with
  | [] => [s]
  | x :: l' =>
      if (Step.step_number x <? Step.step_number s)%Z
      then x :: insertStep s l'
      else s :: l
  end.

Fixpoint sortSteps (l : list Step.t) : list Step.t :=
  match l with
  | [] => []
  | s :: l' => insertStep s (sortSteps l')
  end.

(** server.js 5593-5595: the ordered steps of a sequence. *)
Definition stepsOf (seqId : Z) (d : DB.t) : list Step.t :=
  sortSteps (List.filter (fun s => bool_decide (Step.sequence_id s = seqId))
                         (DB.sequence_steps d)).

(** server.js 5580-5585: the leads the sweep looks at. *)
Definition isEnrolled (l : Lead.t) : bool :=
  truthy_id (Lead.enrolled_sequence_id l)
  && bool_decide (Lead.sequence_completed l = Some false)
  && negb (Lead.sequence_paused l)
  && bool_decide (is_Some (Lead.sequence_last_sent l)).

(** server.js 5603-5612 and 5681-5691: a sequence all of whose leads are
    completed is switched off. *)
Definition deactivateIfAllCompleted (seqId : Z) (d : DB.t) : DB.t :=
  let allEnrolledLeads :=
    List.filter (fun l => bool_decide (Lead.enrolled_sequence_id l = Some seqId))
                (DB.leads d) in
  let allCompleted :=
    (0 <? length allEnrolledLeads)%nat
    && forallb (fun l => bool_decide (Lead.sequence_completed l = Some true))
               allEnrolledLeads in
  if allCompleted then
    match findIndex (fun s => bool_decide (Sequence.id s = seqId)) (DB.sequences d) with
    | Some seqIdx =>
        DB.set_sequences (alter (Sequence.set_is_active false) seqIdx (DB.sequences d)) d
    | None => d
    end
  else d.

(** server.js 5632-5637.  The fields of the lead are inserted as they
    are.  [String.prototype.replace] expands the patterns [$$], [$&] and
    the like of a replacement string, so the code and this definition
    agree on texts without placeholder and on leads whose fields hold no
    [$]; other inputs are outside the model. *)
Definition replaceVars (lead : Lead.t) (text : string) : string :=
  replace_all "{{phone}}" (Lead.phone lead)
    (replace_all "{{email}}" (Lead.email lead)
       (replace_all "{{company}}" (Lead.company lead)
          (replace_all "{{last_name}}" (Lead.last_name lead)
             (replace_all "{{first_name}}" (Lead.first_name lead) text)))).

(** server.js 5619-5625: the time elapsed since the last step, in the unit
    of the next step, is below its delay. *)
Definition notTimeYet (now lastSent : Z) (nextStep : Step.t) : bool :=
  let msSinceLastSent := (now - lastSent)%Z in
  let unit := or_else (default "" (Step.delay_unit nextStep)) "days" in
  let elapsed :=
    if bool_decide (unit = "minutes")
    then (inject_Z msSinceLastSent / inject_Z (1000 * 60))%Q
    else (inject_Z msSinceLastSent / inject_Z (1000 * 60 * 60 * 24))%Q in
  negb (Qle_bool (inject_Z (Step.delay_days nextStep)) elapsed).

(** server.js 5672-5679: the lead after step [nextStepIndex] was sent. *)
Definition markStepSent (nextStepIndex stepCount : nat) (now : Z) (l : Lead.t) : Lead.t :=
  let l := Lead.set_sequence_current_step (nextStepIndex + 1) l in
  let l := Lead.set_sequence_last_sent (Some now) l in
  let l := Lead.set_last_email_sent_date (Some now) l in
  if (stepCount <=? nextStepIndex + 1)%nat
  then Lead.set_sequence_completed (Some true) l else l.

(** server.js 5669-5693: the cursor moves on after a step was sent. *)
Definition advanceLead (seqId : Z) (nextStepIndex stepCount : nat) (now : Z)
    (lead : Lead.t) (d : DB.t) : DB.t :=
  match findIndex (fun l => bool_decide (Lead.id l = Lead.id lead)) (DB.leads d) with
  | Some idx =>
      let d :=
        DB.set_leads (alter (markStepSent nextStepIndex stepCount now) idx (DB.leads d)) d in
      if (stepCount <=? nextStepIndex + 1)%nat
      then deactivateIfAllCompleted seqId d else d
  | None => d
  end.

(** The body of the loop over [enrolledLeads], server.js 5588-5696. *)
Definition sequenceLead (env : SequenceEnv.t) (lead : Lead.t) (d : DB.t)
    : DB.t * list Mail.t :=
  let now := SequenceEnv.now env in
  match Lead.enrolled_sequence_id lead with
  | None => (d, [])
  | Some seqId =>
      match List.find (fun s => bool_decide (Sequence.id s = seqId)) (DB.sequences d) with
      | None => (d, [])
      | Some sequence =>
          if negb (Sequence.is_active sequence) then (d, [])
          else
            let steps := stepsOf seqId d in
            let nextStepIndex := Lead.sequence_current_step lead in
            if (length steps <=? nextStepIndex)%nat then
              match findIndex (fun l => bool_decide (Lead.id l = Lead.id lead)) (DB.leads d) with
              | Some idx =>
                  let d := DB.set_leads
                             (alter (Lead.set_sequence_completed (Some true)) idx (DB.leads d)) d in
                  (deactivateIfAllCompleted seqId d, [])
              | None => (d, [])
              end
            else
              match steps !! nextStepIndex with
              | Some nextStep =>
                  if match Lead.sequence_last_sent lead with
                     | Some lastSent => notTimeYet now lastSent nextStep
                     | None => false   (* NaN is below no delay *)
                     end
                  then (d, [])
                  else
                    match List.find (fun s => bool_decide (Settings.user_id s = Lead.user_id lead))
                                    (DB.email_settings d) with
                    | None => (d, [])
                    | Some settings =>
                        if negb (bool_decide (Settings.provider settings = "gmail")) then (d, [])
                        else
                          let subject :=
                            replaceVars lead (or_else (Step.subject nextStep) (Sequence.name sequence)) in
                          let html := replaceVars lead (Step.email_template nextStep) in
                          if negb (SequenceEnv.sendEmail_ok env (Lead.id lead)) then (d, [])
                          else
                            let d :=
                              DB.set_email_interactions
                                (DB.email_interactions d ++
                                 [Interaction.mk (length (DB.email_interactions d) + 1)
                                    (Lead.id lead) None (Some seqId) (Some (nextStepIndex + 1)%nat)
                                    "sent" subject html None now]) d in
                            (advanceLead seqId nextStepIndex (length steps) now lead d,
                             [Mail.mk (Lead.email lead) subject html (Lead.id lead)])
                    end
              | None => (d, [])
              end
      end
  end.

(** [processSequenceSteps()]; [sequenceProcessing] is the module-level lock
    [_sequenceProcessing] as found on entry. *)
Definition processSequenceSteps (env : SequenceEnv.t) (sequenceProcessing : bool)
    (st : Store.t) : Store.t * list Mail.t :=
  if sequenceProcessing then (st, [])
  else
    let st := Store.read st in
    let enrolledLeads := List.filter isEnrolled (DB.leads (Store.data st)) in
    let '(d, sent) :=
      fold_left (fun acc lead =>
                   let '(d', sent') := sequenceLead env lead (fst acc) in
                   (d', snd acc ++ sent'))
                enrolledLeads (Store.data st, []) in
    (Store.write (Store.mk (Store.disk st) d), sent).

End SequenceScheduler.

(** ** Vocabulary of the statements *)

Section Vocabulary.

Import Js.

(** A change [f] of a lead leaves its projection [k] alone. *)
Definition keeps {K} (k : Lead.t -> K) (f : Lead.t -> Lead.t) : Prop :=
  forall l, k (f l) = k l.

(** Projections that neither the sequence pause, nor the status, nor the
    modification stamp of a lead enter. *)
Definition stable {K} (k : Lead.t -> K) : Prop :=
  (forall v, keeps k (Lead.set_sequence_paused v))
  /\ (forall v, keeps k (Lead.set_status v))
  /\ (forall v, keeps k (Lead.set_updated_at v)).

(** The parts of [db.data] that the reply handler reads after ingestion. *)
Definition sameConfig (d d' : DB.t) : Prop :=
  DB.users d' = DB.users d
  /\ DB.product_profiles d' = DB.product_profiles d
  /\ DB.ai_drafts d' = DB.ai_drafts d
  /\ DB.email_interactions d' = DB.email_interactions d.

(** Field [k] of the lead stored at position [i] of [d.leads]. *)
Definition leadField {K} (k : Lead.t -> K) (d : DB.t) (i : nat) : option K :=
  k <$> DB.leads d !! i.

(** [P] holds of the lead at position [i], in [db.data] and in the file,
    when the reply handler returns. *)
Definition storedLead (r : ReplyResult.t) (i : nat) (P : Lead.t -> Prop) : Prop :=
  (exists l, DB.leads (Store.data (ReplyResult.store r)) !! i = Some l /\ P l)
  /\ (exists l, DB.leads (Store.disk (ReplyResult.store r)) !! i = Some l /\ P l).

(** The six [continue] guards at the head of the cadence loop body
    (server.js 5122-5161), as one test. *)
Definition skipsLead (env : CadenceEnv.t) (user : User.t) (lead : Lead.t) : bool :=
  notContacted lead
  || humanTookOver (User.auto_mode_enabled user) lead
  || closedOrCustomer lead
  || Lead.follow_up_paused lead
  || inActiveSequence lead
  || sequenceJustEnded (CadenceEnv.now env) (rulesOf user) lead.

(** The text returned by [generateFollowUpEmail]. *)
Definition followUpText (ai : AiOutcome) (lead : Lead.t) : string :=
  match ai with
  | AiOk text => trim text
  | AiHttpError | AiException => followUpFallbackBody lead
  end.


(** server.js 5203-5204: one more generation counted for the user. *)
Definition bumpGenerations (u : User.t) : User.t :=
  User.set_ai_generations_this_month (User.ai_generations_this_month u + 1) u.

End Vocabulary.

(** ** Sample data *)

Module Sample.

Definition day : Z := 86400000.

(** An owner in auto mode who did not opt objections into auto-send. *)
Definition owner : User.t := User.mk 1 "Seller Co" true false "AUTO" None 0.

(** The same owner in manual mode. *)
Definition manualOwner : User.t := User.mk 1 "Seller Co" false false "MANUAL" None 0.

Definition profile : ProductProfile.t :=
  ProductProfile.mk 1 "Widget" "A widget for teams" "Saves time" "" "".

Definition settings : Settings.t := Settings.mk 1 "seller@example.com" "gmail".

(** A lead contacted at time 0, never enrolled in a sequence. *)
Definition alice : Lead.t :=
  Lead.mk 7 1 "alice@example.com" "Alice" "Doe" "Acme" (Some "GHOSTING") "" "contacted"
    None 0 None None false 0 1 true (Some 0%Z) (Some 0%Z) None false false 0 0
    "" None "" None "".

(** A store just opened on a file with one user and one lead. *)
Definition storeOf (u : User.t) (l : Lead.t) : Store.t :=
  Store.mk (DB.mk [u] [l] [settings] [profile] [] [] [] [] [] [] [] []) DB.empty.

Definition objection : Inbound.t :=
  Inbound.mk "msg-1" "Alice@Example.com" "Price" "That is too expensive for us".

(** The classifier says OBJECTION, the model answers in substance, the
    transport works. *)
Definition objectionEnv : ReplyEnv.t :=
  ReplyEnv.mk (Analysis.mk "OBJECTION" "raises a concern") None
    (AiOk "Hi Alice, I hear you. What matters most to you?") true 1000.

(** The model flags a knowledge gap. *)
Definition gapEnv : ReplyEnv.t :=
  ReplyEnv.mk (Analysis.mk "NOT_NOW" "asks about another product") None
    (AiOk "Hi Alice, let me check on that. [NEEDS_CLARIFICATION]") true 1000.

Definition heldAlice : Lead.t := Lead.set_clarification_count 1 alice.

Definition interestedAlice : Lead.t :=
  Lead.set_follow_up_count 2 (Lead.set_ai_intent (Some "INTERESTED") alice).

Definition vagueEnv : ReplyEnv.t :=
  ReplyEnv.mk (Analysis.mk "GHOSTING" "short and vague") None (AiOk "Hi Alice!") true 1000.

(** A lead never classified, after two cadence follow-ups. *)
Definition unclassifiedAlice : Lead.t :=
  Lead.set_follow_up_count 2 (Lead.set_ai_intent None alice).

Definition interestedEnv : ReplyEnv.t :=
  ReplyEnv.mk (Analysis.mk "INTERESTED" "asks for a demo") None (AiOk "Hi Alice!") true 1000.

Definition notNowAlice : Lead.t :=
  Lead.set_follow_up_count 3 (Lead.set_ai_intent (Some "NOT_NOW") alice).

(** A lead whose last reply was a rejection. *)
Definition deadAlice : Lead.t :=
  Lead.set_status "dead" (Lead.set_ai_intent (Some "DEAD") alice).

Definition pausedAlice : Lead.t :=
  Lead.mk 7 1 "alice@example.com" "Alice" "Doe" "Acme" (Some "GHOSTING") "" "contacted"
    None 0 None None false 0 1 true (Some 0%Z) (Some 0%Z) None true false 0 0
    "" None "" None "".

(** Thirty-one days after the last mail; the model answers, the transport
    works. *)
Definition cadenceEnv : CadenceEnv.t :=
  CadenceEnv.mk (31 * day) (fun _ => AiOk "Hi Alice, just checking in.") (fun _ => true).

(** A two-step sequence and a lead that was sent its first step. *)
Definition welcome : Sequence.t := Sequence.mk 5 "Welcome" true.

Definition welcomeSteps : list Step.t :=
  [ Step.mk 5 2 3 None "Second" "Hello again {{first_name}}";
    Step.mk 5 1 0 None "First" "Hello {{first_name}}" ].

Definition enrolledAlice : Lead.t :=
  Lead.mk 7 1 "alice@example.com" "Alice" "Doe" "Acme" None "" "contacted"
    (Some 5%Z) 1 (Some 0%Z) (Some false) false 0 1 true (Some 0%Z) (Some 0%Z) None
    false false 0 0 "" None "" None "".

Definition sequenceDb : DB.t :=
  DB.mk [owner] [enrolledAlice] [settings] [profile] [] [] [] [] [] [] [welcome] welcomeSteps.

Definition sequenceEnv : SequenceEnv.t := SequenceEnv.mk (3 * day) (fun _ => true).

End Sample.

(** * Further parts of the backend

    The rest of this development covers code of [backend/server.js] that
    surrounds the four schedulers and handlers above, and one function of
    the older [services] layer:

    - [analyzeReplyWithAI]                          (server.js 4237-4355)
    - [AIService.fallbackIntentDetection]           (services, 281-360)
    - [getUserPlan], [isPlanActive],
      [resetMonthlyCounterIfNeeded]                 (server.js 262-291)
    - the Stripe webhook                            (server.js 5860-5952)
    - the start-up clean-up of stale drafts         (server.js 219-241)
    - the lead routes [auto-send],
      [pause-follow-ups], [stop-sequence],
      [send-initial-email], lead creation           (server.js 564-622, 1678-1777, 2904-3005)
    - the settings routes [auto-mode] and
      [follow-up-rules]                             (server.js 2364-2398, 3055-3086)
    - the draft routes [send], [reject],
      [bulk-send]                                   (server.js 4935-5089)
    - the inbox routes [notifications],
      [mark-notified], [cleanup-duplicates]         (server.js 3263-3380)
    - sequence creation                             (server.js 647-681)

    A route is a function of the lowdb handle that returns the new handle
    and the response; [req.userId] is the identity set by [authenticate]. *)

From stdpp Require Import pretty.

(** ** More string primitives *)

Module Text.

Import Js.

(** [String.prototype.toUpperCase] on the letters a-z.  The code units
    above 127 are left alone. *)
Definition upper_char (c : ascii) : ascii :=
  let n := N_of_ascii c in
  if ((97 <=? n) && (n <=? 122))%N then ascii_of_N (n - 32) else c.

Fixpoint toUpperCase (s : string) : string :=
  match s with
  | "" => ""
  | String c s' => String (upper_char c) (toUpperCase s')
  end.

(** [s.endsWith(p)]: some suffix of [s] is [p]. *)
Fixpoint ends_with (p s : string) : bool :=
  bool_decide (s = p)
  || match s with
     | "" => false
     | String _ s' => ends_with p s'
     end.

(** [String(n)] for an integer [n]. *)
Definition of_int (n : Z) : string := pretty n.

End Text.

(** The responses of the routes modelled below.  [Crashed] is an exception
    that leaves an [async] handler: no response is written and the rest of
    the handler, its [db.write()] included, does not run. *)
Inductive Response :=
| Ok200
| BadRequest400
| NotFound404
| ServerError500
| Crashed.

#[global] Instance Response_eq_dec : EqDecision Response.
Proof. solve_decision. Defined.

(** ** Intent classification (server.js 4237-4355) *)

Section ReplyClassifier.

Import Js Text.

(** server.js 4280. *)
Definition validIntents : list string :=
  ["INTERESTED"; "NOT_NOW"; "OBJECTION"; "GHOSTING"; "DEAD"].

(** server.js 4281-4289: the answer [raw] names the intent [v]. *)
Definition namesIntent (raw v : string) : bool :=
  bool_decide (raw = v)
  || starts_with (v +:+ " ") raw
  || starts_with (v +:+ nl) raw
  || includes (nl +:+ v) raw
  || includes (": " +:+ v) raw
  || includes (" " +:+ v +:+ nl) raw
  || includes (nl +:+ nl +:+ v) raw.

(** server.js 4293-4303: [reasoning[intent] || 'Unable to classify']. *)
Definition reasoningOf (intent : string) : string :=
  if bool_decide (intent = "INTERESTED") then "Lead shows engagement and buying interest"
  else if bool_decide (intent = "NOT_NOW")
  then "Lead indicates timing is not right with explicit timeframe"
  else if bool_decide (intent = "OBJECTION") then "Lead raises concerns or hesitations"
  else if bool_decide (intent = "GHOSTING") then "Generic or unclear response"
  else if bool_decide (intent = "DEAD") then "Lead explicitly rejects"
  else "Unable to classify".

(** server.js 4274-4305: the reading of the model's answer [text]. *)
Definition classifyAnswer (text : string) : Analysis.t :=
  let raw := toUpperCase (trim text) in
  let found := List.find (namesIntent raw) validIntents in
  let intent := default "GHOSTING" found in
  Analysis.mk intent (reasoningOf intent).

(** server.js 4310-4354: the keyword classification used when the model
    call fails.  The key words are ASCII, so lower-casing the code units
    above 127 neither creates nor removes an occurrence. *)
Definition keywordClassification (replyText emailSubject : string) : Analysis.t :=
  let lower := toLowerCase (replyText +:+ " " +:+ emailSubject) in
  if includes "interested" lower || includes "yes" lower || includes "sounds good" lower
     || includes "schedule" lower || includes "call me" lower || includes "let's talk" lower
     || includes "where is" lower || includes "what is the" lower || includes "how much" lower
     || includes "more info" lower || includes "tell me more" lower
     || ends_with "?" (trim lower)
     || includes "whatsapp" lower || includes "telegram" lower || includes "signal" lower
     || includes "viber" lower || includes "zoom" lower || includes " teams" lower
     || includes "google meet" lower || includes "phone number" lower
     || includes "mobile" lower
  then Analysis.mk "INTERESTED" "Keyword: shows engagement"
  else if includes "not interested" lower || includes "no thanks" lower
          || includes "unsubscribe" lower || includes "stop emailing" lower
          || includes "dont contact" lower
  then Analysis.mk "DEAD" "Keyword: clear rejection"
  else if includes "but " lower || includes "however" lower || includes "concern" lower
          || includes "expensive" lower || includes "not sure" lower
          || includes "far from" lower || includes "too far" lower
          || includes "distance" lower || includes "location" lower
          || includes "inconvenient" lower || includes "accessible" lower
          || includes "price seems" lower
  then Analysis.mk "OBJECTION" "Keyword: raises objection/concern"
  else if (includes "later" lower || includes "next month" lower
           || includes "next quarter" lower || includes "not now" lower
           || includes "busy until" lower || includes "check back" lower)
          && negb (includes "interested" lower)
  then Analysis.mk "NOT_NOW" "Keyword: timing-based delay"
  else Analysis.mk "GHOSTING" "No clear signals detected".

(** [analyzeReplyWithAI(replyText, emailSubject)]; [api] is the outcome of
    the call of the model. *)
Definition analyzeReplyWithAI (api : AiOutcome) (replyText emailSubject : string)
    : Analysis.t :=
  match api with
  | AiOk text => classifyAnswer text
  | AiHttpError | AiException => keywordClassification replyText emailSubject
  end.

End ReplyClassifier.

(** ** Keyword detection of the services layer (services, 281-360) *)

Module Detection.
Record t := mk {
  category : string;
  confidence : Q;
  reasoning : string;
  suggested_action : string;
  key_phrases : list string;
  urgency_score : Z
}.
End Detection.

Section ServiceClassifier.

Import Js.

(** [AIService.fallbackIntentDetection(text, subject)]. *)
Definition fallbackIntentDetection (text subject : string) : Detection.t :=
  let lowerText := toLowerCase (text +:+ " " +:+ subject) in
  if includes "not interested" lowerText || includes "remove me" lowerText
     || includes "unsubscribe" lowerText || includes "stop emailing" lowerText
  then Detection.mk "DEAD" (9 # 10) "Clear rejection phrases detected"
         "stop_all_sequences" ["not interested"] 1
  else if includes "pricing" lowerText || includes "how much" lowerText
          || includes "demo" lowerText || includes "call" lowerText
          || includes "schedule" lowerText
  then Detection.mk "INTERESTED" (7 # 10) "Buying signal phrases detected"
         "notify_user_immediately" ["pricing"; "demo"] 9
  else if includes "later" lowerText || includes "next month" lowerText
          || includes "not right now" lowerText
  then Detection.mk "NOT_NOW" (75 # 100) "Timing delay indicators"
         "schedule_long_term_followup" ["later"; "next month"] 3
  else if includes "expensive" lowerText || includes "too much" lowerText
          || includes "not sure" lowerText
  then Detection.mk "OBJECTION" (7 # 10) "Objection phrases detected"
         "send_objection_handler" ["expensive"] 6
  else Detection.mk "GHOSTING" (5 # 10) "No clear signals detected"
         "continue_sequence" [] 4.

End ServiceClassifier.

(** ** Plans and billing (server.js 25-48, 262-291, 5860-5952) *)

Module PlanLimits.
Record t := mk {
  name : string;
  price_monthly : option Z;       (* cents *)
  price_annual : option Z;
  active_leads_limit : option nat;   (* [None]: unlimited *)
  ai_generations_limit : nat;
  sequences_limit : option nat
}.
End PlanLimits.

(** The fields of a user object that the plan helpers and the billing
    routes read and write.  An absent string is [""], an absent or
    unreadable date is [None]. *)
Module Account.
Record t := mk {
  id : Z;
  plan : string;
  plan_status : string;
  trial_ends_at : option Z;
  stripe_customer_id : option string;
  stripe_subscription_id : option string;
  ai_generations_this_month : nat;
  ai_generations_reset_at : option Z
}.

Definition set_plan v u :=
  mk (id u) v (plan_status u) (trial_ends_at u) (stripe_customer_id u)
     (stripe_subscription_id u) (ai_generations_this_month u)
     (ai_generations_reset_at u).
Definition set_plan_status v u :=
  mk (id u) (plan u) v (trial_ends_at u) (stripe_customer_id u)
     (stripe_subscription_id u) (ai_generations_this_month u)
     (ai_generations_reset_at u).
Definition set_stripe_subscription_id v u :=
  mk (id u) (plan u) (plan_status u) (trial_ends_at u) (stripe_customer_id u)
     v (ai_generations_this_month u) (ai_generations_reset_at u).
Definition set_ai_generations v at_ u :=
  mk (id u) (plan u) (plan_status u) (trial_ends_at u) (stripe_customer_id u)
     (stripe_subscription_id u) v at_.
End Account.

(** What [PLANS[plan]] evaluates to: one of the three entries, or a member
    that the object literal inherits from [Object.prototype]. *)
Inductive PlanEntry :=
| Limits (l : PlanLimits.t)
| Inherited.

Module PlanView.
Record t := mk {
  plan : string;
  status : string;
  limits : PlanEntry
}.
End PlanView.

(** The events the webhook switches on, with the fields it reads.
    [priceId] is [items.data[0]?.price?.id]; in [CheckoutCompleted] it comes
    from [stripe.subscriptions.retrieve], [None] when that call throws. *)
Inductive StripeEvent :=
| CheckoutCompleted (mode customer subscription : string)
    (retrieved : option (option string))
| PaymentSucceeded (customer : string)
| PaymentFailed (customer : string)
| SubscriptionDeleted (customer : string)
| SubscriptionUpdated (customer : string) (priceId : option string) (status : string)
| OtherEvent.

Section Plans.

Import Js.

Definition trialPlan : PlanLimits.t :=
  PlanLimits.mk "Free Trial" None None (Some 300%nat) 50 (Some 3%nat).
Definition starterPlan : PlanLimits.t :=
  PlanLimits.mk "Starter" (Some 2900%Z) (Some 27900%Z) (Some 300%nat) 600 (Some 3%nat).
Definition growthPlan : PlanLimits.t :=
  PlanLimits.mk "Growth" (Some 7900%Z) (Some 75900%Z) None 3000 None.

(** The property names every object literal inherits. *)
Definition objectPrototypeKeys : list string :=
  ["constructor"; "hasOwnProperty"; "isPrototypeOf"; "propertyIsEnumerable";
   "toLocaleString"; "toString"; "valueOf"; "__proto__"; "__defineGetter__";
   "__defineSetter__"; "__lookupGetter__"; "__lookupSetter__"].

(** [PLANS[plan]], [None] for [undefined]. *)
Definition PLANS (plan : string) : option PlanEntry :=
  if bool_decide (plan = "trial") then Some (Limits trialPlan)
  else if bool_decide (plan = "starter") then Some (Limits starterPlan)
  else if bool_decide (plan = "growth") then Some (Limits growthPlan)
  else if bool_decide (plan ∈ objectPrototypeKeys) then Some Inherited
  else None.

(** server.js 262-270; [now] is [new Date()]. *)
Definition getUserPlan (now : Z) (user : option Account.t) : PlanView.t :=
  match user with
  | None => PlanView.mk "trial" "expired" (Limits trialPlan)
  | Some user =>
      let plan := or_else (Account.plan user) "trial" in
      let status := or_else (Account.plan_status user) "trialing" in
      let status :=
        if bool_decide (plan = "trial")
           && match Account.trial_ends_at user with
              | Some t => (t <? now)%Z
              | None => false
              end
        then "expired" else status in
      PlanView.mk plan status (default (Limits trialPlan) (PLANS plan))
  end.

(** server.js 273-278. *)
Definition isPlanActive (now : Z) (user : option Account.t) : bool :=
  let v := getUserPlan now user in
  if bool_decide (PlanView.status v = "expired") then false
  else if bool_decide (PlanView.plan v = "trial")
          && bool_decide (PlanView.status v = "trialing") then true
  else bool_decide (PlanView.status v = "active").

(** The calendar of the server: month and year of a time stamp, as
    [getMonth] and [getFullYear] give them. *)
Variable getMonth getFullYear : Z -> Z.

(** server.js 281-290: the user after the call, and the returned flag.  A
    missing [ai_generations_reset_at] counts as the epoch. *)
Definition resetMonthlyCounterIfNeeded (now : Z) (user : Account.t) : Account.t * bool :=
  let resetAt := default 0%Z (Account.ai_generations_reset_at user) in
  if negb (bool_decide (getMonth now = getMonth resetAt))
     || negb (bool_decide (getFullYear now = getFullYear resetAt))
  then (Account.set_ai_generations 0%nat (Some now) user, true)
  else (user, false).

(** The price ids of the growth plan in the environment; [None] when the
    variable is not set. *)
Variable STRIPE_PRICE_GROWTH_MONTHLY STRIPE_PRICE_GROWTH_ANNUAL : option string.

(** server.js 5887-5890, 5936-5939: the plan of a price id. *)
Definition planOfPrice (priceId : option string) : string :=
  if bool_decide (priceId = STRIPE_PRICE_GROWTH_MONTHLY)
     || bool_decide (priceId = STRIPE_PRICE_GROWTH_ANNUAL)
  then "growth" else "starter".

(** [db.data.users[uIdx].x = v] for [uIdx = findIndex(u => u.id === user.id)]. *)
Definition updateAccount (user : Account.t) (f : Account.t -> Account.t)
    (users : list Account.t) : list Account.t :=
  match findIndex (fun u => bool_decide (Account.id u = Account.id user)) users with
  | Some uIdx => alter f uIdx users
  | None => users
  end.

(** server.js 5876. *)
Definition getUser (customerId : string) (users : list Account.t) : option Account.t :=
  List.find (fun u => bool_decide (Account.stripe_customer_id u = Some customerId)) users.

(** server.js 5874-5950, for a verified event: the users that are written
    back, or [None] when the handler is left by an exception before its
    [db.write()]. *)
Definition stripeWebhook (event : StripeEvent) (users : list Account.t)
    : option (list Account.t) :=
  match event with
  | CheckoutCompleted mode customer subscription retrieved =>
      if bool_decide (mode = "subscription") then
        match getUser customer users with
        | Some user =>
            match retrieved with
            | Some priceId =>
                Some (updateAccount user
                        (fun u => Account.set_stripe_subscription_id (Some subscription)
                                    (Account.set_plan_status "active"
                                       (Account.set_plan (planOfPrice priceId) u)))
                        users)
            | None => None
            end
        | None => Some users
        end
      else Some users
  | PaymentSucceeded customer =>
      match getUser customer users with
      | Some user =>
          if negb (bool_decide (Account.plan_status user = "active"))
          then Some (updateAccount user (Account.set_plan_status "active") users)
          else Some users
      | None => Some users
      end
  | PaymentFailed customer =>
      match getUser customer users with
      | Some user => Some (updateAccount user (Account.set_plan_status "past_due") users)
      | None => Some users
      end
  | SubscriptionDeleted customer =>
      match getUser customer users with
      | Some user =>
          Some (updateAccount user
                  (fun u => Account.set_stripe_subscription_id None
                              (Account.set_plan_status "expired"
                                 (Account.set_plan "trial" u)))
                  users)
      | None => Some users
      end
  | SubscriptionUpdated customer priceId status =>
      match getUser customer users with
      | Some user =>
          Some (updateAccount user
                  (fun u => Account.set_plan_status status
                              (Account.set_plan (planOfPrice priceId) u))
                  users)
      | None => Some users
      end
  | OtherEvent => Some users
  end.

End Plans.

(** ** Start-up clean-up of stale drafts (server.js 219-241) *)

Section StartupCleanup.

(** A draft that shows in the Action Required queue. *)
Definition needsAction (x : Draft.t) : bool :=
  Draft.needs_follow_up x || Draft.clarification_needed x.

(** server.js 225-235: the pending flagged drafts of the lead of [d] that
    are older than [d] are resolved. *)
Definition resolveOlderThan (d : Draft.t) (drafts : list Draft.t) : list Draft.t :=
  List.map (fun old =>
              if bool_decide (Draft.lead_id old = Draft.lead_id d)
                 && bool_decide (Draft.status old = "pending")
                 && needsAction old
                 && (Draft.created_at old <? Draft.created_at d)%Z
              then Draft.set_status "resolved" old else old)
           drafts.

(** server.js 219-241. *)
Definition startupCleanup (d : DB.t) : DB.t :=
  let pendingDrafts :=
    List.filter (fun x => bool_decide (Draft.status x = "pending")) (DB.ai_drafts d) in
  DB.set_ai_drafts
    (fold_left (fun drafts x =>
                  if negb (Draft.needs_follow_up x) && negb (Draft.clarification_needed x)
                  then resolveOlderThan x drafts else drafts)
               pendingDrafts (DB.ai_drafts d)) d.

End StartupCleanup.

(** ** More field updates *)

Module Leads.

Definition set_follow_up_paused v l :=
  Lead.mk (Lead.id l) (Lead.user_id l) (Lead.email l) (Lead.first_name l)
    (Lead.last_name l) (Lead.company l) (Lead.ai_intent l)
    (Lead.ai_reasoning l) (Lead.status l) (Lead.enrolled_sequence_id l)
    (Lead.sequence_current_step l) (Lead.sequence_last_sent l)
    (Lead.sequence_completed l) (Lead.sequence_paused l)
    (Lead.follow_up_count l) (Lead.email_count l) (Lead.initial_email_sent l)
    (Lead.initial_email_sent_date l) (Lead.last_email_sent_date l)
    (Lead.auto_send_enabled l) v (Lead.ai_paused_by_human l)
    (Lead.clarification_count l) (Lead.previous_objection_count l)
    (Lead.last_reply l) (Lead.last_reply_date l) (Lead.last_subject l)
    (Lead.updated_at l) (Lead.phone l).

Definition set_ai_paused_by_human v l :=
  Lead.mk (Lead.id l) (Lead.user_id l) (Lead.email l) (Lead.first_name l)
    (Lead.last_name l) (Lead.company l) (Lead.ai_intent l)
    (Lead.ai_reasoning l) (Lead.status l) (Lead.enrolled_sequence_id l)
    (Lead.sequence_current_step l) (Lead.sequence_last_sent l)
    (Lead.sequence_completed l) (Lead.sequence_paused l)
    (Lead.follow_up_count l) (Lead.email_count l) (Lead.initial_email_sent l)
    (Lead.initial_email_sent_date l) (Lead.last_email_sent_date l)
    (Lead.auto_send_enabled l) (Lead.follow_up_paused l) v
    (Lead.clarification_count l) (Lead.previous_objection_count l)
    (Lead.last_reply l) (Lead.last_reply_date l) (Lead.last_subject l)
    (Lead.updated_at l) (Lead.phone l).

Definition set_auto_send_enabled v l :=
  Lead.mk (Lead.id l) (Lead.user_id l) (Lead.email l) (Lead.first_name l)
    (Lead.last_name l) (Lead.company l) (Lead.ai_intent l)
    (Lead.ai_reasoning l) (Lead.status l) (Lead.enrolled_sequence_id l)
    (Lead.sequence_current_step l) (Lead.sequence_last_sent l)
    (Lead.sequence_completed l) (Lead.sequence_paused l)
    (Lead.follow_up_count l) (Lead.email_count l) (Lead.initial_email_sent l)
    (Lead.initial_email_sent_date l) (Lead.last_email_sent_date l) v
    (Lead.follow_up_paused l) (Lead.ai_paused_by_human l)
    (Lead.clarification_count l) (Lead.previous_objection_count l)
    (Lead.last_reply l) (Lead.last_reply_date l) (Lead.last_subject l)
    (Lead.updated_at l) (Lead.phone l).

Definition set_initial_email_sent v l :=
  Lead.mk (Lead.id l) (Lead.user_id l) (Lead.email l) (Lead.first_name l)
    (Lead.last_name l) (Lead.company l) (Lead.ai_intent l)
    (Lead.ai_reasoning l) (Lead.status l) (Lead.enrolled_sequence_id l)
    (Lead.sequence_current_step l) (Lead.sequence_last_sent l)
    (Lead.sequence_completed l) (Lead.sequence_paused l)
    (Lead.follow_up_count l) (Lead.email_count l) v
    (Lead.initial_email_sent_date l) (Lead.last_email_sent_date l)
    (Lead.auto_send_enabled l) (Lead.follow_up_paused l)
    (Lead.ai_paused_by_human l) (Lead.clarification_count l)
    (Lead.previous_objection_count l) (Lead.last_reply l)
    (Lead.last_reply_date l) (Lead.last_subject l) (Lead.updated_at l)
    (Lead.phone l).

Definition set_initial_email_sent_date v l :=
  Lead.mk (Lead.id l) (Lead.user_id l) (Lead.email l) (Lead.first_name l)
    (Lead.last_name l) (Lead.company l) (Lead.ai_intent l)
    (Lead.ai_reasoning l) (Lead.status l) (Lead.enrolled_sequence_id l)
    (Lead.sequence_current_step l) (Lead.sequence_last_sent l)
    (Lead.sequence_completed l) (Lead.sequence_paused l)
    (Lead.follow_up_count l) (Lead.email_count l) (Lead.initial_email_sent l)
    v (Lead.last_email_sent_date l) (Lead.auto_send_enabled l)
    (Lead.follow_up_paused l) (Lead.ai_paused_by_human l)
    (Lead.clarification_count l) (Lead.previous_objection_count l)
    (Lead.last_reply l) (Lead.last_reply_date l) (Lead.last_subject l)
    (Lead.updated_at l) (Lead.phone l).

(** The lead object that the creation routes build (server.js 569-580 and
    603-614); [n] is [db.data.leads.length].  Fields the literal does not
    mention are absent. *)
Definition fresh (n : nat) (userId : Z) (email first_name last_name company phone : string)
    : Lead.t :=
  Lead.mk (Z.of_nat n + 1) userId email first_name last_name company None "" "new"
    None 0 None None false 0 0 false None None None false false 0 0 "" None "" None phone.

End Leads.

Module Drafts.

Definition set_sent_at v d :=
  Draft.mk (Draft.id d) (Draft.lead_id d) (Draft.user_id d)
    (Draft.draft_body d) (Draft.ai_intent d) (Draft.reply_text d)
    (Draft.reply_subject d) (Draft.ab_variant d) (Draft.status d)
    (Draft.clarification_needed d) (Draft.needs_follow_up d)
    (Draft.created_at d) v.

End Drafts.

Module Users.

Definition set_auto_mode_enabled v u :=
  User.mk (User.id u) (User.company_name u) v
    (User.auto_mode_include_objections u) (User.email_mode u)
    (User.per_intent_settings u) (User.ai_generations_this_month u).

Definition set_auto_mode_include_objections v u :=
  User.mk (User.id u) (User.company_name u) (User.auto_mode_enabled u) v
    (User.email_mode u) (User.per_intent_settings u)
    (User.ai_generations_this_month u).

Definition set_email_mode v u :=
  User.mk (User.id u) (User.company_name u) (User.auto_mode_enabled u)
    (User.auto_mode_include_objections u) v (User.per_intent_settings u)
    (User.ai_generations_this_month u).

Definition set_per_intent_settings v u :=
  User.mk (User.id u) (User.company_name u) (User.auto_mode_enabled u)
    (User.auto_mode_include_objections u) (User.email_mode u) v
    (User.ai_generations_this_month u).

End Users.

Module Threads.

Definition set_notified v t :=
  Thread.mk (Thread.id t) (Thread.gmail_message_id t) (Thread.lead_id t)
    (Thread.user_id t) (Thread.from t) (Thread.subject t) (Thread.body t)
    (Thread.received_at t) (Thread.ai_intent t) v.

End Threads.

(** ** Look-ups shared by the routes *)

Section Lookups.

Import Js Text.

(** [xs.find(p)] together with the position of the object found, so that
    an assignment to the object can be made in [db.data]. *)
Definition findAt {A} (p : A -> bool) (xs : list A) : option (nat * A) :=
  match findIndex p xs with
  | Some i => (fun x => (i, x)) <$> xs !! i
  | None => None
  end.

(** [l => String(l.id) === String(req.params.id) && l.user_id === req.userId]
    (server.js 2933-2935, 2954-2956, 2986-2988). *)
Definition ownsLeadNamed (userId : Z) (id : string) (l : Lead.t) : bool :=
  bool_decide (of_int (Lead.id l) = id) && bool_decide (Lead.user_id l = userId).

(** [l => l.id === parseInt(req.params.id) && l.user_id === req.userId]
    (server.js 1698-1700, 2909-2911); [id] is the value of [parseInt],
    [None] for [NaN]. *)
Definition ownsLeadNumbered (userId : Z) (id : option Z) (l : Lead.t) : bool :=
  bool_decide (Some (Lead.id l) = id) && bool_decide (Lead.user_id l = userId).

(** [d => d.id === parseInt(req.params.id) && d.user_id === req.userId]
    (server.js 4940, 5003). *)
Definition ownsDraftNumbered (userId : Z) (id : option Z) (x : Draft.t) : bool :=
  bool_decide (Some (Z.of_nat (Draft.id x)) = id) && bool_decide (Draft.user_id x = userId).

(** An assignment to fields of [db.data.leads[i]]. *)
Definition updateLeadAt (i : nat) (f : Lead.t -> Lead.t) (st : Store.t) : Store.t :=
  Store.update (fun d => DB.set_leads (alter f i (DB.leads d)) d) st.

Definition updateDraftAt (k : nat) (f : Draft.t -> Draft.t) (st : Store.t) : Store.t :=
  Store.update (fun d => DB.set_ai_drafts (alter f k (DB.ai_drafts d)) d) st.

Definition updateUserAt (k : nat) (f : User.t -> User.t) (st : Store.t) : Store.t :=
  Store.update (fun d => DB.set_users (alter f k (DB.users d)) d) st.

Definition settingsOf (userId : Z) (d : DB.t) : option Settings.t :=
  List.find (fun s => bool_decide (Settings.user_id s = userId)) (DB.email_settings d).

(** [sendEmail] returns normally: the provider is Gmail (server.js 4682);
    the tokens and the transport are the oracle [ok]. *)
Definition sendEmailReturns (settings : Settings.t) (ok : bool) : bool :=
  bool_decide (Settings.provider settings = "gmail") && ok.

End Lookups.

(** ** Lead routes *)

Section LeadRoutes.

Import Js Text.

(** [PATCH /api/leads/:id/auto-send] (server.js 2904-2927);
    [auto_send_enabled] is the Boolean of the request body, [None] when the
    body has none. *)
Definition setLeadAutoSend (userId : Z) (id : option Z) (auto_send_enabled : option bool)
    (now : Z) (st : Store.t) : Store.t * Response :=
  let st := Store.read st in
  match findIndex (ownsLeadNumbered userId id) (DB.leads (Store.data st)) with
  | None => (st, NotFound404)
  | Some i =>
      let st := updateLeadAt i (Leads.set_auto_send_enabled auto_send_enabled) st in
      let st := updateLeadAt i (Lead.set_updated_at (Some now)) st in
      (Store.write st, Ok200)
  end.

(** [POST /api/leads/:id/pause-follow-ups] (server.js 2951-2980);
    [paused] is [req.body.paused === true]. *)
Definition pauseFollowUps (userId : Z) (id : string) (paused : bool) (now : Z)
    (st : Store.t) : Store.t * Response :=
  let st := Store.read st in
  match findAt (ownsLeadNamed userId id) (DB.leads (Store.data st)) with
  | None => (st, NotFound404)
  | Some (i, lead) =>
      let st := updateLeadAt i (Leads.set_follow_up_paused paused) st in
      let st := updateLeadAt i (Lead.set_updated_at (Some now)) st in
      let st :=
        if paused then
          Store.update (fun d =>
            DB.set_ai_drafts
              (List.filter (fun x => negb (bool_decide (Draft.lead_id x = Lead.id lead)))
                           (DB.ai_drafts d)) d) st
        else st in
      (Store.write st, Ok200)
  end.

(** [POST /api/leads/:id/stop-sequence] (server.js 2983-3005). *)
Definition stopSequence (userId : Z) (id : string) (now : Z) (st : Store.t)
    : Store.t * Response :=
  let st := Store.read st in
  match findAt (ownsLeadNamed userId id) (DB.leads (Store.data st)) with
  | None => (st, NotFound404)
  | Some (i, lead) =>
      if negb (truthy_id (Lead.enrolled_sequence_id lead)) then (st, BadRequest400)
      else
        let st := updateLeadAt i (Lead.set_sequence_paused true) st in
        let st := updateLeadAt i (Lead.set_sequence_completed (Some true)) st in
        let st := updateLeadAt i (Lead.set_updated_at (Some now)) st in
        (Store.write st, Ok200)
  end.

(** server.js 1726-1733: the lead after its first mail went out. *)
Definition markContacted (now : Z) (l : Lead.t) : Lead.t :=
  let l := Leads.set_initial_email_sent true l in
  let l := Leads.set_initial_email_sent_date (Some now) l in
  let l := Lead.set_email_count (Lead.email_count l + 1) l in
  let l := Lead.set_last_email_sent_date (Some now) l in
  let l := Lead.set_status "contacted" l in
  let l := Leads.set_ai_paused_by_human false l in
  Lead.set_clarification_count 0%nat l.

(** server.js 1736-1750: the pending drafts of the lead are rejected.  The
    marks put on its sent drafts are fields outside [Draft.t]. *)
Definition dismissDrafts (userId : Z) (lead : Lead.t) (d : DB.t) : DB.t :=
  DB.set_ai_drafts
    (List.map (fun x =>
                 if bool_decide (Draft.lead_id x = Lead.id lead)
                    && bool_decide (Draft.user_id x = userId)
                    && (bool_decide (Draft.status x = "pending")
                        || bool_decide (Draft.status x = "sent"))
                 then
                   if bool_decide (Draft.status x = "pending")
                   then Draft.set_status "rejected" x else x
                 else x)
              (DB.ai_drafts d)) d.

(** 25 MB, the limit on the attachments of one mail (server.js 1688). *)
Definition maxAttachmentBytes : Z := 25 * 1024 * 1024.

(** [POST /api/leads/:id/send-initial-email] (server.js 1678-1777).
    [attachment_sizes] lists [att.size || 0] for the attachments of the
    request. *)
Definition sendInitialEmail (userId : Z) (id : option Z) (email_body subject : string)
    (attachment_sizes : list Z) (sendEmail_ok : bool) (now : Z) (st : Store.t)
    : Store.t * list Mail.t * Response :=
  if negb (truthy email_body) then (st, [], BadRequest400)
  else if (maxAttachmentBytes <? fold_left Z.add attachment_sizes 0)%Z
  then (st, [], BadRequest400)
  else
    let st := Store.read st in
    match findAt (ownsLeadNumbered userId id) (DB.leads (Store.data st)) with
    | None => (st, [], NotFound404)
    | Some (i, lead) =>
        match settingsOf userId (Store.data st) with
        | None => (st, [], BadRequest400)
        | Some settings =>
            if negb (truthy (Settings.email settings)) then (st, [], BadRequest400)
            else
              match List.find (fun u => bool_decide (User.id u = userId))
                              (DB.users (Store.data st)) with
              | None => (st, [], ServerError500)   (* [user.company_name] throws *)
              | Some user =>
                  let emailSubject :=
                    or_else subject
                      ("Quick question about "
                       +:+ or_else (Lead.company lead) "your business") in
                  if negb (sendEmailReturns settings sendEmail_ok)
                  then (st, [], ServerError500)
                  else
                    let st := updateLeadAt i (markContacted now) st in
                    let st := Store.update (dismissDrafts userId lead) st in
                    let st :=
                      Store.update (fun d =>
                        DB.set_email_history
                          (DB.email_history d ++
                           [History.mk (length (DB.email_history d) + 1) (Lead.id lead)
                              userId "initial" emailSubject email_body None now "sent"]) d)
                        st in
                    (Store.write st,
                     [Mail.mk (Lead.email lead) emailSubject email_body (Lead.id lead)],
                     Ok200)
              end
        end
    end.

(** The body of a lead in a creation request; an absent field is [""]. *)
Record LeadInput := {
  input_email : string;
  input_first_name : string;
  input_last_name : string;
  input_company : string;
  input_phone : string
}.

Definition pushLead (userId : Z) (x : LeadInput) (d : DB.t) : DB.t :=
  DB.set_leads
    (DB.leads d ++
     [Leads.fresh (length (DB.leads d)) userId (input_email x) (input_first_name x)
        (input_last_name x) (input_company x) (input_phone x)]) d.

(** [POST /api/leads] (server.js 564-585). *)
Definition createLead (userId : Z) (x : LeadInput) (st : Store.t) : Store.t * Response :=
  if negb (truthy (input_email x)) then (st, BadRequest400)
  else (Store.write (Store.update (pushLead userId x) (Store.read st)), Ok200).

(** The counters [{success, failed}] of the bulk import. *)
Record ImportCount := {
  success : nat;
  failed : nat
}.

(** server.js 597-618: one element of the request's array. *)
Definition importOne (userId : Z) (acc : DB.t * ImportCount) (leadData : LeadInput)
    : DB.t * ImportCount :=
  let '(d, c) := acc in
  if negb (truthy (input_email leadData))
  then (d, {| success := success c; failed := failed c + 1 |})
  else (pushLead userId leadData d, {| success := success c + 1; failed := failed c |}).

(** [POST /api/leads/bulk] (server.js 587-622); [leads] is [None] when the
    body holds no array. *)
Definition importLeads (userId : Z) (leads : option (list LeadInput)) (st : Store.t)
    : Store.t * Response * ImportCount :=
  match leads with
  | None => (st, BadRequest400, {| success := 0; failed := 0 |})
  | Some leads =>
      let st := Store.read st in
      let '(d, c) :=
        fold_left (importOne userId) leads (Store.data st, {| success := 0; failed := 0 |}) in
      (Store.write (Store.mk (Store.disk st) d), Ok200, c)
  end.

End LeadRoutes.

(** ** Settings routes *)

Section SettingsRoutes.

Import Js.

(** [POST /api/settings/auto-mode] (server.js 2364-2398).  The two
    arguments are the Booleans of the body, [None] for [undefined]; the
    legacy field [auto_send_all] is outside [User.t]. *)
Definition setAutoMode (userId : Z) (auto_mode_enabled auto_mode_include_objections : option bool)
    (st : Store.t) : Store.t * Response :=
  let st := Store.read st in
  match findIndex (fun u => bool_decide (User.id u = userId)) (DB.users (Store.data st)) with
  | None => (st, NotFound404)
  | Some k =>
      let st :=
        match auto_mode_enabled with
        | Some b => updateUserAt k (Users.set_auto_mode_enabled b) st
        | None => st
        end in
      let st :=
        match auto_mode_include_objections with
        | Some b => updateUserAt k (Users.set_auto_mode_include_objections b) st
        | None => st
        end in
      let st :=
        updateUserAt k (fun u => Users.set_email_mode
                                   (if User.auto_mode_enabled u then "AUTO" else "MANUAL") u)
                     st in
      (Store.write st, Ok200)
  end.

(** [POST /api/settings/follow-up-rules] (server.js 3055-3086);
    [follow_up_rules] is [None] and [email_mode] is [""] when the body has
    no such field. *)
Definition setFollowUpRules (userId : Z) (follow_up_rules : option (gmap string Rule.t))
    (email_mode : string) (st : Store.t) : Store.t * Response :=
  let st := Store.read st in
  match findIndex (fun u => bool_decide (User.id u = userId)) (DB.users (Store.data st)) with
  | None => (st, NotFound404)
  | Some k =>
      let st :=
        match follow_up_rules with
        | Some rules => updateUserAt k (Users.set_per_intent_settings (Some rules)) st
        | None => st
        end in
      let st :=
        if truthy email_mode then
          let st := updateUserAt k (Users.set_email_mode email_mode) st in
          updateUserAt k (Users.set_auto_mode_enabled (bool_decide (email_mode = "AUTO"))) st
        else st in
      (Store.write st, Ok200)
  end.

End SettingsRoutes.

(** ** Draft routes (server.js 4935-5089) *)

(** How [POST /api/drafts/bulk-send] ends. *)
Inductive BulkOutcome :=
| NotConfigured                                 (* 400 *)
| PendingCount (pending_count : nat)            (* 200: the count to confirm *)
| BulkSent (sent failed skipped : nat)          (* 200 *)
| BulkCrashed.                                  (* an exception left the handler *)

(** The state of the loop of the bulk send. *)
Module Bulk.
Record t := mk {
  store : Store.t;
  mails : list Mail.t;
  sent : nat;
  failed : nat;
  skipped : nat;
  crashed : bool
}.
End Bulk.

Section DraftRoutes.

Import Js Text.

(** [POST /api/drafts/:id/reject] (server.js 5000-5011). *)
Definition rejectDraft (userId : Z) (id : option Z) (st : Store.t) : Store.t * Response :=
  let st := Store.read st in
  match findIndex (ownsDraftNumbered userId id) (DB.ai_drafts (Store.data st)) with
  | Some k => (Store.write (updateDraftAt k (Draft.set_status "rejected") st), Ok200)
  | None => (st, Ok200)
  end.

(** [s.replace(/^Re:\s*/i, '')]. *)
Definition stripRe (s : string) : string :=
  match s with
  | String r (String e (String c rest)) =>
      if (bool_decide (r = "R"%char) || bool_decide (r = "r"%char))
         && (bool_decide (e = "E"%char) || bool_decide (e = "e"%char))
         && bool_decide (c = ":"%char)
      then trim_start rest else s
  | _ => s
  end.

(** server.js 4951. *)
Definition draftSubject (lead : Lead.t) : string :=
  if truthy (Lead.last_subject lead)
  then "Re: " +:+ stripRe (Lead.last_subject lead)
  else "Re: Following up".

(** server.js 4972-4976: the lead after a draft was sent by hand. *)
Definition markReplied (l : Lead.t) : Lead.t :=
  let l := Lead.set_status "replied" l in
  let l := Leads.set_ai_paused_by_human false l in
  Lead.set_clarification_count 0%nat l.

(** [POST /api/drafts/:id/send] (server.js 4935-4997); [edited_body] is
    [""] when the body has none.  The look-up of the lead evaluates
    [draft.lead_id] for the first lead it inspects, which throws when no
    draft was found.  The knowledge update changes a user field outside
    [User.t]. *)
Definition sendDraft (userId : Z) (id : option Z) (edited_body : string)
    (sendEmail_ok : bool) (now : Z) (st : Store.t)
    : Store.t * list Mail.t * Response :=
  let st := Store.read st in
  let d := Store.data st in
  match findAt (ownsDraftNumbered userId id) (DB.ai_drafts d) with
  | None =>
      match DB.leads d with
      | [] => (st, [], NotFound404)
      | _ :: _ => (st, [], Crashed)
      end
  | Some (k, draft) =>
      match settingsOf userId d,
            findAt (fun l => bool_decide (Lead.id l = Draft.lead_id draft)) (DB.leads d) with
      | Some settings, Some (i, lead) =>
          let bodyToSend := or_else edited_body (Draft.draft_body draft) in
          let emailSubject := draftSubject lead in
          if negb (sendEmailReturns settings sendEmail_ok) then (st, [], ServerError500)
          else
            let st :=
              Store.update (fun d =>
                DB.set_email_interactions
                  (DB.email_interactions d ++
                   [Interaction.mk (length (DB.email_interactions d) + 1) (Lead.id lead)
                      (Some userId) None None "sent" emailSubject bodyToSend None now]) d)
                st in
            let st := updateDraftAt k (Draft.set_status "sent") st in
            let st := updateDraftAt k (Drafts.set_sent_at (Some now)) st in
            let st := updateLeadAt i markReplied st in
            (Store.write st, [Mail.mk (Lead.email lead) emailSubject bodyToSend (Lead.id lead)],
             Ok200)
      | _, _ => (st, [], NotFound404)
      end
  end.

(** server.js 5026-5028: the drafts the bulk send works on, each with its
    position in [ai_drafts]. *)
Definition pendingDraftsOf (userId : Z) (d : DB.t) : list (nat * Draft.t) :=
  List.filter (fun kx => bool_decide (Draft.user_id (snd kx) = userId)
                         && bool_decide (Draft.status (snd kx) = "pending"))
              (imap pair (DB.ai_drafts d)).

(** server.js 5064-5079: the draft at position [k] is sent; [sendEmail_ok]
    tells, per position, whether [sendEmail] returns. *)
Definition bulkSendOne (sendEmail_ok : nat -> bool) (now : Z) (settings : Settings.t)
    (k : nat) (draft : Draft.t) (i : nat) (lead : Lead.t) (r : Bulk.t) : Bulk.t :=
  if sendEmailReturns settings (sendEmail_ok k) then
    let st := updateDraftAt k (Draft.set_status "sent") (Bulk.store r) in
    let st := updateDraftAt k (Drafts.set_sent_at (Some now)) st in
    let st := updateLeadAt i (Lead.set_status "replied") st in
    Bulk.mk st
      (Bulk.mails r ++
       [Mail.mk (Lead.email lead) "Re: Following up" (Draft.draft_body draft) (Lead.id lead)])
      (Bulk.sent r + 1) (Bulk.failed r) (Bulk.skipped r) false
  else
    Bulk.mk (Bulk.store r) (Bulk.mails r) (Bulk.sent r) (Bulk.failed r + 1)
      (Bulk.skipped r) false.

(** server.js 5050-5080: the body of the loop.  [user] is the object found
    before the loop, [None] for [undefined]: reading its flag throws. *)
Definition bulkStep (sendEmail_ok : nat -> bool) (now : Z) (user : option User.t)
    (settings : Settings.t) (r : Bulk.t) (kx : nat * Draft.t) : Bulk.t :=
  let '(k, draft) := kx in
  if Bulk.crashed r then r
  else
    match findAt (fun l => bool_decide (Lead.id l = Draft.lead_id draft))
                 (DB.leads (Store.data (Bulk.store r))) with
    | None =>
        Bulk.mk (Bulk.store r) (Bulk.mails r) (Bulk.sent r) (Bulk.failed r + 1)
          (Bulk.skipped r) false
    | Some (i, lead) =>
        if bool_decide (Draft.ai_intent draft = "OBJECTION") then
          match user with
          | None =>
              Bulk.mk (Bulk.store r) (Bulk.mails r) (Bulk.sent r) (Bulk.failed r)
                (Bulk.skipped r) true
          | Some u =>
              if negb (User.auto_mode_include_objections u)
              then Bulk.mk (Bulk.store r) (Bulk.mails r) (Bulk.sent r) (Bulk.failed r)
                     (Bulk.skipped r + 1) false
              else bulkSendOne sendEmail_ok now settings k draft i lead r
          end
        else bulkSendOne sendEmail_ok now settings k draft i lead r
    end.

(** [POST /api/drafts/bulk-send] (server.js 5014-5089); [send_all] is the
    truthiness of the body's field. *)
Definition bulkSend (userId : Z) (send_all : bool) (sendEmail_ok : nat -> bool) (now : Z)
    (st : Store.t) : Store.t * list Mail.t * BulkOutcome :=
  let st := Store.read st in
  let d := Store.data st in
  let user := List.find (fun u => bool_decide (User.id u = userId)) (DB.users d) in
  match settingsOf userId d with
  | None => (st, [], NotConfigured)
  | Some settings =>
      if negb (bool_decide (Settings.provider settings = "gmail"))
      then (st, [], NotConfigured)
      else
        let pendingDrafts := pendingDraftsOf userId d in
        if negb send_all then (st, [], PendingCount (length pendingDrafts))
        else
          let r := fold_left (bulkStep sendEmail_ok now user settings) pendingDrafts
                             (Bulk.mk st [] 0 0 0 false) in
          if Bulk.crashed r then (Bulk.store r, Bulk.mails r, BulkCrashed)
          else (Store.write (Bulk.store r), Bulk.mails r,
                BulkSent (Bulk.sent r) (Bulk.failed r) (Bulk.skipped r))
  end.

End DraftRoutes.

(** ** Inbox routes (server.js 3263-3380) *)

Section InboxRoutes.

Import Js Text.

(** [ts.sort((a, b) => new Date(b.received_at) - new Date(a.received_at))],
    a stable sort, newest first. *)
Fixpoint insertThread (t : Thread.t) (l : list Thread.t) : list Thread.t :=
  match l with
  | [] => [t]
  | x :: l' =>
      if (Thread.received_at t <? Thread.received_at x)%Z
      then x :: insertThread t l'
      else t :: l
  end.

Fixpoint newestFirst (l : list Thread.t) : list Thread.t :=
  match l with
  | [] => []
  | t :: l' => insertThread t (newestFirst l')
  end.

(** [GET /api/emails/notifications] (server.js 3263-3301): the threads the
    response is built from, in its order. *)
Definition notifications (userId : Z) (st : Store.t) : Store.t * list Thread.t :=
  let st := Store.read st in
  (st, newestFirst
         (List.filter (fun t => bool_decide (Thread.user_id t = userId)
                                && negb (Thread.notified t))
                      (DB.email_threads (Store.data st)))).

(** server.js 3315-3323: one element of [threadIds]. *)
Definition markOne (userId : Z) (acc : DB.t * nat) (threadId : nat) : DB.t * nat :=
  let '(d, updatedCount) := acc in
  match findIndex (fun t => bool_decide (Thread.id t = threadId)
                            && bool_decide (Thread.user_id t = userId))
                  (DB.email_threads d) with
  | Some k =>
      (DB.set_email_threads (alter (Threads.set_notified true) k (DB.email_threads d)) d,
       (updatedCount + 1)%nat)
  | None => (d, updatedCount)
  end.

(** [POST /api/emails/mark-notified] (server.js 3304-3335), with the count
    [updated] of the response; [threadIds] is [None] when the body holds no
    array. *)
Definition markNotified (userId : Z) (threadIds : option (list nat)) (st : Store.t)
    : Store.t * Response * nat :=
  match threadIds with
  | None => (st, BadRequest400, 0%nat)
  | Some threadIds =>
      let st := Store.read st in
      let '(d, updatedCount) := fold_left (markOne userId) threadIds (Store.data st, 0%nat) in
      (Store.write (Store.mk (Store.disk st) d), Ok200, updatedCount)
  end.

(** server.js 3355: the key under which two threads count as duplicates. *)
Definition threadKey (t : Thread.t) : string :=
  of_int (Thread.lead_id t) +:+ "_" +:+ Thread.subject t +:+ "_"
  +:+ String.substring 0 100 (Thread.body t).

(** server.js 3345-3363: the threads that are kept, [seen] being the keys
    met so far. *)
Fixpoint uniqueThreads (userId : Z) (seen : list string) (threads : list Thread.t)
    : list Thread.t :=
  match threads with
  | [] => []
  | thread :: rest =>
      if negb (bool_decide (Thread.user_id thread = userId))
      then thread :: uniqueThreads userId seen rest
      else if negb (bool_decide (threadKey thread ∈ seen))
      then thread :: uniqueThreads userId (threadKey thread :: seen) rest
      else uniqueThreads userId seen rest
  end.

(** [POST /api/emails/cleanup-duplicates] (server.js 3338-3380), with the
    count [removed] of the response. *)
Definition cleanupDuplicates (userId : Z) (st : Store.t) : Store.t * Response * nat :=
  let st := Store.read st in
  let beforeCount := length (DB.email_threads (Store.data st)) in
  let unique := uniqueThreads userId [] (DB.email_threads (Store.data st)) in
  (Store.write (Store.update (DB.set_email_threads unique) st), Ok200,
   (beforeCount - length unique)%nat).

End InboxRoutes.

(** ** Sequence creation (server.js 647-681) *)

(** One step of the request; an absent field is [""], an absent delay 0. *)
Record StepInput := {
  step_delay_days : Z;
  step_delay_unit : string;
  step_subject : string;
  step_email_template : string
}.

Section SequenceRoutes.

Import Js.

(** server.js 665-675: the step stored for the element at position [index]. *)
Definition newStep (seqId : Z) (index : nat) (step : StepInput) : Step.t :=
  Step.mk seqId (Z.of_nat index + 1) (step_delay_days step)
    (Some (or_else (step_delay_unit step) "days")) (step_subject step)
    (step_email_template step).

(** [POST /api/sequences] (server.js 647-681); [steps] is [None] when the
    body holds no array.  The owner and the description of the sequence
    are fields outside [Sequence.t]. *)
Definition createSequence (name : string) (steps : option (list StepInput)) (st : Store.t)
    : Store.t * Response :=
  if negb (truthy name) then (st, BadRequest400)
  else
    let st := Store.read st in
    let seqId := (Z.of_nat (length (DB.sequences (Store.data st))) + 1)%Z in
    let st :=
      Store.update (fun d => DB.set_sequences (DB.sequences d ++ [Sequence.mk seqId name true]) d)
                   st in
    let st :=
      match steps with
      | Some steps =>
          Store.update (fun d =>
            DB.mk (DB.users d) (DB.leads d) (DB.email_settings d) (DB.product_profiles d)
              (DB.ai_drafts d) (DB.ab_results d) (DB.email_history d)
              (DB.email_interactions d) (DB.email_threads d) (DB.appointments d)
              (DB.sequences d) (DB.sequence_steps d ++ imap (newStep seqId) steps)) st
      | None => st
      end in
    (Store.write st, Ok200).

End SequenceRoutes.

(** ** Vocabulary of the further statements *)

Section MoreVocabulary.

Import Js Text.

(** The draft [d] needs no action, is of the lead of [x] and is newer. *)
Definition supersedes (x d : Draft.t) : bool :=
  negb (needsAction d)
  && bool_decide (Draft.lead_id d = Draft.lead_id x)
  && (Draft.created_at x <? Draft.created_at d)%Z.

(** A pending draft of the Action Required queue that a pending draft of
    [drafts] supersedes. *)
Definition superseded (drafts : list Draft.t) (x : Draft.t) : bool :=
  bool_decide (Draft.status x = "pending")
  && needsAction x
  && existsb (supersedes x)
             (List.filter (fun d => bool_decide (Draft.status d = "pending")) drafts).

(** The conditions under which a reply handler answers the message [m] by
    the mail [mail], [d] being the persisted data when the handler starts:
    the sender is a lead of the user, the user is in auto mode, the lead
    did not opt out, the transport works; the mail goes to the lead, under
    the subject of the message, and its body is not blank. *)
Definition answeredBy (gmail : bool) (userId : Z) (m : Inbound.t) (env : ReplyEnv.t)
    (d : DB.t) (mail : Mail.t) : Prop :=
  exists i lead u,
    findIndex (matchesLead userId (Inbound.from m)) (DB.leads d) = Some i
    /\ DB.leads d !! i = Some lead
    /\ List.find (fun u => bool_decide (User.id u = userId)) (DB.users d) = Some u
    /\ autoModeOf gmail u = true
    /\ Lead.auto_send_enabled lead <> Some false
    /\ ReplyEnv.sendEmail_ok env = true
    /\ Mail.to mail = Lead.email lead
    /\ Mail.lead_id mail = Lead.id lead
    /\ Mail.subject mail = "Re: " +:+ Inbound.subject m
    /\ truthy (trim (Mail.body mail)) = true.

(** The ids of the leads are their ranks: the lead at position [i] carries
    the id [i + 1], as the creation routes assign them. *)
Definition numbered (leads : list Lead.t) : Prop :=
  forall i l, leads !! i = Some l -> Lead.id l = (Z.of_nat i + 1)%Z.

(** A draft that [bulk-send] works on: pending and of the user
    (server.js 5026-5028). *)
Definition pendingFor (userId : Z) (x : Draft.t) : bool :=
  bool_decide (Draft.user_id x = userId) && bool_decide (Draft.status x = "pending").

(** A thread of the user. *)
Definition ownThread (userId : Z) (t : Thread.t) : bool :=
  bool_decide (Thread.user_id t = userId).

(** The test of the look-up in [mark-notified] (server.js 3316-3318). *)
Definition ownedThread (userId : Z) (tid : nat) (t : Thread.t) : bool :=
  bool_decide (Thread.id t = tid) && bool_decide (Thread.user_id t = userId).

(** A thread after the ids [ids] were posted to [mark-notified] by the
    user, when every id names at most one thread. *)
Definition markAll (userId : Z) (ids : list nat) (t : Thread.t) : Thread.t :=
  if bool_decide (Thread.id t ∈ ids) && bool_decide (Thread.user_id t = userId)
  then Threads.set_notified true t else t.

(** ** One turn of the cadence scheduler

    The body of the loop over the users runs the loop body over the leads
    of the user and ends with the only [db.write()] of the turn
    (server.js 5120-5304). *)

(** The loop over [userLeads]. *)
Definition sweepLeads (env : CadenceEnv.t) (user : User.t) (leads : list Lead.t)
    (acc : Store.t * list Mail.t) : Store.t * list Mail.t :=
  fold_left (fun acc lead =>
               let '(st', sent') := followUpLead env user lead (fst acc) in
               (st', snd acc ++ sent'))
            leads acc.

(** The loop body does nothing with the lead: a guard skips it, no rule
    governs its intent, it has no date, or the delay of its rule has not
    elapsed (server.js 5122-5181). *)
Definition atRest (env : CadenceEnv.t) (user : User.t) (lead : Lead.t) : bool :=
  skipsLead env user lead
  || match rulesOf user !! governingIntent lead, lastEmailDate lead with
     | Some rules, Some t => negb (delayMs rules <=? CadenceEnv.now env - t)%Z
     | _, _ => true
     end.

(** The loop body calls [generateFollowUpEmail] for the lead, whose first
    statement is [db.read()]: the lead passes the guards, its delay has
    elapsed, attempts are left, and the lead of its id is not paused in
    [d] (server.js 5181-5194). *)
Definition callsGenerator (env : CadenceEnv.t) (user : User.t) (lead : Lead.t) (d : DB.t)
    : bool :=
  negb (skipsLead env user lead)
  && match rulesOf user !! governingIntent lead, lastEmailDate lead with
     | Some rules, Some t =>
         (delayMs rules <=? CadenceEnv.now env - t)%Z
         && (Lead.follow_up_count lead <? Rule.max_attempts rules)%nat
     | _, _ => false
     end
  && negb (pausedNow lead d).

(** The loop over the users (server.js 5098-5307). *)
Definition sweepUsers (env : CadenceEnv.t) (users : list User.t)
    (acc : Store.t * list Mail.t) : Store.t * list Mail.t :=
  fold_left (fun acc user =>
               let '(st', sent') := followUpUser env user (fst acc) in
               (st', snd acc ++ sent'))
            users acc.

(** What the scheduler never changes of a lead, and what it never reads
    of a user. *)
Definition leadKey (l : Lead.t) : Z * Z * bool :=
  (Lead.id l, Lead.user_id l, Lead.follow_up_paused l).

Definition userKey (u : User.t) : User.t := User.set_ai_generations_this_month 0 u.

(** What the scheduler leaves of a database [d] in a database [d'] made
    from it: the leads keep their places, ids, owners and pause flags, the
    mail settings are the same, the users differ by their generation
    counters at most, and the drafts of [d] come first. *)
Definition evolves (d d' : DB.t) : Prop :=
  leadKey <$> DB.leads d' = leadKey <$> DB.leads d
  /\ DB.email_settings d' = DB.email_settings d
  /\ userKey <$> DB.users d' = userKey <$> DB.users d
  /\ exists more, DB.ai_drafts d' = DB.ai_drafts d ++ more.

(** [db.data] is made from the file in this way. *)
Definition inStep (st : Store.t) : Prop := evolves (Store.disk st) (Store.data st).

(** [d'] holds the leads of user [userId] as [d] holds them. *)
Definition sameLeadsOf (userId : Z) (d d' : DB.t) : Prop :=
  forall idx l, DB.leads d !! idx = Some l -> Lead.user_id l = userId ->
                DB.leads d' !! idx = Some l.

(** [user] is one of the users of [d], the only one of its id, and has
    mail settings with an address; the leads of [d] have distinct ids.
    The sweep then gives [user] one turn, over the leads [userLeads]. *)
Definition hasTurn (user : User.t) (userLeads : list Lead.t) (d : DB.t) : Prop :=
  (exists before after,
     DB.users d = before ++ user :: after
     /\ forall u, u ∈ before ++ after -> User.id u <> User.id user)
  /\ NoDup (Lead.id <$> DB.leads d)
  /\ (exists settings,
        List.find (fun s => bool_decide (Settings.user_id s = User.id user))
                  (DB.email_settings d) = Some settings
        /\ truthy (Settings.email settings) = true)
  /\ List.filter (fun l => bool_decide (Lead.user_id l = User.id user)) (DB.leads d)
     = userLeads.

(** The lead is due and its follow-up is sent at once: the guards pass,
    the delay of the rule has elapsed, attempts are left, the generator
    returns a text, the owner is in auto mode, the intent is eligible and
    the transport works (server.js 5122-5237). *)
Definition sendsFollowUp (env : CadenceEnv.t) (user : User.t) (lead : Lead.t) : Prop :=
  skipsLead env user lead = false
  /\ (exists rules t,
        rulesOf user !! governingIntent lead = Some rules
        /\ lastEmailDate lead = Some t
        /\ (delayMs rules <= CadenceEnv.now env - t)%Z
        /\ (Lead.follow_up_count lead < Rule.max_attempts rules)%nat)
  /\ truthy (followUpText (CadenceEnv.ai env (Lead.id lead)) lead) = true
  /\ User.auto_mode_enabled user && intentAllowedInAuto user (governingIntent lead) = true
  /\ CadenceEnv.sendEmail_ok env (Lead.id lead) = true.

(** The lead is due and its attempts are used up under [rules]
    (server.js 5122-5183, 5281). *)
Definition usedUp (env : CadenceEnv.t) (user : User.t) (lead : Lead.t) (rules : Rule.t)
    : Prop :=
  skipsLead env user lead = false
  /\ rulesOf user !! governingIntent lead = Some rules
  /\ (exists t, lastEmailDate lead = Some t /\ (delayMs rules <= CadenceEnv.now env - t)%Z)
  /\ (Rule.max_attempts rules <= Lead.follow_up_count lead)%nat.

(** server.js 5240-5245: the bookkeeping of a follow-up that was sent. *)
Definition countFollowUp (followUpCount : nat) (now : Z) (l : Lead.t) : Lead.t :=
  Lead.set_last_email_sent_date (Some now)
    (Lead.set_email_count (Lead.email_count l + 1)
       (Lead.set_follow_up_count (followUpCount + 1) l)).

End MoreVocabulary.

(** ** More sample data *)

Module MoreSample.

(** A DEAD lead whose one attempt is used up. *)
Definition spentDeadAlice : Lead.t := Lead.set_follow_up_count 1 Sample.deadAlice.

(** An INTERESTED lead whose five attempts are used up. *)
Definition spentInterestedAlice : Lead.t :=
  Lead.set_follow_up_count 5 (Lead.set_ai_intent (Some "INTERESTED") Sample.alice).

(** The first lead of a user, as [POST /api/leads] stores it. *)
Definition bob : Lead.t := Leads.fresh 0 1 "bob@example.com" "Bob" "Ray" "Birch" "".

Definition bobStore : Store.t := Sample.storeOf Sample.owner bob.

(** Two rows of an import, the second without an address. *)
Definition carolRow : LeadInput :=
  {| input_email := "carol@example.com"; input_first_name := "Carol";
     input_last_name := ""; input_company := ""; input_phone := "" |}.

Definition blankRow : LeadInput :=
  {| input_email := ""; input_first_name := "Dan";
     input_last_name := ""; input_company := ""; input_phone := "" |}.

(** A store whose file holds the running sequence of [Sample]. *)
Definition sequenceStore : Store.t := Store.mk Sample.sequenceDb DB.empty.

Definition twoSteps : list StepInput :=
  [ {| step_delay_days := 0; step_delay_unit := ""; step_subject := "Hello";
       step_email_template := "Hi {{first_name}}" |};
    {| step_delay_days := 2; step_delay_unit := "hours"; step_subject := "Again";
       step_email_template := "Still there?" |} ].

(** Three stored messages, the last one of another user. *)
Definition inboxThreads : list Thread.t :=
  [ Thread.mk 1 None 7 1 "alice@example.com" "Price" "That is too expensive for us" 100
      "OBJECTION" false;
    Thread.mk 2 None 7 1 "alice@example.com" "Price" "Can you do better?" 200
      "INTERESTED" false;
    Thread.mk 3 None 9 2 "zoe@example.com" "Hello" "Not now" 150 "NOT_NOW" false ].

Definition inbox : Store.t :=
  Store.mk (DB.mk [Sample.owner] [Sample.alice] [Sample.settings] [Sample.profile]
              [] [] [] [] inboxThreads [] [] []) DB.empty.

(** A second lead of the same user, as old as [Sample.alice]. *)
Definition bella : Lead.t :=
  Lead.mk 8 1 "bella@example.com" "Bella" "Roe" "Birch" (Some "GHOSTING") "" "contacted"
    None 0 None None false 0 1 true (Some 0%Z) (Some 0%Z) None false false 0 0
    "" None "" None "".

(** The same lead, mailed one day before [Sample.cadenceEnv]. *)
Definition recentBella : Lead.t :=
  Lead.set_last_email_sent_date (Some (30 * Sample.day)%Z) bella.

(** A store just opened on a file with one user and two leads. *)
Definition storeOfTwo (u : User.t) (l1 l2 : Lead.t) : Store.t :=
  Store.mk (DB.mk [u] [l1; l2] [Sample.settings] [Sample.profile] [] [] [] [] [] [] [] [])
           DB.empty.

(** One day after [Sample.cadenceEnv]. *)
Definition nextDayEnv : CadenceEnv.t :=
  CadenceEnv.mk (32 * Sample.day) (fun _ => AiOk "Hi Alice, just checking in.") (fun _ => true).




End MoreSample.

(** * Properties *)

(** ** Strings *)

Section JsFacts.

Import Js.

Lemma truthy_true (s : string) : truthy s = true <-> s <> "".
Proof.
  unfold truthy. rewrite negb_true_iff, bool_decide_eq_false. reflexivity.
Qed.

Lemma trim_end_idem (s : string) : trim_end (trim_end s) = trim_end s.
Proof.
  induction s as [|c s IH]; [reflexivity|].
  simpl. destruct (is_space c) eqn:Hc; simpl.
  - case_bool_decide as Ht; simpl; [reflexivity|].
    rewrite Hc, IH. simpl. rewrite bool_decide_eq_false_2 by exact Ht. reflexivity.
  - rewrite Hc, IH. reflexivity.
Qed.

(** What [trim_start] returns is empty or begins with a visible unit. *)
Lemma trim_start_head (s : string) :
  trim_start s = "" \/ exists c t, trim_start s = String c t /\ is_space c = false.
Proof.
  induction s as [|c s IH]; [left; reflexivity|].
  simpl. destruct (is_space c) eqn:Hc; [exact IH|].
  right. exists c, s. split; [reflexivity|exact Hc].
Qed.

Lemma trim_visible_head (c : ascii) (t : string) :
  is_space c = false -> trim (String c t) = String c (trim_end t).
Proof. intros Hc. unfold trim. simpl. rewrite Hc. simpl. rewrite Hc. reflexivity. Qed.

Lemma trim_idem (s : string) : trim (trim s) = trim s.
Proof.
  unfold trim.
  destruct (trim_start_head s) as [H | (c & t & H & Hc)]; rewrite H.
  - reflexivity.
  - simpl. rewrite Hc. simpl. rewrite Hc. simpl. rewrite Hc.
    rewrite trim_end_idem. reflexivity.
Qed.

(** A text that begins with a visible unit passes the blank-mail guard
    [draft && draft.trim()]. *)
Lemma visible_head_not_blank (c : ascii) (t : string) :
  is_space c = false ->
  truthy (String c t) && truthy (trim (String c t)) = true.
Proof. intros Hc. rewrite (trim_visible_head c t Hc). reflexivity. Qed.

End JsFacts.

(** ** Response generator *)

Section GeneratorFacts.

Import Js.

(** Whatever the model does, the generator returns a body that passes the
    blank-mail guard of the reply handlers. *)
Lemma aiResponse_body_not_blank ai lead pp rep intent :
  let body := AiResult.body (aiResponse ai lead pp rep intent) in
  truthy body && truthy (trim body) = true.
Proof.
  unfold aiResponse.
  destruct (negb (hasProductInfo pp) && _) eqn:Hgate; simpl.
  { apply visible_head_not_blank. reflexivity. }
  destruct ai as [text| |]; simpl.
  - destruct (truthy (aiBodyOf text)) eqn:Hb; simpl.
    + unfold aiBodyOf in *. rewrite trim_idem, Hb. reflexivity.
    + apply visible_head_not_blank. reflexivity.
  - unfold fallbackBody. repeat case_bool_decide; try destruct rep;
      apply visible_head_not_blank; reflexivity.
  - unfold fallbackBody. repeat case_bool_decide; try destruct rep;
      apply visible_head_not_blank; reflexivity.
Qed.

(** The clarification flag depends on the model's answer, the product
    profile and the intent only. *)
Lemma aiResponse_flag ai lead lead' pp rep rep' intent :
  AiResult.clarification_needed (aiResponse ai lead pp rep intent)
  = AiResult.clarification_needed (aiResponse ai lead' pp rep' intent).
Proof.
  unfold aiResponse.
  destruct (negb (hasProductInfo pp) && _); [reflexivity|].
  destruct ai as [text| |]; [|reflexivity..].
  destruct (negb (truthy (aiBodyOf text))); reflexivity.
Qed.

(** C7, as the code has it.  When the model is called (the product-info
    gate of server.js 4511 did not fire) and its answer is empty or blank
    once the tag is removed, [generateAIResponse] returns the fixed
    holding message, which is not blank; [clarification_needed] is [true]
    for every intent but INTERESTED, and [false] for INTERESTED. *)
Theorem empty_body_gets_holding_reply text lead intent st :
  negb (hasProductInfo (productProfileOf lead (Store.disk st)))
    && (bool_decide (intent = "INTERESTED") || bool_decide (intent = "OBJECTION")) = false ->
  aiBodyOf text = "" ->
  snd (generateAIResponse (AiOk text) lead intent st)
    = AiResult.mk (holdingBody lead) (negb (bool_decide (intent = "INTERESTED")))
  /\ truthy (holdingBody lead) && truthy (trim (holdingBody lead)) = true.
Proof.
  intros Hcalled Hblank. split.
  - unfold generateAIResponse, aiResponse. simpl.
    rewrite Hcalled, Hblank. simpl. f_equal.
    destruct (bool_decide (intent = "INTERESTED")) eqn:Hi; [|reflexivity].
    simpl in Hcalled. rewrite andb_true_r in Hcalled.
    apply negb_false_iff in Hcalled. rewrite Hcalled. reflexivity.
  - reflexivity.
Qed.

Lemma empty_body_gets_holding_reply_witness :
  negb (hasProductInfo (productProfileOf Sample.alice
                          (Store.disk (Sample.storeOf Sample.owner Sample.alice))))
    && (bool_decide ("NOT_NOW" = "INTERESTED") || bool_decide ("NOT_NOW" = "OBJECTION")) = false
  /\ aiBodyOf "  [NEEDS_CLARIFICATION] " = ""
  /\ snd (generateAIResponse (AiOk "  [NEEDS_CLARIFICATION] ") Sample.alice "NOT_NOW"
            (Sample.storeOf Sample.owner Sample.alice))
     = AiResult.mk (holdingBody Sample.alice) true.
Proof.
  split; [reflexivity|]. split; [reflexivity|].
  apply (empty_body_gets_holding_reply "  [NEEDS_CLARIFICATION] " Sample.alice "NOT_NOW"
           (Sample.storeOf Sample.owner Sample.alice)); reflexivity.
Defined.

(** C7 as stated fails: for an INTERESTED lead whose owner filled in the
    product profile, a blank answer of the model yields the holding
    message with [clarification_needed = false]. *)
Lemma blank_body_interested_not_flagged :
  aiBodyOf "   " = ""
  /\ hasProductInfo (productProfileOf Sample.alice
                       (Store.disk (Sample.storeOf Sample.owner Sample.alice))) = true
  /\ snd (generateAIResponse (AiOk "   ") Sample.alice "INTERESTED"
            (Sample.storeOf Sample.owner Sample.alice))
     = AiResult.mk (holdingBody Sample.alice) false.
Proof. repeat split. Qed.

End GeneratorFacts.

(** ** Arrays *)

Section ArrayFacts.

Lemma fmap_alter_keeps {K} (k : Lead.t -> K) f i (ls : list Lead.t) :
  keeps k f -> k <$> alter f i ls = k <$> ls.
Proof.
  intros Hk. revert i. induction ls as [|l ls IH]; intros [|i]; simpl; try reflexivity.
  - f_equal. apply Hk.
  - f_equal. apply IH.
Qed.

Lemma findIndex_lookup {A} (p : A -> bool) (xs : list A) k :
  findIndex p xs = Some k -> exists x, xs !! k = Some x /\ p x = true.
Proof.
  revert k. induction xs as [|y xs IH]; intros k; simpl; [discriminate|].
  destruct (p y) eqn:Hy.
  - intros [= <-]. eauto.
  - destruct (findIndex p xs) as [k'|]; [|discriminate].
    simpl. intros [= <-]. apply IH. reflexivity.
Qed.

Lemma find_findIndex {A} (p : A -> bool) (xs : list A) x :
  List.find p xs = Some x -> exists k, findIndex p xs = Some k /\ xs !! k = Some x.
Proof.
  induction xs as [|y xs IH]; simpl; [discriminate|].
  destruct (p y).
  - intros [= ->]. exists 0%nat. auto.
  - intros H. destruct (IH H) as (k & -> & Hk). exists (S k). auto.
Qed.

Lemma find_alter_same {A} (p : A -> bool) (f : A -> A) (xs : list A) k x :
  (forall y, p (f y) = p y) ->
  findIndex p xs = Some k -> xs !! k = Some x ->
  List.find p (alter f k xs) = Some (f x).
Proof.
  intros Hp. revert k. induction xs as [|y xs IH]; intros k; simpl; [discriminate|].
  destruct (p y) eqn:Hy.
  - intros [= <-] [= ->]. simpl. rewrite Hp, Hy. reflexivity.
  - destruct (findIndex p xs) as [k'|] eqn:Hk; [|discriminate].
    simpl. intros [= <-] Hx. simpl. rewrite Hy. apply (IH k'); auto.
Qed.

Lemma alter_out_of_range {A} (f : A -> A) (xs : list A) i :
  (length xs <= i)%nat -> alter f i xs = xs.
Proof.
  revert i. induction xs as [|x xs IH]; intros [|i] H; simpl in *;
    try reflexivity; try lia.
  f_equal. apply IH. lia.
Qed.


End ArrayFacts.

(** ** Reply ingestion *)

Section ReplyFacts.
Import Js.

(** A detached [lead] takes every later assignment with it: dispatch
    leaves the stored leads as they are and ends with [db.write()]. *)
Lemma dispatchReply_detached gmail userId m env isAutoMode draft clar c :
  Ctx.live c = None ->
  let '(c', _, _) := dispatchReply gmail userId m env isAutoMode draft clar c in
  DB.leads (Ctx.data c') = DB.leads (Ctx.data c)
  /\ Store.disk (Ctx.store c') = Ctx.data c'
  /\ Ctx.live c' = None.
Proof.
  destruct c as [st lead live]. simpl. intros ->.
  unfold dispatchReply. simpl.
  repeat match goal with
         | |- context [if ?b then _ else _] => destruct b
         end; simpl; auto.
Qed.

Lemma replyToLead_keeps_leads gmail userId m env c :
  Store.disk (Ctx.store c) = Ctx.data c ->
  let '(c', _, _) := replyToLead gmail userId m env c in
  DB.leads (Ctx.data c') = DB.leads (Ctx.data c)
  /\ DB.leads (Store.disk (Ctx.store c')) = DB.leads (Ctx.data c).
Proof.
  intros Hsync. unfold replyToLead.
  destruct (List.find _ (DB.ai_drafts (Ctx.data c))) as [existing|]; simpl.
  { rewrite Hsync. auto. }
  set (c1 := Ctx.mk (Store.read (Ctx.store c)) (Ctx.lead c) None).
  set (c2 := if gmail then _ else c1).
  assert (Hc2 : DB.leads (Ctx.data c2) = DB.leads (Ctx.data c)
                /\ DB.leads (Store.disk (Ctx.store c2)) = DB.leads (Ctx.data c)
                /\ Ctx.live c2 = None).
  { subst c2 c1. unfold Ctx.data in *. destruct gmail; simpl.
    - destruct (findIndex _ _); simpl; rewrite Hsync; auto.
    - rewrite Hsync. auto. }
  destruct Hc2 as (Hdata & Hdisk & Hlive).
  destruct (truthy _ && truthy _); [|auto].
  match goal with
  | |- context [dispatchReply ?g ?u ?m ?e ?a ?d ?k ?c] =>
      pose proof (dispatchReply_detached g u m e a d k c Hlive) as Hd;
      destruct (dispatchReply g u m e a d k c) as [[c' sent] outcome]
  end.
  destruct Hd as (Hd1 & Hd2 & _). rewrite Hd2, Hd1. auto.
Qed.

Lemma autoPauseSequence_keeps {K} (k : Lead.t -> K) : stable k -> keeps k autoPauseSequence.
Proof.
  intros (Hp & _ & _) l. unfold autoPauseSequence.
  destruct (_ && _); [apply Hp | reflexivity].
Qed.

Lemma trackVariantReply_frame userId a lead d :
  exists rs, trackVariantReply userId a lead d = DB.set_ab_results rs d.
Proof.
  unfold trackVariantReply.
  repeat case_match; eauto; exists (DB.ab_results d); destruct d; reflexivity.
Qed.

Lemma detectAppointment_spec userId env c i :
  Store.disk (Ctx.store c) = Ctx.data c ->
  Ctx.live c = Some i ->
  DB.leads (Ctx.data c) !! i = Some (Ctx.lead c) ->
  let c' := detectAppointment userId env c in
  Store.disk (Ctx.store c') = Ctx.data c'
  /\ Ctx.live c' = Some i
  /\ DB.leads (Ctx.data c') !! i = Some (Ctx.lead c')
  /\ sameConfig (Ctx.data c) (Ctx.data c')
  /\ (forall K (k : Lead.t -> K), stable k ->
        k <$> DB.leads (Ctx.data c') = k <$> DB.leads (Ctx.data c)).
Proof.
  intros Hsync Hlive Hobj. unfold detectAppointment.
  destruct (ReplyEnv.aptDetected env) as [a|]; [|unfold sameConfig; auto 10].
  destruct (existsb _ _); [unfold sameConfig; auto 10|].
  destruct c as [st lead live]. unfold Ctx.data in *. simpl in *. subst live.
  destruct (findIndex _ _) as [lIdx|]; simpl.
  - repeat split; try reflexivity.
    + case_bool_decide as Hi.
      * inversion Hi; subst lIdx. rewrite list_lookup_alter_eq, Hobj. reflexivity.
      * rewrite list_lookup_alter_ne by congruence. exact Hobj.
    + intros K k (_ & Hs & Hu). apply fmap_alter_keeps.
      intros l. rewrite Hu. apply Hs.
  - repeat split; try reflexivity. exact Hobj.
Qed.

Lemma ingestGmailReply_spec userId m env st lead i :
  DB.leads (Store.data st) !! i = Some lead ->
  let c := ingestGmailReply userId m env (Ctx.mk st lead (Some i)) in
  let R := recordReply (ReplyEnv.analysis env) (Inbound.body m) (Inbound.subject m)
             (ReplyEnv.now env) in
  Store.disk (Ctx.store c) = Ctx.data c
  /\ Ctx.live c = Some i
  /\ DB.leads (Ctx.data c) !! i = Some (Ctx.lead c)
  /\ sameConfig (Store.data st) (Ctx.data c)
  /\ (forall K (k : Lead.t -> K), stable k ->
        k <$> DB.leads (Ctx.data c) = k <$> alter R i (DB.leads (Store.data st))).
Proof.
  intros Hobj c R. subst c. unfold ingestGmailReply.
  match goal with
  | |- context [detectAppointment userId env ?x] => set (c0 := x)
  end.
  assert (H0 : Store.disk (Ctx.store c0) = Ctx.data c0
               /\ Ctx.live c0 = Some i
               /\ DB.leads (Ctx.data c0) !! i = Some (Ctx.lead c0)
               /\ sameConfig (Store.data st) (Ctx.data c0)
               /\ DB.leads (Ctx.data c0)
                  = alter autoPauseSequence i (alter R i (DB.leads (Store.data st)))).
  { subst c0. unfold Ctx.data. simpl.
    match goal with
    | |- context [trackVariantReply ?u ?a ?l ?d] =>
        destruct (trackVariantReply_frame u a l d) as [rs ->]
    end.
    simpl. unfold sameConfig. simpl. repeat split; try reflexivity.
    rewrite !list_lookup_alter_eq, Hobj. reflexivity. }
  destruct H0 as (Hsync & Hlive & Hlk & Hcfg & Hleads).
  destruct (detectAppointment_spec userId env c0 i Hsync Hlive Hlk)
    as (Hsync' & Hlive' & Hlk' & Hcfg' & Hk').
  split; [assumption|]. split; [assumption|]. split; [assumption|]. split.
  - destruct Hcfg as (? & ? & ? & ?), Hcfg' as (? & ? & ? & ?).
    unfold sameConfig. repeat split; congruence.
  - intros K k Hst. rewrite (Hk' K k Hst), Hleads.
    apply fmap_alter_keeps, autoPauseSequence_keeps, Hst.
Qed.

Lemma ingestImapReply_spec userId m env st lead i :
  DB.leads (Store.data st) !! i = Some lead ->
  let c := ingestImapReply userId m env (Ctx.mk st lead (Some i)) in
  let R := recordReply (ReplyEnv.analysis env) (Inbound.body m) (Inbound.subject m)
             (ReplyEnv.now env) in
  Store.disk (Ctx.store c) = Ctx.data c
  /\ Ctx.live c = Some i
  /\ DB.leads (Ctx.data c) !! i = Some (Ctx.lead c)
  /\ sameConfig (Store.data st) (Ctx.data c)
  /\ (forall K (k : Lead.t -> K), stable k ->
        k <$> DB.leads (Ctx.data c) = k <$> alter R i (DB.leads (Store.data st))).
Proof.
  intros Hobj c R. subst c. unfold ingestImapReply, Ctx.data. simpl.
  match goal with
  | |- context [trackVariantReply ?u ?a ?l ?d] =>
      destruct (trackVariantReply_frame u a l d) as [rs ->]
  end.
  simpl. unfold sameConfig. simpl. repeat split; try reflexivity.
  rewrite list_lookup_alter_eq, Hobj. reflexivity.
Qed.

Lemma leadField_of_fmap {K} (k : Lead.t -> K) d i f ls lead :
  k <$> DB.leads d = k <$> alter f i ls ->
  ls !! i = Some lead ->
  leadField k d i = Some (k (f lead)).
Proof.
  intros Heq Hlk. unfold leadField.
  rewrite <- list_lookup_fmap, Heq, list_lookup_fmap, list_lookup_alter_eq, Hlk.
  reflexivity.
Qed.

(** After a Gmail message was handled, a stable field of the lead it came
    from is, in [db.data] and in the file, what [recordReply] made of it:
    nothing that the dispatch assigns to [lead] reaches the store. *)
Lemma processGmailMessage_field {K} (k : Lead.t -> K) userId m env st i lead :
  stable k ->
  findIndex (matchesLead userId (Inbound.from m)) (DB.leads (Store.disk st)) = Some i ->
  DB.leads (Store.disk st) !! i = Some lead ->
  alreadyProcessed m (Store.disk st) = false ->
  let r := processGmailMessage userId m env st in
  let R := recordReply (ReplyEnv.analysis env) (Inbound.body m) (Inbound.subject m)
             (ReplyEnv.now env) in
  leadField k (Store.data (ReplyResult.store r)) i = Some (k (R lead))
  /\ leadField k (Store.disk (ReplyResult.store r)) i = Some (k (R lead)).
Proof.
  intros Hst Hfind Hlk Hnew r R. subst r.
  unfold processGmailMessage. simpl. rewrite Hfind, Hlk, Hnew.
  destruct (ingestGmailReply_spec userId m env (Store.read st) lead i Hlk)
    as (Hsync & _ & _ & _ & Hk).
  pose proof (replyToLead_keeps_leads true userId m env _ Hsync) as Hreply.
  destruct (replyToLead true userId m env _) as [[c' sent] outcome].
  destruct Hreply as (Hdata & Hdisk). simpl.
  split; eapply leadField_of_fmap; try exact Hlk.
  - unfold Ctx.data in Hdata. rewrite Hdata. apply Hk, Hst.
  - rewrite Hdisk. apply Hk, Hst.
Qed.

Lemma processImapMessage_field {K} (k : Lead.t -> K) userId m env st i lead :
  stable k ->
  findIndex (matchesLead userId (Inbound.from m)) (DB.leads (Store.disk st)) = Some i ->
  DB.leads (Store.disk st) !! i = Some lead ->
  let r := processImapMessage userId m env st in
  let R := recordReply (ReplyEnv.analysis env) (Inbound.body m) (Inbound.subject m)
             (ReplyEnv.now env) in
  leadField k (Store.data (ReplyResult.store r)) i = Some (k (R lead))
  /\ leadField k (Store.disk (ReplyResult.store r)) i = Some (k (R lead)).
Proof.
  intros Hst Hfind Hlk r R. subst r.
  unfold processImapMessage. simpl. rewrite Hfind, Hlk.
  destruct (ingestImapReply_spec userId m env (Store.read st) lead i Hlk)
    as (Hsync & _ & _ & _ & Hk).
  pose proof (replyToLead_keeps_leads false userId m env _ Hsync) as Hreply.
  destruct (replyToLead false userId m env _) as [[c' sent] outcome].
  destruct Hreply as (Hdata & Hdisk). simpl.
  split; eapply leadField_of_fmap; try exact Hlk.
  - unfold Ctx.data in Hdata. rewrite Hdata. apply Hk, Hst.
  - rewrite Hdisk. apply Hk, Hst.
Qed.

Lemma recordReply_ai_intent a body subject now l :
  Lead.ai_intent (recordReply a body subject now l)
  = if sticky l a then Lead.ai_intent l else Some (Analysis.intent a).
Proof.
  unfold recordReply, sticky.
  destruct (bool_decide (Lead.ai_intent l = Some "INTERESTED")
            && bool_decide (Analysis.intent a = "GHOSTING")); simpl; [reflexivity|].
  destruct (truthy_opt (Lead.ai_intent l)
            && negb (bool_decide (Lead.ai_intent l = Some (Analysis.intent a))));
    reflexivity.
Qed.

Lemma recordReply_follow_up_count a body subject now l :
  Lead.follow_up_count (recordReply a body subject now l)
  = if sticky l a then Lead.follow_up_count l
    else if truthy_opt (Lead.ai_intent l)
            && negb (bool_decide (Lead.ai_intent l = Some (Analysis.intent a)))
         then 0%nat else Lead.follow_up_count l.
Proof.
  unfold recordReply, sticky.
  destruct (bool_decide (Lead.ai_intent l = Some "INTERESTED")
            && bool_decide (Analysis.intent a = "GHOSTING")); simpl; [reflexivity|].
  destruct (truthy_opt (Lead.ai_intent l)
            && negb (bool_decide (Lead.ai_intent l = Some (Analysis.intent a))));
    reflexivity.
Qed.

Lemma recordReply_id a body subject now l :
  Lead.id (recordReply a body subject now l) = Lead.id l.
Proof.
  unfold recordReply, sticky.
  destruct (bool_decide (Lead.ai_intent l = Some "INTERESTED")
            && bool_decide (Analysis.intent a = "GHOSTING")); simpl; [reflexivity|].
  destruct (truthy_opt (Lead.ai_intent l)
            && negb (bool_decide (Lead.ai_intent l = Some (Analysis.intent a))));
    reflexivity.
Qed.

Lemma recordReply_email a body subject now l :
  Lead.email (recordReply a body subject now l) = Lead.email l.
Proof.
  unfold recordReply, sticky.
  destruct (bool_decide (Lead.ai_intent l = Some "INTERESTED")
            && bool_decide (Analysis.intent a = "GHOSTING")); simpl; [reflexivity|].
  destruct (truthy_opt (Lead.ai_intent l)
            && negb (bool_decide (Lead.ai_intent l = Some (Analysis.intent a))));
    reflexivity.
Qed.

Lemma recordReply_user_id a body subject now l :
  Lead.user_id (recordReply a body subject now l) = Lead.user_id l.
Proof.
  unfold recordReply, sticky.
  destruct (bool_decide (Lead.ai_intent l = Some "INTERESTED")
            && bool_decide (Analysis.intent a = "GHOSTING")); simpl; [reflexivity|].
  destruct (truthy_opt (Lead.ai_intent l)
            && negb (bool_decide (Lead.ai_intent l = Some (Analysis.intent a))));
    reflexivity.
Qed.

Lemma recordReply_auto_send_enabled a body subject now l :
  Lead.auto_send_enabled (recordReply a body subject now l) = Lead.auto_send_enabled l.
Proof.
  unfold recordReply, sticky.
  destruct (bool_decide (Lead.ai_intent l = Some "INTERESTED")
            && bool_decide (Analysis.intent a = "GHOSTING")); simpl; [reflexivity|].
  destruct (truthy_opt (Lead.ai_intent l)
            && negb (bool_decide (Lead.ai_intent l = Some (Analysis.intent a))));
    reflexivity.
Qed.

Lemma recordReply_clarification_count a body subject now l :
  Lead.clarification_count (recordReply a body subject now l) = Lead.clarification_count l.
Proof.
  unfold recordReply, sticky.
  destruct (bool_decide (Lead.ai_intent l = Some "INTERESTED")
            && bool_decide (Analysis.intent a = "GHOSTING")); simpl; [reflexivity|].
  destruct (truthy_opt (Lead.ai_intent l)
            && negb (bool_decide (Lead.ai_intent l = Some (Analysis.intent a))));
    reflexivity.
Qed.

Lemma leadField_Some {K} (k : Lead.t -> K) d i v :
  leadField k d i = Some v -> exists l, DB.leads d !! i = Some l /\ k l = v.
Proof.
  unfold leadField. destruct (DB.leads d !! i) as [l|]; simpl; [|discriminate].
  intros [= <-]. eauto.
Qed.

Lemma processGmailMessage_stored userId m env st i lead :
  findIndex (matchesLead userId (Inbound.from m)) (DB.leads (Store.disk st)) = Some i ->
  DB.leads (Store.disk st) !! i = Some lead ->
  alreadyProcessed m (Store.disk st) = false ->
  let R := recordReply (ReplyEnv.analysis env) (Inbound.body m) (Inbound.subject m)
             (ReplyEnv.now env) in
  storedLead (processGmailMessage userId m env st) i
    (fun l => Lead.ai_intent l = Lead.ai_intent (R lead)
              /\ Lead.follow_up_count l = Lead.follow_up_count (R lead)
              /\ Lead.clarification_count l = Lead.clarification_count lead).
Proof.
  intros Hfind Hlk Hnew R.
  pose (k := fun l => (Lead.ai_intent l, Lead.follow_up_count l, Lead.clarification_count l)).
  assert (Hk : stable k) by (repeat split).
  destruct (processGmailMessage_field k userId m env st i lead Hk Hfind Hlk Hnew)
    as (H1 & H2).
  apply leadField_Some in H1 as (l1 & Hl1 & E1).
  apply leadField_Some in H2 as (l2 & Hl2 & E2).
  unfold k in E1, E2. rewrite recordReply_clarification_count in E1, E2.
  injection E1 as Ea1 Eb1 Ec1. injection E2 as Ea2 Eb2 Ec2.
  split; [exists l1 | exists l2]; repeat split; assumption.
Qed.

Lemma processImapMessage_stored userId m env st i lead :
  findIndex (matchesLead userId (Inbound.from m)) (DB.leads (Store.disk st)) = Some i ->
  DB.leads (Store.disk st) !! i = Some lead ->
  let R := recordReply (ReplyEnv.analysis env) (Inbound.body m) (Inbound.subject m)
             (ReplyEnv.now env) in
  storedLead (processImapMessage userId m env st) i
    (fun l => Lead.ai_intent l = Lead.ai_intent (R lead)
              /\ Lead.follow_up_count l = Lead.follow_up_count (R lead)
              /\ Lead.clarification_count l = Lead.clarification_count lead).
Proof.
  intros Hfind Hlk R.
  pose (k := fun l => (Lead.ai_intent l, Lead.follow_up_count l, Lead.clarification_count l)).
  assert (Hk : stable k) by (repeat split).
  destruct (processImapMessage_field k userId m env st i lead Hk Hfind Hlk)
    as (H1 & H2).
  apply leadField_Some in H1 as (l1 & Hl1 & E1).
  apply leadField_Some in H2 as (l2 & Hl2 & E2).
  unfold k in E1, E2. rewrite recordReply_clarification_count in E1, E2.
  injection E1 as Ea1 Eb1 Ec1. injection E2 as Ea2 Eb2 Ec2.
  split; [exists l1 | exists l2]; repeat split; assumption.
Qed.

Lemma storedLead_impl r i (P Q : Lead.t -> Prop) :
  (forall l, P l -> Q l) -> storedLead r i P -> storedLead r i Q.
Proof. intros H [(l1 & ? & ?) (l2 & ? & ?)]. split; eauto. Qed.

(** C2.  A lead whose stored intent is INTERESTED keeps that intent, and
    its [follow_up_count], when a reply classified GHOSTING is processed;
    any other classification, DEAD included, replaces the stored intent.
    On the Gmail path the message must not have been processed before. *)
Theorem interested_is_sticky userId m env st i lead :
  findIndex (matchesLead userId (Inbound.from m)) (DB.leads (Store.disk st)) = Some i ->
  DB.leads (Store.disk st) !! i = Some lead ->
  Lead.ai_intent lead = Some "INTERESTED" ->
  let intent := Analysis.intent (ReplyEnv.analysis env) in
  let after (l : Lead.t) :=
    (intent = "GHOSTING" ->
       Lead.ai_intent l = Some "INTERESTED"
       /\ Lead.follow_up_count l = Lead.follow_up_count lead)
    /\ (intent <> "GHOSTING" -> Lead.ai_intent l = Some intent) in
  (alreadyProcessed m (Store.disk st) = false ->
     storedLead (processGmailMessage userId m env st) i after)
  /\ storedLead (processImapMessage userId m env st) i after.
Proof.
  intros Hfind Hlk Hint intent after.
  assert (Hafter : forall l,
    Lead.ai_intent l
      = Lead.ai_intent (recordReply (ReplyEnv.analysis env) (Inbound.body m)
                          (Inbound.subject m) (ReplyEnv.now env) lead)
    /\ Lead.follow_up_count l
      = Lead.follow_up_count (recordReply (ReplyEnv.analysis env) (Inbound.body m)
                                (Inbound.subject m) (ReplyEnv.now env) lead)
    /\ Lead.clarification_count l = Lead.clarification_count lead ->
    after l).
  { intros l (Hi & Hc & _).
    rewrite recordReply_ai_intent in Hi. rewrite recordReply_follow_up_count in Hc.
    unfold sticky in *. rewrite Hint in *.
    rewrite bool_decide_eq_true_2 in Hi, Hc by reflexivity. simpl in Hi, Hc.
    fold intent in Hi, Hc. split; intros Hg.
    - rewrite bool_decide_eq_true_2 in Hi, Hc by exact Hg. auto.
    - rewrite bool_decide_eq_false_2 in Hi by exact Hg. exact Hi. }
  split.
  - intros Hnew. eapply storedLead_impl; [exact Hafter|].
    apply processGmailMessage_stored; assumption.
  - eapply storedLead_impl; [exact Hafter|].
    apply processImapMessage_stored; assumption.
Qed.

Lemma ingested_lead_field {K} (k : Lead.t -> K) c i (f : Lead.t -> Lead.t) ls lead :
  DB.leads (Ctx.data c) !! i = Some (Ctx.lead c) ->
  k <$> DB.leads (Ctx.data c) = k <$> alter f i ls ->
  ls !! i = Some lead ->
  k (Ctx.lead c) = k (f lead).
Proof.
  intros Hobj Heq Hlk.
  assert (H : (k <$> DB.leads (Ctx.data c)) !! i = Some (k (f lead))).
  { rewrite Heq, list_lookup_fmap, list_lookup_alter_eq, Hlk. reflexivity. }
  rewrite list_lookup_fmap, Hobj in H. simpl in H. congruence.
Qed.

Lemma replyToLead_repeated_clarification gmail userId m env c u :
  List.find (isPendingDraftFor (Ctx.lead c) m) (DB.ai_drafts (Ctx.data c)) = None ->
  List.find (fun u => bool_decide (User.id u = userId))
            (DB.users (Store.disk (Ctx.store c))) = Some u ->
  autoModeOf gmail u = true ->
  Lead.auto_send_enabled (Ctx.lead c) <> Some false ->
  (1 <= Lead.clarification_count (Ctx.lead c))%nat ->
  AiResult.clarification_needed
    (snd (generateAIResponse (ReplyEnv.ai env) (Ctx.lead c)
            (Analysis.intent (ReplyEnv.analysis env)) (Ctx.store c))) = true ->
  let '(c', sent, outcome) := replyToLead gmail userId m env c in
  sent = [] /\ outcome = AutoPausedClarification
  /\ (exists body,
        DB.ai_drafts (Store.disk (Ctx.store c'))
        = DB.ai_drafts (Store.disk (Ctx.store c))
          ++ [replyDraft userId m env (Ctx.lead c)
                (length (DB.ai_drafts (Store.disk (Ctx.store c)))) body "pending" true true None])
  /\ Lead.clarification_count (Ctx.lead c') = (Lead.clarification_count (Ctx.lead c) + 1)%nat.
Proof.
  intros Hnone Huser Hauto Hsend Hcount Hclar.
  unfold replyToLead. rewrite Hnone. unfold generateAIResponse in *. simpl in *.
  set (res := aiResponse _ _ _ _ _) in *.
  pose proof (aiResponse_body_not_blank (ReplyEnv.ai env) (Ctx.lead c)
                (productProfileOf (Ctx.lead c) (Store.disk (Ctx.store c)))
                (bool_decide (Analysis.intent (ReplyEnv.analysis env) = "OBJECTION")
                 && hasRepeatedObjection (Ctx.lead c) (Store.disk (Ctx.store c)))
                (Analysis.intent (ReplyEnv.analysis env))) as Hbody.
  simpl in Hbody. fold res in Hbody.
  destruct (find_findIndex _ _ _ Huser) as (uIdx & HuIdx & Hulk).
  assert (Hdisp : forall c2 : Ctx.t,
    Ctx.lead c2 = Ctx.lead c -> Ctx.live c2 = None ->
    DB.ai_drafts (Ctx.data c2) = DB.ai_drafts (Store.disk (Ctx.store c)) ->
    let '(c', sent, outcome) :=
      dispatchReply gmail userId m env true (AiResult.body res) true c2 in
    sent = [] /\ outcome = AutoPausedClarification
    /\ (exists body,
          DB.ai_drafts (Store.disk (Ctx.store c'))
          = DB.ai_drafts (Store.disk (Ctx.store c))
            ++ [replyDraft userId m env (Ctx.lead c)
                  (length (DB.ai_drafts (Store.disk (Ctx.store c)))) body "pending" true true None])
    /\ Lead.clarification_count (Ctx.lead c')
       = (Lead.clarification_count (Ctx.lead c) + 1)%nat).
  { intros [st2 l2 live2]. unfold Ctx.data. simpl. intros -> -> Hd.
    unfold dispatchReply. simpl.
    rewrite (bool_decide_eq_false_2 _ Hsend). simpl.
    destruct (Lead.clarification_count (Ctx.lead c)) as [|n] eqn:Hn; [lia|].
    simpl. rewrite Hn. repeat split.
    exists (AiResult.body res). unfold pushReplyDraft, replyDraft. simpl.
    rewrite Hd. reflexivity. }
  destruct gmail; unfold autoModeOf in Hauto |- *.
  - unfold Ctx.data. simpl. rewrite HuIdx. simpl.
    rewrite (find_alter_same (fun u => bool_decide (User.id u = userId))
               (fun u => User.set_ai_generations_this_month
                           (User.ai_generations_this_month u + 1) u)
               _ _ _ ltac:(intros; reflexivity) HuIdx Hulk).
    simpl. rewrite Hauto, Hclar, Hbody.
    apply Hdisp; reflexivity.
  - unfold Ctx.data. simpl. rewrite Huser. simpl. rewrite Hauto, Hclar, Hbody.
    apply Hdisp; reflexivity.
Qed.

(** C3, as the code has it.  In auto mode, for a lead that already got a
    holding reply, a candidate that needs clarification is not sent: a
    pending draft with [needs_follow_up = true] is stored and the handler
    stops.  The increment of [clarification_count], however, is made on
    the [lead] object that [generateAIResponse]'s [db.read()] detached
    from [db.data]: the handler's object counts one more, the stored lead
    does not. *)
Theorem repeated_clarification_gmail userId m env st i lead u :
  findIndex (matchesLead userId (Inbound.from m)) (DB.leads (Store.disk st)) = Some i ->
  DB.leads (Store.disk st) !! i = Some lead ->
  alreadyProcessed m (Store.disk st) = false ->
  List.find (isPendingDraftFor lead m) (DB.ai_drafts (Store.disk st)) = None ->
  List.find (fun u => bool_decide (User.id u = userId)) (DB.users (Store.disk st)) = Some u ->
  User.auto_mode_enabled u = true ->
  Lead.auto_send_enabled lead <> Some false ->
  (1 <= Lead.clarification_count lead)%nat ->
  AiResult.clarification_needed
    (snd (generateAIResponse (ReplyEnv.ai env) lead
            (Analysis.intent (ReplyEnv.analysis env)) st)) = true ->
  let r := processGmailMessage userId m env st in
  ReplyResult.sent r = []
  /\ ReplyResult.outcome r = AutoPausedClarification
  /\ (exists body,
        DB.ai_drafts (Store.disk (ReplyResult.store r))
        = DB.ai_drafts (Store.disk st)
          ++ [replyDraft userId m env lead (length (DB.ai_drafts (Store.disk st)))
                body "pending" true true None])
  /\ Lead.clarification_count <$> ReplyResult.lead r
     = Some (Lead.clarification_count lead + 1)%nat
  /\ storedLead r i
       (fun l => Lead.clarification_count l = Lead.clarification_count lead).
Proof.
  intros Hfind Hlk Hnew Hnodraft Huser Hauto Hsend Hcount Hclar r.
  assert (Hstored : storedLead r i
            (fun l => Lead.clarification_count l = Lead.clarification_count lead)).
  { eapply storedLead_impl; [|apply processGmailMessage_stored; eassumption].
    intros l (_ & _ & H). exact H. }
  subst r. revert Hstored.
  unfold processGmailMessage; simpl; rewrite Hfind, Hlk, Hnew.
  destruct (ingestGmailReply_spec userId m env (Store.read st) lead i Hlk)
    as (Hsync & Hlive & Hobj & (Hu & Hpp & Hdr & Hint) & Hk).
  set (c := ingestGmailReply _ _ _ _) in *.
  simpl in Hu, Hpp, Hdr, Hint, Hk.
  set (R := recordReply _ _ _ _) in *.
  assert (Efield : forall K (k : Lead.t -> K), stable k -> k (Ctx.lead c) = k (R lead)).
  { intros K k Hst. eapply ingested_lead_field; [exact Hobj|apply Hk, Hst|exact Hlk]. }
  assert (Ekeep : forall K (k : Lead.t -> K), stable k -> (forall a b s n l, k (recordReply a b s n l) = k l) ->
                  k (Ctx.lead c) = k lead).
  { intros K k Hst HR. rewrite (Efield K k Hst). apply HR. }
  assert (Eid : Lead.id (Ctx.lead c) = Lead.id lead).
  { apply Ekeep; [repeat split|]. intros. apply recordReply_id. }
  assert (Euid : Lead.user_id (Ctx.lead c) = Lead.user_id lead).
  { apply Ekeep; [repeat split|]. intros. apply recordReply_user_id. }
  assert (Eauto : Lead.auto_send_enabled (Ctx.lead c) = Lead.auto_send_enabled lead).
  { apply Ekeep; [repeat split|]. intros. apply recordReply_auto_send_enabled. }
  assert (Ecc : Lead.clarification_count (Ctx.lead c) = Lead.clarification_count lead).
  { apply Ekeep; [repeat split|]. intros. apply recordReply_clarification_count. }
  pose proof (replyToLead_repeated_clarification true userId m env c u) as Hreply.
  unfold Ctx.data in *. rewrite Hsync in Hreply.
  rewrite Hdr, Hu, Eauto, Ecc in Hreply.
  unfold isPendingDraftFor in Hreply, Hnodraft. rewrite Eid in Hreply.
  specialize (Hreply Hnodraft Huser Hauto Hsend Hcount).
  unfold generateAIResponse, productProfileOf in Hreply, Hclar.
  simpl in Hreply, Hclar. rewrite Hsync, Hpp, Euid in Hreply.
  rewrite (aiResponse_flag _ _ lead _ _
             (bool_decide (Analysis.intent (ReplyEnv.analysis env) = "OBJECTION")
              && hasRepeatedObjection lead (Store.disk st))) in Hreply.
  specialize (Hreply Hclar).
  destruct (replyToLead true userId m env c) as [[c' sent] outcome].
  destruct Hreply as (-> & -> & (body & Hd) & Hc'). simpl. intros Hstored.
  split; [reflexivity|]. split; [reflexivity|]. split; [|split].
  - exists body. rewrite Hd. unfold replyDraft. rewrite Eid. reflexivity.
  - rewrite Hc'. reflexivity.
  - exact Hstored.
Qed.

(** In auto mode, outside the repetition stop, a candidate reply is sent
    at once whatever the intent. *)
Lemma replyToLead_auto_send gmail userId m env c u :
  List.find (isPendingDraftFor (Ctx.lead c) m) (DB.ai_drafts (Ctx.data c)) = None ->
  List.find (fun u => bool_decide (User.id u = userId))
            (DB.users (Store.disk (Ctx.store c))) = Some u ->
  autoModeOf gmail u = true ->
  Lead.auto_send_enabled (Ctx.lead c) <> Some false ->
  ReplyEnv.sendEmail_ok env = true ->
  let result := snd (generateAIResponse (ReplyEnv.ai env) (Ctx.lead c)
                       (Analysis.intent (ReplyEnv.analysis env)) (Ctx.store c)) in
  AiResult.clarification_needed result = false
  \/ Lead.clarification_count (Ctx.lead c) = 0%nat ->
  let '(_, sent, outcome) := replyToLead gmail userId m env c in
  sent = [Mail.mk (Lead.email (Ctx.lead c)) ("Re: " +:+ Inbound.subject m)
            (AiResult.body result) (Lead.id (Ctx.lead c))]
  /\ outcome = AutoSent.
Proof.
  intros Hnone Huser Hauto Hsend Hok result Hfree. subst result.
  unfold replyToLead. rewrite Hnone. unfold generateAIResponse in *. simpl in *.
  set (res := aiResponse _ _ _ _ _) in *.
  pose proof (aiResponse_body_not_blank (ReplyEnv.ai env) (Ctx.lead c)
                (productProfileOf (Ctx.lead c) (Store.disk (Ctx.store c)))
                (bool_decide (Analysis.intent (ReplyEnv.analysis env) = "OBJECTION")
                 && hasRepeatedObjection (Ctx.lead c) (Store.disk (Ctx.store c)))
                (Analysis.intent (ReplyEnv.analysis env))) as Hbody.
  simpl in Hbody. fold res in Hbody.
  destruct (find_findIndex _ _ _ Huser) as (uIdx & HuIdx & Hulk).
  assert (Hdisp : forall c2 : Ctx.t,
    Ctx.lead c2 = Ctx.lead c ->
    let '(_, sent, outcome) :=
      dispatchReply gmail userId m env true (AiResult.body res)
        (AiResult.clarification_needed res) c2 in
    sent = [Mail.mk (Lead.email (Ctx.lead c)) ("Re: " +:+ Inbound.subject m)
              (AiResult.body res) (Lead.id (Ctx.lead c))]
    /\ outcome = AutoSent).
  { intros [st2 l2 live2]. simpl. intros ->.
    unfold dispatchReply. simpl.
    rewrite (bool_decide_eq_false_2 _ Hsend), Hok. simpl.
    destruct Hfree as [-> | ->]; simpl; auto.
    rewrite andb_false_r. auto. }
  destruct gmail; unfold autoModeOf in Hauto |- *.
  - unfold Ctx.data. simpl. rewrite HuIdx. simpl.
    rewrite (find_alter_same (fun u => bool_decide (User.id u = userId))
               (fun u => User.set_ai_generations_this_month
                           (User.ai_generations_this_month u + 1) u)
               _ _ _ ltac:(intros; reflexivity) HuIdx Hulk).
    simpl. rewrite Hauto, Hbody.
    apply Hdisp; reflexivity.
  - unfold Ctx.data. simpl. rewrite Huser. simpl. rewrite Hauto, Hbody.
    apply Hdisp; reflexivity.
Qed.

(** C1 fails on the code.  The owner is in auto mode and did not opt
    objections into auto-send; a reply classified OBJECTION arrives for a
    lead whose [auto_send_enabled] is not [false]; the candidate is not a
    repeated holding reply and the transport works.  The Gmail handler
    sends the generated reply at once: [shouldAutoSend] (server.js 3994)
    does not look at the intent, unlike the cadence scheduler (server.js
    5226-5231). *)
Theorem objection_reply_is_auto_sent userId m env st i lead u :
  findIndex (matchesLead userId (Inbound.from m)) (DB.leads (Store.disk st)) = Some i ->
  DB.leads (Store.disk st) !! i = Some lead ->
  alreadyProcessed m (Store.disk st) = false ->
  List.find (isPendingDraftFor lead m) (DB.ai_drafts (Store.disk st)) = None ->
  List.find (fun u => bool_decide (User.id u = userId)) (DB.users (Store.disk st)) = Some u ->
  User.auto_mode_enabled u = true ->
  User.auto_mode_include_objections u = false ->
  Analysis.intent (ReplyEnv.analysis env) = "OBJECTION" ->
  Lead.auto_send_enabled lead <> Some false ->
  ReplyEnv.sendEmail_ok env = true ->
  AiResult.clarification_needed
    (snd (generateAIResponse (ReplyEnv.ai env) lead "OBJECTION" st)) = false
  \/ Lead.clarification_count lead = 0%nat ->
  let r := processGmailMessage userId m env st in
  intentAllowedInAuto u "OBJECTION" = false
  /\ ReplyResult.outcome r = AutoSent
  /\ exists body,
       ReplyResult.sent r
       = [Mail.mk (Lead.email lead) ("Re: " +:+ Inbound.subject m) body (Lead.id lead)].
Proof.
  intros Hfind Hlk Hnew Hnodraft Huser Hauto Hopt Hintent Hsend Hok Hfree r.
  split. { unfold intentAllowedInAuto. rewrite Hopt. reflexivity. }
  subst r. unfold processGmailMessage; simpl; rewrite Hfind, Hlk, Hnew.
  destruct (ingestGmailReply_spec userId m env (Store.read st) lead i Hlk)
    as (Hsync & Hlive & Hobj & (Hu & Hpp & Hdr & Hint) & Hk).
  set (c := ingestGmailReply _ _ _ _) in *.
  simpl in Hu, Hpp, Hdr, Hint, Hk.
  set (R := recordReply _ _ _ _) in *.
  assert (Ekeep : forall K (k : Lead.t -> K), stable k ->
                  (forall a b s n l, k (recordReply a b s n l) = k l) ->
                  k (Ctx.lead c) = k lead).
  { intros K k Hst HR.
    rewrite (ingested_lead_field k c i R _ lead Hobj (Hk K k Hst) Hlk). apply HR. }
  assert (Eid : Lead.id (Ctx.lead c) = Lead.id lead).
  { apply Ekeep; [repeat split|]. intros. apply recordReply_id. }
  assert (Euid : Lead.user_id (Ctx.lead c) = Lead.user_id lead).
  { apply Ekeep; [repeat split|]. intros. apply recordReply_user_id. }
  assert (Email : Lead.email (Ctx.lead c) = Lead.email lead).
  { apply Ekeep; [repeat split|]. intros. apply recordReply_email. }
  assert (Eauto : Lead.auto_send_enabled (Ctx.lead c) = Lead.auto_send_enabled lead).
  { apply Ekeep; [repeat split|]. intros. apply recordReply_auto_send_enabled. }
  assert (Ecc : Lead.clarification_count (Ctx.lead c) = Lead.clarification_count lead).
  { apply Ekeep; [repeat split|]. intros. apply recordReply_clarification_count. }
  pose proof (replyToLead_auto_send true userId m env c u) as Hreply.
  unfold Ctx.data in *. rewrite Hsync in Hreply.
  rewrite Hdr, Hu, Eauto, Ecc, Email in Hreply.
  unfold isPendingDraftFor in Hreply, Hnodraft. rewrite Eid in Hreply.
  specialize (Hreply Hnodraft Huser Hauto Hsend Hok).
  unfold generateAIResponse, productProfileOf in Hreply, Hfree.
  simpl in Hreply, Hfree. rewrite Hsync, Hpp, Euid, Hintent in Hreply.
  rewrite (aiResponse_flag _ _ lead _ _
             (bool_decide ("OBJECTION" = "OBJECTION")
              && hasRepeatedObjection lead (Store.disk st))) in Hreply.
  specialize (Hreply Hfree).
  destruct (replyToLead true userId m env c) as [[c' sent] outcome].
  destruct Hreply as (-> & ->). simpl. split; [reflexivity|]. eauto.
Qed.

Lemma interested_is_sticky_witness :
  findIndex (matchesLead 1 (Inbound.from Sample.objection))
            (DB.leads (Store.disk (Sample.storeOf Sample.owner Sample.interestedAlice)))
    = Some 0%nat
  /\ DB.leads (Store.disk (Sample.storeOf Sample.owner Sample.interestedAlice)) !! 0%nat
     = Some Sample.interestedAlice
  /\ Lead.ai_intent Sample.interestedAlice = Some "INTERESTED"
  /\ storedLead
       (processImapMessage 1 Sample.objection Sample.vagueEnv
          (Sample.storeOf Sample.owner Sample.interestedAlice)) 0
       (fun l => Lead.ai_intent l = Some "INTERESTED" /\ Lead.follow_up_count l = 2%nat).
Proof.
  split; [reflexivity|]. split; [reflexivity|]. split; [reflexivity|].
  destruct (interested_is_sticky 1 Sample.objection Sample.vagueEnv
              (Sample.storeOf Sample.owner Sample.interestedAlice) 0
              Sample.interestedAlice eq_refl eq_refl eq_refl) as [_ H].
  eapply storedLead_impl; [|exact H].
  intros l [Hg _]. apply Hg. reflexivity.
Defined.

Lemma repeated_clarification_gmail_witness :
  findIndex (matchesLead 1 (Inbound.from Sample.objection))
            (DB.leads (Store.disk (Sample.storeOf Sample.owner Sample.heldAlice)))
    = Some 0%nat
  /\ User.auto_mode_enabled Sample.owner = true
  /\ (1 <= Lead.clarification_count Sample.heldAlice)%nat
  /\ AiResult.clarification_needed
       (snd (generateAIResponse (ReplyEnv.ai Sample.gapEnv) Sample.heldAlice
               (Analysis.intent (ReplyEnv.analysis Sample.gapEnv))
               (Sample.storeOf Sample.owner Sample.heldAlice))) = true
  /\ ReplyResult.sent
       (processGmailMessage 1 Sample.objection Sample.gapEnv
          (Sample.storeOf Sample.owner Sample.heldAlice)) = []
  /\ storedLead
       (processGmailMessage 1 Sample.objection Sample.gapEnv
          (Sample.storeOf Sample.owner Sample.heldAlice)) 0
       (fun l => Lead.clarification_count l = 1%nat).
Proof.
  split; [reflexivity|]. split; [reflexivity|]. split; [simpl; lia|].
  split; [reflexivity|].
  destruct (repeated_clarification_gmail 1 Sample.objection Sample.gapEnv
              (Sample.storeOf Sample.owner Sample.heldAlice) 0 Sample.heldAlice
              Sample.owner eq_refl eq_refl eq_refl eq_refl eq_refl eq_refl
              ltac:(discriminate) ltac:(simpl; lia) eq_refl)
    as (Hsent & _ & _ & _ & Hstored).
  split; [exact Hsent|exact Hstored].
Defined.

(** The failing input of C3, evaluated: nothing is sent and the draft is
    queued, the handler's [lead] object counts a second holding reply,
    the stored lead still counts one. *)
Example repeated_clarification_not_persisted :
  let r := processGmailMessage 1 Sample.objection Sample.gapEnv
             (Sample.storeOf Sample.owner Sample.heldAlice) in
  ReplyResult.sent r = []
  /\ ReplyResult.outcome r = AutoPausedClarification
  /\ Lead.clarification_count <$> ReplyResult.lead r = Some 2%nat
  /\ leadField Lead.clarification_count (Store.disk (ReplyResult.store r)) 0 = Some 1%nat.
Proof. vm_compute. repeat split. Qed.

Lemma objection_reply_is_auto_sent_witness :
  User.auto_mode_enabled Sample.owner = true
  /\ User.auto_mode_include_objections Sample.owner = false
  /\ Analysis.intent (ReplyEnv.analysis Sample.objectionEnv) = "OBJECTION"
  /\ ReplyResult.outcome
       (processGmailMessage 1 Sample.objection Sample.objectionEnv
          (Sample.storeOf Sample.owner Sample.alice)) = AutoSent
  /\ exists body,
       ReplyResult.sent
         (processGmailMessage 1 Sample.objection Sample.objectionEnv
            (Sample.storeOf Sample.owner Sample.alice))
       = [Mail.mk "alice@example.com" "Re: Price" body 7].
Proof.
  split; [reflexivity|]. split; [reflexivity|]. split; [reflexivity|].
  destruct (objection_reply_is_auto_sent 1 Sample.objection Sample.objectionEnv
              (Sample.storeOf Sample.owner Sample.alice) 0 Sample.alice Sample.owner
              eq_refl eq_refl eq_refl eq_refl eq_refl eq_refl eq_refl eq_refl
              ltac:(discriminate) eq_refl (or_intror eq_refl))
    as (_ & Hout & Hsent).
  split; [exact Hout|exact Hsent].
Defined.

(** The failing input of C1, evaluated on both handlers: the reply goes
    out and no draft is queued. *)
Example objection_reply_sample :
  forall r,
    r = processGmailMessage 1 Sample.objection Sample.objectionEnv
          (Sample.storeOf Sample.owner Sample.alice)
    \/ r = processImapMessage 1 Sample.objection Sample.objectionEnv
             (Sample.storeOf Sample.owner Sample.alice) ->
    ReplyResult.outcome r = AutoSent
    /\ ReplyResult.sent r
       = [Mail.mk "alice@example.com" "Re: Price"
            "Hi Alice, I hear you. What matters most to you?" 7]
    /\ DB.ai_drafts (Store.disk (ReplyResult.store r)) = [].
Proof.
  intros r [-> | ->]; repeat split.
Qed.

End ReplyFacts.

(** ** Follow-up cadence scheduler *)

Section CadenceFacts.
Import Js.

Lemma followUpLead_skipped env user lead st :
  skipsLead env user lead = true -> followUpLead env user lead st = (st, []).
Proof.
  unfold skipsLead, followUpLead, rulesOf. intros H.
  destruct (notContacted lead); [reflexivity|].
  destruct (humanTookOver _ lead); [reflexivity|].
  destruct (closedOrCustomer lead); [reflexivity|].
  destruct (Lead.follow_up_paused lead); [reflexivity|].
  destruct (inActiveSequence lead); [reflexivity|].
  destruct (sequenceJustEnded _ _ lead); [reflexivity|].
  discriminate.
Qed.

(** What the loop body does with a lead that passed the guards and whose
    delay has elapsed. *)
Lemma followUpLead_due env user lead st rules t :
  skipsLead env user lead = false ->
  rulesOf user !! governingIntent lead = Some rules ->
  lastEmailDate lead = Some t ->
  (delayMs rules <= CadenceEnv.now env - t)%Z ->
  followUpLead env user lead st
  = if (Lead.follow_up_count lead <? Rule.max_attempts rules)%nat then
      if pausedNow lead (Store.data st) then (st, [])
      else dispatchFollowUp env user lead (governingIntent lead)
             (Lead.follow_up_count lead) st
    else (Store.update (applyAfterMax rules lead (CadenceEnv.now env)) st, []).
Proof.
  unfold skipsLead, followUpLead, rulesOf, lastEmailDate, pausedNow.
  intros Hskip Hrule Hdate Hdue.
  destruct (notContacted lead); [discriminate|].
  destruct (humanTookOver _ lead); [discriminate|].
  destruct (closedOrCustomer lead); [discriminate|].
  destruct (Lead.follow_up_paused lead); [discriminate|].
  destruct (inActiveSequence lead); [discriminate|].
  destruct (sequenceJustEnded _ _ lead); [discriminate|].
  rewrite Hrule, Hdate.
  rewrite (proj2 (Z.leb_le _ _) Hdue). reflexivity.
Qed.

(** C4, as the code has it.  A lead that was never contacted, or is
    [closed_by_system], or is [follow_up_paused], or is in an active,
    non-completed, non-paused sequence is skipped: the store is left as it
    is and nothing is sent.  Conversely a lead for which the loop body
    does anything fails none of these tests. *)
Theorem cadence_skips_ineligible env user lead st :
  (notContacted lead = true
   \/ Lead.status lead = "closed_by_system"
   \/ Lead.follow_up_paused lead = true
   \/ inActiveSequence lead = true ->
   followUpLead env user lead st = (st, []))
  /\ (followUpLead env user lead st <> (st, []) ->
      notContacted lead = false
      /\ Lead.status lead <> "closed_by_system"
      /\ Lead.follow_up_paused lead = false
      /\ inActiveSequence lead = false).
Proof.
  assert (Hskip : notContacted lead = true
                  \/ Lead.status lead = "closed_by_system"
                  \/ Lead.follow_up_paused lead = true
                  \/ inActiveSequence lead = true ->
                  followUpLead env user lead st = (st, [])).
  { intros H. apply followUpLead_skipped. unfold skipsLead, closedOrCustomer.
    destruct H as [-> | [-> | [-> | ->]]]; simpl;
      rewrite ?orb_true_r; reflexivity. }
  split; [exact Hskip|].
  intros Hrun.
  repeat split.
  - destruct (notContacted lead) eqn:E; [|reflexivity].
    exfalso. apply Hrun, Hskip. auto.
  - intros E. apply Hrun, Hskip. auto.
  - destruct (Lead.follow_up_paused lead) eqn:E; [|reflexivity].
    exfalso. apply Hrun, Hskip. auto.
  - destruct (inActiveSequence lead) eqn:E; [|reflexivity].
    exfalso. apply Hrun, Hskip. auto.
Qed.

(** The exhaustion rule resets the attempt counter of the live lead, and
    stores the intent named by [after_max] unless that is one of the two
    administrative statuses. *)
Lemma applyAfterMax_spec rules lead now d idx :
  findIndex (fun l => bool_decide (Lead.id l = Lead.id lead)) (DB.leads d) = Some idx ->
  leadField Lead.follow_up_count (applyAfterMax rules lead now d) idx = Some 0%nat
  /\ (Rule.after_max rules <> "review" ->
      Rule.after_max rules <> "closed_by_system" ->
      leadField Lead.ai_intent (applyAfterMax rules lead now d) idx
      = Some (Some (Rule.after_max rules))).
Proof.
  intros Hidx. destruct (findIndex_lookup _ _ _ Hidx) as (l & Hl & _).
  unfold applyAfterMax, leadField. rewrite Hidx. simpl.
  rewrite list_lookup_alter_eq, Hl. simpl. split; [reflexivity|].
  intros H1 H2.
  rewrite (bool_decide_eq_false_2 _ H1), (bool_decide_eq_false_2 _ H2). reflexivity.
Qed.

Lemma generateFollowUpEmail_store ai lead intent userId st :
  fst (generateFollowUpEmail ai lead intent userId st) = Store.read st.
Proof. unfold generateFollowUpEmail. destruct ai; reflexivity. Qed.

Lemma trackVariantSend_frame userId intent v now d :
  exists rs, trackVariantSend userId intent v now d = DB.set_ab_results rs d.
Proof.
  unfold trackVariantSend. destruct (findIndex _ _); simpl; eauto.
Qed.

(** Dispatch in manual mode, or of an intent that is not eligible for
    auto-send: a draft is appended to the persisted drafts, and the leads
    are the persisted ones. *)
Lemma dispatchFollowUp_draft env user lead intent n st :
  let result := snd (generateFollowUpEmail (CadenceEnv.ai env (Lead.id lead)) lead intent
                       (User.id user) st) in
  truthy (FollowUp.body result) = true ->
  User.auto_mode_enabled user && intentAllowedInAuto user intent = false ->
  exists st',
    dispatchFollowUp env user lead intent n st = (st', [])
    /\ Store.disk st' = Store.disk st
    /\ DB.leads (Store.data st') = DB.leads (Store.disk st)
    /\ DB.email_settings (Store.data st') = DB.email_settings (Store.disk st)
    /\ DB.ai_drafts (Store.data st')
       = DB.ai_drafts (Store.disk st)
         ++ [followUpDraft user lead intent (FollowUp.body result) (FollowUp.variant result)
               (CadenceEnv.now env) (length (DB.ai_drafts (Store.disk st)))].
Proof.
  intros result Hbody Hmanual. unfold dispatchFollowUp.
  pose proof (generateFollowUpEmail_store (CadenceEnv.ai env (Lead.id lead)) lead intent
                (User.id user) st) as Hst.
  subst result.
  destruct (generateFollowUpEmail _ lead intent (User.id user) st) as [st1 result].
  simpl in *. subst st1. rewrite Hbody, Hmanual.
  eexists. split; [reflexivity|].
  unfold Store.update; simpl.
  match goal with
  | |- context [trackVariantSend ?u ?i ?v ?t ?d] =>
      destruct (trackVariantSend_frame u i v t d) as [rs ->]
  end.
  destruct (findIndex _ (DB.users (Store.disk st))); simpl; repeat split; reflexivity.
Qed.

(** A dispatch that sends no mail writes no lead. *)
Lemma dispatchFollowUp_no_mail env user lead intent n st :
  snd (dispatchFollowUp env user lead intent n st) = [] ->
  DB.leads (Store.data (fst (dispatchFollowUp env user lead intent n st)))
  = DB.leads (Store.disk st).
Proof.
  unfold dispatchFollowUp.
  pose proof (generateFollowUpEmail_store (CadenceEnv.ai env (Lead.id lead)) lead intent
                (User.id user) st) as Hst.
  destruct (generateFollowUpEmail _ lead intent (User.id user) st) as [st1 result].
  simpl in *. subst st1.
  destruct (truthy (FollowUp.body result)); [|reflexivity].
  unfold Store.update; simpl.
  match goal with
  | |- context [trackVariantSend ?u ?i ?v ?t ?d] =>
      destruct (trackVariantSend_frame u i v t d) as [rs ->]
  end.
  destruct (User.auto_mode_enabled user && intentAllowedInAuto user intent).
  - destruct (CadenceEnv.sendEmail_ok env (Lead.id lead)); simpl; [discriminate|].
    intros _. destruct (findIndex _ (DB.users (Store.disk st))); reflexivity.
  - intros _. simpl. destruct (findIndex _ (DB.users (Store.disk st))); reflexivity.
Qed.

(** A dispatch that sends a mail counts the attempt on the live lead. *)
Lemma dispatchFollowUp_mail env user lead intent n st idx :
  snd (dispatchFollowUp env user lead intent n st) <> [] ->
  findIndex (fun l => bool_decide (Lead.id l = Lead.id lead)) (DB.leads (Store.disk st))
    = Some idx ->
  User.auto_mode_enabled user && intentAllowedInAuto user intent = true
  /\ leadField Lead.follow_up_count
       (Store.data (fst (dispatchFollowUp env user lead intent n st))) idx
     = Some (n + 1)%nat.
Proof.
  unfold dispatchFollowUp.
  pose proof (generateFollowUpEmail_store (CadenceEnv.ai env (Lead.id lead)) lead intent
                (User.id user) st) as Hst.
  destruct (generateFollowUpEmail _ lead intent (User.id user) st) as [st1 result].
  simpl in *. subst st1.
  destruct (truthy (FollowUp.body result)); [|intros H; destruct (H eq_refl)].
  unfold Store.update; simpl.
  match goal with
  | |- context [trackVariantSend ?u ?i ?v ?t ?d] =>
      destruct (trackVariantSend_frame u i v t d) as [rs ->]
  end.
  destruct (User.auto_mode_enabled user && intentAllowedInAuto user intent);
    [|intros H; destruct (H eq_refl)].
  destruct (CadenceEnv.sendEmail_ok env (Lead.id lead)); [|intros H; destruct (H eq_refl)].
  intros _ Hidx. split; [reflexivity|].
  destruct (findIndex_lookup _ _ _ Hidx) as (l & Hl & _).
  unfold leadField, recordFollowUpSent.
  destruct (findIndex _ (DB.users (Store.disk st))); simpl; rewrite Hidx; simpl;
    rewrite list_lookup_alter_eq, Hl; reflexivity.
Qed.

(** C9.  [db.data] holds the persisted leads, as it does when a sweep
    starts and after every [db.write()].  When a due follow-up is
    dispatched as a pending draft (auto mode off, or the intent not
    eligible), nothing is sent, the draft is appended, and every lead, so
    its [follow_up_count], [email_count] and [last_email_sent_date], is
    left as it was.  A changed [follow_up_count] of the live lead means
    that the mail was sent at once, in auto mode, and that the count is
    one more than before. *)
Theorem draft_dispatch_leaves_counters env user lead st rules t :
  skipsLead env user lead = false ->
  rulesOf user !! governingIntent lead = Some rules ->
  lastEmailDate lead = Some t ->
  (delayMs rules <= CadenceEnv.now env - t)%Z ->
  (Lead.follow_up_count lead < Rule.max_attempts rules)%nat ->
  pausedNow lead (Store.data st) = false ->
  DB.leads (Store.data st) = DB.leads (Store.disk st) ->
  let intent := governingIntent lead in
  let result := snd (generateFollowUpEmail (CadenceEnv.ai env (Lead.id lead)) lead intent
                       (User.id user) st) in
  truthy (FollowUp.body result) = true ->
  let out := followUpLead env user lead st in
  (User.auto_mode_enabled user && intentAllowedInAuto user intent = false ->
     snd out = []
     /\ DB.leads (Store.data (fst out)) = DB.leads (Store.data st)
     /\ DB.ai_drafts (Store.data (fst out))
        = DB.ai_drafts (Store.disk st)
          ++ [followUpDraft user lead intent (FollowUp.body result) (FollowUp.variant result)
                (CadenceEnv.now env) (length (DB.ai_drafts (Store.disk st)))])
  /\ (forall idx,
        findIndex (fun l => bool_decide (Lead.id l = Lead.id lead)) (DB.leads (Store.data st))
          = Some idx ->
        leadField Lead.follow_up_count (Store.data (fst out)) idx
          <> leadField Lead.follow_up_count (Store.data st) idx ->
        snd out <> []
        /\ User.auto_mode_enabled user && intentAllowedInAuto user intent = true
        /\ leadField Lead.follow_up_count (Store.data (fst out)) idx
           = Some (Lead.follow_up_count lead + 1)%nat).
Proof.
  intros Hskip Hrule Hdate Hdue Hcount Hlive Hsync intent result Hbody out.
  subst out. rewrite (followUpLead_due env user lead st rules t Hskip Hrule Hdate Hdue).
  rewrite (proj2 (Nat.ltb_lt _ _) Hcount), Hlive. fold intent. split.
  - intros Hmanual.
    destruct (dispatchFollowUp_draft env user lead intent (Lead.follow_up_count lead) st
                Hbody Hmanual) as (st' & -> & _ & Hleads & _ & Hdrafts).
    simpl. rewrite Hleads, Hdrafts, Hsync. auto.
  - intros idx Hidx Hchanged.
    assert (Hmail : snd (dispatchFollowUp env user lead intent (Lead.follow_up_count lead) st)
                    <> []).
    { intros Hnone. apply Hchanged. unfold leadField.
      rewrite (dispatchFollowUp_no_mail _ _ _ _ _ _ Hnone), Hsync. reflexivity. }
    split; [exact Hmail|]. rewrite Hsync in Hidx.
    apply dispatchFollowUp_mail; assumption.
Qed.

Lemma dispatchFollowUp_users env user lead intent n st :
  exists k, DB.users (Store.data (fst (dispatchFollowUp env user lead intent n st)))
            = alter bumpGenerations k (DB.users (Store.disk st)).
Proof.
  unfold dispatchFollowUp.
  pose proof (generateFollowUpEmail_store (CadenceEnv.ai env (Lead.id lead)) lead intent
                (User.id user) st) as Hst.
  destruct (generateFollowUpEmail _ lead intent (User.id user) st) as [st1 result].
  simpl in *. subst st1.
  assert (Hid : exists k, DB.users (Store.disk st)
                          = alter bumpGenerations k (DB.users (Store.disk st))).
  { exists (length (DB.users (Store.disk st))).
    symmetry. apply alter_out_of_range. lia. }
  destruct (truthy (FollowUp.body result)); [|exact Hid].
  unfold Store.update; simpl.
  match goal with
  | |- context [trackVariantSend ?u ?i ?v ?t ?d] =>
      destruct (trackVariantSend_frame u i v t d) as [rs ->]
  end.
  destruct (findIndex _ (DB.users (Store.disk st))) as [k|];
    destruct (User.auto_mode_enabled user && intentAllowedInAuto user intent);
    try destruct (CadenceEnv.sendEmail_ok env (Lead.id lead)); simpl;
    try exact Hid; try (exists k; reflexivity).
  - unfold recordFollowUpSent. destruct (findIndex _ _); simpl; exists k; reflexivity.
  - unfold recordFollowUpSent. destruct (findIndex _ _); simpl; exact Hid.
Qed.

Lemma generateFollowUpEmail_text ai lead intent userId st :
  FollowUp.body (snd (generateFollowUpEmail ai lead intent userId st)) = followUpText ai lead.
Proof. unfold generateFollowUpEmail. destruct ai; reflexivity. Qed.

Lemma cadence_skips_ineligible_witness :
  Lead.follow_up_paused Sample.pausedAlice = true
  /\ followUpLead Sample.cadenceEnv Sample.owner Sample.pausedAlice
       (Sample.storeOf Sample.owner Sample.pausedAlice)
     = (Sample.storeOf Sample.owner Sample.pausedAlice, []).
Proof.
  split; [reflexivity|].
  apply (proj1 (cadence_skips_ineligible Sample.cadenceEnv Sample.owner Sample.pausedAlice
                  (Sample.storeOf Sample.owner Sample.pausedAlice))).
  right. right. left. reflexivity.
Defined.

(** C4 as stated fails: a lead in status [dead] is not skipped.  Thirty-one
    days after its last mail the DEAD rule (30 days, one attempt) is due
    and the sweep queues a follow-up draft for it. *)
Lemma dead_lead_is_followed_up :
  Lead.status Sample.deadAlice = "dead"
  /\ followUpLead Sample.cadenceEnv Sample.owner Sample.deadAlice
       (Store.read (Sample.storeOf Sample.owner Sample.deadAlice))
     <> (Store.read (Sample.storeOf Sample.owner Sample.deadAlice), [])
  /\ DB.ai_drafts (Store.data (Store.read (Sample.storeOf Sample.owner Sample.deadAlice)))
     = []
  /\ DB.ai_drafts
       (Store.data
          (fst (followUpLead Sample.cadenceEnv Sample.owner Sample.deadAlice
                  (Store.read (Sample.storeOf Sample.owner Sample.deadAlice)))))
     = [followUpDraft Sample.owner Sample.deadAlice "DEAD" "Hi Alice, just checking in."
          VB (31 * Sample.day) 0].
Proof.
  vm_compute. repeat split. intros H. discriminate H.
Qed.

(** C6, as the code has it.  When a reply handler stores a classification
    that differs from a stored, non-empty intent (the kept INTERESTED of
    C2 aside), and when the exhaustion rule of the cadence scheduler is
    applied to a lead, the lead's [follow_up_count] is 0 right after; the
    exhaustion rule stores the intent that [after_max] names unless
    [after_max] is [review] or [closed_by_system]. *)
Theorem intent_change_resets_attempts :
  (forall userId m env st i lead previous,
     findIndex (matchesLead userId (Inbound.from m)) (DB.leads (Store.disk st)) = Some i ->
     DB.leads (Store.disk st) !! i = Some lead ->
     Lead.ai_intent lead = Some previous ->
     previous <> "" ->
     previous <> Analysis.intent (ReplyEnv.analysis env) ->
     sticky lead (ReplyEnv.analysis env) = false ->
     let after (l : Lead.t) :=
       Lead.ai_intent l = Some (Analysis.intent (ReplyEnv.analysis env))
       /\ Lead.follow_up_count l = 0%nat in
     (alreadyProcessed m (Store.disk st) = false ->
        storedLead (processGmailMessage userId m env st) i after)
     /\ storedLead (processImapMessage userId m env st) i after)
  /\ (forall env user lead st rules t idx,
       skipsLead env user lead = false ->
       rulesOf user !! governingIntent lead = Some rules ->
       lastEmailDate lead = Some t ->
       (delayMs rules <= CadenceEnv.now env - t)%Z ->
       (Rule.max_attempts rules <= Lead.follow_up_count lead)%nat ->
       findIndex (fun l => bool_decide (Lead.id l = Lead.id lead)) (DB.leads (Store.data st))
         = Some idx ->
       let out := followUpLead env user lead st in
       snd out = []
       /\ leadField Lead.follow_up_count (Store.data (fst out)) idx = Some 0%nat
       /\ (Rule.after_max rules <> "review" ->
           Rule.after_max rules <> "closed_by_system" ->
           leadField Lead.ai_intent (Store.data (fst out)) idx
           = Some (Some (Rule.after_max rules)))).
Proof.
  split.
  - intros userId m env st i lead previous Hfind Hlk Hprev Hset Hnew Hsticky after.
    assert (Hafter : forall l,
      Lead.ai_intent l
        = Lead.ai_intent (recordReply (ReplyEnv.analysis env) (Inbound.body m)
                            (Inbound.subject m) (ReplyEnv.now env) lead)
      /\ Lead.follow_up_count l
        = Lead.follow_up_count (recordReply (ReplyEnv.analysis env) (Inbound.body m)
                                  (Inbound.subject m) (ReplyEnv.now env) lead)
      /\ Lead.clarification_count l = Lead.clarification_count lead ->
      after l).
    { intros l (Hi & Hc & _).
      rewrite recordReply_ai_intent in Hi. rewrite recordReply_follow_up_count in Hc.
      rewrite Hsticky in Hi, Hc. rewrite Hprev in Hc. unfold truthy_opt in Hc.
      rewrite (proj2 (truthy_true previous) Hset) in Hc.
      rewrite bool_decide_eq_false_2 in Hc by congruence.
      split; assumption. }
    split.
    + intros Hfresh. eapply storedLead_impl; [exact Hafter|].
      apply processGmailMessage_stored; assumption.
    + eapply storedLead_impl; [exact Hafter|].
      apply processImapMessage_stored; assumption.
  - intros env user lead st rules t idx Hskip Hrule Hdate Hdue Hmax Hidx out. subst out.
    rewrite (followUpLead_due env user lead st rules t Hskip Hrule Hdate Hdue).
    rewrite (proj2 (Nat.ltb_ge _ _) Hmax). simpl.
    split; [reflexivity|]. apply applyAfterMax_spec. exact Hidx.
Qed.

Lemma intent_change_resets_attempts_witness :
  storedLead
    (processImapMessage 1 Sample.objection Sample.interestedEnv
       (Sample.storeOf Sample.owner Sample.notNowAlice)) 0
    (fun l => Lead.ai_intent l = Some "INTERESTED" /\ Lead.follow_up_count l = 0%nat)
  /\ leadField Lead.follow_up_count
       (Store.data (fst (followUpLead Sample.cadenceEnv Sample.owner Sample.notNowAlice
                           (Store.read (Sample.storeOf Sample.owner Sample.notNowAlice)))))
       0 = Some 0%nat
  /\ leadField Lead.ai_intent
       (Store.data (fst (followUpLead Sample.cadenceEnv Sample.owner Sample.notNowAlice
                           (Store.read (Sample.storeOf Sample.owner Sample.notNowAlice)))))
       0 = Some (Some "GHOSTING").
Proof.
  destruct intent_change_resets_attempts as [Hreply Hexhaust].
  split.
  - refine (proj2 (Hreply 1%Z Sample.objection Sample.interestedEnv
                     (Sample.storeOf Sample.owner Sample.notNowAlice) 0%nat Sample.notNowAlice
                     "NOT_NOW" eq_refl eq_refl eq_refl _ _ eq_refl)); discriminate.
  - assert (Hdue : (delayMs (Rule.mk 7 None 3 "GHOSTING")
                    <= CadenceEnv.now Sample.cadenceEnv - 0)%Z)
      by (vm_compute; discriminate).
    assert (Hmax : (Rule.max_attempts (Rule.mk 7 None 3 "GHOSTING")
                    <= Lead.follow_up_count Sample.notNowAlice)%nat)
      by (simpl; lia).
    destruct (Hexhaust Sample.cadenceEnv Sample.owner Sample.notNowAlice
                (Store.read (Sample.storeOf Sample.owner Sample.notNowAlice))
                (Rule.mk 7 None 3 "GHOSTING") 0%Z 0%nat
                eq_refl eq_refl eq_refl Hdue Hmax eq_refl)
      as (_ & Hcount & Hintent).
    split; [exact Hcount|]. apply Hintent; discriminate.
Defined.

(** C6 as stated fails: a lead that was never classified, after two
    follow-ups under the default GHOSTING rule, replies; the reply is
    classified INTERESTED and stored, and [follow_up_count] is still 2
    (the reset at server.js 3835 requires a previous intent). *)
Lemma first_classification_keeps_attempts :
  Lead.ai_intent Sample.unclassifiedAlice = None
  /\ governingIntent Sample.unclassifiedAlice = "GHOSTING"
  /\ leadField Lead.ai_intent
       (Store.disk (ReplyResult.store
          (processGmailMessage 1 Sample.objection Sample.interestedEnv
             (Sample.storeOf Sample.owner Sample.unclassifiedAlice)))) 0
     = Some (Some "INTERESTED")
  /\ leadField Lead.follow_up_count
       (Store.disk (ReplyResult.store
          (processGmailMessage 1 Sample.objection Sample.interestedEnv
             (Sample.storeOf Sample.owner Sample.unclassifiedAlice)))) 0
     = Some 2%nat.
Proof. vm_compute. repeat split. Qed.

Lemma draft_dispatch_leaves_counters_witness :
  skipsLead Sample.cadenceEnv Sample.manualOwner Sample.alice = false
  /\ rulesOf Sample.manualOwner !! governingIntent Sample.alice
     = Some (Rule.mk 5 None 3 "DEAD")
  /\ snd (followUpLead Sample.cadenceEnv Sample.manualOwner Sample.alice
            (Store.read (Sample.storeOf Sample.manualOwner Sample.alice))) = []
  /\ DB.leads (Store.data
                 (fst (followUpLead Sample.cadenceEnv Sample.manualOwner Sample.alice
                         (Store.read (Sample.storeOf Sample.manualOwner Sample.alice)))))
     = [Sample.alice].
Proof.
  split; [reflexivity|]. split; [reflexivity|].
  assert (Hdue : (delayMs (Rule.mk 5 None 3 "DEAD")
                  <= CadenceEnv.now Sample.cadenceEnv - 0)%Z)
    by (vm_compute; discriminate).
  assert (Hleft : (Lead.follow_up_count Sample.alice
                   < Rule.max_attempts (Rule.mk 5 None 3 "DEAD"))%nat)
    by (simpl; lia).
  destruct (draft_dispatch_leaves_counters Sample.cadenceEnv Sample.manualOwner Sample.alice
              (Store.read (Sample.storeOf Sample.manualOwner Sample.alice))
              (Rule.mk 5 None 3 "DEAD") 0%Z
              eq_refl eq_refl eq_refl Hdue Hleft eq_refl eq_refl eq_refl)
    as [Hdraft _].
  destruct (Hdraft eq_refl) as (Hsent & Hleads & _). split; assumption.
Defined.

End CadenceFacts.

(** ** A/B style variants *)

Section VariantFacts.









(** Ten sends each, two replies to A and two to B: a tie, A wins; with
    three replies to B, B wins; with nine sends of B nobody wins yet. *)
Example selectWinner_samples :
  AbRecord.winner (selectWinner (AbRecord.mk 1 1 "GHOSTING" 10 2 10 2 None 0)) = Some VA
  /\ AbRecord.winner (selectWinner (AbRecord.mk 1 1 "GHOSTING" 10 2 10 3 None 0)) = Some VB
  /\ AbRecord.winner (selectWinner (AbRecord.mk 1 1 "GHOSTING" 10 2 9 3 None 0)) = None
  /\ AbRecord.winner (selectWinner (AbRecord.mk 1 1 "GHOSTING" 12 0 12 9 (Some VA) 0))
     = Some VA.
Proof. vm_compute. repeat split. Qed.

End VariantFacts.

(** ** Sequence step scheduler *)

Section SequenceFacts.






(** The whole sweep on the sample: the second, last step goes out, the
    lead is completed at cursor 2 and the sequence is switched off. *)
Example processSequenceSteps_last_step :
  let out := processSequenceSteps Sample.sequenceEnv false
               (Store.mk Sample.sequenceDb DB.empty) in
  List.map Mail.subject (snd out) = ["Second"]
  /\ List.map Mail.body (snd out) = ["Hello again Alice"]
  /\ leadField Lead.sequence_current_step (Store.disk (fst out)) 0 = Some 2%nat
  /\ leadField Lead.sequence_completed (Store.disk (fst out)) 0 = Some (Some true)
  /\ List.map Sequence.is_active (DB.sequences (Store.disk (fst out))) = [false].
Proof. vm_compute. repeat split. Qed.

End SequenceFacts.

(** ** More on arrays *)

Section LookupFacts.

Lemma findIndex_none {A} (p : A -> bool) (xs : list A) :
  findIndex p xs = None <-> forall x, x ∈ xs -> p x = false.
Proof.
  induction xs as [|y xs IH]; simpl.
  - split; [intros _ x Hx; apply elem_of_nil in Hx; contradiction | reflexivity].
  - destruct (p y) eqn:Hy.
    + split; [discriminate|]. intros H. rewrite (H y) in Hy by apply list_elem_of_here.
      discriminate.
    + destruct (findIndex p xs) as [k|] eqn:Hk; simpl.
      * split; [discriminate|]. intros H.
        assert (Hn : Some k = None); [|discriminate].
        apply IH. intros x Hx. apply H. apply list_elem_of_further, Hx.
      * split; [|reflexivity]. intros _ x Hx.
        apply elem_of_cons in Hx as [-> | Hx]; [exact Hy|].
        apply (proj1 IH); [reflexivity | exact Hx].
Qed.

(** No element before the one found satisfies the test. *)
Lemma findIndex_first {A} (p : A -> bool) (xs : list A) k j y :
  findIndex p xs = Some k -> (j < k)%nat -> xs !! j = Some y -> p y = false.
Proof.
  revert k j. induction xs as [|x xs IH]; intros k j; simpl; [discriminate|].
  destruct (p x) eqn:Hx.
  - intros [= <-] Hj. lia.
  - destruct (findIndex p xs) as [k'|] eqn:Hk; [|discriminate].
    simpl. intros [= <-] Hj. destruct j as [|j]; simpl.
    + intros [= <-]. exact Hx.
    + intros Hy. apply (IH k' j); [reflexivity | lia | exact Hy].
Qed.

Lemma findIndex_at {A} (p : A -> bool) (xs : list A) k x :
  xs !! k = Some x -> p x = true ->
  (forall j y, (j < k)%nat -> xs !! j = Some y -> p y = false) ->
  findIndex p xs = Some k.
Proof.
  revert k. induction xs as [|z xs IH]; intros k; [intros H; discriminate|].
  destruct k as [|k]; simpl.
  - intros [= ->] -> _. reflexivity.
  - intros Hk Hp Hbefore.
    rewrite (Hbefore 0%nat z) by (try lia; reflexivity).
    rewrite (IH k Hk Hp); [reflexivity|].
    intros j y Hj Hy. apply (Hbefore (S j) y); [lia | exact Hy].
Qed.

(** The position of an element is found by any key that is unique. *)
Lemma findIndex_by_key {A K} `{EqDecision K} (key : A -> K) (xs : list A) k x :
  NoDup (key <$> xs) -> xs !! k = Some x ->
  findIndex (fun y => bool_decide (key y = key x)) xs = Some k.
Proof.
  intros Hnd Hk. apply (findIndex_at _ xs k x Hk).
  - apply bool_decide_eq_true_2. reflexivity.
  - intros j y Hj Hy. apply bool_decide_eq_false_2. intros E.
    assert (j = k); [|lia].
    apply (NoDup_lookup (key <$> xs) j k (key x)); [exact Hnd| |].
    + rewrite list_lookup_fmap, Hy. simpl. f_equal. exact E.
    + rewrite list_lookup_fmap, Hk. reflexivity.
Qed.

Lemma findIndex_ext {A} (p q : A -> bool) (xs : list A) :
  (forall x, x ∈ xs -> p x = q x) -> findIndex p xs = findIndex q xs.
Proof.
  induction xs as [|y xs IH]; intros H; simpl; [reflexivity|].
  rewrite <- (H y) by apply list_elem_of_here.
  rewrite IH; [reflexivity|]. intros x Hx. apply H, list_elem_of_further, Hx.
Qed.

(** A test that the change [f] does not see finds the same position. *)
Lemma findIndex_alter {A} (p : A -> bool) (f : A -> A) (xs : list A) i :
  (forall y, p (f y) = p y) -> findIndex p (alter f i xs) = findIndex p xs.
Proof.
  intros Hp. revert i. induction xs as [|y xs IH]; intros [|i]; simpl; try reflexivity.
  - rewrite Hp. reflexivity.
  - specialize (IH i). unfold alter in IH. rewrite IH. reflexivity.
Qed.

Lemma findIndex_fmap_eq {A B} (p : A -> bool) (q : B -> bool) (xs : list A) (ys : list B) :
  p <$> xs = q <$> ys -> findIndex p xs = findIndex q ys.
Proof.
  revert ys. induction xs as [|x xs IH]; intros [|y ys]; simpl; try discriminate;
    [reflexivity|].
  intros [= Hxy Hrest]. rewrite Hxy, (IH ys Hrest). reflexivity.
Qed.

Lemma findIndex_app_l {A} (p : A -> bool) (xs ys : list A) k :
  findIndex p xs = Some k -> findIndex p (xs ++ ys) = Some k.
Proof.
  revert k. induction xs as [|x xs IH]; intros k; simpl; [discriminate|].
  destruct (p x); [tauto|].
  destruct (findIndex p xs) as [k'|]; [|discriminate].
  intros [= <-]. rewrite (IH k' eq_refl). reflexivity.
Qed.

Lemma findIndex_lt {A} (p : A -> bool) (xs : list A) k :
  findIndex p xs = Some k -> (k < length xs)%nat.
Proof.
  intros H. destruct (findIndex_lookup p xs k H) as (x & Hx & _).
  apply lookup_lt_Some in Hx. exact Hx.
Qed.

Lemma findAt_some {A} (p : A -> bool) (xs : list A) i x :
  findAt p xs = Some (i, x) <-> findIndex p xs = Some i /\ xs !! i = Some x.
Proof.
  unfold findAt. destruct (findIndex p xs) as [k|] eqn:Hk.
  - destruct (findIndex_lookup p xs k Hk) as (y & Hy & _). rewrite Hy. simpl.
    split.
    + intros [= <- <-]. auto.
    + intros [[= <-] Hx]. rewrite Hy in Hx. injection Hx as <-. reflexivity.
  - split; [discriminate|]. intros [H _]. discriminate.
Qed.

Lemma findAt_none {A} (p : A -> bool) (xs : list A) :
  findAt p xs = None <-> findIndex p xs = None.
Proof.
  unfold findAt. destruct (findIndex p xs) as [k|] eqn:Hk.
  - destruct (findIndex_lookup p xs k Hk) as (y & Hy & _). rewrite Hy. simpl.
    split; discriminate.
  - tauto.
Qed.

Lemma find_some_findIndex {A} (p : A -> bool) (xs : list A) :
  List.find p xs = None <-> findIndex p xs = None.
Proof.
  induction xs as [|y xs IH]; simpl; [tauto|].
  destruct (p y); [split; discriminate|].
  destruct (findIndex p xs); simpl.
  - split; [|discriminate]. intros H. apply IH in H. discriminate.
  - split; [reflexivity|]. intros _. apply IH. reflexivity.
Qed.

Lemma findIndex_find {A} (p : A -> bool) (xs : list A) k x :
  findIndex p xs = Some k -> xs !! k = Some x -> List.find p xs = Some x.
Proof.
  revert k. induction xs as [|y ys IH]; intros k; simpl; [discriminate|].
  destruct (p y).
  - intros [= <-] [= ->]. reflexivity.
  - destruct (findIndex p ys) as [k'|]; [|discriminate].
    intros [= <-]. simpl. apply (IH k' eq_refl).
Qed.

Lemma lookup_alter_other {A} (f : A -> A) (xs : list A) i j :
  i <> j -> alter f i xs !! j = xs !! j.
Proof. intros H. apply list_lookup_alter_ne. exact H. Qed.

(** Two positions of a list that hold the same key are one position when
    the keys are distinct. *)
Lemma lookup_by_key {A K} (key : A -> K) (xs : list A) i j x y :
  NoDup (key <$> xs) -> xs !! i = Some x -> xs !! j = Some y -> key x = key y -> i = j.
Proof.
  intros Hnd Hi Hj Hkey.
  apply (NoDup_lookup (key <$> xs) i j (key x) Hnd).
  - rewrite list_lookup_fmap, Hi. reflexivity.
  - rewrite list_lookup_fmap, Hj, Hkey. reflexivity.
Qed.

Lemma filter_sublist {A} (p : A -> bool) (l : list A) : sublist (List.filter p l) l.
Proof.
  induction l as [|x l IH]; simpl; [constructor|].
  destruct (p x); [apply sublist_skip | apply sublist_cons]; exact IH.
Qed.

End LookupFacts.

(** ** Turns of the cadence scheduler *)

Section TurnFacts.

Import Js.

Lemma fmap_alter_same {A K} (k : A -> K) (f : A -> A) i (xs : list A) :
  (forall x, k (f x) = k x) -> k <$> alter f i xs = k <$> xs.
Proof.
  intros Hk. revert i. induction xs as [|x xs IH]; intros [|i]; simpl; try reflexivity.
  - f_equal. apply Hk.
  - f_equal. apply IH.
Qed.

Lemma evolves_refl d : evolves d d.
Proof. repeat split. exists []. rewrite app_nil_r. reflexivity. Qed.

Lemma evolves_trans d1 d2 d3 : evolves d1 d2 -> evolves d2 d3 -> evolves d1 d3.
Proof.
  intros (Hl & Hs & Hu & m & Hd) (Hl' & Hs' & Hu' & m' & Hd').
  split; [congruence|]. split; [congruence|]. split; [congruence|].
  exists (m ++ m'). rewrite Hd', Hd, app_assoc. reflexivity.
Qed.

Lemma evolves_ids d d' :
  evolves d d' -> Lead.id <$> DB.leads d' = Lead.id <$> DB.leads d.
Proof.
  intros (Hl & _).
  change Lead.id with ((fun k : Z * Z * bool => fst (fst k)) ∘ leadKey).
  rewrite !list_fmap_compose, Hl. reflexivity.
Qed.

Lemma evolves_findIndex d d' id :
  evolves d d' ->
  findIndex (fun l => bool_decide (Lead.id l = id)) (DB.leads d')
  = findIndex (fun l => bool_decide (Lead.id l = id)) (DB.leads d).
Proof.
  intros Hev. apply findIndex_fmap_eq.
  change (fun l : Lead.t => bool_decide (Lead.id l = id))
    with ((fun k : Z => bool_decide (k = id)) ∘ Lead.id).
  rewrite !list_fmap_compose, (evolves_ids d d' Hev). reflexivity.
Qed.

Lemma evolves_key d d' i l :
  evolves d d' -> DB.leads d !! i = Some l ->
  exists l', DB.leads d' !! i = Some l' /\ leadKey l' = leadKey l.
Proof.
  intros (Hl & _) Hi.
  assert (H : (leadKey <$> DB.leads d') !! i = (leadKey <$> DB.leads d) !! i)
    by (rewrite Hl; reflexivity).
  rewrite !list_lookup_fmap, Hi in H.
  destruct (DB.leads d' !! i) as [l'|]; [|discriminate].
  exists l'. split; [reflexivity|]. injection H as H1 H2 H3.
  unfold leadKey. rewrite H1, H2, H3. reflexivity.
Qed.

(** The live pause flag is that of the file. *)
Lemma evolves_pausedNow lead d d' : evolves d d' -> pausedNow lead d' = pausedNow lead d.
Proof.
  intros Hev. unfold pausedNow. rewrite (evolves_findIndex d d' _ Hev).
  destruct (findIndex _ (DB.leads d)) as [i|] eqn:Hi; [|reflexivity].
  destruct (findIndex_lookup _ _ _ Hi) as (l & Hl & _).
  destruct (evolves_key d d' i l Hev Hl) as (l' & Hl' & Hk).
  rewrite Hl, Hl'. simpl. injection Hk as _ _ Hp. exact Hp.
Qed.

Lemma sameLeadsOf_refl userId d : sameLeadsOf userId d d.
Proof. intros idx l H _. exact H. Qed.

Lemma sameLeadsOf_trans userId d1 d2 d3 :
  sameLeadsOf userId d1 d2 -> sameLeadsOf userId d2 d3 -> sameLeadsOf userId d1 d3.
Proof. intros H1 H2 idx l Hl Hu. apply H2; [apply H1|]; assumption. Qed.

(** The leads of a user, in a database that kept them. *)
Lemma evolves_filter userId d d' :
  evolves d d' -> sameLeadsOf userId d d' ->
  List.filter (fun l => bool_decide (Lead.user_id l = userId)) (DB.leads d')
  = List.filter (fun l => bool_decide (Lead.user_id l = userId)) (DB.leads d).
Proof.
  intros Hev Hsame.
  assert (H : forall i l, DB.leads d !! i = Some l ->
            exists l', DB.leads d' !! i = Some l' /\ Lead.user_id l' = Lead.user_id l
                       /\ (Lead.user_id l = userId -> l' = l)).
  { intros i l Hl. destruct (evolves_key d d' i l Hev Hl) as (l' & Hl' & Hk).
    exists l'. split; [exact Hl'|]. split; [injection Hk as _ Hu _; exact Hu|].
    intros Hu. rewrite (Hsame i l Hl Hu) in Hl'. injection Hl' as <-. reflexivity. }
  assert (Hlen : length (DB.leads d') = length (DB.leads d)).
  { destruct Hev as (Hl & _). rewrite <- (length_fmap leadKey (DB.leads d')), Hl.
    apply length_fmap. }
  clear Hev Hsame. revert H Hlen.
  generalize (DB.leads d) (DB.leads d'). intros ls.
  induction ls as [|l ls IH]; intros [|l' ls'] H Hlen; simpl in *; try discriminate;
    [reflexivity|].
  destruct (H 0%nat l eq_refl) as (l0 & [= <-] & Hu & Heq).
  rewrite (IH ls') by (try lia; intros i x Hx; exact (H (S i) x Hx)).
  rewrite Hu. destruct (bool_decide (Lead.user_id l = userId)) eqn:Hb; [|reflexivity].
  apply bool_decide_eq_true_1 in Hb. rewrite (Heq Hb). reflexivity.
Qed.

Lemma sweepLeads_app env user (a b : list Lead.t) acc :
  sweepLeads env user (a ++ b) acc = sweepLeads env user b (sweepLeads env user a acc).
Proof. unfold sweepLeads. apply fold_left_app. Qed.

Lemma sweepLeads_cons env user lead (ls : list Lead.t) acc :
  sweepLeads env user (lead :: ls) acc
  = sweepLeads env user ls
      (fst (followUpLead env user lead (fst acc)),
       snd acc ++ snd (followUpLead env user lead (fst acc))).
Proof.
  unfold sweepLeads. simpl. destruct (followUpLead env user lead (fst acc)). reflexivity.
Qed.

Lemma sweepUsers_app env (a b : list User.t) acc :
  sweepUsers env (a ++ b) acc = sweepUsers env b (sweepUsers env a acc).
Proof. unfold sweepUsers. apply fold_left_app. Qed.

Lemma sweepUsers_cons env user (us : list User.t) acc :
  sweepUsers env (user :: us) acc
  = sweepUsers env us
      (fst (followUpUser env user (fst acc)),
       snd acc ++ snd (followUpUser env user (fst acc))).
Proof.
  unfold sweepUsers. simpl. destruct (followUpUser env user (fst acc)). reflexivity.
Qed.

(** The three things the loop body can do. *)
Lemma followUpLead_cases env user lead st :
  followUpLead env user lead st = (st, [])
  \/ (exists rules,
        followUpLead env user lead st
        = (Store.update (applyAfterMax rules lead (CadenceEnv.now env)) st, []))
  \/ (callsGenerator env user lead (Store.data st) = true
      /\ followUpLead env user lead st
         = dispatchFollowUp env user lead (governingIntent lead)
             (Lead.follow_up_count lead) st).
Proof.
  destruct (skipsLead env user lead) eqn:Hskip.
  { left. apply followUpLead_skipped, Hskip. }
  unfold callsGenerator. rewrite Hskip.
  unfold followUpLead.
  unfold skipsLead in Hskip. repeat (apply orb_false_iff in Hskip as [Hskip ?]).
  rewrite Hskip.
  repeat match goal with H : _ = false |- _ => rewrite H; clear H end.
  fold (rulesOf user).
  destruct (rulesOf user !! governingIntent lead) as [rules|]; [|left; reflexivity].
  destruct (lastEmailDate lead) as [t|]; [|left; reflexivity].
  destruct (delayMs rules <=? CadenceEnv.now env - t)%Z; [|left; reflexivity].
  destruct (Lead.follow_up_count lead <? Rule.max_attempts rules)%nat.
  - destruct (pausedNow lead (Store.data st)); [left; reflexivity|].
    right. right. split; reflexivity.
  - right. left. exists rules. reflexivity.
Qed.



(** The generator is not called for a lead at rest. *)
Lemma atRest_quiet env user lead d :
  atRest env user lead = true -> callsGenerator env user lead d = false.
Proof.
  unfold atRest, callsGenerator. intros H.
  destruct (skipsLead env user lead); [reflexivity|]. simpl in *.
  destruct (rulesOf user !! governingIntent lead) as [rules|]; [|reflexivity].
  destruct (lastEmailDate lead) as [t|]; [|reflexivity].
  apply negb_true_iff in H. rewrite H. reflexivity.
Qed.

(** What a dispatch leaves in [db.data] is built on the file: the
    generator starts with [db.read()]. *)
Lemma dispatchFollowUp_read env user lead intent n st :
  dispatchFollowUp env user lead intent n st
  = dispatchFollowUp env user lead intent n (Store.read st).
Proof. unfold dispatchFollowUp, generateFollowUpEmail. reflexivity. Qed.

Lemma dispatchFollowUp_disk env user lead intent n st :
  Store.disk (fst (dispatchFollowUp env user lead intent n st)) = Store.disk st.
Proof.
  unfold dispatchFollowUp.
  pose proof (generateFollowUpEmail_store (CadenceEnv.ai env (Lead.id lead)) lead intent
                (User.id user) st) as Hst.
  destruct (generateFollowUpEmail _ lead intent (User.id user) st) as [st1 result].
  simpl in Hst. subst st1.
  destruct (truthy (FollowUp.body result)); [|reflexivity].
  destruct (User.auto_mode_enabled user && intentAllowedInAuto user intent);
    [destruct (CadenceEnv.sendEmail_ok env (Lead.id lead))|]; reflexivity.
Qed.

(** The leads that a dispatch leaves in [db.data]: those of the file, the
    lead counted when a mail went out. *)
Lemma dispatchFollowUp_leads env user lead intent n st :
  let leads' := DB.leads (Store.data (fst (dispatchFollowUp env user lead intent n st))) in
  leads' = DB.leads (Store.disk st)
  \/ exists idx,
       findIndex (fun l => bool_decide (Lead.id l = Lead.id lead)) (DB.leads (Store.disk st))
       = Some idx
       /\ snd (dispatchFollowUp env user lead intent n st) <> []
       /\ leads' = alter (countFollowUp n (CadenceEnv.now env)) idx (DB.leads (Store.disk st)).
Proof.
  cbv zeta. unfold dispatchFollowUp.
  pose proof (generateFollowUpEmail_store (CadenceEnv.ai env (Lead.id lead)) lead intent
                (User.id user) st) as Hst.
  destruct (generateFollowUpEmail _ lead intent (User.id user) st) as [st1 result].
  simpl in Hst. subst st1.
  destruct (truthy (FollowUp.body result)); [|left; reflexivity].
  unfold Store.update; simpl.
  match goal with
  | |- context [trackVariantSend ?u ?i ?v ?t ?d] =>
      destruct (trackVariantSend_frame u i v t d) as [rs ->]
  end.
  destruct (User.auto_mode_enabled user && intentAllowedInAuto user intent).
  - destruct (CadenceEnv.sendEmail_ok env (Lead.id lead)); simpl.
    + unfold recordFollowUpSent.
      destruct (findIndex _ (DB.users (Store.disk st))); simpl;
        (destruct (findIndex _ (DB.leads (Store.disk st))) as [idx|]; simpl;
         [right; exists idx; split; [reflexivity|]; split; [discriminate | reflexivity]
         |left; reflexivity]).
    + left. destruct (findIndex _ (DB.users (Store.disk st))); reflexivity.
  - left. simpl. destruct (findIndex _ (DB.users (Store.disk st))); reflexivity.
Qed.

(** The settings and the drafts that a dispatch leaves in [db.data]. *)
Lemma dispatchFollowUp_rest env user lead intent n st :
  let d' := Store.data (fst (dispatchFollowUp env user lead intent n st)) in
  DB.email_settings d' = DB.email_settings (Store.disk st)
  /\ exists more, DB.ai_drafts d' = DB.ai_drafts (Store.disk st) ++ more.
Proof.
  cbv zeta. unfold dispatchFollowUp.
  pose proof (generateFollowUpEmail_store (CadenceEnv.ai env (Lead.id lead)) lead intent
                (User.id user) st) as Hst.
  destruct (generateFollowUpEmail _ lead intent (User.id user) st) as [st1 result].
  simpl in Hst. subst st1.
  assert (Hid : exists more : list Draft.t,
                  DB.ai_drafts (Store.disk st) = DB.ai_drafts (Store.disk st) ++ more)
    by (exists []; rewrite app_nil_r; reflexivity).
  destruct (truthy (FollowUp.body result)); [|split; [reflexivity | exact Hid]].
  unfold Store.update; simpl.
  match goal with
  | |- context [trackVariantSend ?u ?i ?v ?t ?d] =>
      destruct (trackVariantSend_frame u i v t d) as [rs ->]
  end.
  destruct (User.auto_mode_enabled user && intentAllowedInAuto user intent).
  - destruct (CadenceEnv.sendEmail_ok env (Lead.id lead)); simpl.
    + unfold recordFollowUpSent.
      destruct (findIndex _ (DB.users (Store.disk st))); simpl;
        destruct (findIndex _ (DB.leads (Store.disk st))); simpl;
        (split; [reflexivity | exact Hid]).
    + destruct (findIndex _ (DB.users (Store.disk st))); simpl;
        (split; [reflexivity | exact Hid]).
  - simpl. destruct (findIndex _ (DB.users (Store.disk st))); simpl;
      (split; [reflexivity | eexists; reflexivity]).
Qed.

Lemma countFollowUp_key n now l : leadKey (countFollowUp n now l) = leadKey l.
Proof. reflexivity. Qed.

Lemma dispatchFollowUp_inStep env user lead intent n st :
  inStep (fst (dispatchFollowUp env user lead intent n st)).
Proof.
  unfold inStep. rewrite dispatchFollowUp_disk.
  destruct (dispatchFollowUp_rest env user lead intent n st) as (Hs & Hd).
  destruct (dispatchFollowUp_users env user lead intent n st) as (k & Hu).
  pose proof (dispatchFollowUp_leads env user lead intent n st) as Hl. cbv zeta in Hl.
  split; [|split; [exact Hs|split; [|exact Hd]]].
  - destruct Hl as [-> | (idx & _ & _ & ->)]; [reflexivity|].
    apply fmap_alter_same, countFollowUp_key.
  - rewrite Hu. apply fmap_alter_same. intros u. reflexivity.
Qed.

Lemma applyAfterMax_evolves rules lead now d : evolves d (applyAfterMax rules lead now d).
Proof.
  unfold applyAfterMax. destruct (findIndex _ (DB.leads d)); [|apply evolves_refl].
  split; [|split; [reflexivity|split; [reflexivity|]]].
  - simpl. apply fmap_alter_same. intros l.
    destruct (bool_decide _); [|destruct (bool_decide _)]; reflexivity.
  - exists []. rewrite app_nil_r. reflexivity.
Qed.

Lemma followUpLead_disk env user lead st :
  Store.disk (fst (followUpLead env user lead st)) = Store.disk st.
Proof.
  destruct (followUpLead_cases env user lead st) as [-> | [(rules & ->) | (_ & ->)]];
    [reflexivity | reflexivity | apply dispatchFollowUp_disk].
Qed.

(** The loop body keeps [db.data] in step with the file. *)
Lemma followUpLead_inStep env user lead st :
  inStep st -> inStep (fst (followUpLead env user lead st)).
Proof.
  intros Hin.
  destruct (followUpLead_cases env user lead st) as [-> | [(rules & ->) | (_ & ->)]].
  - exact Hin.
  - unfold inStep in *. simpl.
    apply (evolves_trans _ _ _ Hin), applyAfterMax_evolves.
  - apply dispatchFollowUp_inStep.
Qed.

(** The loop body changes no lead but the one found under the id of its
    lead. *)
Lemma followUpLead_keeps_at env user lead st idx l :
  inStep st ->
  (forall j, findIndex (fun x => bool_decide (Lead.id x = Lead.id lead))
                       (DB.leads (Store.disk st)) = Some j -> j <> idx) ->
  DB.leads (Store.disk st) !! idx = Some l ->
  DB.leads (Store.data st) !! idx = Some l ->
  DB.leads (Store.data (fst (followUpLead env user lead st))) !! idx = Some l.
Proof.
  intros Hin Hother Hdisk Hdata.
  destruct (followUpLead_cases env user lead st) as [-> | [(rules & ->) | (_ & ->)]].
  - exact Hdata.
  - simpl. unfold applyAfterMax.
    rewrite (evolves_findIndex _ _ (Lead.id lead) Hin).
    destruct (findIndex _ (DB.leads (Store.disk st))) as [j|]; [|exact Hdata].
    simpl. rewrite list_lookup_alter_ne by (apply Hother; reflexivity). exact Hdata.
  - pose proof (dispatchFollowUp_leads env user lead (governingIntent lead)
                  (Lead.follow_up_count lead) st) as Hl.
    cbv zeta in Hl. destruct Hl as [-> | (j & Hj & _ & ->)]; [exact Hdisk|].
    rewrite list_lookup_alter_ne by (apply Hother; exact Hj). exact Hdisk.
Qed.

Lemma sweepLeads_inStep env user (ls : list Lead.t) acc :
  inStep (fst acc) ->
  inStep (fst (sweepLeads env user ls acc))
  /\ Store.disk (fst (sweepLeads env user ls acc)) = Store.disk (fst acc).
Proof.
  revert acc. induction ls as [|l ls IH]; intros acc Hin; [split; [exact Hin | reflexivity]|].
  rewrite sweepLeads_cons.
  destruct (IH (fst (followUpLead env user l (fst acc)),
                snd acc ++ snd (followUpLead env user l (fst acc)))) as [H1 H2].
  - simpl. apply followUpLead_inStep, Hin.
  - split; [exact H1|]. rewrite H2. simpl. apply followUpLead_disk.
Qed.

(** A lead found under another id is at another place. *)
Lemma other_id_other_index (ls : list Lead.t) id j idx l :
  findIndex (fun x => bool_decide (Lead.id x = id)) ls = Some j ->
  ls !! idx = Some l -> Lead.id l <> id -> j <> idx.
Proof.
  intros Hj Hl Hid <-. destruct (findIndex_lookup _ _ _ Hj) as (y & Hy & Hp).
  rewrite Hl in Hy. injection Hy as <-. apply bool_decide_eq_true_1 in Hp. contradiction.
Qed.

(** The loop over leads of other ids leaves a lead where and as it is. *)
Lemma sweepLeads_keeps_at env user (ls : list Lead.t) acc idx l :
  inStep (fst acc) ->
  (forall x, x ∈ ls -> Lead.id l <> Lead.id x) ->
  DB.leads (Store.disk (fst acc)) !! idx = Some l ->
  DB.leads (Store.data (fst acc)) !! idx = Some l ->
  DB.leads (Store.data (fst (sweepLeads env user ls acc))) !! idx = Some l.
Proof.
  revert acc. induction ls as [|x ls IH]; intros acc Hin Hids Hdisk Hdata; [exact Hdata|].
  rewrite sweepLeads_cons.
  apply IH; cbn [fst].
  - apply followUpLead_inStep, Hin.
  - intros y Hy. apply Hids, list_elem_of_further, Hy.
  - rewrite followUpLead_disk. exact Hdisk.
  - apply followUpLead_keeps_at; [exact Hin| |exact Hdisk|exact Hdata].
    intros j Hj. apply (other_id_other_index _ _ j idx l Hj Hdisk).
    apply Hids, list_elem_of_here.
Qed.

(** Leads of distinct ids: two of them with one id are one lead. *)
Lemma same_id_same_lead (ls : list Lead.t) x y :
  NoDup (Lead.id <$> ls) -> x ∈ ls -> y ∈ ls -> Lead.id x = Lead.id y -> x = y.
Proof.
  intros Hnd Hx Hy Hid.
  apply list_elem_of_lookup_1 in Hx as (i & Hi). apply list_elem_of_lookup_1 in Hy as (j & Hj).
  assert (i = j) by apply (lookup_by_key Lead.id ls i j x y Hnd Hi Hj Hid).
  subst j. rewrite Hi in Hj. injection Hj as ->. reflexivity.
Qed.

(** The loop over leads of one user keeps the leads of another. *)
Lemma sweepLeads_others env user userId (ls : list Lead.t) acc :
  inStep (fst acc) ->
  NoDup (Lead.id <$> DB.leads (Store.disk (fst acc))) ->
  (forall x, x ∈ ls -> x ∈ DB.leads (Store.disk (fst acc)) /\ Lead.user_id x <> userId) ->
  sameLeadsOf userId (Store.disk (fst acc)) (Store.data (fst acc)) ->
  sameLeadsOf userId (Store.disk (fst acc)) (Store.data (fst (sweepLeads env user ls acc))).
Proof.
  intros Hin Hnd Hls Hsame idx l Hl Hu.
  apply sweepLeads_keeps_at; [exact Hin| |exact Hl|apply Hsame; assumption].
  intros x Hx Hid. destruct (Hls x Hx) as (Hxin & Hxu).
  apply Hxu. rewrite <- Hu. f_equal. symmetry.
  apply (same_id_same_lead _ l x Hnd); [|exact Hxin|exact Hid].
  apply list_elem_of_lookup_2 in Hl. exact Hl.
Qed.

Lemma followUpLead_calls env user lead st :
  callsGenerator env user lead (Store.data st) = true ->
  followUpLead env user lead st
  = dispatchFollowUp env user lead (governingIntent lead) (Lead.follow_up_count lead) st.
Proof.
  unfold callsGenerator. intros H.
  apply andb_true_iff in H as [H Hlive]. apply andb_true_iff in H as [Hskip Hdue].
  apply negb_true_iff in Hskip, Hlive.
  destruct (rulesOf user !! governingIntent lead) as [rules|] eqn:Hrule; [|discriminate].
  destruct (lastEmailDate lead) as [t|] eqn:Hdate; [|discriminate].
  apply andb_true_iff in Hdue as [Hdue Hcount]. apply Z.leb_le in Hdue.
  rewrite (followUpLead_due env user lead st rules t Hskip Hrule Hdate Hdue).
  rewrite Hcount, Hlive. reflexivity.
Qed.

Lemma callsGenerator_inStep env user lead st :
  inStep st ->
  callsGenerator env user lead (Store.data st) = callsGenerator env user lead (Store.disk st).
Proof.
  intros Hin. unfold callsGenerator. rewrite (evolves_pausedNow lead _ _ Hin). reflexivity.
Qed.

(** A lead for which the generator is called is handled from the file,
    whatever the leads before it left in [db.data]. *)
Lemma followUpLead_from_file env user lead st st1 :
  Store.data st = Store.disk st ->
  Store.disk st1 = Store.disk st ->
  inStep st1 ->
  callsGenerator env user lead (Store.disk st) = true ->
  followUpLead env user lead st1 = followUpLead env user lead st.
Proof.
  intros Hsync Hdisk Hin Hcalls.
  rewrite (followUpLead_calls env user lead st1)
    by (rewrite (callsGenerator_inStep env user lead st1 Hin), Hdisk; exact Hcalls).
  rewrite (followUpLead_calls env user lead st) by (rewrite Hsync; exact Hcalls).
  rewrite (dispatchFollowUp_read env user lead _ _ st1),
          (dispatchFollowUp_read env user lead _ _ st).
  unfold Store.read. rewrite Hdisk. reflexivity.
Qed.

(** A lead that gets a mail is one for which the generator is called. *)
Lemma followUpLead_mail_calls env user lead st :
  snd (followUpLead env user lead st) <> [] ->
  callsGenerator env user lead (Store.data st) = true.
Proof.
  intros Hsent.
  destruct (followUpLead_cases env user lead st) as [H | [(rules & H) | (Hcalls & _)]];
    [rewrite H in Hsent; contradiction | rewrite H in Hsent; contradiction | exact Hcalls].
Qed.

Lemma followUpUser_sweep env user st settings :
  List.find (fun s => bool_decide (Settings.user_id s = User.id user))
            (DB.email_settings (Store.data st)) = Some settings ->
  truthy (Settings.email settings) = true ->
  followUpUser env user st
  = (Store.write
       (fst (sweepLeads env user
               (List.filter (fun l => bool_decide (Lead.user_id l = User.id user))
                            (DB.leads (Store.data st))) (st, []))),
     snd (sweepLeads env user
            (List.filter (fun l => bool_decide (Lead.user_id l = User.id user))
                         (DB.leads (Store.data st))) (st, []))).
Proof.
  intros Hset Hemail. unfold followUpUser, sweepLeads. rewrite Hset, Hemail. simpl.
  destruct (fold_left _ _ (st, [])). reflexivity.
Qed.

Lemma inSync_inStep (st : Store.t) : Store.data st = Store.disk st -> inStep st.
Proof. intros H. unfold inStep. rewrite H. apply evolves_refl. Qed.

(** A lead for which the generator is not called is left alone or
    closed by the exhaustion rule. *)
Lemma followUpLead_quiet env user lead st :
  callsGenerator env user lead (Store.data st) = false ->
  followUpLead env user lead st = (st, [])
  \/ exists rules,
       followUpLead env user lead st
       = (Store.update (applyAfterMax rules lead (CadenceEnv.now env)) st, []).
Proof.
  intros Hq.
  destruct (followUpLead_cases env user lead st) as [E | [E | (Hc & _)]];
    [left; exact E | right; exact E | congruence].
Qed.

(** The loop over leads for which the generator is not called sends
    nothing, queues nothing and changes no lead of another id. *)
Lemma sweepLeads_quiet env user (ls : list Lead.t) acc :
  inStep (fst acc) ->
  (forall x, x ∈ ls -> callsGenerator env user x (Store.disk (fst acc)) = false) ->
  let out := sweepLeads env user ls acc in
  snd out = snd acc
  /\ Store.disk (fst out) = Store.disk (fst acc)
  /\ DB.ai_drafts (Store.data (fst out)) = DB.ai_drafts (Store.data (fst acc))
  /\ forall idx l,
       DB.leads (Store.disk (fst acc)) !! idx = Some l ->
       (forall x, x ∈ ls -> Lead.id l <> Lead.id x) ->
       DB.leads (Store.data (fst out)) !! idx = DB.leads (Store.data (fst acc)) !! idx.
Proof.
  revert acc. induction ls as [|x ls IH]; intros acc Hin Hq; cbv zeta.
  { repeat split; reflexivity. }
  rewrite sweepLeads_cons.
  assert (Hqx : callsGenerator env user x (Store.data (fst acc)) = false).
  { rewrite (callsGenerator_inStep env user x _ Hin). apply Hq, list_elem_of_here. }
  pose proof (followUpLead_inStep env user x (fst acc) Hin) as Hin'.
  destruct (followUpLead_quiet env user x (fst acc) Hqx) as [E | (rules & E)];
    rewrite E in *; cbn [fst snd] in *; rewrite app_nil_r.
  - destruct (IH (fst acc, snd acc)) as (H1 & H2 & H3 & H4);
      [exact Hin | intros y Hy; apply Hq, list_elem_of_further, Hy|].
    cbn [fst snd] in *. split; [exact H1|]. split; [exact H2|]. split; [exact H3|].
    intros idx l Hl Hids. apply (H4 idx l Hl).
    intros y Hy. apply Hids, list_elem_of_further, Hy.
  - destruct (IH (Store.update (applyAfterMax rules x (CadenceEnv.now env)) (fst acc),
                  snd acc)) as (H1 & H2 & H3 & H4);
      [exact Hin' | intros y Hy; apply Hq, list_elem_of_further, Hy|].
    cbn [fst snd Store.update Store.data Store.disk] in *.
    split; [exact H1|]. split; [exact H2|]. split.
    + rewrite H3. unfold applyAfterMax. destruct (findIndex _ _); reflexivity.
    + intros idx l Hl Hids. rewrite (H4 idx l Hl)
        by (intros y Hy; apply Hids, list_elem_of_further, Hy).
      unfold applyAfterMax. rewrite (evolves_findIndex _ _ (Lead.id x) Hin).
      destruct (findIndex _ (DB.leads (Store.disk (fst acc)))) as [j|] eqn:Hj; [|reflexivity].
      simpl. apply list_lookup_alter_ne.
      apply (other_id_other_index _ _ j idx l Hj Hl), Hids, list_elem_of_here.
Qed.

(** The turn of a user, split at one of the user's leads after which the
    generator is not called again: the turn writes what the loop body of
    that lead left in [db.data], up to the leads closed after it. *)
Lemma followUpUser_turn env user st settings pre lead post :
  Store.data st = Store.disk st ->
  List.find (fun s => bool_decide (Settings.user_id s = User.id user))
            (DB.email_settings (Store.disk st)) = Some settings ->
  truthy (Settings.email settings) = true ->
  List.filter (fun l => bool_decide (Lead.user_id l = User.id user)) (DB.leads (Store.disk st))
  = pre ++ lead :: post ->
  (forall x, x ∈ post -> callsGenerator env user x (Store.disk st) = false) ->
  exists st1 sent1,
    sweepLeads env user pre (st, []) = (st1, sent1)
    /\ Store.disk st1 = Store.disk st
    /\ inStep st1
    /\ snd (followUpUser env user st) = sent1 ++ snd (followUpLead env user lead st1)
    /\ DB.ai_drafts (Store.disk (fst (followUpUser env user st)))
       = DB.ai_drafts (Store.data (fst (followUpLead env user lead st1)))
    /\ forall idx l,
         DB.leads (Store.disk st) !! idx = Some l ->
         (forall x, x ∈ post -> Lead.id l <> Lead.id x) ->
         DB.leads (Store.disk (fst (followUpUser env user st))) !! idx
         = DB.leads (Store.data (fst (followUpLead env user lead st1))) !! idx.
Proof.
  intros Hsync Hset Hemail Hleads Hq.
  assert (Hin : inStep (fst (st, @nil Mail.t))) by apply inSync_inStep, Hsync.
  destruct (sweepLeads_inStep env user pre (st, []) Hin) as [Hstep Hdisk].
  destruct (sweepLeads env user pre (st, [])) as [st1 sent1] eqn:Hpre.
  simpl in Hstep, Hdisk.
  exists st1, sent1. split; [reflexivity|]. split; [exact Hdisk|]. split; [exact Hstep|].
  rewrite <- Hsync in Hset, Hleads.
  rewrite (followUpUser_sweep env user st settings Hset Hemail), Hleads.
  rewrite sweepLeads_app, Hpre, sweepLeads_cons. cbn [fst snd Store.write Store.disk].
  set (acc := (fst (followUpLead env user lead st1),
               sent1 ++ snd (followUpLead env user lead st1))).
  assert (Hd : Store.disk (fst acc) = Store.disk st)
    by (subst acc; cbn [fst]; rewrite followUpLead_disk; exact Hdisk).
  destruct (sweepLeads_quiet env user post acc) as (H1 & H2 & H3 & H4).
  { apply followUpLead_inStep, Hstep. }
  { rewrite Hd. exact Hq. }
  rewrite Hd in H4. split; [exact H1|]. split; [exact H3|]. exact H4.
Qed.

(** A lead for which the generator is called, on the file as the turn
    found it. *)
Lemma followUpLead_turn env user lead st st1 :
  Store.data st = Store.disk st ->
  Store.disk st1 = Store.disk st ->
  inStep st1 ->
  snd (followUpLead env user lead st1) = snd (followUpLead env user lead st)
  /\ (callsGenerator env user lead (Store.disk st) = true ->
      followUpLead env user lead st1 = followUpLead env user lead st).
Proof.
  intros Hsync Hdisk Hin.
  assert (H : callsGenerator env user lead (Store.disk st) = true ->
              followUpLead env user lead st1 = followUpLead env user lead st)
    by (apply followUpLead_from_file; assumption).
  split; [|exact H].
  destruct (callsGenerator env user lead (Store.disk st)) eqn:Hc;
    [rewrite H by reflexivity; reflexivity|].
  assert (Hc1 : callsGenerator env user lead (Store.data st1) = false)
    by (rewrite (callsGenerator_inStep env user lead st1 Hin), Hdisk; exact Hc).
  rewrite <- Hsync in Hc.
  destruct (followUpLead_quiet env user lead st1 Hc1) as [-> | (r1 & ->)];
    destruct (followUpLead_quiet env user lead st Hc) as [-> | (r & ->)]; reflexivity.
Qed.

(** The [db.read()] of the generator discards what the leads before it
    left in [db.data]: when the generator is called for a lead of the
    user, the turn writes every lead whose id is not that of a later lead
    as the file had it. *)
Lemma followUpUser_discards env user st settings pre l2 post idx l0 :
  Store.data st = Store.disk st ->
  List.find (fun s => bool_decide (Settings.user_id s = User.id user))
            (DB.email_settings (Store.disk st)) = Some settings ->
  truthy (Settings.email settings) = true ->
  List.filter (fun l => bool_decide (Lead.user_id l = User.id user)) (DB.leads (Store.disk st))
  = pre ++ l2 :: post ->
  callsGenerator env user l2 (Store.disk st) = true ->
  DB.leads (Store.disk st) !! idx = Some l0 ->
  (forall x, x ∈ l2 :: post -> Lead.id l0 <> Lead.id x) ->
  DB.leads (Store.disk (fst (followUpUser env user st))) !! idx = Some l0.
Proof.
  intros Hsync Hset Hemail Hleads Hcalls Hl0 Hids.
  assert (Hin : inStep (fst (st, @nil Mail.t))) by apply inSync_inStep, Hsync.
  destruct (sweepLeads_inStep env user pre (st, []) Hin) as [Hstep Hdisk].
  rewrite <- Hsync in Hset, Hleads.
  rewrite (followUpUser_sweep env user st settings Hset Hemail), Hleads.
  rewrite sweepLeads_app, sweepLeads_cons. cbn [fst snd Store.write Store.disk].
  set (acc1 := sweepLeads env user pre (st, [])) in *. cbn [fst] in Hdisk.
  assert (Hd2 : Store.disk (fst (followUpLead env user l2 (fst acc1))) = Store.disk st)
    by (rewrite followUpLead_disk; exact Hdisk).
  rewrite <- Hd2 in Hl0.
  apply sweepLeads_keeps_at; cbn [fst].
  - apply followUpLead_inStep, Hstep.
  - intros x Hx. apply Hids, list_elem_of_further, Hx.
  - exact Hl0.
  - rewrite Hd2 in Hl0.
    rewrite (followUpLead_from_file env user l2 st (fst acc1) Hsync Hdisk Hstep Hcalls).
    rewrite (followUpLead_calls env user l2 st) by (rewrite Hsync; exact Hcalls).
    pose proof (dispatchFollowUp_leads env user l2 (governingIntent l2)
                  (Lead.follow_up_count l2) st) as Hl.
    cbv zeta in Hl.
    destruct Hl as [-> | (j & Hj & _ & ->)]; [exact Hl0|].
    rewrite list_lookup_alter_ne; [exact Hl0|].
    apply (other_id_other_index _ _ j idx l0 Hj Hl0), Hids, list_elem_of_here.
Qed.

Lemma followUpUser_evolves env user st :
  Store.data st = Store.disk st ->
  evolves (Store.disk st) (Store.disk (fst (followUpUser env user st))).
Proof.
  intros Hsync.
  destruct (List.find (fun s => bool_decide (Settings.user_id s = User.id user))
              (DB.email_settings (Store.data st))) as [settings|] eqn:Hset.
  2: { unfold followUpUser. rewrite Hset. apply evolves_refl. }
  destruct (truthy (Settings.email settings)) eqn:Hemail.
  2: { unfold followUpUser. rewrite Hset, Hemail. apply evolves_refl. }
  rewrite (followUpUser_sweep env user _ settings Hset Hemail).
  cbn [fst Store.write Store.disk].
  match goal with
  | |- context [sweepLeads env user ?ls ?a] =>
      destruct (sweepLeads_inStep env user ls a) as [Hstep Hdisk]
  end; [apply inSync_inStep, Hsync|].
  simpl in Hdisk. unfold inStep in Hstep. rewrite Hdisk in Hstep. exact Hstep.
Qed.

(** ** Turns within a sweep *)

Lemma followUpUser_inSync env user st :
  Store.data st = Store.disk st ->
  Store.data (fst (followUpUser env user st)) = Store.disk (fst (followUpUser env user st)).
Proof.
  intros Hsync. unfold followUpUser.
  destruct (List.find _ _) as [settings|]; [|exact Hsync].
  destruct (negb (truthy (Settings.email settings))); [exact Hsync|].
  cbv zeta. destruct (fold_left _ _ (st, [])). reflexivity.
Qed.

(** The turn of a user keeps the leads of the others. *)
Lemma followUpUser_frame env user userId st :
  Store.data st = Store.disk st ->
  NoDup (Lead.id <$> DB.leads (Store.disk st)) ->
  User.id user <> userId ->
  evolves (Store.disk st) (Store.disk (fst (followUpUser env user st)))
  /\ sameLeadsOf userId (Store.disk st) (Store.disk (fst (followUpUser env user st))).
Proof.
  intros Hsync Hnd Hid.
  destruct (List.find (fun s => bool_decide (Settings.user_id s = User.id user))
              (DB.email_settings (Store.data st))) as [settings|] eqn:Hset.
  2: { unfold followUpUser. rewrite Hset. split; [apply evolves_refl | apply sameLeadsOf_refl]. }
  destruct (truthy (Settings.email settings)) eqn:Hemail.
  2: { unfold followUpUser. rewrite Hset, Hemail. simpl.
       split; [apply evolves_refl | apply sameLeadsOf_refl]. }
  rewrite (followUpUser_sweep env user st settings Hset Hemail). cbn [fst Store.write Store.disk].
  set (ls := List.filter _ _).
  assert (Hin : inStep (fst (st, @nil Mail.t))) by apply inSync_inStep, Hsync.
  destruct (sweepLeads_inStep env user ls (st, []) Hin) as [Hstep Hdisk].
  simpl in Hdisk. unfold inStep in Hstep. rewrite Hdisk in Hstep.
  split; [exact Hstep|].
  apply (sweepLeads_others env user userId ls (st, [])); simpl.
  - apply inSync_inStep, Hsync.
  - exact Hnd.
  - intros x Hx. subst ls. apply list_elem_of_In, filter_In in Hx as [Hx Hu].
    apply bool_decide_eq_true_1 in Hu. rewrite Hsync in Hx.
    split; [apply list_elem_of_In, Hx | congruence].
  - rewrite Hsync. apply sameLeadsOf_refl.
Qed.

Lemma evolves_NoDup d d' :
  evolves d d' -> NoDup (Lead.id <$> DB.leads d) -> NoDup (Lead.id <$> DB.leads d').
Proof. intros Hev. rewrite (evolves_ids d d' Hev). tauto. Qed.

(** The turns of users of other ids. *)
Lemma sweepUsers_frame env userId (us : list User.t) acc :
  Store.data (fst acc) = Store.disk (fst acc) ->
  NoDup (Lead.id <$> DB.leads (Store.disk (fst acc))) ->
  (forall u, u ∈ us -> User.id u <> userId) ->
  let out := sweepUsers env us acc in
  Store.data (fst out) = Store.disk (fst out)
  /\ evolves (Store.disk (fst acc)) (Store.disk (fst out))
  /\ sameLeadsOf userId (Store.disk (fst acc)) (Store.disk (fst out))
  /\ exists more, snd out = snd acc ++ more.
Proof.
  revert acc. induction us as [|u us IH]; intros acc Hsync Hnd Hids; cbv zeta.
  { split; [exact Hsync|]. split; [apply evolves_refl|]. split; [apply sameLeadsOf_refl|].
    exists []. rewrite app_nil_r. reflexivity. }
  rewrite sweepUsers_cons.
  destruct (followUpUser_frame env u userId (fst acc) Hsync Hnd) as [Hev Hsame].
  { apply Hids, list_elem_of_here. }
  pose proof (followUpUser_inSync env u (fst acc) Hsync) as Hsync'.
  destruct (IH (fst (followUpUser env u (fst acc)),
                snd acc ++ snd (followUpUser env u (fst acc)))) as (H1 & H2 & H3 & more & H4).
  - exact Hsync'.
  - simpl. apply (evolves_NoDup _ _ Hev Hnd).
  - intros u' Hu'. apply Hids, list_elem_of_further, Hu'.
  - simpl in *. split; [exact H1|]. split; [exact (evolves_trans _ _ _ Hev H2)|].
    split; [exact (sameLeadsOf_trans _ _ _ _ Hsame H3)|].
    exists (snd (followUpUser env u (fst acc)) ++ more). rewrite H4, app_assoc. reflexivity.
Qed.

(** The turn of a user within the sweep: it starts from a file that holds
    the settings, the leads of the user and the positions of all leads as
    the file did when the sweep started, and what it writes of the leads
    of the user is in the file when the sweep ends. *)
Lemma processFollowUps_turn env st user userLeads :
  hasTurn user userLeads (Store.disk st) ->
  exists st0 sent0 st2 sent2,
    Store.data st0 = Store.disk st0
    /\ evolves (Store.disk st) (Store.disk st0)
    /\ sameLeadsOf (User.id user) (Store.disk st) (Store.disk st0)
    /\ processFollowUps env st
       = (st2, sent0 ++ snd (followUpUser env user st0) ++ sent2)
    /\ Store.data st2 = Store.disk st2
    /\ evolves (Store.disk (fst (followUpUser env user st0))) (Store.disk st2)
    /\ sameLeadsOf (User.id user) (Store.disk (fst (followUpUser env user st0)))
         (Store.disk st2).
Proof.
  intros ((before & after & Husers & Hids) & Hnd & _ & _).
  unfold processFollowUps. fold (sweepUsers env (DB.users (Store.data (Store.read st)))
                                   (Store.read st, [])).
  simpl. rewrite Husers, sweepUsers_app, sweepUsers_cons.
  destruct (sweepUsers_frame env (User.id user) before (Store.read st, []))
    as (Hsync0 & Hev0 & Hsame0 & sent0 & Hsent0); [reflexivity | exact Hnd | |].
  { intros u Hu. apply Hids, elem_of_app. left. exact Hu. }
  simpl in Hev0, Hsame0, Hsent0.
  set (acc0 := sweepUsers env before (Store.read st, [])) in *.
  pose proof (followUpUser_inSync env user (fst acc0) Hsync0) as Hsync1.
  pose proof (followUpUser_evolves env user (fst acc0) Hsync0) as Hev1.
  destruct (sweepUsers_frame env (User.id user) after
              (fst (followUpUser env user (fst acc0)),
               snd acc0 ++ snd (followUpUser env user (fst acc0))))
    as (Hsync2 & Hev2 & Hsame2 & sent2 & Hsent2); [exact Hsync1 | | |].
  { simpl. apply (evolves_NoDup _ _ Hev1), (evolves_NoDup _ _ Hev0), Hnd. }
  { intros u Hu. apply Hids, elem_of_app. right. exact Hu. }
  simpl in Hev2, Hsame2, Hsent2.
  exists (fst acc0), sent0. eexists. exists sent2.
  split; [exact Hsync0|]. split; [exact Hev0|]. split; [exact Hsame0|].
  split; [|split; [exact Hsync2|split; [exact Hev2 | exact Hsame2]]].
  rewrite (surjective_pairing (sweepUsers env after _)). f_equal.
  rewrite Hsent2, Hsent0, <- app_assoc. reflexivity.
Qed.

End TurnFacts.

(** ** A lead within a sweep *)

Section SweepFacts.

Import Js.



(** The leads of a user have ids of their own. *)
Lemma filter_ids_apart (p : Lead.t -> bool) (ls pre post : list Lead.t) lead :
  NoDup (Lead.id <$> ls) -> List.filter p ls = pre ++ lead :: post ->
  forall x, x ∈ pre ++ post -> Lead.id lead <> Lead.id x.
Proof.
  intros Hnd Hfil.
  assert (Hnd' : NoDup (Lead.id <$> (pre ++ lead :: post))).
  { rewrite <- Hfil. apply (sublist_NoDup _ (Lead.id <$> ls)); [exact Hnd|].
    apply fmap_sublist, filter_sublist. }
  rewrite fmap_app, fmap_cons in Hnd'. apply NoDup_app in Hnd' as (_ & Hcross & Hrest).
  apply NoDup_cons in Hrest as (Hnot & _).
  intros x Hx Hid. apply elem_of_app in Hx as [Hx | Hx].
  - apply (Hcross (Lead.id x)).
    + apply list_elem_of_fmap. exists x. split; [reflexivity | exact Hx].
    + rewrite <- Hid. apply list_elem_of_here.
  - apply Hnot. rewrite Hid. apply list_elem_of_fmap. exists x. split; [reflexivity | exact Hx].
Qed.

Lemma filter_owner userId (ls pre post : list Lead.t) lead :
  List.filter (fun l => bool_decide (Lead.user_id l = userId)) ls = pre ++ lead :: post ->
  lead ∈ ls /\ Lead.user_id lead = userId.
Proof.
  intros Hfil.
  assert (Hin : In lead (List.filter (fun l => bool_decide (Lead.user_id l = userId)) ls)).
  { rewrite Hfil. apply in_or_app. right. left. reflexivity. }
  apply filter_In in Hin as [Hin Hu]. apply bool_decide_eq_true_1 in Hu.
  split; [apply list_elem_of_In, Hin | exact Hu].
Qed.

(** The live pause flag of a lead of the file is its own. *)
Lemma pausedNow_own lead d :
  NoDup (Lead.id <$> DB.leads d) -> lead ∈ DB.leads d ->
  pausedNow lead d = Lead.follow_up_paused lead.
Proof.
  intros Hnd Hin. apply list_elem_of_lookup_1 in Hin as (i & Hi).
  unfold pausedNow. rewrite (findIndex_by_key Lead.id _ i lead Hnd Hi), Hi. reflexivity.
Qed.

Lemma skipsLead_not_paused env user lead :
  skipsLead env user lead = false -> Lead.follow_up_paused lead = false.
Proof.
  unfold skipsLead. intros H. repeat (apply orb_false_iff in H as [H ?]). assumption.
Qed.

Lemma sweepLeads_mails env user (ls : list Lead.t) acc :
  exists more, snd (sweepLeads env user ls acc) = snd acc ++ more.
Proof.
  revert acc. induction ls as [|x ls IH]; intros acc.
  - exists []. rewrite app_nil_r. reflexivity.
  - rewrite sweepLeads_cons. destruct (IH (fst (followUpLead env user x (fst acc)),
                snd acc ++ snd (followUpLead env user x (fst acc)))) as (more & ->).
    simpl. eexists. rewrite <- app_assoc. reflexivity.
Qed.


(** The turn of a user within the sweep, seen from one of the user's
    leads. *)
Lemma processFollowUps_lead env st user pre lead post idx :
  hasTurn user (pre ++ lead :: post) (Store.disk st) ->
  DB.leads (Store.disk st) !! idx = Some lead ->
  exists st0 sent0 st2 sent2 settings,
    processFollowUps env st = (st2, sent0 ++ snd (followUpUser env user st0) ++ sent2)
    /\ Store.data st0 = Store.disk st0
    /\ evolves (Store.disk st) (Store.disk st0)
    /\ List.find (fun s => bool_decide (Settings.user_id s = User.id user))
                 (DB.email_settings (Store.disk st0)) = Some settings
    /\ truthy (Settings.email settings) = true
    /\ List.filter (fun l => bool_decide (Lead.user_id l = User.id user))
                   (DB.leads (Store.disk st0)) = pre ++ lead :: post
    /\ NoDup (Lead.id <$> DB.leads (Store.disk st0))
    /\ DB.leads (Store.disk st0) !! idx = Some lead
    /\ (forall x, callsGenerator env user x (Store.disk st0)
                  = callsGenerator env user x (Store.disk st))
    /\ evolves (Store.disk (fst (followUpUser env user st0))) (Store.disk st2)
    /\ forall l', DB.leads (Store.disk (fst (followUpUser env user st0))) !! idx = Some l' ->
                  Lead.user_id l' = User.id user ->
                  DB.leads (Store.disk st2) !! idx = Some l'.
Proof.
  intros Hturn Hidx.
  destruct (processFollowUps_turn env st user _ Hturn)
    as (st0 & sent0 & st2 & sent2 & Hsync0 & Hev0 & Hsame0 & Hrun & _ & Hev2 & Hsame2).
  destruct Hturn as (_ & Hnd & (settings & Hset & Hemail) & Hfil).
  destruct (filter_owner _ _ _ _ _ Hfil) as (_ & Howner).
  exists st0, sent0, st2, sent2, settings.
  pose proof Hev0 as (_ & Hs & _).
  split; [exact Hrun|]. split; [exact Hsync0|]. split; [exact Hev0|].
  split; [rewrite Hs; exact Hset|]. split; [exact Hemail|].
  split; [rewrite <- Hfil; apply evolves_filter; assumption|].
  split; [apply (evolves_NoDup _ _ Hev0 Hnd)|].
  split; [apply (Hsame0 idx lead Hidx Howner)|].
  split; [|split; [exact Hev2|]].
  - intros x. unfold callsGenerator. rewrite (evolves_pausedNow x _ _ Hev0). reflexivity.
  - intros l' Hl' Hu. apply (Hsame2 idx l' Hl' Hu).
Qed.

(** The turn of a user, seen from one of the user's leads: the mails of
    the turn hold those of the lead; what the loop body left of the lead
    is written when the generator is not called for a later lead, and
    discarded when it is. *)
Lemma followUpUser_lead env user st settings pre lead post idx :
  Store.data st = Store.disk st ->
  List.find (fun s => bool_decide (Settings.user_id s = User.id user))
            (DB.email_settings (Store.disk st)) = Some settings ->
  truthy (Settings.email settings) = true ->
  List.filter (fun l => bool_decide (Lead.user_id l = User.id user)) (DB.leads (Store.disk st))
  = pre ++ lead :: post ->
  NoDup (Lead.id <$> DB.leads (Store.disk st)) ->
  DB.leads (Store.disk st) !! idx = Some lead ->
  exists st1 sent1 sent2,
    Store.disk st1 = Store.disk st
    /\ inStep st1
    /\ DB.leads (Store.data st1) !! idx = Some lead
    /\ findIndex (fun l => bool_decide (Lead.id l = Lead.id lead)) (DB.leads (Store.data st1))
       = Some idx
    /\ snd (followUpLead env user lead st1) = snd (followUpLead env user lead st)
    /\ (callsGenerator env user lead (Store.disk st) = true ->
        followUpLead env user lead st1 = followUpLead env user lead st)
    /\ snd (followUpUser env user st) = sent1 ++ snd (followUpLead env user lead st) ++ sent2
    /\ ((forall x, x ∈ post -> callsGenerator env user x (Store.disk st) = false) ->
        DB.ai_drafts (Store.disk (fst (followUpUser env user st)))
        = DB.ai_drafts (Store.data (fst (followUpLead env user lead st1)))
        /\ DB.leads (Store.disk (fst (followUpUser env user st))) !! idx
           = DB.leads (Store.data (fst (followUpLead env user lead st1))) !! idx)
    /\ (forall x, x ∈ post -> callsGenerator env user x (Store.disk st) = true ->
        DB.leads (Store.disk (fst (followUpUser env user st))) !! idx = Some lead).
Proof.
  intros Hsync Hset Hemail Hfil Hnd Hidx.
  pose proof (filter_ids_apart _ _ _ _ _ Hnd Hfil) as Hapart.
  assert (Hin : inStep (fst (st, @nil Mail.t))) by apply inSync_inStep, Hsync.
  destruct (sweepLeads_inStep env user pre (st, []) Hin) as [Hstep Hdisk].
  pose proof (sweepLeads_keeps_at env user pre (st, []) idx lead Hin) as Hkeep.
  destruct (sweepLeads env user pre (st, [])) as [st1 sent1] eqn:Hpre.
  cbn [fst snd] in *.
  assert (Hdata1 : DB.leads (Store.data st1) !! idx = Some lead).
  { apply Hkeep; [|exact Hidx|rewrite Hsync; exact Hidx].
    intros x Hx. apply Hapart, elem_of_app. left. exact Hx. }
  destruct (followUpLead_turn env user lead st st1 Hsync Hdisk Hstep) as [Hmails Hsame].
  assert (Hrun : exists sent2,
             snd (followUpUser env user st)
             = sent1 ++ snd (followUpLead env user lead st) ++ sent2).
  { pose proof Hset as Hset'. pose proof Hfil as Hfil'. rewrite <- Hsync in Hset', Hfil'.
    rewrite (followUpUser_sweep env user st settings Hset' Hemail), Hfil'.
    rewrite sweepLeads_app, Hpre, sweepLeads_cons. cbn [fst snd].
    match goal with
    | |- context [sweepLeads env user post ?a] =>
        destruct (sweepLeads_mails env user post a) as (sent2 & ->)
    end.
    exists sent2. cbn [snd]. rewrite Hmails, <- app_assoc. reflexivity. }
  destruct Hrun as (sent2 & Hrun).
  exists st1, sent1, sent2.
  split; [exact Hdisk|]. split; [exact Hstep|]. split; [exact Hdata1|].
  split.
  { rewrite (evolves_findIndex _ _ (Lead.id lead) Hstep), Hdisk.
    apply (findIndex_by_key Lead.id _ idx lead Hnd Hidx). }
  split; [exact Hmails|]. split; [exact Hsame|]. split; [exact Hrun|]. split.
  - intros Hq.
    destruct (followUpUser_turn env user st settings pre lead post Hsync Hset Hemail Hfil Hq)
      as (st1' & sent1' & Hpre' & _ & _ & _ & Hdrafts & Hleads).
    rewrite Hpre in Hpre'. injection Hpre' as <- <-.
    split; [exact Hdrafts|]. apply (Hleads idx lead Hidx).
    intros x Hx. apply Hapart, elem_of_app. right. exact Hx.
  - intros x Hx Hcalls.
    apply list_elem_of_split in Hx as (mid & post' & ->).
    apply (followUpUser_discards env user st settings (pre ++ lead :: mid) x post' idx lead
             Hsync Hset Hemail).
    + rewrite Hfil, <- app_assoc. reflexivity.
    + exact Hcalls.
    + exact Hidx.
    + intros y Hy. apply Hapart, elem_of_app. right.
      apply elem_of_app. right. exact Hy.
Qed.

(** A sweep, seen from a lead of the file: [st0] is the store when the
    turn of the owner starts, [st1] the store when the loop reaches the
    lead. *)
Lemma processFollowUps_at env st user pre lead post idx :
  hasTurn user (pre ++ lead :: post) (Store.disk st) ->
  DB.leads (Store.disk st) !! idx = Some lead ->
  exists st0 st1 before after,
    Store.data st0 = Store.disk st0
    /\ evolves (Store.disk st) (Store.disk st0)
    /\ DB.leads (Store.disk st0) !! idx = Some lead
    /\ NoDup (Lead.id <$> DB.leads (Store.disk st0))
    /\ Store.disk st1 = Store.disk st0
    /\ inStep st1
    /\ DB.leads (Store.data st1) !! idx = Some lead
    /\ findIndex (fun l => bool_decide (Lead.id l = Lead.id lead)) (DB.leads (Store.data st1))
       = Some idx
    /\ (callsGenerator env user lead (Store.disk st) = true ->
        followUpLead env user lead st1 = followUpLead env user lead st0)
    /\ snd (processFollowUps env st)
       = before ++ snd (followUpLead env user lead st0) ++ after
    /\ ((forall x, x ∈ post -> callsGenerator env user x (Store.disk st) = false) ->
        (exists more,
           DB.ai_drafts (Store.disk (fst (processFollowUps env st)))
           = DB.ai_drafts (Store.data (fst (followUpLead env user lead st1))) ++ more)
        /\ forall l',
             DB.leads (Store.data (fst (followUpLead env user lead st1))) !! idx = Some l' ->
             Lead.user_id l' = User.id user ->
             DB.leads (Store.disk (fst (processFollowUps env st))) !! idx = Some l')
    /\ (forall x, x ∈ post -> callsGenerator env user x (Store.disk st) = true ->
        DB.leads (Store.disk (fst (processFollowUps env st))) !! idx = Some lead).
Proof.
  intros Hturn Hidx.
  destruct (processFollowUps_lead env st user pre lead post idx Hturn Hidx)
    as (st0 & sent0 & st2 & sent2 & settings & Hrun & Hsync0 & Hev0 & Hset & Hemail & Hfil
        & Hnd & Hidx0 & Hcalls & Hev2 & Hsame2).
  destruct (followUpUser_lead env user st0 settings pre lead post idx
              Hsync0 Hset Hemail Hfil Hnd Hidx0)
    as (st1 & sent1 & sent1' & Hdisk1 & Hstep1 & Hdata1 & Hfind1 & _ & Hsame1 & Hmails
        & Hquiet & Hdiscard).
  destruct (filter_owner _ _ _ _ _ Hfil) as (_ & Howner).
  exists st0, st1, (sent0 ++ sent1), (sent1' ++ sent2).
  rewrite Hrun. cbn [fst snd].
  split; [exact Hsync0|]. split; [exact Hev0|]. split; [exact Hidx0|]. split; [exact Hnd|].
  split; [exact Hdisk1|]. split; [exact Hstep1|]. split; [exact Hdata1|].
  split; [exact Hfind1|].
  split; [intros Hc; apply Hsame1; rewrite Hcalls; exact Hc|].
  split; [rewrite Hmails, <- !app_assoc; reflexivity|].
  split.
  - intros Hq.
    destruct Hquiet as (Hdrafts & Hleads).
    { intros x Hx. rewrite Hcalls. apply Hq, Hx. }
    split.
    + destruct Hev2 as (_ & _ & _ & more & Hmore). exists more.
      rewrite Hmore, Hdrafts. reflexivity.
    + intros l' Hl' Hu. apply Hsame2; [|exact Hu]. rewrite Hleads. exact Hl'.
  - intros x Hx Hc. apply Hsame2; [|exact Howner].
    apply (Hdiscard x Hx). rewrite Hcalls. exact Hc.
Qed.

(** A dispatch in auto mode of an allowed intent, with a text and a
    working transport: the mail, and the leads left in [db.data]. *)
Lemma dispatchFollowUp_sends env user lead intent n st :
  truthy (followUpText (CadenceEnv.ai env (Lead.id lead)) lead) = true ->
  User.auto_mode_enabled user && intentAllowedInAuto user intent = true ->
  CadenceEnv.sendEmail_ok env (Lead.id lead) = true ->
  snd (dispatchFollowUp env user lead intent n st)
  = [Mail.mk (Lead.email lead) (followUpSubject lead)
       (followUpText (CadenceEnv.ai env (Lead.id lead)) lead) (Lead.id lead)]
  /\ forall idx,
       findIndex (fun l => bool_decide (Lead.id l = Lead.id lead)) (DB.leads (Store.disk st))
       = Some idx ->
       DB.leads (Store.data (fst (dispatchFollowUp env user lead intent n st)))
       = alter (countFollowUp n (CadenceEnv.now env)) idx (DB.leads (Store.disk st)).
Proof.
  intros Hbody Hauto Hok. unfold dispatchFollowUp.
  pose proof (generateFollowUpEmail_store (CadenceEnv.ai env (Lead.id lead)) lead intent
                (User.id user) st) as Hst.
  pose proof (generateFollowUpEmail_text (CadenceEnv.ai env (Lead.id lead)) lead intent
                (User.id user) st) as Htext.
  destruct (generateFollowUpEmail _ lead intent (User.id user) st) as [st1 result].
  simpl in Hst, Htext. subst st1. rewrite Htext, Hbody, Hauto, Hok.
  split; [reflexivity|]. intros idx Hidx.
  unfold Store.update; simpl.
  match goal with
  | |- context [trackVariantSend ?u ?i ?v ?t ?d] =>
      destruct (trackVariantSend_frame u i v t d) as [rs ->]
  end.
  unfold recordFollowUpSent.
  destruct (findIndex _ (DB.users (Store.disk st))); simpl; rewrite Hidx; reflexivity.
Qed.

End SweepFacts.

(** ** Drafts queued by successive sweeps *)

Section DraftAccumulation.

Import Js.







End DraftAccumulation.

(** * Properties of the further parts *)

(** ** Intent classification *)

Section TextFacts.

Import Js Text.

Lemma starts_with_app (a b s : string) :
  starts_with (a +:+ b) s = true -> exists t, s = a +:+ t /\ starts_with b t = true.
Proof.
  revert s. induction a as [|c a IH]; intros s H; simpl in *.
  - exists s. split; [reflexivity | exact H].
  - destruct s as [|c' s]; [discriminate|].
    apply andb_true_iff in H as [Hc H]. apply bool_decide_eq_true in Hc as ->.
    destruct (IH s H) as (t & -> & Ht). exists t. split; [reflexivity | exact Ht].
Qed.

Lemma starts_with_includes (p s : string) : starts_with p s = true -> includes p s = true.
Proof. intros H. destruct s; simpl in *; rewrite H; reflexivity. Qed.

Lemma includes_drop (a p t : string) : includes p t = true -> includes p (a +:+ t) = true.
Proof.
  intros H. induction a as [|c a IH]; simpl; [exact H|].
  rewrite IH. apply orb_true_r.
Qed.

(** An occurrence of [a +:+ b] holds an occurrence of [b]. *)
Lemma includes_app_r (a b s : string) : includes (a +:+ b) s = true -> includes b s = true.
Proof.
  induction s as [|c s IH]; intros H.
  - simpl in H. rewrite orb_false_r in H.
    destruct (starts_with_app a b "" H) as (t & Ht & Hb).
    rewrite Ht. apply includes_drop, starts_with_includes, Hb.
  - simpl in H. apply orb_true_iff in H as [H | H].
    + destruct (starts_with_app a b (String c s) H) as (t & -> & Hb).
      apply includes_drop, starts_with_includes, Hb.
    + simpl. rewrite (IH H). apply orb_true_r.
Qed.

Lemma toLowerCase_app (a b : string) :
  toLowerCase (a +:+ b) = toLowerCase a +:+ toLowerCase b.
Proof. induction a as [|c a IH]; simpl; [reflexivity | rewrite IH; reflexivity]. Qed.

Lemma ends_with_nil (p : string) : p <> "" -> ends_with p "" = false.
Proof.
  intros Hp. simpl. rewrite orb_false_r. apply bool_decide_eq_false. congruence.
Qed.

Lemma ends_with_app (a p s : string) : ends_with p s = true -> ends_with p (a +:+ s) = true.
Proof.
  intros H. induction a as [|c a IH]; simpl; [exact H|].
  rewrite IH. apply orb_true_r.
Qed.

Lemma ends_with_cons (p : string) (c : ascii) (s : string) :
  ends_with p (String c s) = bool_decide (String c s = p) || ends_with p s.
Proof. reflexivity. Qed.

Lemma ends_with_toLowerCase (s : string) :
  ends_with "?" s = true -> ends_with "?" (toLowerCase s) = true.
Proof.
  induction s as [|c s IH]; intros H; [discriminate|].
  rewrite ends_with_cons in H. apply orb_true_iff in H as [H | H].
  - apply bool_decide_eq_true in H. injection H as -> ->. reflexivity.
  - simpl. rewrite (IH H). apply orb_true_r.
Qed.

Lemma ends_with_trim_start (s : string) :
  ends_with "?" s = true -> ends_with "?" (trim_start s) = true.
Proof.
  induction s as [|c s IH]; intros H; [discriminate|].
  simpl. destruct (is_space c) eqn:Hc; [|exact H].
  rewrite ends_with_cons in H. apply orb_true_iff in H as [H | H]; [|exact (IH H)].
  apply bool_decide_eq_true in H. injection H as -> ->. discriminate.
Qed.

Lemma ends_with_trim_end (s : string) :
  ends_with "?" s = true -> ends_with "?" (trim_end s) = true.
Proof.
  induction s as [|c s IH]; intros H; [discriminate|].
  rewrite ends_with_cons in H. apply orb_true_iff in H as [H | H].
  - apply bool_decide_eq_true in H. injection H as -> ->. reflexivity.
  - specialize (IH H). simpl.
    destruct (trim_end s) as [|c' t] eqn:Ht; [discriminate|].
    rewrite bool_decide_eq_false_2 by discriminate. rewrite andb_false_r.
    rewrite ends_with_cons, IH. apply orb_true_r.
Qed.

Lemma ends_with_trim (s : string) : ends_with "?" s = true -> ends_with "?" (trim s) = true.
Proof. intros H. apply ends_with_trim_end, ends_with_trim_start, H. Qed.

Lemma trim_end_space (s : string) : trim_end (s +:+ " ") = trim_end s.
Proof.
  induction s as [|c s IH]; [reflexivity|].
  simpl. rewrite IH. reflexivity.
Qed.

Lemma trim_start_app (x z : string) :
  trim_start x <> "" -> trim_start (x +:+ z) = trim_start x +:+ z.
Proof.
  induction x as [|c x IH]; intros H; [simpl in H; congruence|].
  simpl in *. destruct (is_space c); [exact (IH H) | reflexivity].
Qed.

(** A text that ends in a question mark still does so after a blank was
    appended and the whole was trimmed. *)
Lemma ends_with_trim_space (x : string) :
  ends_with "?" x = true -> ends_with "?" (trim (x +:+ " ")) = true.
Proof.
  intros H. unfold trim.
  assert (Hs : ends_with "?" (trim_start x) = true) by exact (ends_with_trim_start x H).
  rewrite trim_start_app.
  - rewrite trim_end_space. apply ends_with_trim_end, Hs.
  - intros E. rewrite E in Hs. discriminate.
Qed.

End TextFacts.

Section ClassifierFacts.

Import Js Text.

(** X1.  Whatever the model answers and whatever the mail says, the
    classifier returns one of the five intents: an answer that names none
    of them reads as GHOSTING, and the keyword rules used when the call
    fails end in GHOSTING.  The keyword detection of the services layer
    has the same range. *)
Theorem classification_is_closed :
  (forall api replyText emailSubject,
     Analysis.intent (analyzeReplyWithAI api replyText emailSubject) ∈ validIntents)
  /\ (forall text subject,
       Detection.category (fallbackIntentDetection text subject) ∈ validIntents).
Proof.
  split.
  - intros [text| |] replyText emailSubject; unfold analyzeReplyWithAI.
    + unfold classifyAnswer. cbn [Analysis.intent].
      destruct (List.find (namesIntent (toUpperCase (trim text))) validIntents)
        as [v|] eqn:Hfind; cbn [default].
      * apply find_some in Hfind as [Hin _]. apply list_elem_of_In, Hin.
      * unfold validIntents. set_solver.
    + unfold keywordClassification, validIntents.
      repeat match goal with |- context [if ?b then _ else _] => destruct b end;
        simpl; set_solver.
    + unfold keywordClassification, validIntents.
      repeat match goal with |- context [if ?b then _ else _] => destruct b end;
        simpl; set_solver.
  - intros text subject. unfold fallbackIntentDetection, validIntents.
    repeat match goal with |- context [if ?b then _ else _] => destruct b end;
      simpl; set_solver.
Qed.

(** X2.  An answer of the model that is exactly the name of an intent, in
    any letter case and with white space around it, is returned as that
    intent: no earlier entry of [validIntents] claims it. *)
Theorem exact_answer_is_returned (text replyText emailSubject v : string) :
  v ∈ validIntents ->
  toUpperCase (trim text) = v ->
  analyzeReplyWithAI (AiOk text) replyText emailSubject = Analysis.mk v (reasoningOf v).
Proof.
  intros Hv Hraw. simpl. unfold classifyAnswer. rewrite Hraw.
  unfold validIntents in Hv.
  repeat (apply elem_of_cons in Hv as [-> | Hv]; [reflexivity|]).
  apply elem_of_nil in Hv. contradiction.
Qed.

Lemma exact_answer_is_returned_witness :
  analyzeReplyWithAI (AiOk "  not_now ") "see you in March" ""
  = Analysis.mk "NOT_NOW" "Lead indicates timing is not right with explicit timeframe".
Proof.
  apply (exact_answer_is_returned "  not_now " "see you in March" "" "NOT_NOW").
  - unfold validIntents. apply list_elem_of_In. simpl. tauto.
  - reflexivity.
Defined.

(** X3.  When the model call fails, a mail that holds the words "not
    interested" is classified INTERESTED by [analyzeReplyWithAI]: the word
    "interested" is tested first, so the DEAD rule for "not interested" is
    never reached.  The keyword detection of the services layer tests the
    rejection first and answers DEAD for the same mail. *)
Theorem rejection_reads_as_interest (replyText emailSubject : string) :
  includes "not interested" (toLowerCase (replyText +:+ " " +:+ emailSubject)) = true ->
  analyzeReplyWithAI AiHttpError replyText emailSubject
  = Analysis.mk "INTERESTED" "Keyword: shows engagement"
  /\ analyzeReplyWithAI AiException replyText emailSubject
     = Analysis.mk "INTERESTED" "Keyword: shows engagement"
  /\ Detection.category (fallbackIntentDetection replyText emailSubject) = "DEAD".
Proof.
  intros H.
  assert (Hi : includes "interested" (toLowerCase (replyText +:+ " " +:+ emailSubject)) = true)
    by exact (includes_app_r "not " "interested" _ H).
  assert (Hk : keywordClassification replyText emailSubject
               = Analysis.mk "INTERESTED" "Keyword: shows engagement").
  { unfold keywordClassification. rewrite Hi. reflexivity. }
  split; [exact Hk|]. split; [exact Hk|].
  unfold fallbackIntentDetection. rewrite H. reflexivity.
Qed.

Lemma rejection_reads_as_interest_witness :
  Analysis.intent (analyzeReplyWithAI AiHttpError "Sorry, we are NOT interested." "Re: Offer")
  = "INTERESTED"
  /\ Detection.category (fallbackIntentDetection "Sorry, we are NOT interested." "Re: Offer")
     = "DEAD".
Proof.
  destruct (rejection_reads_as_interest "Sorry, we are NOT interested." "Re: Offer" eq_refl)
    as (H1 & _ & H3).
  split; [rewrite H1; reflexivity | exact H3].
Defined.

(** X4.  When the model call fails, a question mark at the end of the
    subject, or at the end of the body of a mail without subject, makes
    the mail INTERESTED whatever else it says, a rejection included. *)
Theorem closing_question_mark_is_interest (replyText emailSubject : string) :
  ends_with "?" emailSubject = true
  \/ (emailSubject = "" /\ ends_with "?" replyText = true) ->
  keywordClassification replyText emailSubject
  = Analysis.mk "INTERESTED" "Keyword: shows engagement".
Proof.
  intros H.
  assert (Hq : ends_with "?" (trim (toLowerCase (replyText +:+ " " +:+ emailSubject))) = true).
  { destruct H as [H | [-> H]].
    - apply ends_with_trim, ends_with_toLowerCase.
      apply ends_with_app. apply (ends_with_app " "). exact H.
    - rewrite toLowerCase_app. apply ends_with_trim_space, ends_with_toLowerCase, H. }
  unfold keywordClassification. rewrite Hq.
  rewrite !orb_true_r. reflexivity.
Qed.

Lemma closing_question_mark_is_interest_witness :
  keywordClassification "Please unsubscribe me." "Re: Can we talk?"
  = Analysis.mk "INTERESTED" "Keyword: shows engagement".
Proof.
  apply (closing_question_mark_is_interest "Please unsubscribe me." "Re: Can we talk?").
  left. reflexivity.
Defined.

End ClassifierFacts.

(** ** Plans and billing *)

Section PlanFacts.

Import Js.

Lemma or_else_truthy (a b : string) : a <> "" -> or_else a b = a.
Proof.
  intros H. unfold or_else, truthy. rewrite bool_decide_eq_false_2 by exact H. reflexivity.
Qed.

Lemma isPlanActive_paid (now : Z) (user : Account.t) :
  Account.plan user <> "" -> Account.plan user <> "trial" ->
  isPlanActive now (Some user) = bool_decide (Account.plan_status user = "active").
Proof.
  intros Hp Ht. unfold isPlanActive, getUserPlan. cbn [PlanView.status PlanView.plan].
  rewrite (or_else_truthy _ _ Hp), (bool_decide_eq_false_2 _ Ht). cbn [andb].
  destruct (decide (Account.plan_status user = "")) as [E | E].
  - rewrite E. reflexivity.
  - rewrite (or_else_truthy _ _ E).
    destruct (decide (Account.plan_status user = "expired")) as [E' | E'].
    + rewrite E'. reflexivity.
    + rewrite (bool_decide_eq_false_2 _ E'). reflexivity.
Qed.

(** X5.  The trial clock only locks trial accounts.  An account on
    another plan is active exactly when its status is ["active"], at every
    time and whatever [trial_ends_at] holds; an account on the trial plan
    (or with no plan at all) whose trial ended is locked whatever its
    status says. *)
Theorem trial_clock_locks_trials_only (now : Z) (user : Account.t) :
  (Account.plan user <> "" -> Account.plan user <> "trial" ->
   isPlanActive now (Some user) = bool_decide (Account.plan_status user = "active"))
  /\ (Account.plan user = "" \/ Account.plan user = "trial" ->
      forall t, Account.trial_ends_at user = Some t -> (t < now)%Z ->
      isPlanActive now (Some user) = false).
Proof.
  split.
  - apply isPlanActive_paid.
  - intros Hp t Ht Hlt. unfold isPlanActive, getUserPlan.
    cbn [PlanView.status PlanView.plan]. rewrite Ht.
    rewrite (proj2 (Z.ltb_lt _ _) Hlt).
    assert (Hplan : or_else (Account.plan user) "trial" = "trial")
      by (destruct Hp as [-> | ->]; reflexivity).
    rewrite Hplan. reflexivity.
Qed.

Lemma trial_clock_locks_trials_only_witness :
  isPlanActive 100 (Some (Account.mk 1 "growth" "active" (Some 5%Z) None None 0 None)) = true
  /\ isPlanActive 100 (Some (Account.mk 1 "trial" "active" (Some 5%Z) None None 0 None)) = false.
Proof.
  split.
  - apply (proj1 (trial_clock_locks_trials_only 100
                    (Account.mk 1 "growth" "active" (Some 5%Z) None None 0 None)));
      discriminate.
  - apply (proj2 (trial_clock_locks_trials_only 100
                    (Account.mk 1 "trial" "active" (Some 5%Z) None None 0 None))
             (or_intror eq_refl) 5%Z eq_refl).
    lia.
Defined.

Section Calendar.

Variable getMonth getFullYear : Z -> Z.

(** X6.  The monthly counter is reset at most once per calendar
    month.  After a call at time [now], a call at any time of the same
    month and year returns [false] and leaves the user as it is, so the
    generations counted in between are kept; and the call that does reset
    leaves the counter at 0 with [now] as the new reset date. *)
Theorem monthly_reset_happens_once (now now' : Z) (user : Account.t) :
  getMonth now' = getMonth now ->
  getFullYear now' = getFullYear now ->
  let '(user1, reset) := resetMonthlyCounterIfNeeded getMonth getFullYear now user in
  (forall n,
     resetMonthlyCounterIfNeeded getMonth getFullYear now'
       (Account.set_ai_generations n (Account.ai_generations_reset_at user1) user1)
     = (Account.set_ai_generations n (Account.ai_generations_reset_at user1) user1, false))
  /\ (reset = true ->
      Account.ai_generations_this_month user1 = 0%nat
      /\ Account.ai_generations_reset_at user1 = Some now)
  /\ (reset = false -> user1 = user).
Proof.
  intros Hm Hy. unfold resetMonthlyCounterIfNeeded.
  destruct (negb (bool_decide (getMonth now = getMonth (default 0%Z (Account.ai_generations_reset_at user))))
            || negb (bool_decide (getFullYear now = getFullYear (default 0%Z (Account.ai_generations_reset_at user)))))
    eqn:Hreset.
  - split; [|split; [intros _; split; reflexivity | discriminate]].
    intros n. cbn [Account.set_ai_generations Account.ai_generations_reset_at default].
    rewrite Hm, Hy, !bool_decide_eq_true_2 by reflexivity. reflexivity.
  - split; [|split; [discriminate | reflexivity]].
    intros n. cbn [Account.set_ai_generations Account.ai_generations_reset_at].
    rewrite Hm, Hy, Hreset. reflexivity.
Qed.

End Calendar.

Lemma monthly_reset_happens_once_witness :
  let user := Account.mk 1 "trial" "trialing" None None None 7 (Some 10%Z) in
  (* a calendar of 100 ms months *)
  resetMonthlyCounterIfNeeded (fun t => (t / 100)%Z) (fun _ => 0%Z) 250 user
  = (Account.set_ai_generations 0 (Some 250%Z) user, true)
  /\ resetMonthlyCounterIfNeeded (fun t => (t / 100)%Z) (fun _ => 0%Z) 260
       (Account.set_ai_generations 3 (Some 250%Z) user)
     = (Account.set_ai_generations 3 (Some 250%Z) user, false).
Proof.
  split; [reflexivity|].
  exact (proj1 (monthly_reset_happens_once (fun t => (t / 100)%Z) (fun _ => 0%Z) 250 260
                  (Account.mk 1 "trial" "trialing" None None None 7 (Some 10%Z))
                  eq_refl eq_refl) 3%nat).
Defined.

Section Webhook.

Variable monthly annual : option string.

Lemma planOfPrice_paid (priceId : option string) :
  planOfPrice monthly annual priceId <> "" /\ planOfPrice monthly annual priceId <> "trial".
Proof. unfold planOfPrice. destruct (_ || _); split; discriminate. Qed.

(** The account of a customer after its record was changed by [f], which
    keeps the customer id. *)
Lemma getUser_updateAccount (f : Account.t -> Account.t) users customer user :
  NoDup (Account.id <$> users) ->
  getUser customer users = Some user ->
  (forall u, Account.stripe_customer_id (f u) = Account.stripe_customer_id u) ->
  getUser customer (updateAccount user f users) = Some (f user).
Proof.
  intros Hnd Hget Hf. unfold getUser in *.
  destruct (find_findIndex _ _ _ Hget) as (j & Hj & Hlk).
  unfold updateAccount. rewrite (findIndex_by_key Account.id users j user Hnd Hlk).
  apply (find_alter_same _ f users j user); [|exact Hj | exact Hlk].
  intros y. rewrite Hf. reflexivity.
Qed.

(** X7.  What the Stripe webhook decides about access, for a
    customer that is known and users with distinct ids.  After a completed
    subscription checkout the account is active at every time, whatever
    its trial date; after a failed payment, and after the subscription was
    deleted, it is locked at every time. *)
Theorem webhook_decides_access users customer user :
  NoDup (Account.id <$> users) ->
  getUser customer users = Some user ->
  (forall subscription priceId,
     exists users' user',
       stripeWebhook monthly annual
         (CheckoutCompleted "subscription" customer subscription (Some priceId)) users
       = Some users'
       /\ getUser customer users' = Some user'
       /\ forall now, isPlanActive now (Some user') = true)
  /\ (exists users' user',
        stripeWebhook monthly annual (PaymentFailed customer) users = Some users'
        /\ getUser customer users' = Some user'
        /\ forall now, isPlanActive now (Some user') = false)
  /\ (exists users' user',
        stripeWebhook monthly annual (SubscriptionDeleted customer) users = Some users'
        /\ getUser customer users' = Some user'
        /\ forall now, isPlanActive now (Some user') = false).
Proof.
  intros Hnd Hget. split; [|split].
  - intros subscription priceId. unfold stripeWebhook. cbn [bool_decide]. rewrite Hget.
    eexists _, _. split; [reflexivity|]. split.
    + apply getUser_updateAccount; [exact Hnd | exact Hget | reflexivity].
    + intros now. destruct (planOfPrice_paid priceId) as [H1 H2].
      rewrite isPlanActive_paid by assumption. reflexivity.
  - unfold stripeWebhook. rewrite Hget.
    eexists _, _. split; [reflexivity|]. split.
    + apply getUser_updateAccount; [exact Hnd | exact Hget | reflexivity].
    + intros now. unfold isPlanActive, getUserPlan.
      cbn [PlanView.status PlanView.plan Account.set_plan_status Account.plan_status
           Account.plan Account.trial_ends_at or_else truthy].
      destruct (bool_decide (or_else (Account.plan user) "trial" = "trial")
                && match Account.trial_ends_at user with
                   | Some t => (t <? now)%Z
                   | None => false
                   end); [reflexivity|].
      simpl. rewrite andb_false_r. reflexivity.
  - unfold stripeWebhook. rewrite Hget.
    eexists _, _. split; [reflexivity|]. split.
    + apply getUser_updateAccount; [exact Hnd | exact Hget | reflexivity].
    + intros now. unfold isPlanActive, getUserPlan. simpl.
      destruct (match Account.trial_ends_at user with
                | Some t => (t <? now)%Z
                | None => false
                end); reflexivity.
Qed.

End Webhook.

Lemma webhook_decides_access_witness :
  let paying := Account.mk 2 "starter" "active" (Some 5%Z) (Some "cus_2") (Some "sub_9") 0 None in
  let users := [Account.mk 1 "trial" "trialing" None None None 0 None; paying] in
  exists users' user',
    stripeWebhook None None (SubscriptionDeleted "cus_2") users = Some users'
    /\ getUser "cus_2" users' = Some user'
    /\ forall now, isPlanActive now (Some user') = false.
Proof.
  refine (proj2 (proj2 (webhook_decides_access None None
                    [Account.mk 1 "trial" "trialing" None None None 0 None;
                     Account.mk 2 "starter" "active" (Some 5%Z) (Some "cus_2") (Some "sub_9") 0 None]
                    "cus_2"
                    (Account.mk 2 "starter" "active" (Some 5%Z) (Some "cus_2") (Some "sub_9") 0 None)
                    _ eq_refl))).
  apply (bool_decide_unpack _). vm_compute. exact I.
Defined.

End PlanFacts.

(** ** Start-up clean-up *)

Section StartupFacts.

Lemma resolveOlderThan_supersedes (d : Draft.t) (drafts : list Draft.t) :
  negb (needsAction d) = true ->
  resolveOlderThan d drafts
  = List.map (fun old =>
                if bool_decide (Draft.status old = "pending") && needsAction old
                   && supersedes old d
                then Draft.set_status "resolved" old else old) drafts.
Proof.
  intros Hd. unfold resolveOlderThan, supersedes. rewrite Hd.
  apply map_ext. intros old. cbn [andb].
  destruct (bool_decide (Draft.lead_id old = Draft.lead_id d)) eqn:E1;
    destruct (bool_decide (Draft.status old = "pending"));
    destruct (needsAction old);
    destruct (Draft.created_at old <? Draft.created_at d)%Z; simpl;
    try reflexivity.
  all: try (apply bool_decide_eq_true in E1; symmetry in E1;
            rewrite (bool_decide_eq_true_2 _ E1); reflexivity).
  all: apply bool_decide_eq_false in E1;
    rewrite bool_decide_eq_false_2 by congruence; reflexivity.
Qed.

(** The loop of the clean-up over the drafts [ds], started on [cur]. *)
Lemma cleanup_loop (ds cur : list Draft.t) :
  fold_left (fun drafts x =>
               if negb (Draft.needs_follow_up x) && negb (Draft.clarification_needed x)
               then resolveOlderThan x drafts else drafts) ds cur
  = List.map (fun x =>
                if bool_decide (Draft.status x = "pending") && needsAction x
                   && existsb (supersedes x) ds
                then Draft.set_status "resolved" x else x) cur.
Proof.
  revert cur. induction ds as [|d ds IH]; intros cur; simpl.
  - rewrite <- (map_id cur) at 1. apply map_ext. intros x.
    rewrite andb_false_r. reflexivity.
  - rewrite IH. clear IH.
    assert (Hc : negb (Draft.needs_follow_up d) && negb (Draft.clarification_needed d)
                 = negb (needsAction d)).
    { unfold needsAction. destruct (Draft.needs_follow_up d), (Draft.clarification_needed d);
        reflexivity. }
    rewrite Hc. destruct (negb (needsAction d)) eqn:Hd.
    + rewrite (resolveOlderThan_supersedes d cur Hd), map_map.
      apply map_ext. intros x.
      destruct (bool_decide (Draft.status x = "pending")) eqn:Hp; simpl; [|rewrite Hp; reflexivity].
      destruct (needsAction x) eqn:Hn; simpl; [|rewrite Hp, Hn; reflexivity].
      destruct (supersedes x d); simpl; [reflexivity|].
      rewrite Hp, Hn. reflexivity.
    + apply map_ext. intros x. unfold supersedes at 2. rewrite Hd. reflexivity.
Qed.

(** Resolving drafts that need action does not change which pending
    drafts supersede [x]. *)
Lemma existsb_supersedes_resolved (s : Draft.t -> bool) (x : Draft.t) (l : list Draft.t) :
  (forall y, s y = true -> needsAction y = true) ->
  existsb (supersedes x)
    (List.filter (fun d => bool_decide (Draft.status d = "pending"))
       (List.map (fun y => if s y then Draft.set_status "resolved" y else y) l))
  = existsb (supersedes x)
      (List.filter (fun d => bool_decide (Draft.status d = "pending")) l).
Proof.
  intros Hs. induction l as [|y l IH]; [reflexivity|].
  simpl. destruct (s y) eqn:Hy.
  - simpl. destruct (bool_decide (Draft.status y = "pending")); [|exact IH].
    simpl. unfold supersedes at 2. rewrite (Hs y Hy). simpl. exact IH.
  - destruct (bool_decide (Draft.status y = "pending")); [|exact IH].
    simpl. rewrite IH. reflexivity.
Qed.

Lemma startupCleanup_drafts (d : DB.t) :
  startupCleanup d
  = DB.set_ai_drafts
      (List.map (fun x => if superseded (DB.ai_drafts d) x
                          then Draft.set_status "resolved" x else x)
                (DB.ai_drafts d)) d.
Proof. unfold startupCleanup. rewrite cleanup_loop. reflexivity. Qed.

Lemma superseded_needsAction (drafts : list Draft.t) (x : Draft.t) :
  superseded drafts x = true -> needsAction x = true.
Proof.
  unfold superseded. intros H.
  apply andb_true_iff in H as [H _]. apply andb_true_iff in H as [_ H]. exact H.
Qed.

(** X8.  The start-up clean-up resolves exactly the pending drafts
    of the Action Required queue that a newer pending draft of the same
    lead, one needing no action, supersedes, and changes nothing else.
    Afterwards no draft is superseded, so running it again changes
    nothing. *)
Theorem startup_cleanup_resolves_superseded (d : DB.t) :
  let d' := startupCleanup d in
  d' = DB.set_ai_drafts
         (List.map (fun x => if superseded (DB.ai_drafts d) x
                             then Draft.set_status "resolved" x else x)
                   (DB.ai_drafts d)) d
  /\ (forall x, x ∈ DB.ai_drafts d' -> superseded (DB.ai_drafts d') x = false)
  /\ startupCleanup d' = d'.
Proof.
  intros d'.
  assert (H2 : forall e x, x ∈ DB.ai_drafts (startupCleanup e) ->
                           superseded (DB.ai_drafts (startupCleanup e)) x = false).
  { intros e x. rewrite startupCleanup_drafts. cbn [DB.set_ai_drafts DB.ai_drafts].
    intros Hx. apply list_elem_of_In, in_map_iff in Hx as (y & <- & _).
    unfold superseded at 1.
    rewrite (existsb_supersedes_resolved (superseded (DB.ai_drafts e)))
      by apply superseded_needsAction.
    destruct (superseded (DB.ai_drafts e) y) eqn:Hy; [reflexivity|].
    exact Hy. }
  split; [apply startupCleanup_drafts|]. split; [apply H2|].
  assert (H3 : forall e, (forall x, x ∈ DB.ai_drafts e -> superseded (DB.ai_drafts e) x = false) ->
                         startupCleanup e = e).
  { intros e He. rewrite startupCleanup_drafts.
    replace (List.map _ (DB.ai_drafts e)) with (DB.ai_drafts e); [destruct e; reflexivity|].
    rewrite <- (map_id (DB.ai_drafts e)) at 1. apply map_ext_in. intros x Hx.
    rewrite He by (apply list_elem_of_In, Hx). reflexivity. }
  apply H3, H2.
Qed.

End StartupFacts.

(** ** More on reply ingestion *)

Section ReplyMailFacts.

Import Js.

Lemma autoModeOf_bump gmail u n :
  autoModeOf gmail (User.set_ai_generations_this_month n u) = autoModeOf gmail u.
Proof. destruct gmail; reflexivity. Qed.

(** What [dispatchReply] sends. *)
Lemma dispatchReply_sent gmail userId m env isAutoMode draft clar c :
  let '(_, sent, outcome) := dispatchReply gmail userId m env isAutoMode draft clar c in
  sent = []
  \/ (sent = [Mail.mk (Lead.email (Ctx.lead c)) ("Re: " +:+ Inbound.subject m) draft
                (Lead.id (Ctx.lead c))]
      /\ isAutoMode = true
      /\ Lead.auto_send_enabled (Ctx.lead c) <> Some false
      /\ ReplyEnv.sendEmail_ok env = true
      /\ outcome = AutoSent).
Proof.
  unfold dispatchReply.
  destruct isAutoMode; simpl; [|auto].
  destruct (bool_decide (Lead.auto_send_enabled (Ctx.lead c) = Some false)) eqn:Hopt;
    simpl; [auto|].
  apply bool_decide_eq_false in Hopt.
  destruct (clar && _); [auto|].
  destruct (ReplyEnv.sendEmail_ok env); [|auto].
  right. repeat split; auto.
Qed.

(** What [replyToLead] sends: nothing, or one mail to the lead, with a
    body that is not blank, when the owner is in auto mode and the lead
    did not opt out. *)
Lemma replyToLead_sent gmail userId m env c :
  let '(_, sent, outcome) := replyToLead gmail userId m env c in
  sent = []
  \/ exists body u,
       sent = [Mail.mk (Lead.email (Ctx.lead c)) ("Re: " +:+ Inbound.subject m) body
                 (Lead.id (Ctx.lead c))]
       /\ truthy (trim body) = true
       /\ List.find (fun u => bool_decide (User.id u = userId))
                    (DB.users (Store.disk (Ctx.store c))) = Some u
       /\ autoModeOf gmail u = true
       /\ Lead.auto_send_enabled (Ctx.lead c) <> Some false
       /\ ReplyEnv.sendEmail_ok env = true
       /\ outcome = AutoSent.
Proof.
  unfold replyToLead.
  destruct (List.find (isPendingDraftFor (Ctx.lead c) m) (DB.ai_drafts (Ctx.data c)));
    [left; reflexivity|].
  unfold generateAIResponse. cbn [fst snd].
  set (res := aiResponse _ _ _ _ _).
  set (c1 := Ctx.mk (Store.read (Ctx.store c)) (Ctx.lead c) None).
  set (c2 := if gmail then _ else c1).
  assert (Hc2 : Ctx.lead c2 = Ctx.lead c
                /\ forall u2, List.find (fun u => bool_decide (User.id u = userId))
                                        (DB.users (Ctx.data c2)) = Some u2 ->
                   exists u, List.find (fun u => bool_decide (User.id u = userId))
                                       (DB.users (Store.disk (Ctx.store c))) = Some u
                             /\ autoModeOf gmail u2 = autoModeOf gmail u).
  { subst c2 c1. destruct gmail; cbn [Ctx.data Ctx.store Ctx.lead Store.read Store.data].
    - destruct (findIndex (fun u => bool_decide (User.id u = userId))
                          (DB.users (Store.disk (Ctx.store c)))) as [uIdx|] eqn:HuIdx.
      + split; [reflexivity|]. intros u2.
        destruct (findIndex_lookup _ _ _ HuIdx) as (u & Hu & _).
        unfold Ctx.update, Ctx.data. cbn.
        rewrite (find_alter_same (fun u => bool_decide (User.id u = userId))
                   (fun u => User.set_ai_generations_this_month
                               (User.ai_generations_this_month u + 1) u)
                   _ _ _ ltac:(intros; reflexivity) HuIdx Hu).
        intros [= <-]. exists u. split; [|reflexivity].
        exact (findIndex_find _ _ _ _ HuIdx Hu).
      + split; [reflexivity|]. intros u2 Hu2. exists u2. split; [exact Hu2 | reflexivity].
    - split; [reflexivity|]. intros u2 Hu2. exists u2. split; [exact Hu2 | reflexivity]. }
  destruct Hc2 as (Hlead & Huser).
  destruct (truthy (AiResult.body res) && truthy (trim (AiResult.body res))) eqn:Hbody;
    [|left; reflexivity].
  apply andb_true_iff in Hbody as [_ Hbody].
  pose proof (dispatchReply_sent gmail userId m env
                (from_option (autoModeOf gmail) false
                   (List.find (fun u => bool_decide (User.id u = userId))
                              (DB.users (Ctx.data c2))))
                (AiResult.body res) (AiResult.clarification_needed res) c2) as Hd.
  destruct (dispatchReply _ _ _ _ _ _ _ c2) as [[c' sent] outcome].
  destruct Hd as [-> | (-> & Hauto & Hopt & Hok & ->)]; [left; reflexivity|].
  right. rewrite Hlead in *.
  destruct (List.find _ (DB.users (Ctx.data c2))) as [u2|] eqn:Hu2; [|discriminate].
  destruct (Huser u2 eq_refl) as (u & Hu & Heq).
  exists (AiResult.body res), u. simpl in Hauto. rewrite Heq in Hauto.
  repeat split; assumption.
Qed.

(** The handler's [lead] after ingestion agrees with the stored lead on
    the fields that neither [recordReply] nor the later steps change. *)
Lemma ingested_lead_keeps {K} (k : Lead.t -> K) c i (R : Lead.t -> Lead.t) ls lead :
  stable k ->
  (forall l, k (R l) = k l) ->
  DB.leads (Ctx.data c) !! i = Some (Ctx.lead c) ->
  (forall K (k : Lead.t -> K), stable k ->
     k <$> DB.leads (Ctx.data c) = k <$> alter R i ls) ->
  ls !! i = Some lead ->
  k (Ctx.lead c) = k lead.
Proof.
  intros Hst HR Hobj Hk Hlk.
  rewrite (ingested_lead_field k c i R ls lead Hobj (Hk K k Hst) Hlk). apply HR.
Qed.

Lemma handler_answer gmail userId m env st i lead c :
  findIndex (matchesLead userId (Inbound.from m)) (DB.leads (Store.disk st)) = Some i ->
  DB.leads (Store.disk st) !! i = Some lead ->
  Store.disk (Ctx.store c) = Ctx.data c ->
  DB.leads (Ctx.data c) !! i = Some (Ctx.lead c) ->
  sameConfig (Store.disk st) (Ctx.data c) ->
  (forall K (k : Lead.t -> K), stable k ->
     k <$> DB.leads (Ctx.data c)
     = k <$> alter (recordReply (ReplyEnv.analysis env) (Inbound.body m) (Inbound.subject m)
                      (ReplyEnv.now env)) i (DB.leads (Store.disk st))) ->
  let '(_, sent, _) := replyToLead gmail userId m env c in
  sent = [] \/ exists mail, sent = [mail] /\ answeredBy gmail userId m env (Store.disk st) mail.
Proof.
  intros Hfind Hlk Hsync Hobj (Hu & _) Hk.
  assert (Ekeep : forall K (k : Lead.t -> K), stable k ->
                  (forall a b s n l, k (recordReply a b s n l) = k l) ->
                  k (Ctx.lead c) = k lead).
  { intros K k Hst HR.
    apply (ingested_lead_keeps k c i _ _ lead Hst (HR _ _ _ _) Hobj Hk Hlk). }
  assert (Eid : Lead.id (Ctx.lead c) = Lead.id lead).
  { apply Ekeep; [repeat split|]. intros. apply recordReply_id. }
  assert (Email : Lead.email (Ctx.lead c) = Lead.email lead).
  { apply Ekeep; [repeat split|]. intros. apply recordReply_email. }
  assert (Eauto : Lead.auto_send_enabled (Ctx.lead c) = Lead.auto_send_enabled lead).
  { apply Ekeep; [repeat split|]. intros. apply recordReply_auto_send_enabled. }
  pose proof (replyToLead_sent gmail userId m env c) as Hsent.
  destruct (replyToLead gmail userId m env c) as [[c' sent] outcome].
  destruct Hsent as [-> | (body & u & -> & Hbody & Huser & Hauto & Hopt & Hok & _)];
    [left; reflexivity|].
  right. eexists. split; [reflexivity|].
  exists i, lead, u. rewrite Hsync, Hu in Huser. rewrite Eauto in Hopt.
  rewrite Eid, Email. cbn [Mail.to Mail.lead_id Mail.subject Mail.body].
  repeat split; assumption.
Qed.

Lemma handlers_answer userId m env st :
  (let sent := ReplyResult.sent (processGmailMessage userId m env st) in
   sent = []
   \/ exists mail, sent = [mail] /\ answeredBy true userId m env (Store.disk st) mail)
  /\ (let sent := ReplyResult.sent (processImapMessage userId m env st) in
      sent = []
      \/ exists mail, sent = [mail] /\ answeredBy false userId m env (Store.disk st) mail).
Proof.
  split.
  - unfold processGmailMessage. cbn [Store.read Store.data].
    destruct (findIndex _ (DB.leads (Store.disk st))) as [i|] eqn:Hfind; [|left; reflexivity].
    destruct (DB.leads (Store.disk st) !! i) as [lead|] eqn:Hlk; [|left; reflexivity].
    destruct (alreadyProcessed m (Store.disk st)); [left; reflexivity|].
    destruct (ingestGmailReply_spec userId m env (Store.read st) lead i Hlk)
      as (Hsync & _ & Hobj & Hcfg & Hk).
    pose proof (handler_answer true userId m env st i lead _ Hfind Hlk Hsync Hobj Hcfg Hk)
      as Hans.
    destruct (replyToLead true userId m env _) as [[c' sent] outcome]. exact Hans.
  - unfold processImapMessage. cbn [Store.read Store.data].
    destruct (findIndex _ (DB.leads (Store.disk st))) as [i|] eqn:Hfind; [|left; reflexivity].
    destruct (DB.leads (Store.disk st) !! i) as [lead|] eqn:Hlk; [|left; reflexivity].
    destruct (ingestImapReply_spec userId m env (Store.read st) lead i Hlk)
      as (Hsync & _ & Hobj & Hcfg & Hk).
    pose proof (handler_answer false userId m env st i lead _ Hfind Hlk Hsync Hobj Hcfg Hk)
      as Hans.
    destruct (replyToLead false userId m env _) as [[c' sent] outcome]. exact Hans.
Qed.

(** X9.  What the Gmail reply handler can send for one inbound
    message: nothing, or exactly one mail.  The mail goes to the lead
    that wrote, under [Re: ] and the subject extracted from the message
    (the value of its [Subject] header, or [(No Subject)]), with a body
    that is not blank, and it is sent only when the owner of the lead is
    in auto mode, the lead has not opted out of auto-send, and the
    transport works. *)
Theorem automatic_reply_conditions userId m env st :
  let sent := ReplyResult.sent (processGmailMessage userId m env st) in
  sent = []
  \/ exists mail, sent = [mail] /\ answeredBy true userId m env (Store.disk st) mail.
Proof. exact (proj1 (handlers_answer userId m env st)). Qed.

End ReplyMailFacts.

Section ReplyOnceFacts.

Import Js.

Lemma dispatchReply_threads gmail userId m env isAutoMode draft clar c :
  let '(c', _, _) := dispatchReply gmail userId m env isAutoMode draft clar c in
  DB.email_threads (Store.disk (Ctx.store c')) = DB.email_threads (Ctx.data c).
Proof.
  destruct c as [st lead live]. unfold dispatchReply, Ctx.data. simpl.
  repeat match goal with
         | |- context [if ?b then _ else _] => destruct b
         end; simpl; destruct live; reflexivity.
Qed.

Lemma replyToLead_threads gmail userId m env c :
  Store.disk (Ctx.store c) = Ctx.data c ->
  let '(c', _, _) := replyToLead gmail userId m env c in
  DB.email_threads (Store.disk (Ctx.store c')) = DB.email_threads (Ctx.data c).
Proof.
  intros Hsync. unfold replyToLead.
  destruct (List.find _ (DB.ai_drafts (Ctx.data c))) as [existing|]; simpl.
  { rewrite Hsync. reflexivity. }
  set (c1 := Ctx.mk (Store.read (Ctx.store c)) (Ctx.lead c) None).
  set (c2 := if gmail then _ else c1).
  assert (Hc2 : DB.email_threads (Ctx.data c2) = DB.email_threads (Ctx.data c)
                /\ DB.email_threads (Store.disk (Ctx.store c2)) = DB.email_threads (Ctx.data c)).
  { subst c2 c1. unfold Ctx.data in *. destruct gmail; simpl.
    - destruct (findIndex _ _); simpl; rewrite Hsync; auto.
    - rewrite Hsync. auto. }
  destruct Hc2 as (Hdata & Hdisk).
  destruct (truthy _ && truthy _); [|exact Hdisk].
  match goal with
  | |- context [dispatchReply ?g ?u ?m ?e ?a ?d ?k ?c] =>
      pose proof (dispatchReply_threads g u m e a d k c) as Hd;
      destruct (dispatchReply g u m e a d k c) as [[c' sent] outcome]
  end.
  rewrite Hd. exact Hdata.
Qed.

Lemma detectAppointment_threads userId env c :
  DB.email_threads (Ctx.data (detectAppointment userId env c))
  = DB.email_threads (Ctx.data c).
Proof.
  unfold detectAppointment.
  destruct (ReplyEnv.aptDetected env) as [a|]; [|reflexivity].
  destruct (existsb _ _); [reflexivity|].
  destruct c as [st lead live]. unfold Ctx.data. simpl.
  destruct (findIndex _ _); reflexivity.
Qed.

Lemma ingestGmailReply_threads userId m env c :
  exists t,
    DB.email_threads (Ctx.data (ingestGmailReply userId m env c))
    = DB.email_threads (Ctx.data c) ++ [t]
    /\ Thread.gmail_message_id t = Some (Inbound.message_id m).
Proof.
  unfold ingestGmailReply. rewrite detectAppointment_threads.
  destruct c as [st lead [i|]]; unfold Ctx.data; simpl;
    match goal with
    | |- context [trackVariantReply ?u ?a ?l ?d] =>
        destruct (trackVariantReply_frame u a l d) as [rs ->]
    end;
    eexists; (split; [reflexivity | reflexivity]).
Qed.

Lemma matchesLead_recordReply userId from a body subject now l :
  matchesLead userId from (recordReply a body subject now l) = matchesLead userId from l.
Proof.
  unfold matchesLead. rewrite recordReply_user_id, recordReply_email. reflexivity.
Qed.

(** The store that a run of the Gmail handler leaves behind: the sender
    is still no lead, or the message is on record. *)
Lemma gmail_run_records_message userId m env st :
  let r := processGmailMessage userId m env st in
  (findIndex (matchesLead userId (Inbound.from m)) (DB.leads (Store.disk (ReplyResult.store r)))
   = None
   /\ ReplyResult.outcome r = NotALead)
  \/ (exists i lead',
        findIndex (matchesLead userId (Inbound.from m))
                  (DB.leads (Store.disk (ReplyResult.store r))) = Some i
        /\ DB.leads (Store.disk (ReplyResult.store r)) !! i = Some lead'
        /\ alreadyProcessed m (Store.disk (ReplyResult.store r)) = true).
Proof.
  cbv zeta. unfold processGmailMessage. cbn [Store.read Store.data].
  destruct (findIndex _ (DB.leads (Store.disk st))) as [i|] eqn:Hfind.
  2:{ left. simpl. auto. }
  destruct (DB.leads (Store.disk st) !! i) as [lead|] eqn:Hlk.
  2:{ destruct (findIndex_lookup _ _ _ Hfind) as (x & Hx & _). congruence. }
  destruct (alreadyProcessed m (Store.disk st)) eqn:Hnew.
  { right. exists i, lead. simpl. auto. }
  destruct (ingestGmailReply_spec userId m env (Store.read st) lead i Hlk)
    as (Hsync & _ & Hobj & _ & Hk).
  destruct (ingestGmailReply_threads userId m env (Ctx.mk (Store.read st) lead (Some i)))
    as (t & Hthreads & Hid).
  pose proof (replyToLead_keeps_leads true userId m env _ Hsync) as Hleads.
  pose proof (replyToLead_threads true userId m env _ Hsync) as Hthr.
  destruct (replyToLead true userId m env _) as [[c' sent] outcome].
  destruct Hleads as (_ & Hdisk). cbn [ReplyResult.store ReplyResult.outcome].
  assert (Hmatch : matchesLead userId (Inbound.from m) <$> DB.leads (Store.disk (Ctx.store c'))
                   = matchesLead userId (Inbound.from m) <$> DB.leads (Store.disk st)).
  { rewrite Hdisk, (Hk _ (matchesLead userId (Inbound.from m))) by (repeat split).
    apply fmap_alter_keeps. intros l. apply matchesLead_recordReply. }
  assert (Hfind' : findIndex (matchesLead userId (Inbound.from m))
                             (DB.leads (Store.disk (Ctx.store c'))) = Some i).
  { rewrite <- Hfind.
    rewrite <- (findIndex_fmap_eq id (matchesLead userId (Inbound.from m))
                  (matchesLead userId (Inbound.from m) <$> DB.leads (Store.disk (Ctx.store c')))
                  (DB.leads (Store.disk (Ctx.store c')))) by (rewrite list_fmap_id; reflexivity).
    rewrite Hmatch.
    apply findIndex_fmap_eq. rewrite list_fmap_id. reflexivity. }
  right. destruct (findIndex_lookup _ _ _ Hfind') as (lead' & Hlk' & _).
  exists i, lead'. split; [exact Hfind'|]. split; [exact Hlk'|].
  unfold alreadyProcessed. rewrite Hthr, Hthreads, existsb_app. simpl.
  rewrite (bool_decide_eq_true_2 _ Hid). simpl. apply orb_true_r.
Qed.

(** X10.  A Gmail message is ingested at most once.  Whatever the
    first run of the handler did with the message, a second run on the
    store it left behind, with any outcome of the oracles, sends nothing,
    reports the message as already processed (or as not coming from a
    lead, when the first run said so), and leaves the file as it is. *)
Theorem gmail_message_is_ingested_once userId m env env' st :
  let r := processGmailMessage userId m env st in
  let r' := processGmailMessage userId m env' (ReplyResult.store r) in
  ReplyResult.sent r' = []
  /\ (ReplyResult.outcome r' = AlreadyProcessed
      \/ (ReplyResult.outcome r' = NotALead /\ ReplyResult.outcome r = NotALead))
  /\ Store.disk (ReplyResult.store r') = Store.disk (ReplyResult.store r).
Proof.
  intros r r'.
  pose proof (gmail_run_records_message userId m env st) as Hr. fold r in Hr.
  subst r'. unfold processGmailMessage. cbn [Store.read Store.data].
  destruct Hr as [[Hnone Hout] | (i & lead' & Hfind & Hlk & Hseen)].
  - rewrite Hnone. simpl. auto.
  - rewrite Hfind, Hlk, Hseen. simpl. auto.
Qed.

End ReplyOnceFacts.

(** ** More on the sequence scheduler *)

Section SweepFacts.

Import Js.

(** The loop body sends nothing, or one mail to its lead. *)
Lemma sequenceLead_sent env lead d :
  snd (sequenceLead env lead d) = []
  \/ exists subject html,
       snd (sequenceLead env lead d)
       = [Mail.mk (Lead.email lead) subject html (Lead.id lead)].
Proof.
  unfold sequenceLead.
  repeat match goal with
         | |- context [match ?x with _ => _ end] =>
             match x with
             | context [match _ with _ => _ end] => fail 1
             | _ => destruct x eqn:?
             end
         end; simpl; eauto.
Qed.

Lemma sweep_loop env (ls : list Lead.t) (d : DB.t) (acc : list Mail.t) :
  exists sent,
    snd (fold_left (fun acc lead =>
                      let '(d', sent') := sequenceLead env lead (fst acc) in
                      (d', snd acc ++ sent'))
                   ls (d, acc)) = acc ++ sent
    /\ sublist (Mail.lead_id <$> sent) (Lead.id <$> ls).
Proof.
  revert d acc. induction ls as [|l ls IH]; intros d acc; simpl.
  - exists []. rewrite app_nil_r. split; [reflexivity | constructor].
  - pose proof (sequenceLead_sent env l d) as Hs.
    destruct (sequenceLead env l d) as [d1 s1]. simpl in Hs.
    destruct (IH d1 (acc ++ s1)) as (sent & Hsent & Hsub).
    exists (s1 ++ sent). rewrite Hsent, app_assoc. split; [reflexivity|].
    destruct Hs as [-> | (subject & html & ->)]; simpl.
    + apply sublist_cons, Hsub.
    + apply sublist_skip, Hsub.
Qed.

(** The recipients of a sweep, in order, are among the leads that were
    enrolled when it started. *)
Lemma sweep_recipients env sequenceProcessing st :
  sublist (Mail.lead_id <$> snd (processSequenceSteps env sequenceProcessing st))
          (Lead.id <$> List.filter isEnrolled (DB.leads (Store.disk st))).
Proof.
  unfold processSequenceSteps. destruct sequenceProcessing.
  - simpl. apply sublist_nil_l.
  - cbn [Store.read Store.data Store.disk].
    destruct (sweep_loop env (List.filter isEnrolled (DB.leads (Store.disk st)))
                (Store.disk st) []) as (sent & Hsent & Hsub).
    destruct (fold_left _ _ _) as [d' sent']. simpl in *. subst sent'. exact Hsub.
Qed.

(** X11.  One sweep of the sequence scheduler sends at most one step
    per lead: the recipients, in the order of sending, are picked from
    the leads that were enrolled, not completed, not paused and dated when
    the sweep started, each at most once.  With distinct lead ids no lead
    gets two mails, and a sweep that finds the lock taken sends nothing. *)
Theorem sweep_sends_one_step_per_lead env sequenceProcessing st :
  let sent := snd (processSequenceSteps env sequenceProcessing st) in
  sublist (Mail.lead_id <$> sent)
          (Lead.id <$> List.filter isEnrolled (DB.leads (Store.disk st)))
  /\ (NoDup (Lead.id <$> DB.leads (Store.disk st)) -> NoDup (Mail.lead_id <$> sent))
  /\ (sequenceProcessing = true -> sent = []).
Proof.
  intros sent. split; [apply sweep_recipients|]. split.
  - intros Hnd. apply (sublist_NoDup _ (Lead.id <$> DB.leads (Store.disk st))); [exact Hnd|].
    etransitivity; [apply sweep_recipients|].
    apply fmap_sublist, filter_sublist.
  - intros ->. reflexivity.
Qed.

End SweepFacts.

Section TemplateFacts.

Import Js.

Lemma starts_with_app_l (a b s : string) :
  starts_with (a +:+ b) s = true -> starts_with a s = true.
Proof.
  revert s. induction a as [|c a IH]; intros s H; [reflexivity|].
  simpl in *. destruct s as [|c' s]; [discriminate|].
  apply andb_true_iff in H as [Hc H]. rewrite Hc. simpl. apply (IH s H).
Qed.

(** An occurrence of [a +:+ b] starts with an occurrence of [a]. *)
Lemma includes_app_l (a b s : string) : includes (a +:+ b) s = true -> includes a s = true.
Proof.
  induction s as [|c s IH]; simpl; intros H.
  - rewrite orb_false_r in H. rewrite (starts_with_app_l a b "" H). reflexivity.
  - apply orb_true_iff in H as [H | H].
    + rewrite (starts_with_app_l a b _ H). reflexivity.
    + rewrite (IH H). apply orb_true_r.
Qed.

(** A text without occurrence of the pattern is left as it is. *)
Lemma replace_all_absent (p r s : string) : includes p s = false -> replace_all p r s = s.
Proof.
  unfold replace_all. induction s as [|c s IH]; intros H; [reflexivity|].
  simpl in H. apply orb_false_iff in H as [Hs H].
  cbn [replace_all_from]. rewrite Hs, (IH H). reflexivity.
Qed.

Lemma placeholder_absent (name text : string) :
  includes "{{" text = false -> includes ("{{" +:+ name) text = false.
Proof.
  intros H. destruct (includes ("{{" +:+ name) text) eqn:E; [|reflexivity].
  rewrite (includes_app_l "{{" name text E) in H. discriminate.
Qed.

(** X12.  A subject or template without an opening pair of braces
    is personalised to itself, whatever the fields of the lead hold: the
    sequence scheduler sends such a text as it was written. *)
Theorem template_without_placeholder_is_verbatim (lead : Lead.t) (text : string) :
  includes "{{" text = false -> replaceVars lead text = text.
Proof.
  intros H. unfold replaceVars.
  rewrite (replace_all_absent "{{first_name}}" _ text)
    by exact (placeholder_absent "first_name}}" text H).
  rewrite (replace_all_absent "{{last_name}}" _ text)
    by exact (placeholder_absent "last_name}}" text H).
  rewrite (replace_all_absent "{{company}}" _ text)
    by exact (placeholder_absent "company}}" text H).
  rewrite (replace_all_absent "{{email}}" _ text)
    by exact (placeholder_absent "email}}" text H).
  apply replace_all_absent. exact (placeholder_absent "phone}}" text H).
Qed.

Lemma template_without_placeholder_is_verbatim_witness :
  replaceVars Sample.enrolledAlice "Hello {there}, 50% off" = "Hello {there}, 50% off".
Proof.
  apply (template_without_placeholder_is_verbatim Sample.enrolledAlice
           "Hello {there}, 50% off").
  reflexivity.
Defined.

End TemplateFacts.

Section SequenceCreationFacts.

Import Js.

Lemma insertStep_least (s : Step.t) (l : list Step.t) :
  (forall x, x ∈ l -> (Step.step_number s <= Step.step_number x)%Z) ->
  insertStep s l = s :: l.
Proof.
  destruct l as [|x l]; [reflexivity|]. intros H. simpl.
  rewrite (proj2 (Z.ltb_ge _ _)); [reflexivity|].
  apply H, list_elem_of_here.
Qed.

(** The steps built from a request are in the order of their numbers. *)
Lemma sortSteps_new (seqId : Z) (steps : list StepInput) (k : nat) :
  sortSteps (imap (fun i => newStep seqId (k + i)) steps)
  = imap (fun i => newStep seqId (k + i)) steps.
Proof.
  revert k. induction steps as [|x steps IH]; intros k; [reflexivity|].
  cbn [imap sortSteps].
  assert (Hshift : imap ((fun i => newStep seqId (k + i)) ∘ S) steps
                   = imap (fun i => newStep seqId (S k + i)) steps).
  { apply imap_ext. intros i y _. simpl. f_equal. lia. }
  rewrite Hshift, IH. apply insertStep_least.
  intros y Hy. apply elem_of_lookup_imap_1 in Hy as (i & z & -> & _).
  simpl. lia.
Qed.

Lemma filter_all {A} (p : A -> bool) (l : list A) :
  (forall x, x ∈ l -> p x = true) -> List.filter p l = l.
Proof.
  induction l as [|x l IH]; intros H; [reflexivity|]. simpl.
  rewrite (H x) by apply list_elem_of_here. f_equal.
  apply IH. intros y Hy. apply H, list_elem_of_further, Hy.
Qed.

Lemma filter_none {A} (p : A -> bool) (l : list A) :
  (forall x, x ∈ l -> p x = false) -> List.filter p l = [].
Proof.
  induction l as [|x l IH]; intros H; [reflexivity|]. simpl.
  rewrite (H x) by apply list_elem_of_here.
  apply IH. intros y Hy. apply H, list_elem_of_further, Hy.
Qed.

(** X13.  A sequence created with a list of steps gets the next id,
    is active, and runs its steps in the order of the request: the sorted
    steps that the scheduler reads for it are the submitted ones,
    numbered from 1, provided no stored step already carries the new id.
    The steps of the other sequences are as before. *)
Theorem created_steps_run_in_order (name : string) (steps : list StepInput) (st : Store.t) :
  let seqId := (Z.of_nat (length (DB.sequences (Store.disk st))) + 1)%Z in
  name <> "" ->
  (forall s, s ∈ DB.sequence_steps (Store.disk st) -> Step.sequence_id s <> seqId) ->
  let '(st', response) := createSequence name (Some steps) st in
  response = Ok200
  /\ Store.disk st' = Store.data st'
  /\ DB.sequences (Store.disk st')
     = DB.sequences (Store.disk st) ++ [Sequence.mk seqId name true]
  /\ stepsOf seqId (Store.disk st') = imap (newStep seqId) steps
  /\ (forall other, other <> seqId ->
        stepsOf other (Store.disk st') = stepsOf other (Store.disk st)).
Proof.
  intros seqId Hname Hfresh. unfold createSequence.
  rewrite (proj2 (truthy_true name) Hname). cbn [negb].
  cbn [Store.read Store.update Store.write Store.data Store.disk DB.set_sequences
       DB.sequences DB.sequence_steps].
  fold seqId. split; [reflexivity|]. split; [reflexivity|]. split; [reflexivity|].
  unfold stepsOf. cbn [DB.sequence_steps]. split.
  - rewrite List.filter_app, (filter_none _ (DB.sequence_steps (Store.disk st))).
    + rewrite filter_all.
      * simpl. apply (sortSteps_new seqId steps 0).
      * intros x Hx. apply elem_of_lookup_imap_1 in Hx as (i & z & -> & _).
        simpl. apply bool_decide_eq_true_2. reflexivity.
    + intros x Hx. apply bool_decide_eq_false_2. apply Hfresh, Hx.
  - intros other Hother.
    rewrite List.filter_app, (filter_none _ (imap (newStep seqId) steps)).
    + rewrite app_nil_r. reflexivity.
    + intros x Hx. apply elem_of_lookup_imap_1 in Hx as (i & z & -> & _).
      simpl. apply bool_decide_eq_false_2. congruence.
Qed.

Lemma created_steps_run_in_order_witness :
  let '(st', response) :=
    createSequence "Nurture" (Some MoreSample.twoSteps) MoreSample.sequenceStore in
  response = Ok200
  /\ Store.disk st' = Store.data st'
  /\ DB.sequences (Store.disk st') = [Sample.welcome; Sequence.mk 2 "Nurture" true]
  /\ stepsOf 2 (Store.disk st')
     = [ Step.mk 2 1 0 (Some "days") "Hello" "Hi {{first_name}}";
         Step.mk 2 2 2 (Some "hours") "Again" "Still there?" ]
  /\ (forall other, other <> 2%Z ->
        stepsOf other (Store.disk st') = stepsOf other (Store.disk MoreSample.sequenceStore)).
Proof.
  apply (created_steps_run_in_order "Nurture" MoreSample.twoSteps MoreSample.sequenceStore).
  - discriminate.
  - intros s Hs. apply list_elem_of_In in Hs. simpl in Hs.
    destruct Hs as [<- | [<- | []]]; discriminate.
Defined.

End SequenceCreationFacts.

(** ** Lead routes *)

Section LeadRouteFacts.

Import Js Text.

(** A lead that the cadence finds paused is skipped by the loop body. *)
Lemma followUpLead_paused env user lead st :
  Lead.follow_up_paused lead = true -> followUpLead env user lead st = (st, []).
Proof.
  intros H. apply followUpLead_skipped. unfold skipsLead. rewrite H.
  rewrite !orb_true_r. reflexivity.
Qed.

(** X14.  [pause-follow-ups] with [paused = true], for a lead of the
    user: the lead is stored as paused, every draft of the lead is deleted
    (whatever its status and owner), and the loop body of the cadence
    scheduler then leaves the lead alone: no mail, no draft, no change of
    the store, for every clock and outcome of the oracles.  For an unknown
    id the route answers 404 and the file is unchanged. *)
Theorem paused_lead_gets_no_follow_up (userId : Z) (id : string) (now : Z) (st : Store.t) :
  let '(st', response) := pauseFollowUps userId id true now st in
  match findAt (ownsLeadNamed userId id) (DB.leads (Store.disk st)) with
  | None => response = NotFound404 /\ Store.disk st' = Store.disk st
  | Some (i, lead) =>
      response = Ok200
      /\ Store.disk st' = Store.data st'
      /\ DB.ai_drafts (Store.disk st')
         = List.filter (fun x => negb (bool_decide (Draft.lead_id x = Lead.id lead)))
                       (DB.ai_drafts (Store.disk st))
      /\ exists lead',
           DB.leads (Store.disk st') !! i = Some lead'
           /\ Lead.id lead' = Lead.id lead
           /\ Lead.follow_up_paused lead' = true
           /\ forall env user st2, followUpLead env user lead' st2 = (st2, [])
  end.
Proof.
  unfold pauseFollowUps. cbn [Store.read Store.data].
  destruct (findAt _ (DB.leads (Store.disk st))) as [[i lead]|] eqn:Hfind;
    [|split; reflexivity].
  apply findAt_some in Hfind as [Hi Hlk].
  cbn. split; [reflexivity|]. split; [reflexivity|]. split; [reflexivity|].
  exists (Lead.set_updated_at (Some now) (Leads.set_follow_up_paused true lead)).
  split; [rewrite !list_lookup_alter_eq, Hlk; reflexivity|].
  split; [reflexivity|]. split; [reflexivity|].
  intros env user st2. apply followUpLead_paused. reflexivity.
Qed.

(** A lead that is not enrolled, in a store with distinct lead ids, gets
    no mail from a sweep of the sequence scheduler. *)
Lemma not_enrolled_no_mail env sequenceProcessing st i l mail :
  NoDup (Lead.id <$> DB.leads (Store.disk st)) ->
  DB.leads (Store.disk st) !! i = Some l ->
  isEnrolled l = false ->
  mail ∈ snd (processSequenceSteps env sequenceProcessing st) ->
  Mail.lead_id mail <> Lead.id l.
Proof.
  intros Hnd Hlk Hne Hmail Heq.
  assert (Hin : Lead.id l ∈ Lead.id <$> List.filter isEnrolled (DB.leads (Store.disk st))).
  { apply (elem_of_sublist (Mail.lead_id <$> snd (processSequenceSteps env sequenceProcessing st)));
      [|apply sweep_recipients].
    rewrite <- Heq. apply list_elem_of_fmap. exists mail. auto. }
  apply list_elem_of_fmap in Hin as (l2 & Hid & Hl2).
  apply list_elem_of_In, filter_In in Hl2 as [Hl2 Henr].
  apply list_elem_of_In, list_elem_of_lookup in Hl2 as (j & Hj).
  assert (j = i).
  { apply (NoDup_lookup (Lead.id <$> DB.leads (Store.disk st)) j i (Lead.id l) Hnd).
    - rewrite list_lookup_fmap, Hj. simpl. congruence.
    - rewrite list_lookup_fmap, Hlk. reflexivity. }
  subst j. rewrite Hlk in Hj. injection Hj as ->. congruence.
Qed.

(** X15.  [stop-sequence], for a lead of the user that is enrolled:
    the lead is stored as paused and completed, so it is no longer among
    the leads the sequence scheduler looks at, and in a store with
    distinct lead ids no later sweep sends it a step.  For a lead that is
    not enrolled the route answers 400, for an unknown id 404, and the
    file is unchanged. *)
Theorem stopped_lead_gets_no_step (userId : Z) (id : string) (now : Z) (st : Store.t) :
  let '(st', response) := stopSequence userId id now st in
  match findAt (ownsLeadNamed userId id) (DB.leads (Store.disk st)) with
  | None => response = NotFound404 /\ Store.disk st' = Store.disk st
  | Some (i, lead) =>
      if truthy_id (Lead.enrolled_sequence_id lead) then
        response = Ok200
        /\ Store.disk st' = Store.data st'
        /\ (exists lead',
              DB.leads (Store.disk st') !! i = Some lead'
              /\ Lead.id lead' = Lead.id lead
              /\ Lead.sequence_paused lead' = true
              /\ Lead.sequence_completed lead' = Some true
              /\ isEnrolled lead' = false)
        /\ (NoDup (Lead.id <$> DB.leads (Store.disk st)) ->
            forall env sequenceProcessing mail,
              mail ∈ snd (processSequenceSteps env sequenceProcessing st') ->
              Mail.lead_id mail <> Lead.id lead)
      else response = BadRequest400 /\ Store.disk st' = Store.disk st
  end.
Proof.
  unfold stopSequence. cbn [Store.read Store.data].
  destruct (findAt _ (DB.leads (Store.disk st))) as [[i lead]|] eqn:Hfind;
    [|split; reflexivity].
  apply findAt_some in Hfind as [Hi Hlk].
  destruct (truthy_id (Lead.enrolled_sequence_id lead)) eqn:Henr; cbn [negb];
    [|split; reflexivity].
  set (lead' := Lead.set_updated_at (Some now)
                  (Lead.set_sequence_completed (Some true)
                     (Lead.set_sequence_paused true lead))).
  assert (Hlk' : alter (Lead.set_updated_at (Some now)) i
                   (alter (Lead.set_sequence_completed (Some true)) i
                      (alter (Lead.set_sequence_paused true) i (DB.leads (Store.disk st))))
                 !! i = Some lead')
    by (rewrite !list_lookup_alter_eq, Hlk; reflexivity).
  assert (Hne : isEnrolled lead' = false).
  { unfold isEnrolled. subst lead'. simpl. rewrite !andb_false_r. reflexivity. }
  cbn. split; [reflexivity|]. split; [reflexivity|]. split.
  - exists lead'. repeat split; [exact Hlk' | exact Hne].
  - intros Hnd env b mail Hmail.
    change (Lead.id lead) with (Lead.id lead').
    refine (not_enrolled_no_mail env b _ i lead' mail _ _ Hne Hmail); [|exact Hlk'].
    cbn. rewrite !fmap_alter_keeps by (intros l; reflexivity). exact Hnd.
Qed.

End LeadRouteFacts.

Section ReplyAndSequenceFacts.

Import Js.

Lemma detectAppointment_fields {K} (k : Lead.t -> K) userId env c :
  (forall v, keeps k (Lead.set_status v)) ->
  (forall v, keeps k (Lead.set_updated_at v)) ->
  k <$> DB.leads (Ctx.data (detectAppointment userId env c)) = k <$> DB.leads (Ctx.data c).
Proof.
  intros Hs Hu. unfold detectAppointment.
  destruct (ReplyEnv.aptDetected env) as [a|]; [|reflexivity].
  destruct (existsb _ _); [reflexivity|].
  destruct c as [st lead live]. unfold Ctx.data. simpl.
  destruct (findIndex _ _) as [lIdx|]; simpl; [|reflexivity].
  apply fmap_alter_keeps. intros l. rewrite Hu. apply Hs.
Qed.

(** The leads after the ingestion of a Gmail reply, up to status and
    modification stamp. *)
Lemma ingestGmailReply_fields {K} (k : Lead.t -> K) userId m env st lead i :
  (forall v, keeps k (Lead.set_status v)) ->
  (forall v, keeps k (Lead.set_updated_at v)) ->
  k <$> DB.leads (Ctx.data (ingestGmailReply userId m env (Ctx.mk st lead (Some i))))
  = k <$> alter autoPauseSequence i
            (alter (recordReply (ReplyEnv.analysis env) (Inbound.body m) (Inbound.subject m)
                      (ReplyEnv.now env)) i (DB.leads (Store.data st))).
Proof.
  intros Hs Hu. unfold ingestGmailReply.
  rewrite (detectAppointment_fields k) by assumption.
  unfold Ctx.data. simpl.
  match goal with
  | |- context [trackVariantReply ?u ?a ?l ?d] =>
      destruct (trackVariantReply_frame u a l d) as [rs ->]
  end.
  reflexivity.
Qed.

Lemma recordReply_sequence a body subject now l :
  Lead.enrolled_sequence_id (recordReply a body subject now l) = Lead.enrolled_sequence_id l
  /\ Lead.sequence_completed (recordReply a body subject now l) = Lead.sequence_completed l
  /\ Lead.sequence_paused (recordReply a body subject now l) = Lead.sequence_paused l.
Proof.
  unfold recordReply, sticky.
  destruct (bool_decide (Lead.ai_intent l = Some "INTERESTED")
            && bool_decide (Analysis.intent a = "GHOSTING")); simpl; [auto|].
  destruct (truthy_opt (Lead.ai_intent l)
            && negb (bool_decide (Lead.ai_intent l = Some (Analysis.intent a))));
    auto.
Qed.

Lemma autoPauseSequence_running l :
  truthy_id (Lead.enrolled_sequence_id l) = true ->
  Lead.sequence_completed l = Some false ->
  Lead.sequence_paused (autoPauseSequence l) = true.
Proof.
  intros He Hc. unfold autoPauseSequence. rewrite He, Hc. simpl.
  destruct (Lead.sequence_paused l) eqn:Hp; simpl; [exact Hp | reflexivity].
Qed.

Lemma autoPauseSequence_id l : Lead.id (autoPauseSequence l) = Lead.id l.
Proof. unfold autoPauseSequence. destruct (_ && _); reflexivity. Qed.

(** X16.  A reply that arrives over Gmail from a lead in a running
    sequence stops the sequence for that lead: when the handler returns,
    the stored lead is marked [sequence_paused], whatever the intent of
    the reply and whatever was done with the answer, so the sequence
    scheduler no longer looks at it, and in a store with distinct lead ids
    no later sweep sends it a step. *)
Theorem reply_pauses_running_sequence userId m env st i lead :
  findIndex (matchesLead userId (Inbound.from m)) (DB.leads (Store.disk st)) = Some i ->
  DB.leads (Store.disk st) !! i = Some lead ->
  alreadyProcessed m (Store.disk st) = false ->
  truthy_id (Lead.enrolled_sequence_id lead) = true ->
  Lead.sequence_completed lead = Some false ->
  let r := processGmailMessage userId m env st in
  (exists lead',
     DB.leads (Store.disk (ReplyResult.store r)) !! i = Some lead'
     /\ Lead.id lead' = Lead.id lead
     /\ Lead.sequence_paused lead' = true
     /\ isEnrolled lead' = false)
  /\ (NoDup (Lead.id <$> DB.leads (Store.disk st)) ->
      forall env2 sequenceProcessing mail,
        mail ∈ snd (processSequenceSteps env2 sequenceProcessing (ReplyResult.store r)) ->
        Mail.lead_id mail <> Lead.id lead).
Proof.
  intros Hfind Hlk Hnew Henr Hrun r. subst r.
  unfold processGmailMessage. cbn [Store.read Store.data]. rewrite Hfind, Hlk, Hnew.
  destruct (ingestGmailReply_spec userId m env (Store.read st) lead i Hlk)
    as (Hsync & _ & _ & _ & _).
  pose proof (ingestGmailReply_fields (fun l => (Lead.id l, Lead.sequence_paused l))
                userId m env (Store.read st) lead i
                ltac:(intros v l; reflexivity) ltac:(intros v l; reflexivity)) as Hfields.
  pose proof (replyToLead_keeps_leads true userId m env _ Hsync) as Hleads.
  destruct (replyToLead true userId m env _) as [[c' sent] outcome].
  destruct Hleads as (_ & Hdisk). cbn [ReplyResult.store].
  rewrite <- Hdisk in Hfields. cbn [Store.read Store.data] in Hfields.
  set (R := recordReply (ReplyEnv.analysis env) (Inbound.body m) (Inbound.subject m)
              (ReplyEnv.now env)) in *.
  destruct (recordReply_sequence (ReplyEnv.analysis env) (Inbound.body m) (Inbound.subject m)
              (ReplyEnv.now env) lead) as (He & Hc & _). fold R in He, Hc.
  assert (Hat : (fun l => (Lead.id l, Lead.sequence_paused l))
                  <$> DB.leads (Store.disk (Ctx.store c')) !! i
                = Some (Lead.id lead, true)).
  { rewrite <- list_lookup_fmap, Hfields, list_lookup_fmap, !list_lookup_alter_eq, Hlk.
    simpl. rewrite autoPauseSequence_id, autoPauseSequence_running by congruence.
    unfold R. rewrite recordReply_id. reflexivity. }
  destruct (DB.leads (Store.disk (Ctx.store c')) !! i) as [lead'|] eqn:Hlk'; [|discriminate].
  injection Hat as Hid Hpaused.
  assert (Hne : isEnrolled lead' = false).
  { unfold isEnrolled. rewrite Hpaused. simpl. rewrite andb_false_r. reflexivity. }
  split; [exists lead'; auto|].
  intros Hnd env2 b mail Hmail. rewrite <- Hid.
  refine (not_enrolled_no_mail env2 b _ i lead' mail _ Hlk' Hne Hmail).
  assert (Hids : Lead.id <$> DB.leads (Store.disk (Ctx.store c'))
                 = Lead.id <$> DB.leads (Store.disk st)).
  { apply (f_equal (fmap fst)) in Hfields. rewrite <- !list_fmap_compose in Hfields.
    etransitivity; [exact Hfields|].
    rewrite !fmap_alter_keeps; [reflexivity | |].
    - intros l. apply recordReply_id.
    - intros l. apply autoPauseSequence_id. }
  rewrite Hids. exact Hnd.
Qed.

Lemma reply_pauses_running_sequence_witness :
  let r := processGmailMessage 1 Sample.objection Sample.objectionEnv
             MoreSample.sequenceStore in
  (exists lead',
     DB.leads (Store.disk (ReplyResult.store r)) !! 0%nat = Some lead'
     /\ Lead.id lead' = 7%Z
     /\ Lead.sequence_paused lead' = true
     /\ isEnrolled lead' = false)
  /\ forall env2 sequenceProcessing mail,
       mail ∈ snd (processSequenceSteps env2 sequenceProcessing (ReplyResult.store r)) ->
       Mail.lead_id mail <> 7%Z.
Proof.
  destruct (reply_pauses_running_sequence 1 Sample.objection Sample.objectionEnv
              MoreSample.sequenceStore 0%nat Sample.enrolledAlice
              eq_refl eq_refl eq_refl eq_refl eq_refl) as [Hstored Hquiet].
  split; [exact Hstored|]. apply Hquiet.
  apply (bool_decide_unpack _). vm_compute. exact I.
Defined.

End ReplyAndSequenceFacts.

(** ** More on the cadence scheduler *)

Section CadenceMailFacts.

Import Js.

(** What a dispatch sends, and what it stores when it sends. *)
Lemma dispatchFollowUp_sent env user lead intent n st :
  let out := dispatchFollowUp env user lead intent n st in
  snd out = []
  \/ (exists body,
        snd out = [Mail.mk (Lead.email lead) (followUpSubject lead) body (Lead.id lead)]
        /\ truthy body = true
        /\ User.auto_mode_enabled user && intentAllowedInAuto user intent = true
        /\ CadenceEnv.sendEmail_ok env (Lead.id lead) = true
        /\ forall idx l0,
             findIndex (fun l => bool_decide (Lead.id l = Lead.id lead))
                       (DB.leads (Store.disk st)) = Some idx ->
             DB.leads (Store.disk st) !! idx = Some l0 ->
             DB.leads (Store.data (fst out)) !! idx
             = Some (Lead.set_last_email_sent_date (Some (CadenceEnv.now env))
                       (Lead.set_email_count (Lead.email_count l0 + 1)
                          (Lead.set_follow_up_count (n + 1) l0)))).
Proof.
  cbv zeta. unfold dispatchFollowUp.
  pose proof (generateFollowUpEmail_store (CadenceEnv.ai env (Lead.id lead)) lead intent
                (User.id user) st) as Hst.
  destruct (generateFollowUpEmail _ lead intent (User.id user) st) as [st1 result].
  simpl in Hst. subst st1.
  destruct (truthy (FollowUp.body result)) eqn:Hbody; [|left; reflexivity].
  unfold Store.update; simpl.
  match goal with
  | |- context [trackVariantSend ?u ?i ?v ?t ?d] =>
      destruct (trackVariantSend_frame u i v t d) as [rs ->]
  end.
  destruct (User.auto_mode_enabled user && intentAllowedInAuto user intent);
    [|left; reflexivity].
  destruct (CadenceEnv.sendEmail_ok env (Lead.id lead)); [|left; reflexivity].
  right. exists (FollowUp.body result). simpl.
  split; [reflexivity|]. split; [exact Hbody|]. split; [reflexivity|]. split; [reflexivity|].
  intros idx l0 Hidx Hl0. unfold recordFollowUpSent.
  destruct (findIndex _ (DB.users (Store.disk st))); simpl; rewrite Hidx; simpl;
    rewrite list_lookup_alter_eq, Hl0; reflexivity.
Qed.

(** The loop body sends only through a dispatch of a lead that is due. *)
Lemma followUpLead_sent env user lead st :
  snd (followUpLead env user lead st) = []
  \/ (skipsLead env user lead = false
      /\ (exists rules t,
            rulesOf user !! governingIntent lead = Some rules
            /\ lastEmailDate lead = Some t
            /\ (delayMs rules <= CadenceEnv.now env - t)%Z
            /\ (Lead.follow_up_count lead < Rule.max_attempts rules)%nat)
      /\ followUpLead env user lead st
         = dispatchFollowUp env user lead (governingIntent lead)
             (Lead.follow_up_count lead) st).
Proof.
  destruct (skipsLead env user lead) eqn:Hskip.
  { left. rewrite (followUpLead_skipped env user lead st Hskip). reflexivity. }
  unfold followUpLead.
  unfold skipsLead in Hskip. repeat (apply orb_false_iff in Hskip as [Hskip ?]).
  rewrite Hskip.
  repeat match goal with H : _ = false |- _ => rewrite H; clear H end.
  fold (rulesOf user).
  destruct (rulesOf user !! governingIntent lead) as [rules|] eqn:Hrule; [|left; reflexivity].
  destruct (lastEmailDate lead) as [t|] eqn:Hdate; [|left; reflexivity].
  destruct (delayMs rules <=? CadenceEnv.now env - t)%Z eqn:Hdue; [|left; reflexivity].
  destruct (Lead.follow_up_count lead <? Rule.max_attempts rules)%nat eqn:Hcount;
    [|left; reflexivity].
  destruct (pausedNow lead (Store.data st)); [left; reflexivity|].
  right. split; [reflexivity|]. split; [|reflexivity].
  exists rules, t. repeat split.
  - apply Z.leb_le, Hdue.
  - apply Nat.ltb_lt, Hcount.
Qed.

(** X17.  What the cadence scheduler can send for one lead in one
    sweep: nothing, or exactly one follow-up.  The follow-up goes to the
    lead, with a body that is not empty, and only when the owner is in
    auto mode and the governing intent of the lead is INTERESTED, NOT_NOW
    or GHOSTING, or OBJECTION with the objections opted in; the lead
    passed the guards, its delay has elapsed and attempts are left.  So a
    DEAD lead, and an objection without the opt-in, never gets an
    automatic follow-up. *)
Theorem follow_up_mail_conditions env user lead st :
  let sent := snd (followUpLead env user lead st) in
  sent = []
  \/ (exists body,
        sent = [Mail.mk (Lead.email lead) (followUpSubject lead) body (Lead.id lead)]
        /\ truthy body = true
        /\ User.auto_mode_enabled user = true
        /\ intentAllowedInAuto user (governingIntent lead) = true
        /\ governingIntent lead <> "DEAD"
        /\ (governingIntent lead = "OBJECTION" ->
            User.auto_mode_include_objections user = true)
        /\ CadenceEnv.sendEmail_ok env (Lead.id lead) = true
        /\ skipsLead env user lead = false
        /\ exists rules t,
             rulesOf user !! governingIntent lead = Some rules
             /\ lastEmailDate lead = Some t
             /\ (delayMs rules <= CadenceEnv.now env - t)%Z
             /\ (Lead.follow_up_count lead < Rule.max_attempts rules)%nat).
Proof.
  intros sent. subst sent.
  destruct (followUpLead_sent env user lead st) as [-> | (Hskip & Hdue & ->)];
    [left; reflexivity|].
  pose proof (dispatchFollowUp_sent env user lead (governingIntent lead)
                (Lead.follow_up_count lead) st) as Hd.
  cbv zeta in Hd. destruct Hd as [-> | (body & -> & Hbody & Hauto & Hok & _)];
    [left; reflexivity|].
  right. exists body. apply andb_true_iff in Hauto as [Hauto Hallowed].
  split; [reflexivity|]. split; [exact Hbody|]. split; [exact Hauto|].
  split; [exact Hallowed|]. split; [|split; [|auto]].
  - intros E. rewrite E in Hallowed. unfold intentAllowedInAuto in Hallowed.
    simpl in Hallowed. discriminate.
  - intros E. rewrite E in Hallowed. unfold intentAllowedInAuto in Hallowed.
    simpl in Hallowed. exact Hallowed.
Qed.

(** A lead whose delay has not elapsed is left alone. *)
Lemma followUpLead_not_due env user lead st t :
  lastEmailDate lead = Some t ->
  (forall rules, rulesOf user !! governingIntent lead = Some rules ->
                 (CadenceEnv.now env - t < delayMs rules)%Z) ->
  followUpLead env user lead st = (st, []).
Proof.
  intros Hdate Hearly. unfold followUpLead.
  repeat match goal with
         | |- (if ?b then _ else _) = _ => destruct b; [reflexivity|]
         end.
  fold (rulesOf user).
  destruct (rulesOf user !! governingIntent lead) as [rules|] eqn:Hrule; [|reflexivity].
  rewrite Hdate. specialize (Hearly rules eq_refl).
  rewrite (proj2 (Z.leb_gt _ _) Hearly). reflexivity.
Qed.

Lemma sendsFollowUp_calls env user lead d :
  sendsFollowUp env user lead -> pausedNow lead d = false ->
  callsGenerator env user lead d = true.
Proof.
  intros (Hskip & (rules & t & Hrule & Hdate & Hdue & Hcount) & _) Hlive.
  unfold callsGenerator. rewrite Hskip, Hrule, Hdate, Hlive. simpl.
  rewrite (proj2 (Z.leb_le _ _) Hdue), (proj2 (Nat.ltb_lt _ _) Hcount). reflexivity.
Qed.

(** The generator is called for a lead of the file that passes the
    guards, is due and has attempts left. *)
Lemma hasTurn_calls env user pre lead post d :
  hasTurn user (pre ++ lead :: post) d ->
  skipsLead env user lead = false ->
  pausedNow lead d = false.
Proof.
  intros (_ & Hnd & _ & Hfil) Hskip.
  destruct (filter_owner _ _ _ _ _ Hfil) as (Hin & _).
  rewrite (pausedNow_own lead d Hnd Hin). apply (skipsLead_not_paused env user lead Hskip).
Qed.

(** X18.  A follow-up that was sent restarts the clock of the lead
    when the turn of its owner writes it, and is forgotten when a later
    lead displaces it.  The file holds the owner, the only user of its
    id, with mail settings, and leads of distinct ids; [lead], at place
    [idx], is one of the owner's leads, due, and its follow-up is sent at
    once ([sendsFollowUp]).  Then the mail is among the mails of the
    sweep.  If the generator is called for no later lead of the owner,
    the file holds the lead after the sweep with one attempt and one mail
    more and the time of the sweep as [last_email_sent_date], and until
    the delay of its intent has elapsed from that time the loop body
    leaves that lead alone.  If the generator is called for a later lead
    of the owner, its [db.read()] discards the bookkeeping before the
    turn is written: the file holds the lead after the sweep as before
    it. *)
Theorem sent_follow_up_restarts_the_clock env user pre lead post st idx :
  hasTurn user (pre ++ lead :: post) (Store.disk st) ->
  DB.leads (Store.disk st) !! idx = Some lead ->
  sendsFollowUp env user lead ->
  let out := processFollowUps env st in
  let mail := Mail.mk (Lead.email lead) (followUpSubject lead)
                (followUpText (CadenceEnv.ai env (Lead.id lead)) lead) (Lead.id lead) in
  let lead' := countFollowUp (Lead.follow_up_count lead) (CadenceEnv.now env) lead in
  mail ∈ snd out
  /\ Lead.follow_up_count lead' = (Lead.follow_up_count lead + 1)%nat
  /\ Lead.email_count lead' = (Lead.email_count lead + 1)%nat
  /\ Lead.last_email_sent_date lead' = Some (CadenceEnv.now env)
  /\ ((forall x, x ∈ post -> callsGenerator env user x (Store.disk st) = false) ->
      DB.leads (Store.disk (fst out)) !! idx = Some lead')
  /\ (forall env' st',
        (forall rules, rulesOf user !! governingIntent lead' = Some rules ->
                       (CadenceEnv.now env' - CadenceEnv.now env < delayMs rules)%Z) ->
        followUpLead env' user lead' st' = (st', []))
  /\ (forall x, x ∈ post -> callsGenerator env user x (Store.disk st) = true ->
      DB.leads (Store.disk (fst out)) !! idx = Some lead).
Proof.
  intros Hturn Hidx Hsends out mail lead'. subst out.
  destruct (processFollowUps_at env st user pre lead post idx Hturn Hidx)
    as (st0 & st1 & before & after & Hsync0 & Hev0 & Hidx0 & Hnd0 & Hdisk1 & Hstep1 & Hdata1
        & Hfind1 & Hsame & Hmails & Hquiet & Hdiscard).
  pose proof Hsends as (Hskip & _ & Hbody & Hauto & Hok).
  pose proof (hasTurn_calls env user pre lead post _ Hturn Hskip) as Hlive.
  pose proof (sendsFollowUp_calls env user lead _ Hsends Hlive) as Hcalls.
  assert (Hcalls0 : callsGenerator env user lead (Store.data st0) = true).
  { rewrite Hsync0. unfold callsGenerator in *.
    rewrite (evolves_pausedNow lead _ _ Hev0). exact Hcalls. }
  specialize (Hsame Hcalls).
  rewrite (followUpLead_calls env user lead st0 Hcalls0) in Hsame, Hmails.
  destruct (dispatchFollowUp_sends env user lead (governingIntent lead)
              (Lead.follow_up_count lead) st0 Hbody Hauto Hok) as (Hmail & Hleads).
  specialize (Hleads idx (findIndex_by_key Lead.id _ idx lead Hnd0 Hidx0)).
  destruct Hturn as (_ & _ & _ & Hfil).
  destruct (filter_owner _ _ _ _ _ Hfil) as (_ & Howner).
  split.
  { rewrite Hmails, Hmail. apply elem_of_app. right. apply list_elem_of_here. }
  split; [reflexivity|]. split; [reflexivity|]. split; [reflexivity|].
  split; [|split; [|exact Hdiscard]].
  - intros Hq. destruct (Hquiet Hq) as (_ & Hwritten).
    apply Hwritten; [|exact Howner].
    rewrite Hsame, Hleads, list_lookup_alter_eq, Hidx0. reflexivity.
  - intros env' st' Hearly.
    apply (followUpLead_not_due env' user lead' st' (CadenceEnv.now env)); [reflexivity|].
    exact Hearly.
Qed.

Lemma sent_follow_up_restarts_the_clock_witness :
  let st := MoreSample.storeOfTwo Sample.owner Sample.alice MoreSample.recentBella in
  let out := processFollowUps Sample.cadenceEnv st in
  sendsFollowUp Sample.cadenceEnv Sample.owner Sample.alice
  /\ Mail.mk "alice@example.com" "Following up - Acme" "Hi Alice, just checking in." 7 ∈ snd out
  /\ exists lead',
       DB.leads (Store.disk (fst out)) !! 0%nat = Some lead'
       /\ Lead.follow_up_count lead' = 1%nat
       /\ Lead.email_count lead' = 2%nat
       /\ Lead.last_email_sent_date lead' = Some (31 * Sample.day)%Z.
Proof.
  intros st out.
  assert (Hturn : hasTurn Sample.owner ([] ++ Sample.alice :: [MoreSample.recentBella])
                    (Store.disk st)).
  { split; [|split; [|split]].
    - exists [], []. split; [reflexivity|]. intros u Hu. apply elem_of_nil in Hu. contradiction.
    - simpl. apply NoDup_cons. split; [|apply NoDup_singleton].
      intros H. apply list_elem_of_singleton in H. discriminate.
    - exists Sample.settings. split; reflexivity.
    - reflexivity. }
  assert (Hsends : sendsFollowUp Sample.cadenceEnv Sample.owner Sample.alice).
  { split; [reflexivity|]. split; [|repeat split].
    exists (Rule.mk 5 None 3 "DEAD"), 0%Z.
    split; [reflexivity|]. split; [reflexivity|].
    split; [vm_compute; discriminate | simpl; lia]. }
  split; [exact Hsends|].
  destruct (sent_follow_up_restarts_the_clock Sample.cadenceEnv Sample.owner []
              Sample.alice [MoreSample.recentBella] st 0%nat Hturn eq_refl Hsends)
    as (Hmail & Hcount & Hmails & Hdate & Hwritten & _).
  split; [exact Hmail|].
  eexists. split; [apply Hwritten|].
  - intros x Hx. apply list_elem_of_singleton in Hx as ->. reflexivity.
  - split; [exact Hcount|]. split; [exact Hmails | exact Hdate].
Defined.

(** Two leads of one owner that are both sent a follow-up in a sweep:
    the file counts the attempt for the second only, and the sweep of
    the next day sends the first lead its first follow-up again. *)
Example follow_up_sent_twice :
  let st := MoreSample.storeOfTwo Sample.owner Sample.alice MoreSample.bella in
  let out1 := processFollowUps Sample.cadenceEnv st in
  let out2 := processFollowUps MoreSample.nextDayEnv (fst out1) in
  Mail.lead_id <$> snd out1 = [7; 8]%Z
  /\ DB.leads (Store.disk (fst out1)) !! 0%nat = Some Sample.alice
  /\ Lead.follow_up_count <$> DB.leads (Store.disk (fst out1)) = [0; 1]%nat
  /\ Mail.lead_id <$> snd out2 = [7]%Z
  /\ Lead.follow_up_count <$> DB.leads (Store.disk (fst out2)) = [1; 1]%nat.
Proof. vm_compute. repeat split. Qed.

End CadenceMailFacts.

Section ExhaustionFacts.

Import Js.

(** What the exhaustion rule stores for the live lead. *)
Lemma followUpLead_exhausted env user lead st rules t idx l0 :
  skipsLead env user lead = false ->
  rulesOf user !! governingIntent lead = Some rules ->
  lastEmailDate lead = Some t ->
  (delayMs rules <= CadenceEnv.now env - t)%Z ->
  (Rule.max_attempts rules <= Lead.follow_up_count lead)%nat ->
  findIndex (fun l => bool_decide (Lead.id l = Lead.id lead)) (DB.leads (Store.data st))
    = Some idx ->
  DB.leads (Store.data st) !! idx = Some l0 ->
  snd (followUpLead env user lead st) = []
  /\ DB.leads (Store.data (fst (followUpLead env user lead st))) !! idx
     = Some (Lead.set_updated_at (Some (CadenceEnv.now env))
               (Lead.set_follow_up_count 0%nat
                  (if bool_decide (Rule.after_max rules = "review")
                   then Lead.set_status "review" l0
                   else if bool_decide (Rule.after_max rules = "closed_by_system")
                   then Lead.set_status "closed_by_system" l0
                   else Lead.set_status (toLowerCase (Rule.after_max rules))
                          (Lead.set_ai_intent (Some (Rule.after_max rules)) l0)))).
Proof.
  intros Hskip Hrule Hdate Hdue Hmax Hidx Hl0.
  rewrite (followUpLead_due env user lead st rules t Hskip Hrule Hdate Hdue).
  rewrite (proj2 (Nat.ltb_ge _ _) Hmax). simpl. split; [reflexivity|].
  unfold applyAfterMax. rewrite Hidx. simpl.
  rewrite list_lookup_alter_eq, Hl0. reflexivity.
Qed.

(** The exhaustion rule within a sweep: what the loop body leaves of the
    lead in [db.data], what the sweep leaves of it in the file. *)
Lemma processFollowUps_usedUp env user pre lead post st idx rules :
  hasTurn user (pre ++ lead :: post) (Store.disk st) ->
  DB.leads (Store.disk st) !! idx = Some lead ->
  usedUp env user lead rules ->
  let out := processFollowUps env st in
  let lead' :=
    Lead.set_updated_at (Some (CadenceEnv.now env))
      (Lead.set_follow_up_count 0%nat
         (if bool_decide (Rule.after_max rules = "review")
          then Lead.set_status "review" lead
          else if bool_decide (Rule.after_max rules = "closed_by_system")
          then Lead.set_status "closed_by_system" lead
          else Lead.set_status (toLowerCase (Rule.after_max rules))
                 (Lead.set_ai_intent (Some (Rule.after_max rules)) lead))) in
  (forall st', snd (followUpLead env user lead st') = [])
  /\ ((forall x, x ∈ post -> callsGenerator env user x (Store.disk st) = false) ->
      DB.leads (Store.disk (fst out)) !! idx = Some lead')
  /\ (forall x, x ∈ post -> callsGenerator env user x (Store.disk st) = true ->
      DB.leads (Store.disk (fst out)) !! idx = Some lead).
Proof.
  intros Hturn Hidx (Hskip & Hrule & (t & Hdate & Hdue) & Hmax) out lead'. subst out.
  destruct (processFollowUps_at env st user pre lead post idx Hturn Hidx)
    as (st0 & st1 & before & after & Hsync0 & Hev0 & Hidx0 & Hnd0 & Hdisk1 & Hstep1 & Hdata1
        & Hfind1 & _ & _ & Hquiet & Hdiscard).
  destruct Hturn as (_ & _ & _ & Hfil).
  destruct (filter_owner _ _ _ _ _ Hfil) as (_ & Howner).
  split; [|split; [|exact Hdiscard]].
  - intros st'.
    rewrite (followUpLead_due env user lead st' rules t Hskip Hrule Hdate Hdue).
    rewrite (proj2 (Nat.ltb_ge _ _) Hmax). reflexivity.
  - intros Hq. destruct (Hquiet Hq) as (_ & Hwritten).
    apply Hwritten.
    + apply (followUpLead_exhausted env user lead st1 rules t idx lead
               Hskip Hrule Hdate Hdue Hmax Hfind1 Hdata1).
    + subst lead'. rewrite <- Howner.
      destruct (bool_decide _); [|destruct (bool_decide _)]; reflexivity.
Qed.

(** X19.  Exhaustion under a rule whose [after_max] is
    [closed_by_system] is final once the turn of the owner writes it.
    The file holds the owner, the only user of its id, with mail
    settings, and leads of distinct ids; [lead], at place [idx], is one
    of the owner's leads, due, with its attempts used up.  The loop body
    sends nothing for it.  If the generator is called for no later lead
    of the owner, the file holds the lead after the sweep with status
    [closed_by_system], its intent unchanged, and the loop body leaves
    that lead alone from then on, whoever the owner is and whatever the
    time and the oracles are.  If the generator is called for a later
    lead of the owner, its [db.read()] discards the change: the file
    holds the lead after the sweep as before it. *)
Theorem closed_by_system_is_final env user pre lead post st idx rules :
  hasTurn user (pre ++ lead :: post) (Store.disk st) ->
  DB.leads (Store.disk st) !! idx = Some lead ->
  usedUp env user lead rules ->
  Rule.after_max rules = "closed_by_system" ->
  let out := processFollowUps env st in
  let lead' :=
    Lead.set_updated_at (Some (CadenceEnv.now env))
      (Lead.set_follow_up_count 0%nat (Lead.set_status "closed_by_system" lead)) in
  (forall st', snd (followUpLead env user lead st') = [])
  /\ Lead.status lead' = "closed_by_system"
  /\ Lead.ai_intent lead' = Lead.ai_intent lead
  /\ ((forall x, x ∈ post -> callsGenerator env user x (Store.disk st) = false) ->
      DB.leads (Store.disk (fst out)) !! idx = Some lead')
  /\ (forall env' user' st', followUpLead env' user' lead' st' = (st', []))
  /\ (forall x, x ∈ post -> callsGenerator env user x (Store.disk st) = true ->
      DB.leads (Store.disk (fst out)) !! idx = Some lead).
Proof.
  intros Hturn Hidx Hused Hafter out lead'.
  pose proof (processFollowUps_usedUp env user pre lead post st idx rules Hturn Hidx Hused)
    as Hrun.
  cbv zeta in Hrun. rewrite Hafter in Hrun. simpl in Hrun.
  destruct Hrun as (Hnone & Hwritten & Hdiscard).
  split; [exact Hnone|]. split; [reflexivity|]. split; [reflexivity|].
  split; [exact Hwritten|]. split; [|exact Hdiscard].
  intros env' user' st'. apply followUpLead_skipped.
  unfold skipsLead, closedOrCustomer. simpl.
  rewrite !orb_true_r. reflexivity.
Qed.

(** The guards do not read the status [review], the attempt counter or
    [updated_at]; the wait after a completed sequence, once over, stays
    over. *)
Lemma skipsLead_review env env' user lead :
  (CadenceEnv.now env <= CadenceEnv.now env')%Z ->
  skipsLead env user lead = false ->
  skipsLead env' user
    (Lead.set_updated_at (Some (CadenceEnv.now env))
       (Lead.set_follow_up_count 0%nat (Lead.set_status "review" lead))) = false.
Proof.
  intros Hlater Hskip.
  unfold skipsLead in *.
  repeat (apply orb_false_iff in Hskip as [Hskip ?]).
  repeat (apply orb_false_iff; split); try assumption; try reflexivity.
  match goal with H : sequenceJustEnded _ _ _ = false |- _ => rename H into Hwait end.
  unfold sequenceJustEnded in *. unfold governingIntent in *. simpl.
  destruct (truthy_id (Lead.enrolled_sequence_id lead)
            && bool_decide (Lead.sequence_completed lead = Some true)); [|reflexivity].
  destruct (Lead.sequence_last_sent lead) as [ts|]; [|reflexivity].
  destruct (rulesOf user !! _) as [rules|]; [|reflexivity].
  apply Z.ltb_ge in Hwait. apply Z.ltb_ge. lia.
Qed.

(** X20.  Exhaustion under a rule whose [after_max] is [review]
    does not end the cadence.  The file holds the owner, the only user of
    its id, with mail settings, and leads of distinct ids; [lead], at
    place [idx], is one of the owner's leads, due, with its attempts used
    up under a rule that allows at least one.  The loop body sends
    nothing for it.  If the generator is called for no later lead of the
    owner, the file holds the lead after the sweep with status [review]
    and the attempt counter 0, its intent and the date of its last mail
    unchanged; that lead is due at once at every later time, and unless
    it was paused meanwhile the loop body generates follow-up number one
    for it again.  If the generator is called for a later lead of the
    owner, its [db.read()] discards the change: the file holds the lead
    after the sweep as before it. *)
Theorem review_restarts_the_attempts env user pre lead post st idx rules :
  hasTurn user (pre ++ lead :: post) (Store.disk st) ->
  DB.leads (Store.disk st) !! idx = Some lead ->
  usedUp env user lead rules ->
  (0 < Rule.max_attempts rules)%nat ->
  Rule.after_max rules = "review" ->
  let out := processFollowUps env st in
  let lead' :=
    Lead.set_updated_at (Some (CadenceEnv.now env))
      (Lead.set_follow_up_count 0%nat (Lead.set_status "review" lead)) in
  (forall st', snd (followUpLead env user lead st') = [])
  /\ Lead.status lead' = "review"
  /\ Lead.follow_up_count lead' = 0%nat
  /\ governingIntent lead' = governingIntent lead
  /\ lastEmailDate lead' = lastEmailDate lead
  /\ ((forall x, x ∈ post -> callsGenerator env user x (Store.disk st) = false) ->
      DB.leads (Store.disk (fst out)) !! idx = Some lead')
  /\ (forall env' st',
        (CadenceEnv.now env <= CadenceEnv.now env')%Z ->
        pausedNow lead' (Store.data st') = false ->
        followUpLead env' user lead' st'
        = dispatchFollowUp env' user lead' (governingIntent lead) 0 st')
  /\ (forall x, x ∈ post -> callsGenerator env user x (Store.disk st) = true ->
      DB.leads (Store.disk (fst out)) !! idx = Some lead).
Proof.
  intros Hturn Hidx Hused Hpos Hafter out lead'.
  pose proof (processFollowUps_usedUp env user pre lead post st idx rules Hturn Hidx Hused)
    as Hrun.
  cbv zeta in Hrun. rewrite Hafter in Hrun. simpl in Hrun.
  destruct Hrun as (Hnone & Hwritten & Hdiscard).
  destruct Hused as (Hskip & Hrule & (t & Hdate & Hdue) & Hmax).
  split; [exact Hnone|]. split; [reflexivity|]. split; [reflexivity|].
  split; [reflexivity|]. split; [reflexivity|].
  split; [exact Hwritten|]. split; [|exact Hdiscard].
  intros env' st' Hlater Hlive.
  rewrite (followUpLead_due env' user _ st' rules t).
  - simpl. rewrite (proj2 (Nat.ltb_lt _ _) Hpos), Hlive. reflexivity.
  - apply (skipsLead_review env env' user lead Hlater Hskip).
  - exact Hrule.
  - exact Hdate.
  - lia.
Qed.

Lemma closed_by_system_is_final_witness :
  let st := MoreSample.storeOfTwo Sample.owner MoreSample.spentDeadAlice
              MoreSample.recentBella in
  let out := processFollowUps Sample.cadenceEnv st in
  usedUp Sample.cadenceEnv Sample.owner MoreSample.spentDeadAlice
    (Rule.mk 30 None 1 "closed_by_system")
  /\ Lead.status MoreSample.spentDeadAlice = "dead"
  /\ exists lead',
       DB.leads (Store.disk (fst out)) !! 0%nat = Some lead'
       /\ Lead.status lead' = "closed_by_system"
       /\ Lead.ai_intent lead' = Some "DEAD"
       /\ forall env' user' st', followUpLead env' user' lead' st' = (st', []).
Proof.
  intros st out.
  assert (Hturn : hasTurn Sample.owner
                    ([] ++ MoreSample.spentDeadAlice :: [MoreSample.recentBella])
                    (Store.disk st)).
  { split; [|split; [|split]].
    - exists [], []. split; [reflexivity|]. intros u Hu. apply elem_of_nil in Hu. contradiction.
    - simpl. apply NoDup_cons. split; [|apply NoDup_singleton].
      intros H. apply list_elem_of_singleton in H. discriminate.
    - exists Sample.settings. split; reflexivity.
    - reflexivity. }
  assert (Hused : usedUp Sample.cadenceEnv Sample.owner MoreSample.spentDeadAlice
                    (Rule.mk 30 None 1 "closed_by_system")).
  { split; [reflexivity|]. split; [reflexivity|]. split; [|simpl; lia].
    exists 0%Z. split; [reflexivity | vm_compute; discriminate]. }
  split; [exact Hused|]. split; [reflexivity|].
  destruct (closed_by_system_is_final Sample.cadenceEnv Sample.owner []
              MoreSample.spentDeadAlice [MoreSample.recentBella] st 0%nat
              (Rule.mk 30 None 1 "closed_by_system") Hturn eq_refl Hused eq_refl)
    as (_ & Hstatus & Hintent & Hwritten & Hfinal & _).
  eexists. split; [apply Hwritten|].
  - intros x Hx. apply list_elem_of_singleton in Hx as ->. reflexivity.
  - split; [exact Hstatus|]. split; [exact Hintent | exact Hfinal].
Defined.

Lemma review_restarts_the_attempts_witness :
  let st := MoreSample.storeOfTwo Sample.owner MoreSample.spentInterestedAlice
              MoreSample.recentBella in
  let out := processFollowUps Sample.cadenceEnv st in
  usedUp Sample.cadenceEnv Sample.owner MoreSample.spentInterestedAlice
    (Rule.mk 1 None 5 "review")
  /\ exists lead',
       DB.leads (Store.disk (fst out)) !! 0%nat = Some lead'
       /\ Lead.status lead' = "review"
       /\ Lead.follow_up_count lead' = 0%nat
       /\ governingIntent lead' = "INTERESTED"
       /\ forall env' st',
            (CadenceEnv.now Sample.cadenceEnv <= CadenceEnv.now env')%Z ->
            pausedNow lead' (Store.data st') = false ->
            followUpLead env' Sample.owner lead' st'
            = dispatchFollowUp env' Sample.owner lead' "INTERESTED" 0 st'.
Proof.
  intros st out.
  assert (Hturn : hasTurn Sample.owner
                    ([] ++ MoreSample.spentInterestedAlice :: [MoreSample.recentBella])
                    (Store.disk st)).
  { split; [|split; [|split]].
    - exists [], []. split; [reflexivity|]. intros u Hu. apply elem_of_nil in Hu. contradiction.
    - simpl. apply NoDup_cons. split; [|apply NoDup_singleton].
      intros H. apply list_elem_of_singleton in H. discriminate.
    - exists Sample.settings. split; reflexivity.
    - reflexivity. }
  assert (Hused : usedUp Sample.cadenceEnv Sample.owner MoreSample.spentInterestedAlice
                    (Rule.mk 1 None 5 "review")).
  { split; [reflexivity|]. split; [reflexivity|]. split; [|simpl; lia].
    exists 0%Z. split; [reflexivity | vm_compute; discriminate]. }
  split; [exact Hused|].
  destruct (review_restarts_the_attempts Sample.cadenceEnv Sample.owner []
              MoreSample.spentInterestedAlice [MoreSample.recentBella] st 0%nat
              (Rule.mk 1 None 5 "review") Hturn eq_refl Hused)
    as (_ & Hstatus & Hcount & Hintent & _ & Hwritten & Hagain & _);
    [simpl; lia | reflexivity |].
  eexists. split; [apply Hwritten|].
  - intros x Hx. apply list_elem_of_singleton in Hx as ->. reflexivity.
  - split; [exact Hstatus|]. split; [exact Hcount|]. split; [exact Hintent | exact Hagain].
Defined.

(** An exhausted lead followed by a lead of the same owner that is due:
    the sweep leaves the exhausted lead in the file as it was, status and
    attempt counter included. *)
Example exhaustion_discarded :
  let closing := MoreSample.storeOfTwo Sample.owner MoreSample.spentDeadAlice
                   MoreSample.bella in
  let reviewing := MoreSample.storeOfTwo Sample.owner MoreSample.spentInterestedAlice
                     MoreSample.bella in
  DB.leads (Store.disk (fst (processFollowUps Sample.cadenceEnv closing))) !! 0%nat
  = Some MoreSample.spentDeadAlice
  /\ Lead.status MoreSample.spentDeadAlice = "dead"
  /\ DB.leads (Store.disk (fst (processFollowUps Sample.cadenceEnv reviewing))) !! 0%nat
     = Some MoreSample.spentInterestedAlice
  /\ Lead.follow_up_count MoreSample.spentInterestedAlice = 5%nat.
Proof. vm_compute. repeat split. Qed.

End ExhaustionFacts.

(** ** The first mail of a lead *)

Section InitialEmailFacts.

Import Js Text.

Lemma dismissDrafts_none_pending userId lead d x :
  In x (DB.ai_drafts (dismissDrafts userId lead d)) ->
  Draft.lead_id x = Lead.id lead ->
  Draft.user_id x = userId ->
  Draft.status x <> "pending".
Proof.
  unfold dismissDrafts. simpl. intros Hin Hlead Huser.
  apply in_map_iff in Hin as (x0 & Hx & _). subst x.
  destruct (bool_decide (Draft.lead_id x0 = Lead.id lead)) eqn:E1; simpl in *.
  - destruct (bool_decide (Draft.user_id x0 = userId)) eqn:E2; simpl in *.
    + destruct (bool_decide (Draft.status x0 = "pending")) eqn:E3; simpl in *.
      * discriminate.
      * apply bool_decide_eq_false_1 in E3.
        destruct (bool_decide (Draft.status x0 = "sent")); exact E3.
    + apply bool_decide_eq_false_1 in E2. contradiction.
  - apply bool_decide_eq_false_1 in E1. contradiction.
Qed.

(** X21.  [POST /api/leads/:id/send-initial-email] either fails,
    and then no mail goes out and the file is as before, or answers 200,
    and then exactly one mail went to the lead of the request, with the
    body of the request.  In the file the lead is then contacted: its
    first and its last mail carry the time of the request, one mail more
    is counted, the clarification counter is 0 and the attempt counter is
    untouched; none of its drafts is pending any more; and the cadence
    loop leaves the lead alone until the delay of its intent has elapsed
    from the time of the request. *)
Theorem initial_email_starts_the_cadence userId id email_body subject sizes ok now st :
  let out := sendInitialEmail userId id email_body subject sizes ok now st in
  let st' := fst (fst out) in
  let mails := snd (fst out) in
  (snd out <> Ok200 -> mails = [] /\ Store.disk st' = Store.disk st)
  /\ (snd out = Ok200 ->
      exists i lead lead',
        findAt (ownsLeadNumbered userId id) (DB.leads (Store.disk st)) = Some (i, lead)
        /\ truthy email_body = true
        /\ (exists s, mails = [Mail.mk (Lead.email lead) s email_body (Lead.id lead)])
        /\ Store.data st' = Store.disk st'
        /\ DB.leads (Store.disk st') !! i = Some lead'
        /\ Lead.initial_email_sent lead' = true
        /\ Lead.initial_email_sent_date lead' = Some now
        /\ Lead.last_email_sent_date lead' = Some now
        /\ Lead.status lead' = "contacted"
        /\ Lead.email_count lead' = (Lead.email_count lead + 1)%nat
        /\ Lead.follow_up_count lead' = Lead.follow_up_count lead
        /\ Lead.clarification_count lead' = 0%nat
        /\ Lead.ai_intent lead' = Lead.ai_intent lead
        /\ (forall x, In x (DB.ai_drafts (Store.disk st')) ->
                      Draft.lead_id x = Lead.id lead -> Draft.user_id x = userId ->
                      Draft.status x <> "pending")
        /\ forall env user st2,
             (forall rules, rulesOf user !! governingIntent lead' = Some rules ->
                            (CadenceEnv.now env - now < delayMs rules)%Z) ->
             followUpLead env user lead' st2 = (st2, [])).
Proof.
  cbv zeta. unfold sendInitialEmail.
  destruct (truthy email_body) eqn:Hbody; simpl;
    [|split; [intros _; split; reflexivity|intros H; discriminate H]].
  destruct (maxAttachmentBytes <? fold_left Z.add sizes 0)%Z; simpl;
    [split; [intros _; split; reflexivity|intros H; discriminate H]|].
  destruct (findAt (ownsLeadNumbered userId id) (DB.leads (Store.disk st)))
    as [[i lead]|] eqn:Hfind; simpl;
    [|split; [intros _; split; reflexivity|intros H; discriminate H]].
  destruct (settingsOf userId (Store.disk st)) as [settings|]; simpl;
    [|split; [intros _; split; reflexivity|intros H; discriminate H]].
  destruct (truthy (Settings.email settings)); simpl;
    [|split; [intros _; split; reflexivity|intros H; discriminate H]].
  destruct (List.find _ (DB.users (Store.disk st))) as [user|]; simpl;
    [|split; [intros _; split; reflexivity|intros H; discriminate H]].
  destruct (sendEmailReturns settings ok); simpl;
    [|split; [intros _; split; reflexivity|intros H; discriminate H]].
  split; [intros H; contradiction|]. intros _.
  destruct (proj1 (findAt_some _ _ _ _) Hfind) as (Hidx & Hlk).
  exists i, lead, (markContacted now lead).
  split; [reflexivity|]. split; [reflexivity|]. split; [eexists; reflexivity|].
  split; [reflexivity|].
  split; [rewrite list_lookup_alter_eq, Hlk; reflexivity|].
  do 8 (split; [reflexivity|]).
  split.
  - intros x Hin. eapply dismissDrafts_none_pending.
    unfold dismissDrafts. simpl. exact Hin.
  - intros env owner st2 Hearly.
    apply (followUpLead_not_due env owner _ st2 now); [reflexivity|exact Hearly].
Qed.

End InitialEmailFacts.

(** ** Switching automatic mail off *)

Section ManualModeFacts.

Import Js Text.

Lemma followUpLead_manual env u lead st :
  User.auto_mode_enabled u = false -> snd (followUpLead env u lead st) = [].
Proof.
  intros Hoff.
  destruct (followUpLead_sent env u lead st) as [H | (_ & _ & ->)]; [exact H|].
  pose proof (dispatchFollowUp_sent env u lead (governingIntent lead)
                (Lead.follow_up_count lead) st) as Hd.
  cbv zeta in Hd. destruct Hd as [H | (body & _ & _ & Hauto & _)]; [exact H|].
  rewrite Hoff in Hauto. discriminate.
Qed.

Lemma followUpUser_manual env u st :
  User.auto_mode_enabled u = false -> snd (followUpUser env u st) = [].
Proof.
  intros Hoff. unfold followUpUser.
  destruct (List.find _ (DB.email_settings (Store.data st))) as [settings|]; [|reflexivity].
  destruct (negb (truthy (Settings.email settings))); [reflexivity|].
  generalize (List.filter (fun l => bool_decide (Lead.user_id l = User.id u))
                          (DB.leads (Store.data st))).
  intros leads.
  assert (H : forall acc : Store.t * list Mail.t,
             snd acc = [] ->
             snd (fold_left (fun acc lead =>
                               let '(st', sent') := followUpLead env u lead (fst acc) in
                               (st', snd acc ++ sent'))
                            leads acc) = []).
  { induction leads as [|lead leads IH]; intros acc Hacc; simpl; [exact Hacc|].
    apply IH.
    pose proof (followUpLead_manual env u lead (fst acc) Hoff) as Hl.
    destruct (followUpLead env u lead (fst acc)) as [st1 sent1]. simpl in *.
    rewrite Hacc, Hl. reflexivity. }
  specialize (H (st, []) eq_refl).
  destruct (fold_left _ leads (st, [])) as [st1 sent1]. exact H.
Qed.

(** The user object that the two settings routes leave in the file. *)
Lemma setAutoMode_user userId a b st st' :
  setAutoMode userId a b st = (st', Ok200) ->
  exists u0 u,
    List.find (fun u => bool_decide (User.id u = userId)) (DB.users (Store.disk st)) = Some u0
    /\ List.find (fun u => bool_decide (User.id u = userId)) (DB.users (Store.disk st'))
       = Some u
    /\ User.auto_mode_enabled u = default (User.auto_mode_enabled u0) a
    /\ User.auto_mode_include_objections u = default (User.auto_mode_include_objections u0) b
    /\ User.email_mode u = (if User.auto_mode_enabled u then "AUTO" else "MANUAL")
    /\ User.per_intent_settings u = User.per_intent_settings u0.
Proof.
  unfold setAutoMode. cbn [Store.read Store.data].
  destruct (findIndex _ (DB.users (Store.disk st))) as [k|] eqn:Hk; [|discriminate].
  intros [= <-].
  destruct (findIndex_lookup _ _ _ Hk) as (u0 & Hu0 & _).
  exists u0.
  exists ((fun u => Users.set_email_mode
                      (if User.auto_mode_enabled u then "AUTO" else "MANUAL") u)
            (match b with
             | Some v => Users.set_auto_mode_include_objections v
             | None => fun u => u
             end
               (match a with
                | Some v => Users.set_auto_mode_enabled v u0
                | None => u0
                end))).
  split; [exact (findIndex_find _ _ _ _ Hk Hu0)|].
  split.
  - apply (findIndex_find _ _ k).
    + destruct a, b; simpl; rewrite ?findIndex_alter; try exact Hk; intros y; reflexivity.
    + destruct a, b; simpl; rewrite ?list_lookup_alter_eq, Hu0; reflexivity.
  - destruct a, b; simpl; repeat split; reflexivity.
Qed.

Lemma setFollowUpRules_user userId rules mode st st' :
  setFollowUpRules userId rules mode st = (st', Ok200) ->
  truthy mode = true ->
  exists u0 u,
    List.find (fun u => bool_decide (User.id u = userId)) (DB.users (Store.disk st)) = Some u0
    /\ List.find (fun u => bool_decide (User.id u = userId)) (DB.users (Store.disk st'))
       = Some u
    /\ User.auto_mode_enabled u = bool_decide (mode = "AUTO")
    /\ User.email_mode u = mode
    /\ User.per_intent_settings u
       = match rules with Some r => Some r | None => User.per_intent_settings u0 end.
Proof.
  unfold setFollowUpRules. cbn [Store.read Store.data]. intros H Hmode. rewrite Hmode in H.
  destruct (findIndex _ (DB.users (Store.disk st))) as [k|] eqn:Hk; [|discriminate].
  injection H as <-.
  destruct (findIndex_lookup _ _ _ Hk) as (u0 & Hu0 & _).
  exists u0.
  exists (Users.set_auto_mode_enabled (bool_decide (mode = "AUTO"))
            (Users.set_email_mode mode
               (match rules with
                | Some r => Users.set_per_intent_settings (Some r) u0
                | None => u0
                end))).
  split; [exact (findIndex_find _ _ _ _ Hk Hu0)|].
  split.
  - apply (findIndex_find _ _ k).
    + destruct rules; simpl; rewrite ?findIndex_alter; try exact Hk; intros y; reflexivity.
    + destruct rules; simpl; rewrite ?list_lookup_alter_eq, Hu0; reflexivity.
  - destruct rules; simpl; repeat split; reflexivity.
Qed.

(** X22.  Switching a user to manual mode through either settings
    route stops every automatic mail of that user.  After
    [POST /api/settings/auto-mode] with [auto_mode_enabled: false], or
    [POST /api/settings/follow-up-rules] with an [email_mode] other than
    [AUTO], the file holds the user with [auto_mode_enabled] false and an
    [email_mode] that is not [AUTO]; no message makes the Gmail or the
    IMAP reply handler send, and a cadence sweep over that user sends
    nothing. *)
Theorem manual_mode_sends_nothing userId st st' :
  (exists include, setAutoMode userId (Some false) include st = (st', Ok200))
  \/ (exists rules mode,
        truthy mode = true /\ mode <> "AUTO"
        /\ setFollowUpRules userId rules mode st = (st', Ok200)) ->
  exists u,
    List.find (fun u => bool_decide (User.id u = userId)) (DB.users (Store.disk st')) = Some u
    /\ User.auto_mode_enabled u = false
    /\ User.email_mode u <> "AUTO"
    /\ (forall m env,
          ReplyResult.sent (processGmailMessage userId m env st') = []
          /\ ReplyResult.sent (processImapMessage userId m env st') = [])
    /\ (forall env st2, snd (followUpUser env u st2) = []).
Proof.
  intros Hroute.
  assert (Hu : exists u,
             List.find (fun u => bool_decide (User.id u = userId)) (DB.users (Store.disk st'))
             = Some u
             /\ User.auto_mode_enabled u = false /\ User.email_mode u <> "AUTO").
  { destruct Hroute as [[include H] | (rules & mode & Hmode & Hnot & H)].
    - destruct (setAutoMode_user _ _ _ _ _ H) as (u0 & u & _ & Hfind & Hauto & _ & Hm & _).
      exists u. simpl in Hauto. rewrite Hauto in Hm.
      split; [exact Hfind|]. split; [exact Hauto|]. rewrite Hm. discriminate.
    - destruct (setFollowUpRules_user _ _ _ _ _ H Hmode)
        as (u0 & u & _ & Hfind & Hauto & Hm & _).
      exists u. split; [exact Hfind|]. split.
      + rewrite Hauto. apply bool_decide_eq_false_2, Hnot.
      + rewrite Hm. exact Hnot. }
  destruct Hu as (u & Hfind & Hauto & Hm).
  exists u. split; [exact Hfind|]. split; [exact Hauto|]. split; [exact Hm|]. split.
  - intros m env.
    assert (Hno : forall gmail mail, ~ answeredBy gmail userId m env (Store.disk st') mail).
    { intros gmail mail (i & lead & u' & _ & _ & Hfind' & Hmode & _).
      rewrite Hfind in Hfind'. injection Hfind' as <-.
      unfold autoModeOf in Hmode. rewrite Hauto in Hmode.
      rewrite (bool_decide_eq_false_2 _ Hm) in Hmode. destruct gmail; discriminate. }
    destruct (handlers_answer userId m env st') as [Hg Hi]. cbv zeta in Hg, Hi.
    split.
    + destruct Hg as [Hg | (mail & _ & Hans)]; [exact Hg|]. destruct (Hno _ _ Hans).
    + destruct Hi as [Hi | (mail & _ & Hans)]; [exact Hi|]. destruct (Hno _ _ Hans).
  - intros env st2. apply followUpUser_manual, Hauto.
Qed.

Lemma manual_mode_sends_nothing_witness :
  let st' := fst (setAutoMode 1 (Some false) None (Sample.storeOf Sample.owner Sample.alice)) in
  exists u,
    List.find (fun u => bool_decide (User.id u = 1%Z)) (DB.users (Store.disk st')) = Some u
    /\ User.auto_mode_enabled u = false
    /\ User.email_mode u <> "AUTO"
    /\ (forall m env,
          ReplyResult.sent (processGmailMessage 1 m env st') = []
          /\ ReplyResult.sent (processImapMessage 1 m env st') = [])
    /\ (forall env st2, snd (followUpUser env u st2) = []).
Proof.
  apply (manual_mode_sends_nothing 1 (Sample.storeOf Sample.owner Sample.alice)).
  left. exists None. reflexivity.
Defined.

End ManualModeFacts.

Section LeadOptOutFacts.

Import Js Text.

(** X23.  A lead taken out of auto-send gets no automatic reply.
    After [PATCH /api/leads/:id/auto-send] with [auto_send_enabled: false]
    answered 200, and the ids of the leads being distinct, neither reply
    handler sends anything for a message that it attributes to that lead,
    whatever the classifier, the model and the mode of the owner are. *)
Theorem lead_opt_out_stops_automatic_replies userId n now st st' :
  NoDup (Lead.id <$> DB.leads (Store.disk st)) ->
  setLeadAutoSend userId (Some n) (Some false) now st = (st', Ok200) ->
  forall m env i lead,
    findIndex (matchesLead userId (Inbound.from m)) (DB.leads (Store.disk st')) = Some i ->
    DB.leads (Store.disk st') !! i = Some lead ->
    Lead.id lead = n ->
    Lead.auto_send_enabled lead = Some false
    /\ ReplyResult.sent (processGmailMessage userId m env st') = []
    /\ ReplyResult.sent (processImapMessage userId m env st') = [].
Proof.
  intros Hnd. unfold setLeadAutoSend. cbn [Store.read Store.data].
  destruct (findIndex _ (DB.leads (Store.disk st))) as [j|] eqn:Hj; [|discriminate].
  intros [= <-]. simpl. intros m env i lead Hi Hlead Hid.
  destruct (findIndex_lookup _ _ _ Hj) as (l0 & Hl0 & Hown).
  unfold ownsLeadNumbered in Hown. apply andb_true_iff in Hown as [Hn _].
  apply bool_decide_eq_true_1 in Hn. injection Hn as Hn.
  set (leads' := alter (Lead.set_updated_at (Some now))
                       j (alter (Leads.set_auto_send_enabled (Some false)) j
                                (DB.leads (Store.disk st)))) in *.
  assert (Hj' : leads' !! j
                = Some (Lead.set_updated_at (Some now)
                          (Leads.set_auto_send_enabled (Some false) l0))).
  { unfold leads'. rewrite !list_lookup_alter_eq, Hl0. reflexivity. }
  assert (Hnd' : NoDup (Lead.id <$> leads')).
  { unfold leads'. rewrite !fmap_alter_keeps by (intros l; reflexivity). exact Hnd. }
  assert (Hij : i = j).
  { apply (lookup_by_key Lead.id leads' i j _ _ Hnd' Hlead Hj').
    simpl. rewrite Hid, Hn. reflexivity. }
  subst i. rewrite Hj' in Hlead. injection Hlead as <-.
  split; [reflexivity|].
  match goal with
  | |- context [processGmailMessage userId m env ?s] => set (st' := s)
  end.
  assert (Hno : forall gmail mail, ~ answeredBy gmail userId m env (Store.disk st') mail).
  { intros gmail mail (i' & lead' & u' & Hi' & Hlead' & _ & _ & Hopt & _).
    simpl in Hi', Hlead'. fold leads' in Hi', Hlead'.
    rewrite Hi in Hi'. injection Hi' as <-.
    rewrite Hj' in Hlead'. injection Hlead' as <-.
    apply Hopt. reflexivity. }
  destruct (handlers_answer userId m env st') as [Hg Him]. cbv zeta in Hg, Him.
  split.
  - destruct Hg as [Hg | (mail & _ & Hans)]; [exact Hg|]. destruct (Hno _ _ Hans).
  - destruct Him as [Him | (mail & _ & Hans)]; [exact Him|]. destruct (Hno _ _ Hans).
Qed.

Lemma lead_opt_out_stops_automatic_replies_witness :
  let st' := fst (setLeadAutoSend 1 (Some 7%Z) (Some false) 5
                    (Sample.storeOf Sample.owner Sample.alice)) in
  ReplyResult.sent (processGmailMessage 1 Sample.objection Sample.objectionEnv st') = []
  /\ ReplyResult.sent (processImapMessage 1 Sample.objection Sample.objectionEnv st') = [].
Proof.
  refine (proj2 (lead_opt_out_stops_automatic_replies 1 7 5
                   (Sample.storeOf Sample.owner Sample.alice)
                   (fst (setLeadAutoSend 1 (Some 7%Z) (Some false) 5
                           (Sample.storeOf Sample.owner Sample.alice)))
                   _ eq_refl Sample.objection Sample.objectionEnv 0%nat
                   (Lead.set_updated_at (Some 5%Z)
                      (Leads.set_auto_send_enabled (Some false) Sample.alice))
                   eq_refl eq_refl eq_refl)).
  apply (bool_decide_unpack _). vm_compute. exact I.
Defined.

End LeadOptOutFacts.

(** ** The draft routes *)

Section BulkFacts.

Import Js Text.

Lemma imap_pair_fst {A} (xs : list A) : fst <$> imap pair xs = seq 0 (length xs).
Proof.
  rewrite fmap_imap. rewrite (imap_ext _ (fun j _ => j)) by reflexivity.
  rewrite (imap_seq_0 xs (fun j => j)). apply list_fmap_id.
Qed.

Lemma imap_pair_filter {A} (p : A -> bool) (g : nat -> nat) (xs : list A) :
  snd <$> List.filter (fun kx => p (snd kx)) (imap (fun i x => (g i, x)) xs)
  = List.filter p xs.
Proof.
  revert g. induction xs as [|x xs IH]; intros g; simpl; [reflexivity|].
  destruct (p x); simpl; [f_equal|]; apply (IH (fun i => g (S i))).
Qed.

Lemma filter_alter_length {A} (p : A -> bool) (f : A -> A) (xs : list A) k x :
  xs !! k = Some x -> p x = true -> p (f x) = false ->
  (length (List.filter p (alter f k xs)) + 1 = length (List.filter p xs))%nat.
Proof.
  revert k. induction xs as [|y xs IH]; intros [|k]; simpl; try discriminate.
  - intros [= ->] Hx Hfx. rewrite Hx, Hfx. simpl. lia.
  - intros Hk Hx Hfx. specialize (IH k Hk Hx Hfx). unfold alter in IH.
    destruct (p y); simpl; lia.
Qed.

Lemma filter_alter_same {A} (p : A -> bool) (f : A -> A) (xs : list A) k :
  (forall y, p (f y) = p y) ->
  length (List.filter p (alter f k xs)) = length (List.filter p xs).
Proof.
  intros Hp. revert k. induction xs as [|y xs IH]; intros [|k]; simpl; try reflexivity.
  - rewrite Hp. destruct (p y); reflexivity.
  - specialize (IH k). unfold alter in IH. destruct (p y); simpl; rewrite IH; reflexivity.
Qed.

Variables (userId : Z) (sendEmail_ok : nat -> bool) (now : Z).


Lemma pendingDraftsOf_member d k x :
  (k, x) ∈ pendingDraftsOf userId d -> DB.ai_drafts d !! k = Some x /\ pendingFor userId x = true.
Proof.
  unfold pendingDraftsOf. intros H. apply list_elem_of_In, filter_In in H as [Hin Hp].
  apply list_elem_of_In, elem_of_lookup_imap_1 in Hin as (i & y & [= -> ->] & Hy).
  split; [exact Hy | exact Hp].
Qed.

Lemma pendingDraftsOf_NoDup d : NoDup (fst <$> pendingDraftsOf userId d).
Proof.
  apply (sublist_NoDup _ (fst <$> imap pair (DB.ai_drafts d))).
  - rewrite imap_pair_fst. apply NoDup_seq.
  - apply fmap_sublist. unfold pendingDraftsOf.
    induction (imap pair (DB.ai_drafts d)) as [|y l IH]; simpl; [constructor|].
    destruct (_ && _); [apply sublist_skip | apply sublist_cons]; exact IH.
Qed.

Lemma pendingDraftsOf_length d :
  length (pendingDraftsOf userId d) = length (List.filter (pendingFor userId) (DB.ai_drafts d)).
Proof.
  rewrite <- (imap_pair_filter (pendingFor userId) (fun i => i) (DB.ai_drafts d)).
  rewrite length_fmap. reflexivity.
Qed.

Section BulkLoop.

Variables (user : option User.t) (settings : Settings.t).

(** One turn of the loop: it throws, or counts a failure or a skip and
    leaves everything else alone, or sends one mail and marks its draft. *)
Lemma bulkStep_spec r k x :
  Bulk.crashed r = false ->
  let r1 := bulkStep sendEmail_ok now user settings r (k, x) in
  (Bulk.crashed r1 = true /\ user = None /\ Bulk.store r1 = Bulk.store r
   /\ Bulk.mails r1 = Bulk.mails r /\ Bulk.sent r1 = Bulk.sent r)
  \/ (Bulk.crashed r1 = false /\ Bulk.store r1 = Bulk.store r
      /\ Bulk.mails r1 = Bulk.mails r /\ Bulk.sent r1 = Bulk.sent r
      /\ (Bulk.failed r1 + Bulk.skipped r1 = Bulk.failed r + Bulk.skipped r + 1)%nat)
  \/ (Bulk.crashed r1 = false
      /\ Bulk.sent r1 = (Bulk.sent r + 1)%nat
      /\ Bulk.failed r1 = Bulk.failed r /\ Bulk.skipped r1 = Bulk.skipped r
      /\ (exists i lead,
            findAt (fun l => bool_decide (Lead.id l = Draft.lead_id x))
                   (DB.leads (Store.data (Bulk.store r))) = Some (i, lead)
            /\ Bulk.mails r1
               = Bulk.mails r ++ [Mail.mk (Lead.email lead) "Re: Following up"
                                    (Draft.draft_body x) (Lead.id lead)])
      /\ Store.disk (Bulk.store r1) = Store.disk (Bulk.store r)
      /\ DB.email_settings (Store.data (Bulk.store r1))
         = DB.email_settings (Store.data (Bulk.store r))
      /\ DB.ai_drafts (Store.data (Bulk.store r1))
         = alter (Drafts.set_sent_at (Some now)) k
             (alter (Draft.set_status "sent") k
                (DB.ai_drafts (Store.data (Bulk.store r))))
      /\ (Draft.ai_intent x = "OBJECTION" ->
          exists u, user = Some u /\ User.auto_mode_include_objections u = true)).
Proof.
  intros Hlive. cbv zeta. unfold bulkStep. rewrite Hlive.
  destruct (findAt _ (DB.leads (Store.data (Bulk.store r)))) as [[i lead]|] eqn:Hlead.
  2:{ right. left. simpl. repeat split; lia. }
  assert (Hsend : forall gate : Draft.ai_intent x = "OBJECTION" ->
                                exists u, user = Some u
                                          /\ User.auto_mode_include_objections u = true,
    let r1 := bulkSendOne sendEmail_ok now settings k x i lead r in
    (Bulk.crashed r1 = false /\ Bulk.store r1 = Bulk.store r
     /\ Bulk.mails r1 = Bulk.mails r /\ Bulk.sent r1 = Bulk.sent r
     /\ (Bulk.failed r1 + Bulk.skipped r1 = Bulk.failed r + Bulk.skipped r + 1)%nat)
    \/ (Bulk.crashed r1 = false
        /\ Bulk.sent r1 = (Bulk.sent r + 1)%nat
        /\ Bulk.failed r1 = Bulk.failed r /\ Bulk.skipped r1 = Bulk.skipped r
        /\ (exists i' lead',
              Some (i, lead) = Some (i', lead')
              /\ Bulk.mails r1
                 = Bulk.mails r ++ [Mail.mk (Lead.email lead') "Re: Following up"
                                      (Draft.draft_body x) (Lead.id lead')])
        /\ Store.disk (Bulk.store r1) = Store.disk (Bulk.store r)
        /\ DB.email_settings (Store.data (Bulk.store r1))
           = DB.email_settings (Store.data (Bulk.store r))
        /\ DB.ai_drafts (Store.data (Bulk.store r1))
           = alter (Drafts.set_sent_at (Some now)) k
               (alter (Draft.set_status "sent") k
                  (DB.ai_drafts (Store.data (Bulk.store r))))
        /\ (Draft.ai_intent x = "OBJECTION" ->
            exists u, user = Some u /\ User.auto_mode_include_objections u = true))).
  { intros gate. cbv zeta. unfold bulkSendOne.
    destruct (sendEmailReturns settings (sendEmail_ok k)).
    - right. simpl. split; [reflexivity|]. split; [reflexivity|]. split; [reflexivity|].
      split; [reflexivity|]. split; [exists i, lead; split; reflexivity|].
      split; [reflexivity|]. split; [reflexivity|]. split; [reflexivity|]. exact gate.
    - left. simpl. repeat split; lia. }
  destruct (bool_decide (Draft.ai_intent x = "OBJECTION")) eqn:Hobj.
  - destruct user as [u|].
    + destruct (User.auto_mode_include_objections u) eqn:Hinc; simpl.
      * right. apply Hsend. intros _. exists u. split; [reflexivity | exact Hinc].
      * right. left. simpl. repeat split; lia.
    + left. simpl. repeat split; reflexivity.
  - right. apply Hsend. intros E. apply bool_decide_eq_false_1 in Hobj. contradiction.
Qed.

Lemma bulk_loop_crashed rest r :
  Bulk.crashed r = true -> fold_left (bulkStep sendEmail_ok now user settings) rest r = r.
Proof.
  intros Hc. induction rest as [|[k x] rest IH]; simpl; [reflexivity|].
  rewrite Hc. exact IH.
Qed.

(** The loop, from any state that did not throw: every draft still to be
    processed is as the loop found it; a draft that is not pending, or is
    an objection of a user who did not opt objections in, is never
    touched; each mail carries the body of another draft of the list. *)
Lemma bulk_loop (xs0 : list Draft.t) rest r :
  Bulk.crashed r = false ->
  NoDup (fst <$> rest) ->
  (forall k x, (k, x) ∈ rest ->
               DB.ai_drafts (Store.data (Bulk.store r)) !! k = Some x
               /\ pendingFor userId x = true /\ xs0 !! k = Some x) ->
  length (Bulk.mails r) = Bulk.sent r ->
  (forall j y, xs0 !! j = Some y ->
               pendingFor userId y = false
               \/ (Draft.ai_intent y = "OBJECTION"
                   /\ exists u, user = Some u /\ User.auto_mode_include_objections u = false) ->
               DB.ai_drafts (Store.data (Bulk.store r)) !! j = Some y) ->
  let r' := fold_left (bulkStep sendEmail_ok now user settings) rest r in
  length (Bulk.mails r') = Bulk.sent r'
  /\ Store.disk (Bulk.store r') = Store.disk (Bulk.store r)
  /\ DB.email_settings (Store.data (Bulk.store r'))
     = DB.email_settings (Store.data (Bulk.store r))
  /\ (forall j y, xs0 !! j = Some y ->
                  pendingFor userId y = false
                  \/ (Draft.ai_intent y = "OBJECTION"
                      /\ exists u, user = Some u
                                   /\ User.auto_mode_include_objections u = false) ->
                  DB.ai_drafts (Store.data (Bulk.store r')) !! j = Some y)
  /\ (exists ds,
        sublist ds rest
        /\ Mail.body <$> Bulk.mails r'
           = (Mail.body <$> Bulk.mails r) ++ ((fun kx => Draft.draft_body (snd kx)) <$> ds))
  /\ (Bulk.crashed r' = true -> user = None)
  /\ (Bulk.crashed r' = false ->
      (Bulk.sent r' + Bulk.failed r' + Bulk.skipped r'
       = Bulk.sent r + Bulk.failed r + Bulk.skipped r + length rest)%nat
      /\ (length (List.filter (pendingFor userId) (DB.ai_drafts (Store.data (Bulk.store r')))) + Bulk.sent r'
          = length (List.filter (pendingFor userId) (DB.ai_drafts (Store.data (Bulk.store r))))
            + Bulk.sent r)%nat).
Proof.
  revert r. induction rest as [|[k x] rest IH]; intros r Hlive Hnd Hrest Hmails Hgate.
  - simpl. split; [exact Hmails|]. split; [reflexivity|]. split; [reflexivity|].
    split; [exact Hgate|].
    split; [exists []; split; [constructor | rewrite app_nil_r; reflexivity]|].
    split; [rewrite Hlive; discriminate|]. intros _. split; lia.
  - cbv zeta. cbn [fold_left].
    set (r1 := bulkStep sendEmail_ok now user settings r (k, x)).
    destruct (Hrest k x (list_elem_of_here _ _)) as (Hk & Hpend & Hk0).
    simpl in Hnd. apply NoDup_cons in Hnd as [Hfresh Hnd].
    assert (Hother : forall k' x', (k', x') ∈ rest -> k' <> k).
    { intros k' x' Hin ->. apply Hfresh.
      apply list_elem_of_fmap. exists (k, x'). split; [reflexivity | exact Hin]. }
    pose proof (bulkStep_spec r k x Hlive) as Hstep. cbv zeta in Hstep. fold r1 in Hstep.
    destruct Hstep
      as [(Hc & Hnone & Hst & Hm & Hs)
         | [(Hc & Hst & Hm & Hs & Hcount)
           | (Hc & Hs & Hf & Hsk & (i & lead & _ & Hm) & Hdisk & Hset & Hdrafts & Hobj)]].
    + rewrite (bulk_loop_crashed rest _ Hc).
      rewrite Hm, Hs, Hst, Hc. split; [exact Hmails|]. split; [reflexivity|].
      split; [reflexivity|]. split; [exact Hgate|].
      split; [exists []; split; [apply sublist_nil_l | rewrite app_nil_r; reflexivity]|].
      split; [intros _; exact Hnone | discriminate].
    + specialize (IH _ Hc Hnd). cbv zeta in IH.
      rewrite Hst, Hm, Hs in IH.
      destruct IH as (H1 & H2 & H2' & H3 & (ds & Hsub & Hbodies) & H4 & H5); auto.
      { intros k' x' Hin. apply Hrest, list_elem_of_further, Hin. }
      split; [exact H1|]. split; [exact H2|]. split; [exact H2'|]. split; [exact H3|].
      split; [exists ds; split; [apply sublist_cons, Hsub | exact Hbodies]|].
      split; [exact H4|].
      intros Hc'. destruct (H5 Hc') as [H5a H5b]. simpl. split; lia.
    + specialize (IH _ Hc Hnd). cbv zeta in IH.
      rewrite Hdisk, Hset, Hdrafts, Hm, Hs, Hf, Hsk in IH.
      destruct IH as (H1 & H2 & H2' & H3 & (ds & Hsub & Hbodies) & H4 & H5).
      { intros k' x' Hin.
        destruct (Hrest k' x' (list_elem_of_further _ _ _ Hin)) as (Ha & Hb & Hc0).
        split; [|auto].
        rewrite !list_lookup_alter_ne by (apply not_eq_sym, (Hother k' x' Hin)).
        exact Ha. }
      { rewrite length_app. simpl. lia. }
      { intros j y Hj Hkept.
        destruct (decide (j = k)) as [->|Hjk].
        - rewrite Hk0 in Hj. injection Hj as <-.
          destruct Hkept as [Hnp | (Hy & u & Hu & Hinc)].
          + rewrite Hpend in Hnp. discriminate.
          + destruct (Hobj Hy) as (u' & Hu' & Hinc').
            rewrite Hu in Hu'. injection Hu' as <-. rewrite Hinc in Hinc'. discriminate.
        - rewrite !list_lookup_alter_ne by (apply not_eq_sym, Hjk).
          exact (Hgate j y Hj Hkept). }
      split; [exact H1|]. split; [exact H2|]. split; [exact H2'|]. split; [exact H3|].
      split.
      { exists ((k, x) :: ds). split; [apply sublist_skip, Hsub|].
        rewrite Hbodies, fmap_app, <- app_assoc. reflexivity. }
      split; [exact H4|].
      intros Hc'. destruct (H5 Hc') as [H5a H5b]. simpl.
      assert (Hdrop : (length (List.filter (pendingFor userId)
                                 (alter (Drafts.set_sent_at (Some now)) k
                                    (alter (Draft.set_status "sent") k
                                       (DB.ai_drafts (Store.data (Bulk.store r)))))) + 1
                       = length (List.filter (pendingFor userId)
                                   (DB.ai_drafts (Store.data (Bulk.store r)))))%nat).
      { rewrite filter_alter_same by (intros y; reflexivity).
        apply (filter_alter_length (pendingFor userId) _ _ k x Hk Hpend).
        unfold pendingFor. simpl. rewrite andb_false_r. reflexivity. }
      split; lia.
Qed.

End BulkLoop.

(** X24.  [POST /api/drafts/bulk-send] with [send_all] accounts for
    every pending draft of the user once.  When it answers with counts,
    sent, failed and skipped add up to the [pending_count] that the same
    request without [send_all] reports; one mail went out per draft
    counted as sent, each with the body of another pending draft of the
    user; the drafts sent are pending no more, so that the count reported
    afterwards is failed plus skipped and a second bulk send cannot send
    a draft again.  A draft that was not pending (rejected or sent
    before), a draft of another user, and, when the user did not opt
    objections in, every OBJECTION draft is in the file as it was.  The
    handler throws only when the user object is missing, and then writes
    nothing. *)
Theorem bulk_send_accounts_for_every_draft st :
  let out := bulkSend userId true sendEmail_ok now st in
  let st' := fst (fst out) in
  match snd out with
  | BulkSent s f k =>
      snd (bulkSend userId false sendEmail_ok now st) = PendingCount (s + f + k)
      /\ length (snd (fst out)) = s
      /\ (exists ds,
            sublist ds (pendingDraftsOf userId (Store.disk st))
            /\ Mail.body <$> snd (fst out) = (fun kx => Draft.draft_body (snd kx)) <$> ds)
      /\ (forall ok' now', snd (bulkSend userId false ok' now' st') = PendingCount (f + k))
      /\ (forall j y,
            DB.ai_drafts (Store.disk st) !! j = Some y ->
            Draft.user_id y <> userId
            \/ Draft.status y <> "pending"
            \/ (Draft.ai_intent y = "OBJECTION"
                /\ exists u,
                     List.find (fun u => bool_decide (User.id u = userId))
                               (DB.users (Store.disk st)) = Some u
                     /\ User.auto_mode_include_objections u = false) ->
            DB.ai_drafts (Store.disk st') !! j = Some y)
  | BulkCrashed =>
      List.find (fun u => bool_decide (User.id u = userId)) (DB.users (Store.disk st)) = None
      /\ Store.disk st' = Store.disk st
  | NotConfigured =>
      snd (fst out) = [] /\ Store.disk st' = Store.disk st
      /\ snd (bulkSend userId false sendEmail_ok now st) = NotConfigured
  | PendingCount _ => False
  end.
Proof.
  cbv zeta. unfold bulkSend. cbn [Store.read Store.data Store.disk].
  destruct (settingsOf userId (Store.disk st)) as [settings0|] eqn:Hset;
    [|simpl; auto].
  destruct (bool_decide (Settings.provider settings0 = "gmail")) eqn:Hprov;
    [|simpl; auto].
  cbn [negb].
  set (user0 := List.find _ (DB.users (Store.disk st))).
  set (r0 := Bulk.mk (Store.read st) [] 0 0 0 false).
  pose proof (bulk_loop user0 settings0 (DB.ai_drafts (Store.disk st))
                (pendingDraftsOf userId (Store.disk st)) r0 eq_refl
                (pendingDraftsOf_NoDup (Store.disk st))) as Hloop.
  cbv zeta in Hloop.
  destruct Hloop as (Hmails & Hdisk & Hsettings & Hgate & (ds & Hsub & Hbodies) & Hcrash & Hcount).
  { intros k x Hin. destruct (pendingDraftsOf_member _ _ _ Hin) as [Hk Hp]. auto. }
  { reflexivity. }
  { intros j y Hj _. exact Hj. }
  set (r := fold_left _ _ r0) in *.
  destruct (Bulk.crashed r) eqn:Hc; cbn [fst snd].
  - split; [exact (Hcrash eq_refl) | exact Hdisk].
  - destruct (Hcount eq_refl) as [Hsum Hleft]. simpl in Hsum, Hleft.
    split; [f_equal; lia|]. split; [exact Hmails|].
    split; [exists ds; split; [exact Hsub | exact Hbodies]|].
    split.
    + intros ok' now'. cbn [Store.write Store.disk Store.data].
      unfold settingsOf in *. rewrite Hsettings. simpl. rewrite Hset, Hprov. simpl.
      f_equal. rewrite pendingDraftsOf_length.
      rewrite pendingDraftsOf_length in Hsum. lia.
    + intros j y Hj Hkept. apply (Hgate j y Hj).
      destruct Hkept as [Hu | [Hs | Hobj]].
      * left. unfold pendingFor. rewrite (bool_decide_eq_false_2 _ Hu). reflexivity.
      * left. unfold pendingFor. rewrite (bool_decide_eq_false_2 _ Hs). apply andb_false_r.
      * right. exact Hobj.
Qed.

(** X25.  [POST /api/drafts/:id/reject] answers 200 whether or not
    the draft exists.  A draft of the user that it finds is [rejected] in
    the file afterwards, whatever its status was; the [pending_count] of
    the bulk route drops by one when that draft was pending and is as
    before otherwise.  When no draft of the user carries the id the file
    is as before. *)
Theorem reject_takes_one_draft_off_the_queue (id : option Z) (st : Store.t) :
  let out := rejectDraft userId id st in
  let st' := fst out in
  snd out = Ok200
  /\ match findAt (ownsDraftNumbered userId id) (DB.ai_drafts (Store.disk st)) with
     | None => Store.disk st' = Store.disk st
     | Some (k, x) =>
         DB.ai_drafts (Store.disk st') !! k = Some (Draft.set_status "rejected" x)
         /\ (forall j, j <> k ->
               DB.ai_drafts (Store.disk st') !! j = DB.ai_drafts (Store.disk st) !! j)
         /\ (length (pendingDraftsOf userId (Store.disk st'))
             + (if bool_decide (Draft.status x = "pending") then 1 else 0)
             = length (pendingDraftsOf userId (Store.disk st)))%nat
         /\ forall n,
              snd (bulkSend userId false sendEmail_ok now st) = PendingCount n ->
              snd (bulkSend userId false sendEmail_ok now st')
              = PendingCount (n - (if bool_decide (Draft.status x = "pending") then 1 else 0))
     end.
Proof.
  cbv zeta. unfold rejectDraft, findAt. cbn [Store.read Store.data Store.disk].
  destruct (findIndex (ownsDraftNumbered userId id) (DB.ai_drafts (Store.disk st)))
    as [k|] eqn:Hk; [|split; reflexivity].
  destruct (findIndex_lookup _ _ _ Hk) as (x & Hx & Hown).
  rewrite Hx. simpl. split; [reflexivity|].
  apply andb_true_iff in Hown as [_ Huser].
  assert (Hlen : (length (pendingDraftsOf userId
                            (DB.set_ai_drafts
                               (alter (Draft.set_status "rejected") k
                                      (DB.ai_drafts (Store.disk st))) (Store.disk st)))
                  + (if bool_decide (Draft.status x = "pending") then 1 else 0)
                  = length (pendingDraftsOf userId (Store.disk st)))%nat).
  { rewrite !pendingDraftsOf_length. simpl.
    destruct (bool_decide (Draft.status x = "pending")) eqn:Hp.
    - apply (filter_alter_length (pendingFor userId) _ _ k x Hx).
      + unfold pendingFor. rewrite Huser, Hp. reflexivity.
      + unfold pendingFor. simpl. apply andb_false_r.
    - rewrite Nat.add_0_r.
      assert (Hsame : forall xs j y,
                 xs !! j = Some y -> pendingFor userId y = false ->
                 length (List.filter (pendingFor userId) (alter (Draft.set_status "rejected") j xs))
                 = length (List.filter (pendingFor userId) xs)).
      { induction xs as [|z xs IHxs]; intros [|j] y; simpl; try discriminate.
        - intros [= ->] Hy. rewrite Hy. unfold pendingFor at 1. simpl.
          rewrite andb_false_r. reflexivity.
        - intros Hj Hy. specialize (IHxs j y Hj Hy). unfold alter in IHxs.
          destruct (pendingFor userId z); simpl; rewrite IHxs; reflexivity. }
      apply (Hsame _ k x Hx). unfold pendingFor. rewrite Hp. apply andb_false_r. }
  split; [rewrite list_lookup_alter_eq, Hx; reflexivity|].
  split; [intros j Hj; apply list_lookup_alter_ne; congruence|].
  split; [exact Hlen|].
  intros n. unfold bulkSend. cbn [Store.read Store.data Store.disk].
  unfold settingsOf. simpl.
  destruct (List.find _ (DB.email_settings (Store.disk st))) as [settings0|];
    [|discriminate].
  destruct (negb (bool_decide (Settings.provider settings0 = "gmail"))); [discriminate|].
  simpl. intros [= <-]. f_equal. lia.
Qed.

End BulkFacts.

Section ManualSendFacts.

Import Js Text.

(** X26.  [POST /api/drafts/:id/send] either fails, and then no
    mail goes out and the file is as before, or answers 200 after one
    mail to the lead of the draft, with the edited body if there is one
    and the body of the draft otherwise.  The draft is then [sent] and
    the lead [replied], with its clarification counter at 0; the send is
    not counted as a follow-up: attempt counter, date of the last mail
    and intent of the lead are as before.  The human-takeover guard and
    the closed-status guard of the cadence no longer hold for the lead,
    the other four guards are as before: a closed lead that is answered
    by hand is followed up again. *)
Theorem manual_send_keeps_the_cadence userId id edited_body ok now st :
  let out := sendDraft userId id edited_body ok now st in
  let st' := fst (fst out) in
  let mails := snd (fst out) in
  (snd out <> Ok200 -> mails = [] /\ Store.disk st' = Store.disk st)
  /\ (snd out = Ok200 ->
      exists k draft i lead lead',
        findAt (ownsDraftNumbered userId id) (DB.ai_drafts (Store.disk st)) = Some (k, draft)
        /\ findAt (fun l => bool_decide (Lead.id l = Draft.lead_id draft))
                  (DB.leads (Store.disk st)) = Some (i, lead)
        /\ mails = [Mail.mk (Lead.email lead) (draftSubject lead)
                      (or_else edited_body (Draft.draft_body draft)) (Lead.id lead)]
        /\ Draft.status <$> DB.ai_drafts (Store.disk st') !! k = Some "sent"
        /\ DB.leads (Store.disk st') !! i = Some lead'
        /\ Lead.status lead' = "replied"
        /\ Lead.clarification_count lead' = 0%nat
        /\ Lead.follow_up_count lead' = Lead.follow_up_count lead
        /\ lastEmailDate lead' = lastEmailDate lead
        /\ governingIntent lead' = governingIntent lead
        /\ forall env user,
             skipsLead env user lead'
             = notContacted lead || Lead.follow_up_paused lead || inActiveSequence lead
               || sequenceJustEnded (CadenceEnv.now env) (rulesOf user) lead).
Proof.
  cbv zeta. unfold sendDraft. cbn [Store.read Store.data Store.disk].
  destruct (findAt (ownsDraftNumbered userId id) (DB.ai_drafts (Store.disk st)))
    as [[k draft]|] eqn:Hdraft.
  2:{ destruct (DB.leads (Store.disk st)); simpl;
        (split; [intros _; split; reflexivity | intros H; discriminate H]). }
  destruct (settingsOf userId (Store.disk st)) as [settings|]; simpl;
    [|split; [intros _; split; reflexivity | intros H; discriminate H]].
  destruct (findAt _ (DB.leads (Store.disk st))) as [[i lead]|] eqn:Hlead; simpl;
    [|split; [intros _; split; reflexivity | intros H; discriminate H]].
  destruct (sendEmailReturns settings ok); simpl;
    [|split; [intros _; split; reflexivity | intros H; discriminate H]].
  split; [intros H; contradiction|]. intros _.
  destruct (proj1 (findAt_some _ _ _ _) Hdraft) as [_ Hk].
  destruct (proj1 (findAt_some _ _ _ _) Hlead) as [_ Hi].
  exists k, draft, i, lead, (markReplied lead).
  split; [reflexivity|]. split; [exact Hlead|]. split; [reflexivity|].
  split; [rewrite !list_lookup_alter_eq, Hk; reflexivity|].
  split; [rewrite list_lookup_alter_eq, Hi; reflexivity|].
  do 5 (split; [reflexivity|]).
  intros env user. unfold skipsLead, humanTookOver, closedOrCustomer. simpl.
  rewrite !orb_false_r. reflexivity.
Qed.

End ManualSendFacts.

(** ** Lead creation *)

Section ImportFacts.

Import Js Text.

Lemma numbered_push userId x d :
  numbered (DB.leads d) -> numbered (DB.leads (pushLead userId x d)).
Proof.
  intros Hn i l. unfold pushLead. simpl. intros Hl.
  apply lookup_app_Some in Hl as [Hl | [Hlen Hl]]; [exact (Hn i l Hl)|].
  destruct (i - length (DB.leads d))%nat as [|j] eqn:Hj; [|discriminate].
  injection Hl as <-. simpl. f_equal. f_equal. lia.
Qed.

Lemma numbered_NoDup (leads : list Lead.t) : numbered leads -> NoDup (Lead.id <$> leads).
Proof.
  intros Hn. apply NoDup_alt. intros i j z Hi Hj.
  rewrite list_lookup_fmap in Hi, Hj.
  destruct (leads !! i) as [li|] eqn:Eli; [|discriminate].
  destruct (leads !! j) as [lj|] eqn:Elj; [|discriminate].
  simpl in Hi, Hj. injection Hi as Hi. injection Hj as Hj.
  rewrite (Hn i li Eli) in Hi. rewrite (Hn j lj Elj) in Hj. lia.
Qed.

(** The loop of the import: the leads stored before stay in front, one
    lead is appended per row that has an address. *)
Lemma import_loop userId (rows : list LeadInput) (d : DB.t) (c : ImportCount) :
  numbered (DB.leads d) ->
  let r := fold_left (importOne userId) rows (d, c) in
  numbered (DB.leads (fst r))
  /\ (success (snd r) + failed (snd r) = success c + failed c + length rows)%nat
  /\ (failed (snd r)
      = failed c + length (List.filter (fun x => negb (truthy (input_email x))) rows))%nat
  /\ exists new,
       DB.leads (fst r) = DB.leads d ++ new
       /\ (success (snd r) = success c + length new)%nat
       /\ Forall (fun l => Lead.user_id l = userId /\ Lead.status l = "new"
                           /\ Lead.ai_intent l = None /\ notContacted l = true
                           /\ isEnrolled l = false) new.
Proof.
  revert d c. induction rows as [|x rows IH]; intros d c Hn; cbv zeta.
  - simpl. split; [exact Hn|]. split; [lia|]. split; [lia|].
    exists []. rewrite app_nil_r. split; [reflexivity|]. split; [simpl; lia | constructor].
  - cbn [fold_left].
    replace (importOne userId (d, c) x)
      with (if truthy (input_email x)
            then (pushLead userId x d, {| success := success c + 1; failed := failed c |})
            else (d, {| success := success c; failed := failed c + 1 |}))
      by (unfold importOne; destruct (truthy (input_email x)); reflexivity).
    destruct (truthy (input_email x)) eqn:Hx.
    + specialize (IH (pushLead userId x d)
                     {| success := success c + 1; failed := failed c |}
                     (numbered_push userId x d Hn)).
      cbv zeta in IH. destruct IH as (H1 & H2 & H3 & new & H4 & H5 & H6).
      split; [exact H1|]. cbn [success failed] in *.
      split; [simpl; lia|]. split; [simpl; rewrite Hx; simpl; lia|].
      eexists (_ :: new). split; [rewrite H4; unfold pushLead; simpl; rewrite <- app_assoc;
                                  reflexivity|].
      split; [simpl; lia|]. constructor; [|exact H6].
      repeat split; reflexivity.
    + specialize (IH d {| success := success c; failed := failed c + 1 |} Hn).
      cbv zeta in IH. destruct IH as (H1 & H2 & H3 & new & H4 & H5 & H6).
      split; [exact H1|]. cbn [success failed] in *.
      split; [simpl; lia|]. split; [simpl; rewrite Hx; simpl; lia|].
      exists new. split; [exact H4|]. split; [exact H5 | exact H6].
Qed.

(** X27.  The two creation routes keep the ids of the leads equal
    to their ranks, hence distinct.  [POST /api/leads/bulk] counts every
    row once, as failed when it has no address and as success otherwise;
    the leads stored before stay in front and one lead per successful row
    follows them.  A lead so created belongs to the user, is [new] and
    unclassified, and neither scheduler touches it: the cadence loop skips
    it as never contacted and the sequence sweep does not select it.
    [POST /api/leads] stores the lead that an import of its one row
    stores. *)
Theorem import_keeps_ids_distinct userId (rows : list LeadInput) (st : Store.t) :
  numbered (DB.leads (Store.disk st)) ->
  let out := importLeads userId (Some rows) st in
  let st' := fst (fst out) in
  let counts := snd out in
  snd (fst out) = Ok200
  /\ Store.data st' = Store.disk st'
  /\ numbered (DB.leads (Store.disk st'))
  /\ NoDup (Lead.id <$> DB.leads (Store.disk st'))
  /\ (success counts + failed counts = length rows)%nat
  /\ failed counts = length (List.filter (fun x => negb (truthy (input_email x))) rows)
  /\ (exists new,
        DB.leads (Store.disk st') = DB.leads (Store.disk st) ++ new
        /\ length new = success counts
        /\ forall l, l ∈ new ->
             Lead.user_id l = userId /\ Lead.status l = "new" /\ Lead.ai_intent l = None
             /\ isEnrolled l = false
             /\ forall env user st2, followUpLead env user l st2 = (st2, []))
  /\ (forall x, truthy (input_email x) = true ->
        createLead userId x st = (fst (fst (importLeads userId (Some [x]) st)), Ok200)).
Proof.
  intros Hn. cbv zeta. unfold importLeads. cbn [Store.read Store.data Store.disk].
  pose proof (import_loop userId rows (Store.disk st) {| success := 0; failed := 0 |} Hn)
    as Hloop.
  cbv zeta in Hloop.
  destruct (fold_left (importOne userId) rows (Store.disk st, _)) as [d c].
  cbn [fst snd success failed] in *.
  destruct Hloop as (H1 & H2 & H3 & new & H4 & H5 & H6).
  split; [reflexivity|]. split; [reflexivity|]. split; [exact H1|].
  split; [apply numbered_NoDup, H1|]. split; [lia|]. split; [lia|]. split.
  - exists new. split; [exact H4|]. split; [lia|].
    intros l Hl. rewrite Forall_forall in H6.
    destruct (H6 l Hl) as (Hu & Hs & Hi & Hc & He).
    repeat (split; [assumption|]).
    intros env user st2. apply followUpLead_skipped.
    unfold skipsLead. rewrite Hc. reflexivity.
  - intros x Hx. unfold createLead, importOne. simpl. rewrite Hx. reflexivity.
Qed.

Lemma import_keeps_ids_distinct_witness :
  let out := importLeads 1 (Some [MoreSample.carolRow; MoreSample.blankRow])
               MoreSample.bobStore in
  numbered (DB.leads (Store.disk MoreSample.bobStore))
  /\ Lead.id <$> DB.leads (Store.disk (fst (fst out))) = [1%Z; 2%Z]
  /\ NoDup (Lead.id <$> DB.leads (Store.disk (fst (fst out))))
  /\ snd out = {| success := 1; failed := 1 |}.
Proof.
  assert (Hn : numbered (DB.leads (Store.disk MoreSample.bobStore))).
  { intros [|i] l H; simpl in H; [injection H as <-; reflexivity | discriminate H]. }
  split; [exact Hn|]. split; [reflexivity|]. split; [|reflexivity].
  exact (proj1 (proj2 (proj2 (proj2
           (import_keeps_ids_distinct 1 [MoreSample.carolRow; MoreSample.blankRow]
              MoreSample.bobStore Hn))))).
Defined.

End ImportFacts.

(** ** The inbox routes *)

Section InboxFacts.

Import Js Text.

Lemma insertThread_elem t l x : x ∈ insertThread t l <-> x = t \/ x ∈ l.
Proof.
  induction l as [|y l IH]; simpl.
  - rewrite list_elem_of_singleton, elem_of_nil. tauto.
  - destruct (Thread.received_at t <? Thread.received_at y)%Z.
    + rewrite !elem_of_cons, IH. tauto.
    + rewrite !elem_of_cons. tauto.
Qed.

Lemma newestFirst_elem l x : x ∈ newestFirst l <-> x ∈ l.
Proof.
  induction l as [|y l IH]; simpl; [tauto|].
  rewrite insertThread_elem, elem_of_cons, IH. tauto.
Qed.

Lemma insertThread_length t l : length (insertThread t l) = S (length l).
Proof.
  induction l as [|y l IH]; simpl; [reflexivity|].
  destruct (_ <? _)%Z; simpl; [rewrite IH|]; reflexivity.
Qed.

Lemma newestFirst_length l : length (newestFirst l) = length l.
Proof.
  induction l as [|y l IH]; simpl; [reflexivity|].
  rewrite insertThread_length, IH. reflexivity.
Qed.

(** An assignment to the first element that satisfies [p] is an
    assignment to every such element when there is at most one. *)
Lemma alter_first_unique {A} (p : A -> bool) (f : A -> A) (xs : list A) :
  (forall i j x y, xs !! i = Some x -> xs !! j = Some y ->
                   p x = true -> p y = true -> i = j) ->
  match findIndex p xs with Some k => alter f k xs | None => xs end
  = (fun t => if p t then f t else t) <$> xs.
Proof.
  induction xs as [|x xs IH]; intros Huniq; [reflexivity|]. simpl.
  destruct (p x) eqn:Hx.
  - simpl. f_equal. symmetry. etransitivity; [|apply list_fmap_id].
    apply list_fmap_ext. intros j y Hy.
    destruct (p y) eqn:Hpy; [|reflexivity].
    specialize (Huniq 0%nat (S j) x y eq_refl Hy Hx Hpy). discriminate.
  - assert (IH' := IH (fun i j a b Ha Hb Hpa Hpb =>
                         eq_add_S _ _ (Huniq (S i) (S j) a b Ha Hb Hpa Hpb))).
    destruct (findIndex p xs) as [k|]; simpl.
    + f_equal. exact IH'.
    + f_equal. exact IH'.
Qed.

Lemma filter_fmap_fixed {A} (p : A -> bool) (g : A -> A) (xs : list A) :
  (forall x, p (g x) = p x) -> (forall x, p x = true -> g x = x) ->
  List.filter p (g <$> xs) = List.filter p xs.
Proof.
  intros Hp Hg. induction xs as [|x xs IH]; [reflexivity|].
  simpl. rewrite Hp. destruct (p x) eqn:Hx; [rewrite (Hg x Hx); f_equal|]; exact IH.
Qed.

Variable userId : Z.



Lemma owned_unique tid (ts : list Thread.t) :
  NoDup (Thread.id <$> ts) ->
  forall i j x y, ts !! i = Some x -> ts !! j = Some y ->
                  ownedThread userId tid x = true -> ownedThread userId tid y = true -> i = j.
Proof.
  intros Hnd i j x y Hi Hj Hx Hy.
  apply andb_true_iff in Hx as [Hx _]. apply andb_true_iff in Hy as [Hy _].
  apply bool_decide_eq_true_1 in Hx. apply bool_decide_eq_true_1 in Hy.
  apply (lookup_by_key Thread.id ts i j x y Hnd Hi Hj). congruence.
Qed.

(** The loop of [mark-notified] on threads with distinct ids. *)
Lemma mark_loop (ids : list nat) (d : DB.t) (n : nat) :
  NoDup (Thread.id <$> DB.email_threads d) ->
  let r := fold_left (markOne userId) ids (d, n) in
  DB.email_threads (fst r) = markAll userId ids <$> DB.email_threads d
  /\ ((forall tid, tid ∈ ids ->
         exists t, t ∈ DB.email_threads d /\ ownedThread userId tid t = true) ->
      snd r = (n + length ids)%nat).
Proof.
  revert d n. induction ids as [|tid ids IH]; intros d n Hnd; cbv zeta.
  - simpl. split; [|intros _; lia].
    symmetry. etransitivity; [|apply list_fmap_id].
    apply list_fmap_ext. intros j y _. unfold markAll.
    rewrite bool_decide_eq_false_2 by apply not_elem_of_nil. reflexivity.
  - cbn [fold_left].
    pose proof (alter_first_unique (ownedThread userId tid) (Threads.set_notified true)
                  (DB.email_threads d) (owned_unique tid _ Hnd)) as Hstep.
    assert (Hone : exists d1 n1,
               markOne userId (d, n) tid = (d1, n1)
               /\ DB.email_threads d1
                  = (fun t => if ownedThread userId tid t then Threads.set_notified true t else t)
                      <$> DB.email_threads d
               /\ ((exists t, t ∈ DB.email_threads d /\ ownedThread userId tid t = true) ->
                   n1 = (n + 1)%nat)).
    { unfold markOne. fold (ownedThread userId tid).
      destruct (findIndex (ownedThread userId tid) (DB.email_threads d)) as [k|] eqn:Hk.
      - eexists _, _. split; [reflexivity|]. split; [exact Hstep|]. reflexivity.
      - eexists _, _. split; [reflexivity|]. split; [exact Hstep|].
        intros (t & Hin & Ht).
        rewrite (proj1 (findIndex_none _ _) Hk t Hin) in Ht. discriminate. }
    destruct Hone as (d1 & n1 & -> & Hd1 & Hn1).
    assert (Hnd1 : NoDup (Thread.id <$> DB.email_threads d1)).
    { rewrite Hd1, <- list_fmap_compose.
      erewrite list_fmap_ext; [exact Hnd|].
      intros j y _. simpl. destruct (ownedThread userId tid y); reflexivity. }
    destruct (IH d1 n1 Hnd1) as [Hthreads Hcount].
    split.
    + rewrite Hthreads, Hd1, <- list_fmap_compose.
      apply list_fmap_ext. intros j y _. simpl. unfold markAll, ownedThread.
      destruct (bool_decide (Thread.user_id y = userId)) eqn:Hu;
        rewrite ?andb_false_r, ?andb_true_r; simpl; rewrite ?Hu, ?andb_false_r;
        [|reflexivity].
      destruct (bool_decide (Thread.id y = tid)) eqn:Hid; simpl; rewrite ?Hu, ?andb_true_r.
      * apply bool_decide_eq_true_1 in Hid.
        rewrite (bool_decide_eq_true_2 (Thread.id y ∈ tid :: ids))
          by (rewrite Hid; apply list_elem_of_here).
        destruct (bool_decide (Thread.id y ∈ ids)); reflexivity.
      * apply bool_decide_eq_false_1 in Hid.
        destruct (bool_decide (Thread.id y ∈ ids)) eqn:Hin.
        -- apply bool_decide_eq_true_1 in Hin.
           rewrite bool_decide_eq_true_2 by (apply list_elem_of_further, Hin). reflexivity.
        -- apply bool_decide_eq_false_1 in Hin.
           rewrite bool_decide_eq_false_2; [reflexivity|].
           intros [E|E]%elem_of_cons; [apply Hid, E | apply Hin, E].
    + intros Hall. rewrite Hcount.
      * rewrite Hn1 by (apply Hall, list_elem_of_here). simpl. lia.
      * intros tid' Hin'. destruct (Hall tid' (list_elem_of_further _ _ _ Hin'))
          as (t & Ht & Hown).
        exists (if ownedThread userId tid t then Threads.set_notified true t else t).
        split.
        -- rewrite Hd1. apply list_elem_of_fmap. exists t. split; [reflexivity | exact Ht].
        -- destruct (ownedThread userId tid t); exact Hown.
Qed.

(** X28.  Acknowledging what [GET /api/emails/notifications] shows
    empties it.  When the ids of the stored threads are distinct and the
    ids of the threads shown to a user are posted to
    [POST /api/emails/mark-notified], the route answers 200 with one
    update per thread shown, the next notifications of that user are
    empty, and the notifications of every other user are as before. *)
Theorem acknowledged_notifications_disappear (st : Store.t) :
  NoDup (Thread.id <$> DB.email_threads (Store.disk st)) ->
  let shown := snd (notifications userId st) in
  let out := markNotified userId (Some (Thread.id <$> shown)) st in
  let st' := fst (fst out) in
  snd (fst out) = Ok200
  /\ snd out = length shown
  /\ snd (notifications userId st') = []
  /\ (forall other, other <> userId ->
        snd (notifications other st') = snd (notifications other st)).
Proof.
  intros Hnd. cbv zeta. unfold markNotified, notifications.
  cbn [Store.read Store.data Store.disk fst snd].
  set (ts := DB.email_threads (Store.disk st)) in *.
  set (shown := newestFirst (List.filter _ ts)).
  pose proof (mark_loop (Thread.id <$> shown) (Store.disk st) 0 Hnd) as Hloop.
  cbv zeta in Hloop.
  destruct (fold_left (markOne userId) (Thread.id <$> shown) (Store.disk st, 0%nat))
    as [d updated].
  cbn [fst snd Store.write Store.disk Store.data] in *. fold ts in Hloop.
  destruct Hloop as [Hthreads Hcount].
  assert (Hshown : forall t, t ∈ shown <->
                             t ∈ ts /\ Thread.user_id t = userId /\ Thread.notified t = false).
  { intros t. unfold shown. rewrite newestFirst_elem, list_elem_of_In, filter_In.
    rewrite <- list_elem_of_In. rewrite andb_true_iff, bool_decide_eq_true, negb_true_iff.
    tauto. }
  split; [reflexivity|]. split; [|split].
  - rewrite Hcount, length_fmap; [reflexivity|].
    intros tid Hin. apply list_elem_of_fmap in Hin as (t & -> & Ht).
    apply Hshown in Ht as (Hin & Hu & _). exists t. split; [exact Hin|].
    unfold ownedThread. rewrite !bool_decide_eq_true_2 by (reflexivity || exact Hu). reflexivity.
  - rewrite Hthreads.
    replace (List.filter _ (markAll userId (Thread.id <$> shown) <$> ts)) with (@nil Thread.t);
      [reflexivity|].
    symmetry. apply filter_none. intros t' Hin.
    apply list_elem_of_fmap in Hin as (t & -> & Ht). unfold markAll.
    destruct (bool_decide (Thread.user_id t = userId)) eqn:Hu;
      [|rewrite andb_false_r, Hu; reflexivity].
    rewrite andb_true_r.
    destruct (Thread.notified t) eqn:Hn.
    + destruct (bool_decide (Thread.id t ∈ Thread.id <$> shown)); simpl;
        rewrite ?Hn; simpl; apply andb_false_r.
    + rewrite (bool_decide_eq_true_2 (Thread.id t ∈ Thread.id <$> shown)).
      * simpl. apply andb_false_r.
      * apply list_elem_of_fmap. exists t. split; [reflexivity|].
        apply Hshown. apply bool_decide_eq_true_1 in Hu. auto.
  - intros other Hother. f_equal. rewrite Hthreads.
    assert (Hfix : forall t, Thread.user_id t <> userId ->
                             markAll userId (Thread.id <$> shown) t = t).
    { intros t Hu. unfold markAll.
      rewrite (bool_decide_eq_false_2 _ Hu), andb_false_r. reflexivity. }
    assert (Huser : forall t, Thread.user_id (markAll userId (Thread.id <$> shown) t)
                              = Thread.user_id t).
    { intros t. unfold markAll. destruct (_ && _); reflexivity. }
    apply filter_fmap_fixed.
    + intros t. rewrite Huser.
      destruct (decide (Thread.user_id t = userId)) as [Hu|Hu].
      * rewrite (bool_decide_eq_false_2 (Thread.user_id t = other)) by congruence.
        reflexivity.
      * rewrite (Hfix t Hu). reflexivity.
    + intros t Ht. apply andb_true_iff in Ht as [Ht _].
      apply bool_decide_eq_true_1 in Ht. apply Hfix. congruence.
Qed.

End InboxFacts.

Lemma acknowledged_notifications_disappear_witness :
  let shown := snd (notifications 1 MoreSample.inbox) in
  let out := markNotified 1 (Some (Thread.id <$> shown)) MoreSample.inbox in
  Thread.id <$> shown = [2%nat; 1%nat]
  /\ snd (fst out) = Ok200
  /\ snd out = 2%nat
  /\ snd (notifications 1 (fst (fst out))) = []
  /\ (forall other, other <> 1%Z ->
        snd (notifications other (fst (fst out))) = snd (notifications other MoreSample.inbox)).
Proof.
  split; [reflexivity|].
  apply (acknowledged_notifications_disappear 1 MoreSample.inbox).
  apply (bool_decide_unpack _). vm_compute. exact I.
Defined.

Section DuplicateFacts.

Import Js Text.

Variable userId : Z.


Lemma uniqueThreads_sublist seen ts : sublist (uniqueThreads userId seen ts) ts.
Proof.
  revert seen. induction ts as [|t ts IH]; intros seen; simpl; [constructor|].
  destruct (negb (bool_decide (Thread.user_id t = userId))); [apply sublist_skip, IH|].
  destruct (negb (bool_decide (threadKey t ∈ seen)));
    [apply sublist_skip, IH | apply sublist_cons, IH].
Qed.

Lemma uniqueThreads_idem seen ts :
  uniqueThreads userId seen (uniqueThreads userId seen ts) = uniqueThreads userId seen ts.
Proof.
  revert seen. induction ts as [|t ts IH]; intros seen; simpl; [reflexivity|].
  destruct (negb (bool_decide (Thread.user_id t = userId))) eqn:Hu.
  - simpl. rewrite Hu, IH. reflexivity.
  - destruct (negb (bool_decide (threadKey t ∈ seen))) eqn:Hk.
    + simpl. rewrite Hu, Hk, IH. reflexivity.
    + apply IH.
Qed.

Lemma uniqueThreads_others seen ts :
  List.filter (fun t => negb (ownThread userId t)) (uniqueThreads userId seen ts)
  = List.filter (fun t => negb (ownThread userId t)) ts.
Proof.
  revert seen. induction ts as [|t ts IH]; intros seen; simpl; [reflexivity|].
  unfold ownThread at 2. 
  destruct (negb (bool_decide (Thread.user_id t = userId))) eqn:Hu.
  - simpl. unfold ownThread at 1. rewrite Hu, IH. reflexivity.
  - destruct (negb (bool_decide (threadKey t ∈ seen))).
    + simpl. unfold ownThread at 1. rewrite Hu. apply IH.
    + apply IH.
Qed.

Lemma uniqueThreads_fresh seen ts t :
  t ∈ uniqueThreads userId seen ts -> ownThread userId t = true -> threadKey t ∉ seen.
Proof.
  revert seen. induction ts as [|x ts IH]; intros seen; simpl.
  - intros H. apply elem_of_nil in H. contradiction.
  - destruct (negb (bool_decide (Thread.user_id x = userId))) eqn:Hu.
    + intros [->|Hin]%elem_of_cons Hown; [|exact (IH seen Hin Hown)].
      unfold ownThread in Hown. rewrite Hown in Hu. discriminate.
    + destruct (negb (bool_decide (threadKey x ∈ seen))) eqn:Hk.
      * intros [->|Hin]%elem_of_cons Hown.
        -- apply negb_true_iff, bool_decide_eq_false_1 in Hk. exact Hk.
        -- intros Hseen. apply (IH _ Hin Hown). apply list_elem_of_further, Hseen.
      * apply IH.
Qed.

Lemma uniqueThreads_keys seen ts :
  NoDup (threadKey <$> List.filter (ownThread userId) (uniqueThreads userId seen ts)).
Proof.
  revert seen. induction ts as [|x ts IH]; intros seen; simpl; [constructor|].
  destruct (negb (bool_decide (Thread.user_id x = userId))) eqn:Hu.
  - simpl. unfold ownThread at 1. apply negb_true_iff in Hu. rewrite Hu. apply IH.
  - destruct (negb (bool_decide (threadKey x ∈ seen))) eqn:Hk; [|apply IH].
    simpl. unfold ownThread at 1. apply negb_false_iff in Hu. rewrite Hu.
    simpl. apply NoDup_cons. split; [|apply IH].
    intros Hin. apply list_elem_of_fmap in Hin as (t & Hkey & Ht).
    apply list_elem_of_In, filter_In in Ht as [Ht Hown].
    apply list_elem_of_In in Ht.
    apply (uniqueThreads_fresh _ _ _ Ht Hown).
    rewrite <- Hkey. apply list_elem_of_here.
Qed.

Lemma uniqueThreads_represents seen ts t :
  t ∈ ts -> ownThread userId t = true ->
  threadKey t ∈ seen
  \/ exists t', t' ∈ uniqueThreads userId seen ts /\ ownThread userId t' = true
                /\ threadKey t' = threadKey t.
Proof.
  revert seen. induction ts as [|x ts IH]; intros seen Hin Hown.
  - apply elem_of_nil in Hin. contradiction.
  - simpl. apply elem_of_cons in Hin as [->|Hin].
    + unfold ownThread in Hown. rewrite Hown. simpl.
      destruct (bool_decide (threadKey x ∈ seen)) eqn:Hk; simpl.
      * left. apply bool_decide_eq_true_1 in Hk. exact Hk.
      * right. exists x. split; [apply list_elem_of_here|]. split; [exact Hown | reflexivity].
    + destruct (negb (bool_decide (Thread.user_id x = userId))) eqn:Hu.
      * destruct (IH seen Hin Hown) as [H | (t' & Ht' & Ho & Hkey)]; [left; exact H|].
        right. exists t'. split; [apply list_elem_of_further, Ht' | auto].
      * destruct (negb (bool_decide (threadKey x ∈ seen))) eqn:Hk.
        -- destruct (IH (threadKey x :: seen) Hin Hown)
             as [H | (t' & Ht' & Ho & Hkey)].
           ++ apply elem_of_cons in H as [H|H]; [|left; exact H].
              right. exists x. split; [apply list_elem_of_here|].
              split; [|symmetry; exact H].
              unfold ownThread. apply negb_false_iff in Hu. exact Hu.
           ++ right. exists t'. split; [apply list_elem_of_further, Ht' | auto].
        -- apply IH; assumption.
Qed.

(** X29.  [POST /api/emails/cleanup-duplicates] keeps, in their
    order, all threads of the other users and, of the user's own threads,
    the first one under each key (lead, subject, first hundred characters
    of the body).  The count it reports is the number of threads dropped;
    afterwards no two threads of the user share a key, every thread
    dropped has a kept thread of the user with its key, and running the
    route again changes nothing and reports 0. *)
Theorem duplicate_cleanup_is_idempotent (st : Store.t) :
  let out := cleanupDuplicates userId st in
  let st' := fst (fst out) in
  let before := DB.email_threads (Store.disk st) in
  let kept := DB.email_threads (Store.disk st') in
  snd (fst out) = Ok200
  /\ sublist kept before
  /\ (snd out + length kept = length before)%nat
  /\ List.filter (fun t => negb (bool_decide (Thread.user_id t = userId))) kept
     = List.filter (fun t => negb (bool_decide (Thread.user_id t = userId))) before
  /\ NoDup (threadKey <$>
            List.filter (fun t => bool_decide (Thread.user_id t = userId)) kept)
  /\ (forall t, t ∈ before -> Thread.user_id t = userId ->
        exists t', t' ∈ kept /\ Thread.user_id t' = userId /\ threadKey t' = threadKey t)
  /\ cleanupDuplicates userId st' = (st', Ok200, 0%nat).
Proof.
  cbv zeta. unfold cleanupDuplicates.
  cbn [Store.read Store.write Store.update Store.data Store.disk fst snd
       DB.set_email_threads DB.email_threads].
  split; [reflexivity|].
  split; [apply uniqueThreads_sublist|].
  split.
  { pose proof (sublist_length _ _ (uniqueThreads_sublist [] (DB.email_threads (Store.disk st)))).
    lia. }
  split; [apply uniqueThreads_others|].
  split; [apply uniqueThreads_keys|].
  split.
  - intros t Hin Hu.
    destruct (uniqueThreads_represents [] _ t Hin) as [H | (t' & Ht' & Ho & Hkey)].
    + unfold ownThread. apply bool_decide_eq_true_2, Hu.
    + apply elem_of_nil in H. contradiction.
    + exists t'. split; [exact Ht'|]. split; [|exact Hkey].
      apply bool_decide_eq_true_1 in Ho. exact Ho.
  - rewrite uniqueThreads_idem, Nat.sub_diag. reflexivity.
Qed.

End DuplicateFacts.
